(* ===== verification/_CoqProject ===== *)
-Q . S2P
Prelude.v
Config.v
Task.v
Critical.v
Imxrt1062.v
Bus.v
Hal.v
Uart.v
Startup.v
Hooks.v
Bitmap.v
TcbList.v
Scheduler.v
SchedSpec.v
SchedRefine.v
SchedInv.v
SchedEffect.v
SchedFrame.v
SchedIface.v
Sync.v
Trace.v
Checker.v
Example.v
Semaphore.v
Mutex.v
Event.v
Queue.v
MutexTrace.v
QueueTrace.v
SemTrace.v
EventTrace.v
Timer.v
SchedProps.v
TimeSlice.v
SysTick.v
TimerSem.v
Kernel.v
Context.v
KernelProps.v
SystemSpec.v
System.v
Deadline.v
Inversion.v
Main.v
PowerOn.v
ContextProps.v
Syscall.v
