(* ===== verification/Prelude.v ===== *)
(** * HelixRT in Rocq

    HelixRT is a preemptive real-time kernel in C for the Teensy 4 (NXP
    IMXRT1062, one Cortex-M7 core).  This library is a shallow embedding of
    all its code, with the theorems that make it correct.

    ** The program and its model

    The code has four layers, and the files follow them.

    - Data and processor.  [Config.v]: [include/config.h] and the status codes
      of [kernel/kernel.h].  [Task.v]: [kernel/task.h], the TCB as a record in
      a store from addresses to TCBs.  [Critical.v]: [kernel/sync/critical.h]
      and [critical.c], the interrupt masks, the active exception and the
      pending bit of PendSV.
    - Board.  [Imxrt1062.v]: the register map of [hal/imxrt1062.h].  [Bus.v]:
      volatile accesses on a trace of bus events; the NVIC routines.
      [Hal.v]: [hal/clock.h] and [hal/gpio.h].  [Uart.v]: [hal/uart.h].
      [Startup.v]: [src/startup.c], boot header, vector table, reset handler.
    - Kernel.  [Bitmap.v], [TcbList.v], [Scheduler.v]: [kernel/scheduler.h]
      and [scheduler.c], function by function, on linked TCBs.  [Kernel.v]:
      [kernel/kernel.c], pools, task management, life cycle, system-call
      dispatcher.  [Hooks.v]: its weak hooks and idle task.  [Context.v]:
      [kernel/context.s], instruction by instruction, with exception entry and
      return, on core and floating-point registers and both stack pointers.
      [Semaphore.v], [Mutex.v], [Event.v], [Queue.v]: [kernel/sync/].
      [Timer.v]: [kernel/timer.c].  [SysTick.v]: the tick interrupt.
    - Application.  [Syscall.v]: [src/syscall.c] with the exception entry and
      return around it.  [Main.v]: [src/main.c] on the whole machine.
      [PowerOn.v]: the reset handler and [main] in one, joined by the addresses
      of the kernel's variables in the memory the reset handler prepares.

    A routine is a term of the state monad [M S A] of this file.  Its outcomes
    are [Ret] (it returns), [Spin] (it reached a [while (1)] of the code, in
    the state given), [Fault] (it accessed memory that is not what it takes it
    for) and [Diverge] (the fuel of a loop ran out).  [zoom] runs a routine of
    one component on its part of a larger state.  Machine integers are [Z]
    kept in range by the operations ([u8], [u32], [sub32]); a pointer is its
    address; a C structure is a record in a [gmap] from addresses.

    ** Specification and refinement

    [SchedSpec.v] is what the scheduler means: the queues are lists of tasks,
    there are no links, no bitmap, no head pointers.  [SchedRefine.v] proves
    that every routine of [Scheduler.v] refines its counterpart ([refines]):
    on memory that spells an abstract state ([abstracts]) it runs to completion
    and ends in memory that spells the abstract result.  [SchedInv.v] defines
    consistency [wf] (a task's state says which queue it is on),
    [SchedEffect.v] gives the effect of each operation on a consistent state
    as a function and proves that it preserves [wf], [SchedFrame.v] says what
    the effects leave alone.  [SchedIface.v] is the interface: a class
    [SchedulerOps] of routines and a class [SchedulerSpec] of what they
    promise.  The synchronisation objects are written and verified against the
    classes; the instance at the end of the file discharges the promises.

    ** Blocking and concurrency

    A task gives the processor away at switch points (PendSV taken on the way
    out of a critical section) and may be interrupted or preempted wherever
    interrupts are enabled; a routine's critical sections are atomic.  What all
    other tasks and interrupt handlers do is a parameter of [Sync.v], the
    record [others]: [away], from a switch point until the caller runs again,
    and [between], between two critical sections of one routine.  The class
    [Environment self E env] states what a caller may rely on: the others give
    the processor back once the caller can run, keep the scheduler consistent,
    and change the objects only as the preorder [E] allows.  The theorems on
    blocking calls hold for every such environment: a call that succeeds took
    effect in one critical section, in a state the environment led to.  They
    say [safe] (no wild access, and the result is right if there is one) and
    that the call returns if the environment is [fruitful]: every wake-up finds
    what is waited for, or uses up one of a bounded number of wake-ups in vain.

    [Trace.v] closes the circle for an object all of whose users are known:
    labelled steps ([Took], [Locked], [Sent] and so on), one for each critical
    section of a call, by any task or handler and in any order, with anything
    that leaves the object alone in between.  [MutexTrace.v], [QueueTrace.v],
    [SemTrace.v] and [EventTrace.v] prove what holds of every such history, and
    that a blocking call, the others taking steps of their own, adds to it
    exactly the step its result reports.

    [System.v] composes the kernel without a parameter for the others: its
    states are the scheduler and kernel variables, its steps ([step]) single
    allowed kernel calls, ticks and context switches in any order.  What is
    allowed ([allowed]) is what the code needs of its callers: a TCB argument is a
    task, an object handed to a creation is not in use, the idle task does not
    leave, and nobody suspends or deletes a blocked task; the header files do not
    say the last, but such a call breaks the blocked list
    ([suspend_blocked_loses_sleepers]).  [SystemSpec.v] is
    the abstract system: the same calls ([call]) as functions on lists of tasks
    ([eff_call], [acall]).  [Deadline.v] labels the steps ([kstep]) and
    reasons about histories of them on the abstract side.  A step is a whole
    call; interrupts in the middle of a call are not interleaved there, except
    between the two critical sections of a self-suspension or self-deletion,
    whose first one is the step [Retire].  In three calls what happens in the
    middle matters, and theorems show the harm: [scheduler_set_priority]
    ([set_priority_not_atomic]), [task_resume], which tests before its critical
    section ([resume_not_atomic]), and [task_create], which searches the pools
    outside of one ([create_not_atomic]).  [event_clear] and [queue_reset] have
    no critical section at all ([event_clear_loses_set],
    [event_clear_revives], [queue_reset_torn]), and neither has [sem_give_isr]
    around its test and increment ([sem_give_isr_loses_token],
    [sem_give_isr_exceeds_maximum]): what is proved of it supposes that no more
    urgent handler touches the semaphore meanwhile.

    ** What the theorems show

    - The kernel as a whole ([System.v]): the invariant of every state allowed
      calls can reach, progress of every allowed call, the next switch finds a most
      urgent runnable task; [kernel_init] establishes the invariant,
      [kernel_start] starts a most urgent task.
    - Time in the kernel as a whole ([Deadline.v]): every history of the kernel
      is one of the abstract system; in any of them a blocked task sleeps until
      its deadline or until it is woken on purpose, and no longer; the tick of
      the deadline of the most urgent task leads to a switch to it.
    - Scheduling ([SchedProps.v], [Bitmap.v]): what selection, tick, delay,
      blocking, waking, time slices, yields and the preemption lock do;
      over any number of ticks, equally urgent tasks take turns, each for its
      slice ([TimeSlice.v]).
    - Synchronisation objects: mutual exclusion, ownership and priority
      inheritance ([Mutex.v]), and that every context switch runs a task as
      urgent as the one that waits, through any history of calls that lets the
      owner alone ([Inversion.v]); no token made or lost
      ([Semaphore.v]); messages in order and byte for byte, nothing written
      outside the ring ([Queue.v]); waiting for flags ([Event.v]); the
      histories of a mutex, a queue, a semaphore and an event group
      ([MutexTrace.v], [QueueTrace.v], [SemTrace.v], [EventTrace.v]).
    - Timers ([Timer.v], [SysTick.v]): the list stays well formed, a timer makes
      its callback on its tick.  With a semaphore ([TimerSem.v]): a periodic
      timer that gives one wakes the task waiting for it on time (without
      leaving it a token), or counts its periods.
    - Tasks ([KernelProps.v], [ContextProps.v], [Syscall.v]): creation and its
      errors, the initial stack starts the task's function, a switched-out
      task finds its registers again (all but s16-s31, which nobody saves), a
      blocking system call.
    - Board and start ([Startup.v], [Hal.v], [Uart.v], [Main.v], [PowerOn.v]): the reset handler prepares memory and processor
      and enters [main], which finds the kernel's variables zero and starts the
      blink task under a 1 kHz tick; the drivers write the registers the
      configuration asks for; bytes are sent in order.

    A property with hypotheses has a theorem [.._witness] that applies it to a
    concrete state, mostly one of [Example.v], which [Checker.v] shows to be
    consistent by evaluation.  Behaviours of the code that differ from its
    intent or its comments are theorems too: [sem_give_wakeup_lost],
    [sem_take_sleeps_beside_token],
    [mutex_recursion_depth], [suspend_blocked_loses_sleepers],
    [scheduler_delay_wraps], [set_priority_not_atomic], [delete_keeps_slots],
    [resume_not_atomic], [create_not_atomic], [unlock_drops_inheritance],
    [inheritance_not_transitive], [inherit_stale_owner], [inherit_rereads_null_owner],
    [unlock_forgets_set_priority],
    [svc_delete_self_hangs], [task_delay_ms_bounds],
    [event_clear_loses_set], [event_clear_revives], [queue_reset_torn],
    [timer_stop_next_in_callback], [PendSV_needs_r3], [PendSV_mixes_fp],
    [sem_give_isr_loses_token], [sem_give_isr_exceeds_maximum], [uart_init_truncates],
    [uart_seven_bits], [lock_does_not_stop_switches].

    ** Fuel

    A walk along a TCB chain has one unit more than there are TCBs
    ([list_fuel]), a walk along the timer list one more than there are timers
    ([timer_fuel]); the refinement and the timer theorems show that this is
    enough for every well-formed list.  The
    copy loops of the reset handler and the polling loops of the drivers take
    their fuel as an argument, and the theorems say how much is enough (the
    length of the section; the number of reads after which the device
    answers).  The blocking calls take the number of rounds; two more than the
    bound on the wake-ups in vain are enough.

    ** Parameters

    The answers of the peripherals ([device]), the addresses the linker
    assigns, the contents of read-only strings, timer callbacks and the tick
    hook (application code), what a C function leaves in the caller-saved
    registers ([clobber]), what the other tasks do ([switch], [others]), the name
    pointer an uninitialised TCB holds, and what reset leaves in the registers.

    ** Not modelled

    - Exceptions taken in handler mode, and the words C functions push on the
      main stack (those the handlers push are kept apart from the memory of the
      tasks); the padding the processor inserts when a stack pointer is no
      multiple of 8.
    - [Makefile], [linker.ld]: the section addresses are parameters.
    - [fpu_stack_frame_t] and the macros of [task.h] that only declare objects.
    - Interrupts more urgent than SysTick during [timer_tick_isr].
    - Memory outside the objects the code names: a stack is its initial frame
      and what the context switch stores; that a task overruns its stack is not
      detected by the code and not expressible here.
    - [KERNEL_ASSERT], which no code uses. *)

(** ** Prelude

    The monad, machine integers and the lemmas and tactics the components
    share. *)
From stdpp Require Export prelude gmap list.
From Stdlib Require Export ZArith Lia.

#[global] Open Scope Z_scope.
#[global] Arguments Z.testbit : simpl never.
#[global] Arguments Z.pow : simpl never.

(** ** Pointers

    A pointer of the target is a 32-bit address; [NULL] is address 0.  TCBs,
    kernel objects and functions are all named by their address, so the
    pointer casts of the C code are the identity. *)

Abbreviation ptr := Z (only parsing).
Definition NULL : ptr := 0.

(** ** Machine integers *)

Definition UINT32_MAX : Z := 4294967295.
Definition INT32_MAX : Z := 2147483647.

(** Truncation to an unsigned integer of 8 or 32 bits. *)
Definition u8 (z : Z) : Z := z mod 2 ^ 8.
Definition u32 (z : Z) : Z := z mod 2 ^ 32.

(** Bitwise complement of a 32-bit word. *)
Definition not32 (z : Z) : Z := u32 (Z.lnot z).

(** [1UL << n] on the 32-bit target. *)
Definition bit (n : Z) : Z := u32 (Z.shiftl 1 n).

(** ** The state monad of the model

    A kernel routine takes the global state and either returns ([Ret]), spins
    for ever in the last state ([Spin], the code's [while (1) wfi]),
    dereferences an address that holds no object or indexes out of an array
    ([Fault]), or runs out of a loop's fuel ([Diverge]): it walks a list for
    longer than the list can be, or waits more often than allowed for. *)

Inductive outcome (S A : Type) : Type :=
| Ret (a : A) (s : S)
| Spin (s : S)
| Fault
| Diverge.
Arguments Ret {S A} a s.
Arguments Spin {S A} s.
Arguments Fault {S A}.
Arguments Diverge {S A}.

Definition M (S A : Type) : Type := S → outcome S A.

#[export] Instance M_ret S : MRet (M S) := λ A a s, Ret a s.
#[export] Instance M_bind S : MBind (M S) := λ A B k m s,
  match m s with
  | Ret a s' => k a s'
  | Spin s' => Spin s'
  | Fault => Fault
  | Diverge => Diverge
  end.

Definition gets {S A} (f : S → A) : M S A := λ s, Ret (f s) s.
Definition modify {S} (f : S → S) : M S unit := λ s, Ret () (f s).
Definition spin {S A} : M S A := λ s, Spin s.
Definition fault {S A} : M S A := λ _, Fault.

(** [while] with an explicit loop variable: the body either continues with a
    new value of the variable or leaves the loop with a result. *)
Fixpoint loop {S X B} (fuel : nat) (body : X → M S (X + B)) (x : X) : M S B :=
  match fuel with
  | O => λ _, Diverge
  | S n => r ← body x;
           match r with
           | inl x' => loop n body x'
           | inr b => mret b
           end
  end.

Definition when {S} (b : bool) (m : M S ()) : M S () := if b then m else mret ().

(** ** Field update *)

Class Setter {R T : Type} (proj : R → T) := set_field : T → R → R.
Arguments set_field {R T} proj {_} _ _.

Declare Scope record_scope.
Delimit Scope record_scope with record.
#[global] Open Scope record_scope.
Notation "r <| f := v |>" := (set_field f v r)
  (at level 40, f at level 60, left associativity) : record_scope.

(** [derive_setter eta proj] builds the update of the field [proj] of a
    record, [eta] being the record's eta expansion. *)
Ltac derive_setter eta proj :=
  let v := fresh "v" in
  let r := fresh "r" in
  intros v r;
  let e := eval cbv beta delta [eta] in (eta r) in
  match (eval pattern (proj r) in e) with
  | ?g _ => let t := eval cbv beta in (g v) in exact t
  end.

(** ** Focusing on a component of a larger state *)

Class Lens (S W : Type) := {
  view : W → S;
  over : S → W → W;
  view_over s w : view (over s w) = s;
  over_view w : over (view w) w = w;
  over_over s s' w : over s (over s' w) = over s w;
}.

Definition zoom {S W A} `{!Lens S W} (m : M S A) : M W A := λ w,
  match m (view w) with
  | Ret a s => Ret a (over s w)
  | Spin s => Spin (over s w)
  | Fault => Fault
  | Diverge => Diverge
  end.

(** ** Equations of the monad *)

Section monad.
Context {S : Type}.

Lemma bind_ret {A B} (m : M S A) (k : A → M S B) s a s' :
  m s = Ret a s' → (m ≫= k) s = k a s'.
Proof. intros H. unfold mbind, M_bind. by rewrite H. Qed.

Lemma bind_spin {A B} (m : M S A) (k : A → M S B) s s' :
  m s = Spin s' → (m ≫= k) s = Spin s'.
Proof. intros H. unfold mbind, M_bind. by rewrite H. Qed.

Lemma bind_ret_inv {A B} (m : M S A) (k : A → M S B) s b s'' :
  (m ≫= k) s = Ret b s'' → ∃ a s', m s = Ret a s' ∧ k a s' = Ret b s''.
Proof. unfold mbind, M_bind. destruct (m s); naive_solver. Qed.

Lemma bind_assoc {A B C} (m : M S A) (k : A → M S B) (h : B → M S C) s :
  ((m ≫= k) ≫= h) s = (m ≫= λ a, k a ≫= h) s.
Proof. unfold mbind, M_bind. by destruct (m s). Qed.

Lemma bind_ext {A B} (m : M S A) (k k' : A → M S B) s :
  (∀ a s', m s = Ret a s' → k a s' = k' a s') → (m ≫= k) s = (m ≫= k') s.
Proof. intros H. unfold mbind, M_bind. destruct (m s) eqn:?; auto. Qed.

Lemma loop_next {X B} n (body : X → M S (X + B)) x s x' s' :
  body x s = Ret (inl x') s' → loop (Datatypes.S n) body x s = loop n body x' s'.
Proof. intros H. simpl. by rewrite (bind_ret _ _ _ _ _ H). Qed.

Lemma loop_done {X B} n (body : X → M S (X + B)) x s b s' :
  body x s = Ret (inr b) s' → loop (Datatypes.S n) body x s = Ret b s'.
Proof. intros H. simpl. by rewrite (bind_ret _ _ _ _ _ H). Qed.
End monad.

(** [run H] executes the first routine of a sequence, whose result is [H]. *)
Ltac run H := rewrite (bind_ret _ _ _ _ _ H); cbv beta.
(** [step] executes a leading [gets], [modify] or [mret]. *)
Ltac step := erewrite bind_ret by reflexivity; cbv beta.

Section zoom_lemmas.
Context {S W : Type} {L : Lens S W}.

Lemma zoom_ret {A} (m : M S A) w a s :
  m (view w) = Ret a s → zoom m w = Ret a (over s w).
Proof. unfold zoom. by intros ->. Qed.

Lemma zoom_ret_same {A} (m : M S A) w a :
  m (view w) = Ret a (view w) → zoom m w = Ret a w.
Proof. intros H. by rewrite (zoom_ret _ _ _ _ H), over_view. Qed.

Lemma zoom_bind {A B} (m : M S A) (k : A → M S B) w :
  zoom (m ≫= k) w = (zoom m ≫= λ a, zoom (k a)) w.
Proof.
  unfold zoom, mbind, M_bind. destruct (m (view w)); try done.
  rewrite view_over. destruct (k a s); by rewrite ?over_over.
Qed.
End zoom_lemmas.

(** ** Total correctness

    [wp m Q s]: from [s], [m] returns, and result and final state satisfy
    [Q]. *)

Section wp.
Context {S : Type}.

Definition wp {A} (m : M S A) (Q : A → S → Prop) (s : S) : Prop :=
  match m s with Ret x s' => Q x s' | _ => False end.

Lemma wp_ret {A} (x : A) Q s : Q x s → wp (mret x) Q s.
Proof. done. Qed.

Lemma wp_gets {A} (f : S → A) (Q : A → S → Prop) s : Q (f s) s → wp (gets f) Q s.
Proof. done. Qed.

Lemma wp_modify f (Q : () → S → Prop) s : Q () (f s) → wp (modify f) Q s.
Proof. done. Qed.

Lemma wp_bind {A B} (m : M S A) (k : A → M S B) Q s :
  wp m (λ x, wp (k x) Q) s → wp (m ≫= k) Q s.
Proof. unfold wp, mbind, M_bind. by destruct (m s). Qed.

Lemma wp_mono {A} (m : M S A) (P Q : A → S → Prop) s :
  wp m P s → (∀ x s', P x s' → Q x s') → wp m Q s.
Proof. unfold wp. destruct (m s); auto. Qed.

Lemma wp_when (b : bool) m (Q : () → S → Prop) s :
  (b = true → wp m Q s) → (b = false → Q () s) → wp (when b m) Q s.
Proof. destruct b; simpl; [auto|]. intros _ H. by apply H. Qed.

Lemma wp_inv {A} (m : M S A) Q s : wp m Q s → ∃ x s', m s = Ret x s' ∧ Q x s'.
Proof. unfold wp. destruct (m s); naive_solver. Qed.

Lemma wp_intro {A} (m : M S A) (Q : A → S → Prop) s x s' :
  m s = Ret x s' → Q x s' → wp m Q s.
Proof. unfold wp. by intros ->. Qed.

Lemma wp_and {A} (m : M S A) (P Q : A → S → Prop) s :
  wp m P s → wp m Q s → wp m (λ x s', P x s' ∧ Q x s') s.
Proof. unfold wp. destruct (m s); auto. Qed.
End wp.

(** [safe m Q s]: like [wp], except that the fuel of a loop may run out. *)
Section safe.
Context {S : Type}.

Definition safe {A} (m : M S A) (Q : A → S → Prop) (s : S) : Prop :=
  match m s with Ret x s' => Q x s' | Diverge => True | _ => False end.

Lemma safe_bind {A B} (m : M S A) (k : A → M S B) Q s :
  safe m (λ x, safe (k x) Q) s → safe (m ≫= k) Q s.
Proof. unfold safe, mbind, M_bind. by destruct (m s). Qed.

Lemma safe_mono {A} (m : M S A) (P Q : A → S → Prop) s :
  safe m P s → (∀ x s', P x s' → Q x s') → safe m Q s.
Proof. unfold safe. destruct (m s); auto. Qed.

(** A loop establishes what its exits establish, for an invariant its
    iterations keep. *)
Lemma safe_loop {X B} (I : X → S → Prop) (Q : B → S → Prop) (body : X → M S (X + B)) fuel x s :
  (∀ x s, I x s → safe (body x) (λ r s', match r with inl x' => I x' s' | inr b => Q b s' end) s) →
  I x s → safe (loop fuel body x) Q s.
Proof.
  intros Hb. revert x s. induction fuel as [|n IH]; intros x s HI; [done|].
  simpl. apply safe_bind. eapply safe_mono; [by apply Hb|].
  intros [x'|b] s' H; [by apply IH|done].
Qed.

(** More fuel does not change a result. *)
Lemma loop_more {X B} (body : X → M S (X + B)) n m x s b s' :
  loop n body x s = Ret b s' → (n ≤ m)%nat → loop m body x s = Ret b s'.
Proof.
  revert m x s. induction n as [|n IH]; intros m x s; [done|].
  destruct m as [|m]; [lia|]. simpl. intros ([x'|b'] & s1 & E & E')%bind_ret_inv Hm;
    rewrite (bind_ret _ _ _ _ _ E); [|done]. apply IH; [done|lia].
Qed.
End safe.

(** A routine on a component changes that component. *)
Lemma wp_zoom {S W A} `{!Lens S W} (m : M S A) (Q : A → W → Prop) w :
  wp m (λ x s, Q x (over s w)) (view w) → wp (zoom m) Q w.
Proof. unfold wp, zoom. by destruct (m (view w)). Qed.

(** ** What a routine leaves alone

    [keeps f m]: whenever [m] returns, [f] has the value it had. *)

Section keeps.
Context {S T : Type} (f : S → T).

Definition keeps {A} (m : M S A) : Prop := ∀ s x s', m s = Ret x s' → f s' = f s.

Lemma keeps_ret {A} (x : A) : keeps (mret x).
Proof. by intros s y s' [= _ ->]. Qed.

Lemma keeps_gets {A} (g : S → A) : keeps (gets g).
Proof. by intros s y s' [= _ ->]. Qed.

Lemma keeps_spin {A} : keeps (A:=A) spin.
Proof. by intros s y s'. Qed.

Lemma keeps_modify g : (∀ s, f (g s) = f s) → keeps (modify g).
Proof. intros Hg s y s' [= _ <-]. apply Hg. Qed.

Lemma keeps_bind {A B} (m : M S A) (k : A → M S B) :
  keeps m → (∀ x, keeps (k x)) → keeps (m ≫= k).
Proof.
  intros Hm Hk s y s' (x & s1 & H1 & H2)%bind_ret_inv.
  by rewrite (Hk _ _ _ _ H2), (Hm _ _ _ H1).
Qed.

Lemma keeps_when b m : keeps m → keeps (when b m).
Proof. destruct b; eauto using keeps_ret. Qed.

Lemma keeps_loop {X B} fuel (body : X → M S (X + B)) x :
  (∀ x, keeps (body x)) → keeps (loop fuel body x).
Proof.
  intros Hb. revert x. induction fuel as [|n IH]; intros x; [by intros s y s'|].
  simpl. apply keeps_bind; [done|]. intros [x'|b]; eauto using keeps_ret.
Qed.
End keeps.

Create HintDb keeps discriminated.
#[export] Hint Constants Opaque : keeps.
#[export] Hint Resolve keeps_ret keeps_gets keeps_spin : keeps.

Ltac keeps_step :=
  match goal with
  | |- ∀ _, _ => intro
  | |- keeps _ _ => solve [eauto with keeps]
  | |- keeps _ (_ ≫= _) => apply keeps_bind
  | |- keeps _ (when _ _) => apply keeps_when
  | |- keeps _ (loop _ _ _) => apply keeps_loop
  | |- keeps _ (modify _) => apply keeps_modify; intros; reflexivity
  | |- keeps _ (match ?x with _ => _ end) => destruct x
  end.
Ltac keeps_auto := repeat keeps_step.

(** ** Refinement of a routine by a specification

    [refines R m am] says that [m] implements [am]: from related states, when
    the specification is defined the implementation has the same outcome and
    ends in a related state.  A specification that faults promises nothing. *)

Section refinement.
Context {S A : Type} (R : S → A → Prop).

Definition refines {X} (m : M S X) (am : M A X) : Prop := ∀ s a, R s a →
  match am a with
  | Ret x a' => ∃ s', m s = Ret x s' ∧ R s' a'
  | Spin a' => ∃ s', m s = Spin s' ∧ R s' a'
  | Fault | Diverge => True
  end.

Lemma refines_ret {X} (x : X) : refines (mret x) (mret x).
Proof. intros s a HR. simpl. eauto. Qed.

Lemma refines_spin {X} : refines (X:=X) spin spin.
Proof. intros s a HR. simpl. eauto. Qed.

Lemma refines_fault {X} (m : M S X) : refines m fault.
Proof. by intros s a HR. Qed.

Lemma refines_gets {X} (f : S → X) (g : A → X) :
  (∀ s a, R s a → f s = g a) → refines (gets f) (gets g).
Proof. intros Hfg s a HR. simpl. rewrite <- (Hfg _ _ HR). unfold gets. eauto. Qed.

Lemma refines_modify (f : S → S) (g : A → A) :
  (∀ s a, R s a → R (f s) (g a)) → refines (modify f) (modify g).
Proof. intros Hfg s a HR. simpl. unfold modify. eauto. Qed.

Lemma refines_bind {X Y} (m : M S X) (am : M A X) (k : X → M S Y) (ak : X → M A Y) :
  refines m am → (∀ x, refines (k x) (ak x)) → refines (m ≫= k) (am ≫= ak).
Proof.
  intros Hm Hk s a HR. specialize (Hm s a HR).
  unfold mbind, M_bind. destruct (am a) as [x a'|a'| |]; try done.
  - destruct Hm as (s' & -> & HR'). apply (Hk x s' a' HR').
  - destruct Hm as (s' & -> & HR'). eauto.
Qed.

Lemma refines_if {X} (b : bool) (m m' : M S X) (am am' : M A X) :
  refines m am → refines m' am' → refines (if b then m else m') (if b then am else am').
Proof. by destruct b. Qed.

Lemma refines_when (b : bool) (m : M S ()) (am : M A ()) :
  refines m am → refines (when b m) (when b am).
Proof. destruct b; eauto using refines_ret. Qed.

Lemma refines_apply {X} (m : M S X) (am : M A X) s a x a' :
  refines m am → R s a → am a = Ret x a' → ∃ s', m s = Ret x s' ∧ R s' a'.
Proof. intros Hm HR Ha. specialize (Hm s a HR). by rewrite Ha in Hm. Qed.

(** Total correctness of the specification carries over. *)
Lemma refines_wp {X} (m : M S X) (am : M A X) (Q : X → A → Prop) s a :
  refines m am → R s a → wp am Q a → wp m (λ x s', ∃ a', R s' a' ∧ Q x a') s.
Proof.
  intros Hm HR (x & a' & Ha & HQ)%wp_inv. specialize (Hm s a HR). rewrite Ha in Hm.
  destruct Hm as (s' & Hs & HR'). eapply wp_intro; eauto.
Qed.
End refinement.

(** The same with results translated by [g]. *)
Section refinement_via.
Context {S A X Y : Type} (R : S → A → Prop) (g : X → Y).

Definition refines_via (m : M S Y) (am : M A X) : Prop := ∀ s a, R s a →
  match am a with
  | Ret x a' => ∃ s', m s = Ret (g x) s' ∧ R s' a'
  | Spin a' => ∃ s', m s = Spin s' ∧ R s' a'
  | Fault | Diverge => True
  end.

Lemma refines_via_ret x y : y = g x → refines_via (mret y) (mret x).
Proof. intros -> s a HR. simpl. eauto. Qed.

Lemma refines_via_bind {Z} (m : M S Z) (am : M A Z) (k : Z → M S Y) (ak : Z → M A X) :
  refines R m am → (∀ z, refines_via (k z) (ak z)) → refines_via (m ≫= k) (am ≫= ak).
Proof.
  intros Hm Hk s a HR. specialize (Hm s a HR).
  unfold mbind, M_bind. destruct (am a) as [x a'|a'| |]; try done.
  - destruct Hm as (s' & -> & HR'). apply (Hk x s' a' HR').
  - destruct Hm as (s' & -> & HR'). eauto.
Qed.

Lemma refines_via_tail (m : M S X) (am : M A X) (k : X → M S Y) :
  refines R m am → (∀ x, k x = mret (g x)) → refines_via (m ≫= k) am.
Proof.
  intros Hm Hk s a HR. specialize (Hm s a HR).
  unfold mbind, M_bind. destruct (am a) as [x a'|a'| |]; try done.
  - destruct Hm as (s' & -> & HR'). rewrite Hk. eauto.
  - destruct Hm as (s' & -> & HR'). eauto.
Qed.
End refinement_via.

Create HintDb refine discriminated.
#[export] Hint Constants Opaque : refine.
#[export] Hint Variables Transparent : refine.
#[export] Hint Resolve refines_ret refines_spin refines_fault refines_when : refine.

(** Follows the common structure of the two routines, using the refinement
    lemmas of the database for the calls. *)
Ltac refine_step :=
  match goal with
  | |- ∀ _, _ => intro
  | |- refines _ (mret _) (mret _) => apply refines_ret
  | |- refines _ (_ ≫= _) (_ ≫= _) => apply refines_bind
  | |- refines _ (if ?b then _ else _) (if ?b then _ else _) => apply refines_if
  | |- refines _ (when _ _) (when _ _) => apply refines_when
  | |- refines _ _ _ => solve [eauto with refine]
  | |- refines _ (match ?o with _ => _ end) (match ?o with _ => _ end) => destruct o
  end.
Ltac refine_auto := repeat refine_step.

(** ** Shared lemmas on integers and lists *)

Lemma u32_small z : 0 ≤ z < 2 ^ 32 → u32 z = z.
Proof. apply Z.mod_small. Qed.

Lemma u8_small z : 0 ≤ z < 2 ^ 8 → u8 z = z.
Proof. apply Z.mod_small. Qed.

Lemma u32_range z : 0 ≤ u32 z < 2 ^ 32.
Proof. by apply Z.mod_pos_bound. Qed.

Lemma u8_range z : 0 ≤ u8 z < 2 ^ 8.
Proof. by apply Z.mod_pos_bound. Qed.

Lemma testbit_u32 z i : 0 ≤ i → Z.testbit (u32 z) i = bool_decide (i < 32) && Z.testbit z i.
Proof.
  intros Hi. unfold u32. case_bool_decide; simpl.
  - by rewrite Z.mod_pow2_bits_low by lia.
  - by rewrite Z.mod_pow2_bits_high by lia.
Qed.

Lemma testbit_bit n i : 0 ≤ n < 32 → 0 ≤ i → Z.testbit (bit n) i = bool_decide (i = n).
Proof.
  intros Hn Hi. unfold bit. rewrite testbit_u32, Z.shiftl_spec by lia.
  destruct (decide (i = n)) as [->|Hne].
  - rewrite !bool_decide_true by lia. by rewrite Z.sub_diag.
  - rewrite (bool_decide_false (i = n)) by done. destruct (decide (i < n)).
    + rewrite Z.testbit_neg_r by lia. by rewrite andb_false_r.
    + destruct (i - n) eqn:E; [lia| |lia]. apply andb_false_r.
Qed.

Lemma testbit_not32 z i : 0 ≤ i → Z.testbit (not32 z) i = bool_decide (i < 32) && negb (Z.testbit z i).
Proof. intros Hi. unfold not32. by rewrite testbit_u32, Z.lnot_spec by lia. Qed.

(** A word is determined by its 32 bits. *)
Lemma word_ext a b : 0 ≤ a < 2 ^ 32 → 0 ≤ b < 2 ^ 32 →
  (∀ i, 0 ≤ i < 32 → Z.testbit a i = Z.testbit b i) → a = b.
Proof.
  intros Ha Hb H. apply Z.bits_inj'. intros i Hi.
  destruct (decide (i < 32)); [apply H; lia|].
  rewrite <- (u32_small a), <- (u32_small b) by done.
  rewrite !testbit_u32, bool_decide_false by lia. done.
Qed.

Lemma word_bound a n : 0 ≤ n → 0 ≤ a → (∀ i, n ≤ i → Z.testbit a i = false) → a < 2 ^ n.
Proof.
  intros Hn Ha H. destruct (decide (a = 0)) as [->|]; [lia|].
  apply Z.log2_lt_pow2; [lia|].
  destruct (Z.lt_ge_cases (Z.log2 a) n) as [|Hge]; [done|].
  apply H in Hge. rewrite Z.bit_log2 in Hge by lia. done.
Qed.

Lemma mod_succ k n : 0 < n → (k + 1) mod n = if k mod n =? n - 1 then 0 else k mod n + 1.
Proof.
  intros Hn. pose proof (Z.mod_pos_bound k n Hn). rewrite <- Z.add_mod_idemp_l by lia.
  destruct (Z.eqb_spec (k mod n) (n - 1)) as [->|]; [|apply Z.mod_small; lia].
  rewrite Z.sub_add. by apply Z_mod_same_full.
Qed.

Lemma list_alter_lookup {A} (f : A → A) (l : list A) i x :
  l !! i = Some x → alter f i l = <[i := f x]> l.
Proof. intros Hx. rewrite list_insert_alter. apply list_alter_ext; naive_solver. Qed.

Lemma lor_range a b : 0 ≤ a < 2 ^ 32 → 0 ≤ b < 2 ^ 32 → 0 ≤ Z.lor a b < 2 ^ 32.
Proof.
  intros Ha Hb. split; [apply Z.lor_nonneg; lia|].
  apply word_bound; [lia|apply Z.lor_nonneg; lia|]. intros i Hi.
  rewrite Z.lor_spec, <- (u32_small a), <- (u32_small b), !testbit_u32 by lia.
  by rewrite bool_decide_false by lia.
Qed.

Lemma land_range a b : 0 ≤ a < 2 ^ 32 → 0 ≤ Z.land a b < 2 ^ 32.
Proof.
  intros Ha. split; [apply Z.land_nonneg; lia|].
  apply word_bound; [lia|apply Z.land_nonneg; lia|]. intros i Hi.
  rewrite Z.land_spec, <- (u32_small a), testbit_u32 by lia.
  by rewrite bool_decide_false by lia.
Qed.

Lemma filter_ext_in {A} (P Q : A → Prop) `{!∀ x, Decision (P x), !∀ x, Decision (Q x)} (l : list A) :
  (∀ x, x ∈ l → P x ↔ Q x) → filter P l = filter Q l.
Proof.
  induction l as [|x l IH]; intros Hl; [done|]. rewrite !filter_cons.
  rewrite IH by (intros; apply Hl; by right).
  destruct (decide (P x)) as [HP|HP], (decide (Q x)) as [HQ|HQ]; try done;
    rewrite (Hl x) in HP by (by left); done.
Qed.

Lemma filter_all {A} (P : A → Prop) `{!∀ x, Decision (P x)} (l : list A) :
  (∀ x, x ∈ l → P x) → filter P l = l.
Proof.
  induction l as [|x l IH]; intros Hl; [done|]. rewrite filter_cons_True by (apply Hl; by left).
  f_equal. apply IH. intros. apply Hl. by right.
Qed.

(** The last element of a non-empty list, [p] otherwise. *)
Fixpoint last_ptr (p : ptr) (l : list ptr) : ptr :=
  match l with
  | [] => p
  | x :: l' => last_ptr x l'
  end.

Lemma last_ptr_snoc p l z : last_ptr p (l ++ [z]) = z.
Proof. revert p. induction l; simpl; auto. Qed.

(** A duplicate-free list of keys is no longer than the map. *)
Lemma nodup_length_size {A} (h : gmap Z A) (l : list Z) :
  NoDup l → (∀ x, x ∈ l → is_Some (h !! x)) → (length l ≤ size h)%nat.
Proof.
  intros Hnd Hin. rewrite <- (size_list_to_set (C := gset Z)) by done.
  rewrite <- size_dom. apply subseteq_size. intros x Hx%elem_of_list_to_set.
  by apply elem_of_dom, Hin.
Qed.

Lemma hd_app (d : Z) l1 l2 : hd d (l1 ++ l2) = hd (hd d l2) l1.
Proof. by destruct l1. Qed.
