(* ===== verification/Config.v ===== *)
(** * Compile-time configuration and return codes

    The options of [include/config.h] and the status codes of
    [kernel/kernel.h]. *)
From S2P Require Import Prelude.

(** ** include/config.h *)

Definition CONFIG_TICK_RATE_HZ : Z := 1000.
Definition CONFIG_CPU_CLOCK_HZ : Z := 600000000.
Definition CONFIG_MAX_TASKS : Z := 16.
Definition CONFIG_MAX_PRIORITY : Z := 32.
Definition CONFIG_DEFAULT_STACK_SIZE : Z := 1024.
Definition CONFIG_MIN_STACK_SIZE : Z := 256.
Definition CONFIG_IDLE_STACK_SIZE : Z := 256.
Definition CONFIG_ROUND_ROBIN : bool := true.
Definition CONFIG_TIME_SLICE : Z := 10.
Definition CONFIG_PRIORITY_INHERITANCE : bool := true.
Definition CONFIG_SW_TIMERS : bool := true.
Definition TIMEOUT_NONE : Z := 0.
Definition TIMEOUT_FOREVER : Z := UINT32_MAX.

(** [MS_TO_TICKS] and [TICKS_TO_MS], on [uint32_t] arguments. *)
Definition MS_TO_TICKS (ms : Z) : Z := u32 (ms * CONFIG_TICK_RATE_HZ) / 1000.
Definition TICKS_TO_MS (ticks : Z) : Z := u32 (ticks * 1000) / CONFIG_TICK_RATE_HZ.

(** Options no code reads. *)
Definition CONFIG_TASK_NAME_MAX : Z := 16.
Definition CONFIG_PREEMPTIVE : bool := true.
Definition CONFIG_SEM_MAX_COUNT : Z := 0.
Definition CONFIG_DYNAMIC_ALLOC : bool := false.
Definition CONFIG_HEAP_SIZE : Z := 64 * 1024.
Definition CONFIG_STACK_CHECK : bool := true.
Definition CONFIG_STACK_GUARD_WORD : Z := 0xDEADBEEF.
Definition CONFIG_ASSERT : bool := true.
Definition CONFIG_TASK_STATS : bool := true.
Definition CONFIG_MAX_SW_TIMERS : Z := 8.
Definition CONFIG_TIMER_TASK_PRIORITY : Z := 1.
Definition CONFIG_TIMER_STACK_SIZE : Z := 512.
Definition CONFIG_EVENT_GROUPS : bool := true.
Definition CONFIG_EVENT_BITS : Z := 24.
Definition CONFIG_DEBUG_UART : bool := true.
Definition CONFIG_DEBUG_BAUD : Z := 115200.
Definition CONFIG_IDLE_HOOK : bool := true.
Definition CONFIG_TICK_HOOK : bool := true.
Definition CONFIG_STACK_OVERFLOW_HOOK : bool := true.
Definition CONFIG_ISR_STACK_SIZE : Z := 2 * 1024.

(** ** kernel/kernel.h: return codes *)

Definition KERNEL_OK : Z := 0.
Definition KERNEL_ERR_PARAM : Z := -1.
Definition KERNEL_ERR_NO_MEM : Z := -2.
Definition KERNEL_ERR_TIMEOUT : Z := -3.
Definition KERNEL_ERR_ISR : Z := -4.
Definition KERNEL_ERR_STATE : Z := -5.
Definition KERNEL_ERR_DELETED : Z := -6.
Definition KERNEL_ERR_OVERFLOW : Z := -7.
