(* ===== verification/Task.v ===== *)
(** * Task control blocks

    The data of [kernel/task.h]: task states, block reasons and the TCB, with
    the field updates the kernel performs.  TCBs live in a store that maps the
    address of a TCB to its contents; an address outside the store is not a
    TCB the kernel has initialised. *)
From S2P Require Import Prelude Config.

Definition TASK_NAME_MAX : Z := 16.
Definition TASK_STACK_FILL : Z := 0xCDCDCDCD.
Definition EXC_RETURN_THREAD_PSP : Z := 0xFFFFFFFD.

(** Constants no code reads. *)
Definition TASK_STACK_MIN : Z := 256.
Definition TASK_STACK_GUARD : Z := 0xDEADBEEF.
Definition TASK_FLAG_STATIC : Z := bit 0.
Definition TASK_FLAG_STATIC_STACK : Z := bit 1.
Definition TASK_FLAG_PRIVILEGED : Z := bit 2.
Definition TASK_FLAG_FPU : Z := bit 3.
Definition EXC_RETURN_HANDLER_MSP : Z := 0xFFFFFFF1.
Definition EXC_RETURN_THREAD_MSP : Z := 0xFFFFFFF9.
Definition EXC_RETURN_THREAD_PSP_FPU : Z := 0xFFFFFFED.

Inductive task_state_t : Set :=
| TASK_STATE_READY
| TASK_STATE_RUNNING
| TASK_STATE_BLOCKED
| TASK_STATE_SUSPENDED
| TASK_STATE_DELETED.

Inductive block_reason_t : Set :=
| BLOCK_NONE
| BLOCK_DELAY
| BLOCK_SEMAPHORE
| BLOCK_MUTEX
| BLOCK_QUEUE_SEND
| BLOCK_QUEUE_RECV
| BLOCK_EVENT.

#[export] Instance task_state_eq_dec : EqDecision task_state_t.
Proof. solve_decision. Defined.
#[export] Instance block_reason_eq_dec : EqDecision block_reason_t.
Proof. solve_decision. Defined.

Record task_tcb : Set := mkTcb {
  sp : ptr;
  next : ptr;
  prev : ptr;
  id : Z;
  name : list Z;
  entry : ptr;
  arg : ptr;
  priority : Z;
  base_priority : Z;
  state : task_state_t;
  flags : Z;
  stack_base : ptr;
  stack_top : ptr;
  stack_size : Z;
  delay_ticks : Z;
  time_slice : Z;
  wake_tick : Z;
  block_reason : block_reason_t;
  block_object : ptr;
  block_timeout : Z;
  block_result : Z;
  run_count : Z;
  total_ticks : Z;
  max_stack_used : Z;
  event_wait_bits : Z;
  event_wait_all : Z;
}.

#[export] Instance task_tcb_eq_dec : EqDecision task_tcb.
Proof. solve_decision. Defined.

Definition eta_tcb (t : task_tcb) : task_tcb :=
  mkTcb (sp t) (next t) (prev t) (id t) (name t) (entry t) (arg t)
    (priority t) (base_priority t) (state t) (flags t)
    (stack_base t) (stack_top t) (stack_size t)
    (delay_ticks t) (time_slice t) (wake_tick t)
    (block_reason t) (block_object t) (block_timeout t) (block_result t)
    (run_count t) (total_ticks t) (max_stack_used t)
    (event_wait_bits t) (event_wait_all t).

#[export] Instance set_sp : Setter sp := ltac:(derive_setter eta_tcb sp).
#[export] Instance set_next : Setter next := ltac:(derive_setter eta_tcb next).
#[export] Instance set_prev : Setter prev := ltac:(derive_setter eta_tcb prev).
#[export] Instance set_priority : Setter priority := ltac:(derive_setter eta_tcb priority).
#[export] Instance set_state : Setter state := ltac:(derive_setter eta_tcb state).
#[export] Instance set_time_slice : Setter time_slice := ltac:(derive_setter eta_tcb time_slice).
#[export] Instance set_wake_tick : Setter wake_tick := ltac:(derive_setter eta_tcb wake_tick).
#[export] Instance set_block_reason : Setter block_reason := ltac:(derive_setter eta_tcb block_reason).
#[export] Instance set_block_object : Setter block_object := ltac:(derive_setter eta_tcb block_object).
#[export] Instance set_block_timeout : Setter block_timeout := ltac:(derive_setter eta_tcb block_timeout).
#[export] Instance set_block_result : Setter block_result := ltac:(derive_setter eta_tcb block_result).
#[export] Instance set_event_wait_bits : Setter event_wait_bits := ltac:(derive_setter eta_tcb event_wait_bits).
#[export] Instance set_event_wait_all : Setter event_wait_all := ltac:(derive_setter eta_tcb event_wait_all).

(** The contents of a TCB with its queue links forgotten: what the scheduler's
    specification sees of a task. *)
Definition unlink (t : task_tcb) : task_tcb := t <| next := NULL |> <| prev := NULL |>.

(** A field update that neither reads nor writes the queue links. *)
Definition link_free (f : task_tcb → task_tcb) : Prop := ∀ t,
  next (f t) = next t ∧ prev (f t) = prev t ∧ unlink (f t) = f (unlink t).

(** A field that is not a queue link. *)
Definition link_free_field {T} (p : task_tcb → T) : Prop := ∀ t, p (unlink t) = p t.

Ltac solve_link_free := intros ?; repeat split; reflexivity.

Lemma link_free_comp f g : link_free f → link_free g → link_free (λ t, g (f t)).
Proof.
  intros Hf Hg t. destruct (Hf t) as (?&?&?), (Hg (f t)) as (?&?&?).
  repeat split; congruence.
Qed.

Lemma unlink_idemp t : unlink (unlink t) = unlink t.
Proof. done. Qed.
