(* ===== verification/Critical.v ===== *)
(** * Processor state and critical sections

    The part of the Cortex-M7 state the kernel depends on, and the PRIMASK and
    BASEPRI critical sections of [kernel/sync/critical.h]. *)
From S2P Require Import Prelude.

(** [primask], [basepri] and [ipsr] are the special registers; [icsr] is the
    Interrupt Control and State Register at 0xE000ED04. *)
Record cpu_t : Set := mkCpu {
  primask : Z;
  basepri : Z;
  ipsr : Z;
  icsr : Z;
}.

Definition eta_cpu (c : cpu_t) : cpu_t := mkCpu (primask c) (basepri c) (ipsr c) (icsr c).
#[export] Instance set_primask : Setter primask := ltac:(derive_setter eta_cpu primask).
#[export] Instance set_basepri : Setter basepri := ltac:(derive_setter eta_cpu basepri).
#[export] Instance set_ipsr : Setter ipsr := ltac:(derive_setter eta_cpu ipsr).
#[export] Instance set_icsr : Setter icsr := ltac:(derive_setter eta_cpu icsr).

(** Out of reset: interrupts enabled, thread mode, nothing pending. *)
Definition cpu_reset : cpu_t := mkCpu 0 0 0 0.

(** [mrs primask; cpsid i] *)
Definition critical_enter : M cpu_t Z :=
  state ← gets primask;
  modify (λ c, c <| primask := 1 |>) ;;
  mret state.

(** [msr primask]: only bit 0 of PRIMASK exists. *)
Definition critical_exit (state : Z) : M cpu_t () :=
  modify (λ c, c <| primask := Z.land state 1 |>).

(** [msr basepri]: BASEPRI holds 8 bits. *)
Definition critical_enter_basepri (max_priority : Z) : M cpu_t Z :=
  state ← gets basepri;
  modify (λ c, c <| basepri := u8 (Z.shiftl max_priority 4) |>) ;;
  mret state.

Definition critical_exit_basepri (state : Z) : M cpu_t () :=
  modify (λ c, c <| basepri := u8 state |>).

Definition is_irq_disabled : M cpu_t Z := gets (λ c, Z.land (primask c) 1).
Definition is_isr_context : M cpu_t bool := gets (λ c, bool_decide (ipsr c ≠ 0)).

(** [scheduler_trigger_switch] of [kernel/scheduler.h]: set PENDSVSET. *)
Definition PENDSVSET : Z := 28.
Definition scheduler_trigger_switch : M cpu_t () :=
  modify (λ c, c <| icsr := Z.lor (icsr c) (bit PENDSVSET) |>).

(** A context switch has been requested and not yet taken. *)
Definition pendsv_pending (c : cpu_t) : bool := Z.testbit (icsr c) PENDSVSET.

(** PendSV has the lowest exception priority: it is taken in thread mode with
    interrupts enabled, and not from inside another handler. *)
Definition pendsv_taken (c : cpu_t) : bool :=
  pendsv_pending c && bool_decide (primask c = 0) && bool_decide (ipsr c = 0).

(** A state of the registers the hardware can be in. *)
Definition cpu_wf (c : cpu_t) : Prop :=
  (primask c = 0 ∨ primask c = 1) ∧ 0 ≤ basepri c < 2 ^ 8 ∧ 0 ≤ ipsr c < 512 ∧
  0 ≤ icsr c < 2 ^ 32.

(** The code between [critical_enter] and [critical_exit]. *)
Definition critical_section {A} (body : M cpu_t A) : M cpu_t A :=
  state ← critical_enter; a ← body; critical_exit state ;; mret a.

Lemma trigger_switch_pends c : 
  pendsv_pending (c <| icsr := Z.lor (icsr c) (bit PENDSVSET) |>) = true.
Proof. unfold pendsv_pending. simpl. rewrite Z.lor_spec. apply orb_true_r. Qed.

Lemma cpu_wf_trigger c : cpu_wf c → cpu_wf (c <| icsr := Z.lor (icsr c) (bit PENDSVSET) |>).
Proof. intros (?&?&?&?). repeat split; simpl; try lia; apply lor_range; try lia; done. Qed.

Lemma cpu_wf_primask c p : cpu_wf c → p = 0 ∨ p = 1 → cpu_wf (c <| primask := p |>).
Proof. intros (?&?&?&?) Hp. repeat split; simpl; lia || done. Qed.

(** ** Statistics ([kernel/sync/critical.c])

    Compiled only with [CONFIG_CRITICAL_STATS]: counters of the critical
    sections entered and of their nesting. *)

Record critical_stats : Set := mkStats {
  critical_enter_count : Z;
  critical_max_depth : Z;
  critical_current_depth : Z;
}.

Definition on_cpu {A} (m : M cpu_t A) : M (cpu_t * critical_stats) A := λ w,
  match m (fst w) with
  | Ret a c => Ret a (c, snd w)
  | Spin c => Spin (c, snd w)
  | Fault => Fault
  | Diverge => Diverge
  end.

Definition critical_enter_debug : M (cpu_t * critical_stats) Z :=
  state ← on_cpu critical_enter;
  modify (λ '(c, s), (c, mkStats (u32 (critical_enter_count s + 1)) (critical_max_depth s)
    (u32 (critical_current_depth s + 1)))) ;;
  modify (λ '(c, s), (c, mkStats (critical_enter_count s)
    (if critical_max_depth s <? critical_current_depth s then critical_current_depth s else critical_max_depth s)
    (critical_current_depth s))) ;;
  mret state.

Definition critical_exit_debug (state : Z) : M (cpu_t * critical_stats) () :=
  modify (λ '(c, s), (c, mkStats (critical_enter_count s) (critical_max_depth s) (u32 (critical_current_depth s - 1)))) ;;
  on_cpu (critical_exit state).

(** What [critical_get_stats] stores through its two pointers. *)
Definition critical_get_stats : M (cpu_t * critical_stats) (Z * Z) :=
  gets (λ '(_, s), (critical_enter_count s, critical_max_depth s)).

(** [n] nested sections. *)
Fixpoint nested (n : nat) : M (cpu_t * critical_stats) () :=
  match n with
  | O => mret ()
  | S n' => state ← critical_enter_debug; nested n' ;; critical_exit_debug state
  end.

Lemma critical_enter_debug_ret c s : 0 ≤ critical_enter_count s < 2 ^ 32 - 1 → 0 ≤ critical_current_depth s < 2 ^ 32 - 1 →
  critical_enter_debug (c, s) = Ret (primask c) (c <| primask := 1 |>,
    mkStats (critical_enter_count s + 1) (Z.max (critical_max_depth s) (critical_current_depth s + 1)) (critical_current_depth s + 1)).
Proof.
  intros Hc Hd. unfold critical_enter_debug. erewrite bind_ret by reflexivity. do 2 step. simpl.
  rewrite !u32_small by lia. do 3 f_equal. destruct (Z.ltb_spec (critical_max_depth s) (critical_current_depth s + 1)); lia.
Qed.

(** Nested sections leave the processor and the current depth as they were; the
    statistics count every entry and the greatest depth. *)
Lemma nested_stats n c s : primask c = 0 ∨ primask c = 1 → 0 ≤ critical_max_depth s →
  0 ≤ critical_enter_count s → critical_enter_count s + Z.of_nat n < 2 ^ 32 →
  0 ≤ critical_current_depth s → critical_current_depth s + Z.of_nat n < 2 ^ 32 →
  nested n (c, s) = Ret () (c, mkStats (critical_enter_count s + Z.of_nat n)
    (if n then critical_max_depth s else Z.max (critical_max_depth s) (critical_current_depth s + Z.of_nat n))
    (critical_current_depth s)).
Proof.
  revert c s. induction n as [|n IH]; intros c s Hp Hm Hc Hcn Hd Hdn.
  - simpl. rewrite Z.add_0_r. by destruct s.
  - rewrite Nat2Z.inj_succ in *. unfold Z.succ in *. cbn [nested].
    rewrite (bind_ret _ _ _ _ _ (critical_enter_debug_ret c s ltac:(lia) ltac:(lia))).
    set (c1 := c <| primask := 1 |>). set (s1 := mkStats _ _ _).
    assert (primask c1 = 0 ∨ primask c1 = 1) as Hp1 by (by right).
    specialize (IH c1 s1 Hp1). simpl in IH.
    rewrite (bind_ret _ _ _ _ _ (IH ltac:(lia) ltac:(lia) ltac:(lia) ltac:(lia) ltac:(lia))).
    unfold critical_exit_debug. step. simpl. rewrite Z.add_simpl_r, u32_small by lia. unfold on_cpu. simpl.
    f_equal. f_equal.
    + destruct c as [p b i ic]; simpl in *. by destruct Hp as [->| ->].
    + f_equal; [lia|]. destruct n; lia.
Qed.
