(* ===== verification/Imxrt1062.v ===== *)
(** * Register map of the IMXRT1062

    The constants of [hal/imxrt1062.h], in the order of the header: a register
    macro is the address it dereferences, a structure pointer its base address,
    a field of a register structure the address of the field, and a bit the
    word with that bit.  [(1 << 31)] is read as the 32-bit word it is meant as. *)
From S2P Require Import Prelude.

(** ** System Control Block *)
Definition SCB_BASE : Z := 0xE000ED00.
Definition SCB_CPUID : Z := SCB_BASE + 0x00.
Definition SCB_ICSR : Z := SCB_BASE + 0x04.
Definition SCB_VTOR : Z := SCB_BASE + 0x08.
Definition SCB_AIRCR : Z := SCB_BASE + 0x0C.
Definition SCB_SCR : Z := SCB_BASE + 0x10.
Definition SCB_CCR : Z := SCB_BASE + 0x14.
Definition SCB_SHPR1 : Z := SCB_BASE + 0x18.
Definition SCB_SHPR2 : Z := SCB_BASE + 0x1C.
Definition SCB_SHPR3 : Z := SCB_BASE + 0x20.
Definition SCB_AIRCR_VECTKEY : Z := Z.shiftl 0x05FA 16.
Definition SCB_AIRCR_SYSRESETREQ : Z := bit 2.

(** ** SysTick *)
Definition SYSTICK_BASE : Z := 0xE000E010.
Definition SYSTICK_CSR : Z := SYSTICK_BASE + 0x00.
Definition SYSTICK_RVR : Z := SYSTICK_BASE + 0x04.
Definition SYSTICK_CVR : Z := SYSTICK_BASE + 0x08.
Definition SYSTICK_CALIB : Z := SYSTICK_BASE + 0x0C.
Definition SYSTICK_CSR_ENABLE : Z := bit 0.
Definition SYSTICK_CSR_TICKINT : Z := bit 1.
Definition SYSTICK_CSR_CLKSOURCE : Z := bit 2.
Definition SYSTICK_CSR_COUNTFLAG : Z := bit 16.

(** ** NVIC *)
Definition NVIC_BASE : Z := 0xE000E100.
Definition NVIC_ISER (n : Z) : Z := NVIC_BASE + 0x000 + n * 4.
Definition NVIC_ICER (n : Z) : Z := NVIC_BASE + 0x080 + n * 4.
Definition NVIC_ISPR (n : Z) : Z := NVIC_BASE + 0x100 + n * 4.
Definition NVIC_ICPR (n : Z) : Z := NVIC_BASE + 0x180 + n * 4.
Definition NVIC_IABR (n : Z) : Z := NVIC_BASE + 0x200 + n * 4.
Definition NVIC_IPR (n : Z) : Z := NVIC_BASE + 0x300 + n.

(** ** Clock Control Module *)
Definition CCM_BASE : Z := 0x400FC000.
Definition CCM_CSCMR1 : Z := CCM_BASE + 0x1C.
Definition CCM_CSCMR2 : Z := CCM_BASE + 0x20.
Definition CCM_CSCDR1 : Z := CCM_BASE + 0x24.
Definition CCM_CACRR : Z := CCM_BASE + 0x10.
Definition CCM_CBCDR : Z := CCM_BASE + 0x14.
Definition CCM_CBCMR : Z := CCM_BASE + 0x18.
Definition CCM_CCGR0 : Z := CCM_BASE + 0x68.
Definition CCM_CCGR1 : Z := CCM_BASE + 0x6C.
Definition CCM_CCGR2 : Z := CCM_BASE + 0x70.
Definition CCM_CCGR3 : Z := CCM_BASE + 0x74.
Definition CCM_CCGR4 : Z := CCM_BASE + 0x78.
Definition CCM_CCGR5 : Z := CCM_BASE + 0x7C.
Definition CCM_CCGR6 : Z := CCM_BASE + 0x80.
Definition CCM_CCGR_OFF : Z := 0x0.
Definition CCM_CCGR_ON_RUN : Z := 0x1.
Definition CCM_CCGR_ON : Z := 0x3.

(** ** CCM analog: the PLLs *)
Definition CCM_ANALOG_BASE : Z := 0x400D8000.
Definition CCM_ANALOG_PLL_ARM : Z := CCM_ANALOG_BASE + 0x00.
Definition CCM_ANALOG_PLL_ARM_SET : Z := CCM_ANALOG_BASE + 0x04.
Definition CCM_ANALOG_PLL_ARM_CLR : Z := CCM_ANALOG_BASE + 0x08.
Definition CCM_ANALOG_PLL_SYS : Z := CCM_ANALOG_BASE + 0x30.
Definition CCM_ANALOG_PLL_SYS_SET : Z := CCM_ANALOG_BASE + 0x34.
Definition CCM_ANALOG_PLL_SYS_CLR : Z := CCM_ANALOG_BASE + 0x38.
Definition CCM_ANALOG_PLL_USB1 : Z := CCM_ANALOG_BASE + 0x10.
Definition CCM_ANALOG_PLL_USB1_SET : Z := CCM_ANALOG_BASE + 0x14.
Definition CCM_ANALOG_PLL_USB1_CLR : Z := CCM_ANALOG_BASE + 0x18.
Definition CCM_ANALOG_PLL_USB2 : Z := CCM_ANALOG_BASE + 0x20.
Definition CCM_ANALOG_PLL_USB2_SET : Z := CCM_ANALOG_BASE + 0x24.
Definition CCM_ANALOG_PLL_USB2_CLR : Z := CCM_ANALOG_BASE + 0x28.
Definition CCM_ANALOG_PLL_AUDIO : Z := CCM_ANALOG_BASE + 0x70.
Definition CCM_ANALOG_PLL_VIDEO : Z := CCM_ANALOG_BASE + 0xA0.
Definition CCM_ANALOG_PLL_ENET : Z := CCM_ANALOG_BASE + 0xE0.
Definition CCM_ANALOG_PLL_LOCK : Z := bit 31.
Definition CCM_ANALOG_PLL_BYPASS : Z := bit 16.
Definition CCM_ANALOG_PLL_ENABLE : Z := bit 13.
Definition CCM_ANALOG_PLL_POWERDOWN : Z := bit 12.
Definition CCM_ANALOG_MISC0 : Z := CCM_ANALOG_BASE + 0x150.
Definition CCM_ANALOG_MISC1 : Z := CCM_ANALOG_BASE + 0x160.
Definition CCM_ANALOG_MISC2 : Z := CCM_ANALOG_BASE + 0x170.

(** ** DCDC regulator *)
Definition DCDC_BASE : Z := 0x40080000.
Definition DCDC_REG0 : Z := DCDC_BASE + 0x00.
Definition DCDC_REG1 : Z := DCDC_BASE + 0x04.
Definition DCDC_REG2 : Z := DCDC_BASE + 0x08.
Definition DCDC_REG3 : Z := DCDC_BASE + 0x0C.

(** ** IOMUXC: pin multiplexer *)
Definition IOMUXC_BASE : Z := 0x401F8000.
Definition IOMUXC_SW_MUX_CTL_PAD_GPIO_AD_B0_00 : Z := IOMUXC_BASE + 0x0DC.
Definition IOMUXC_SW_MUX_CTL_PAD_GPIO_AD_B0_01 : Z := IOMUXC_BASE + 0x0E0.
Definition IOMUXC_SW_MUX_CTL_PAD_GPIO_AD_B0_02 : Z := IOMUXC_BASE + 0x0E4.
Definition IOMUXC_SW_MUX_CTL_PAD_GPIO_AD_B0_03 : Z := IOMUXC_BASE + 0x0E8.
Definition IOMUXC_SW_MUX_CTL_PAD_GPIO_AD_B0_12 : Z := IOMUXC_BASE + 0x108.
Definition IOMUXC_SW_MUX_CTL_PAD_GPIO_AD_B0_13 : Z := IOMUXC_BASE + 0x10C.
Definition IOMUXC_SW_PAD_CTL_PAD_GPIO_AD_B0_00 : Z := IOMUXC_BASE + 0x2CC.
Definition IOMUXC_SW_PAD_CTL_PAD_GPIO_AD_B0_01 : Z := IOMUXC_BASE + 0x2D0.
Definition IOMUXC_SW_PAD_CTL_PAD_GPIO_AD_B0_02 : Z := IOMUXC_BASE + 0x2D4.
Definition IOMUXC_SW_PAD_CTL_PAD_GPIO_AD_B0_03 : Z := IOMUXC_BASE + 0x2D8.
Definition IOMUXC_SW_PAD_CTL_PAD_GPIO_AD_B0_12 : Z := IOMUXC_BASE + 0x2F8.
Definition IOMUXC_SW_PAD_CTL_PAD_GPIO_AD_B0_13 : Z := IOMUXC_BASE + 0x2FC.
Definition IOMUXC_PAD_SRE : Z := bit 0.
Definition IOMUXC_PAD_DSE (n : Z) : Z := u32 (Z.shiftl n 3).
Definition IOMUXC_PAD_SPEED (n : Z) : Z := u32 (Z.shiftl n 6).
Definition IOMUXC_PAD_ODE : Z := bit 11.
Definition IOMUXC_PAD_PKE : Z := bit 12.
Definition IOMUXC_PAD_PUE : Z := bit 13.
Definition IOMUXC_PAD_PUS (n : Z) : Z := u32 (Z.shiftl n 14).
Definition IOMUXC_PAD_HYS : Z := bit 16.

(** ** GPIO *)
Definition GPIO1_BASE : Z := 0x401B8000.
Definition GPIO2_BASE : Z := 0x401BC000.
Definition GPIO3_BASE : Z := 0x401C0000.
Definition GPIO4_BASE : Z := 0x401C4000.
Definition GPIO5_BASE : Z := 0x400C0000.
Definition GPIO6_BASE : Z := 0x42000000.
Definition GPIO7_BASE : Z := 0x42004000.
Definition GPIO8_BASE : Z := 0x42008000.
Definition GPIO9_BASE : Z := 0x4200C000.
Definition GPIO_Type_DR (gpio : Z) : Z := gpio + 0x00.
Definition GPIO_Type_GDIR (gpio : Z) : Z := gpio + 0x04.
Definition GPIO_Type_PSR (gpio : Z) : Z := gpio + 0x08.
Definition GPIO_Type_ICR1 (gpio : Z) : Z := gpio + 0x0C.
Definition GPIO_Type_ICR2 (gpio : Z) : Z := gpio + 0x10.
Definition GPIO_Type_IMR (gpio : Z) : Z := gpio + 0x14.
Definition GPIO_Type_ISR (gpio : Z) : Z := gpio + 0x18.
Definition GPIO_Type_EDGE_SEL (gpio : Z) : Z := gpio + 0x1C.
Definition GPIO_Type_DR_SET (gpio : Z) : Z := gpio + 0x84.
Definition GPIO_Type_DR_CLEAR (gpio : Z) : Z := gpio + 0x88.
Definition GPIO_Type_DR_TOGGLE (gpio : Z) : Z := gpio + 0x8C.
Definition GPIO1 : Z := GPIO1_BASE.
Definition GPIO2 : Z := GPIO2_BASE.
Definition GPIO3 : Z := GPIO3_BASE.
Definition GPIO4 : Z := GPIO4_BASE.
Definition GPIO5 : Z := GPIO5_BASE.
Definition GPIO6 : Z := GPIO6_BASE.
Definition GPIO7 : Z := GPIO7_BASE.
Definition GPIO8 : Z := GPIO8_BASE.
Definition GPIO9 : Z := GPIO9_BASE.

(** ** LPUART *)
Definition LPUART1_BASE : Z := 0x40184000.
Definition LPUART2_BASE : Z := 0x40188000.
Definition LPUART3_BASE : Z := 0x4018C000.
Definition LPUART4_BASE : Z := 0x40190000.
Definition LPUART5_BASE : Z := 0x40194000.
Definition LPUART6_BASE : Z := 0x40198000.
Definition LPUART7_BASE : Z := 0x4019C000.
Definition LPUART8_BASE : Z := 0x401A0000.
Definition LPUART_Type_VERID (lpuart : Z) : Z := lpuart + 0x00.
Definition LPUART_Type_PARAM (lpuart : Z) : Z := lpuart + 0x04.
Definition LPUART_Type_GLOBAL (lpuart : Z) : Z := lpuart + 0x08.
Definition LPUART_Type_PINCFG (lpuart : Z) : Z := lpuart + 0x0C.
Definition LPUART_Type_BAUD (lpuart : Z) : Z := lpuart + 0x10.
Definition LPUART_Type_STAT (lpuart : Z) : Z := lpuart + 0x14.
Definition LPUART_Type_CTRL (lpuart : Z) : Z := lpuart + 0x18.
Definition LPUART_Type_DATA (lpuart : Z) : Z := lpuart + 0x1C.
Definition LPUART_Type_MATCH (lpuart : Z) : Z := lpuart + 0x20.
Definition LPUART_Type_MODIR (lpuart : Z) : Z := lpuart + 0x24.
Definition LPUART_Type_FIFO (lpuart : Z) : Z := lpuart + 0x28.
Definition LPUART_Type_WATER (lpuart : Z) : Z := lpuart + 0x2C.
Definition LPUART1 : Z := LPUART1_BASE.
Definition LPUART2 : Z := LPUART2_BASE.
Definition LPUART3 : Z := LPUART3_BASE.
Definition LPUART4 : Z := LPUART4_BASE.
Definition LPUART5 : Z := LPUART5_BASE.
Definition LPUART6 : Z := LPUART6_BASE.
Definition LPUART7 : Z := LPUART7_BASE.
Definition LPUART8 : Z := LPUART8_BASE.

(** ** LPUART BAUD *)
Definition LPUART_BAUD_SBR (n : Z) : Z := Z.land n 0x1FFF.
Definition LPUART_BAUD_SBNS : Z := bit 13.
Definition LPUART_BAUD_RXEDGIE : Z := bit 14.
Definition LPUART_BAUD_LBKDIE : Z := bit 15.
Definition LPUART_BAUD_RESYNCDIS : Z := bit 16.
Definition LPUART_BAUD_BOTHEDGE : Z := bit 17.
Definition LPUART_BAUD_MATCFG (n : Z) : Z := u32 (Z.shiftl n 18).
Definition LPUART_BAUD_RDMAE : Z := bit 21.
Definition LPUART_BAUD_TDMAE : Z := bit 23.
Definition LPUART_BAUD_OSR (n : Z) : Z := Z.shiftl (Z.land n 0x1F) 24.
Definition LPUART_BAUD_M10 : Z := bit 29.
Definition LPUART_BAUD_MAEN2 : Z := bit 30.
Definition LPUART_BAUD_MAEN1 : Z := bit 31.

(** ** LPUART STAT *)
Definition LPUART_STAT_MA2F : Z := bit 14.
Definition LPUART_STAT_MA1F : Z := bit 15.
Definition LPUART_STAT_PF : Z := bit 16.
Definition LPUART_STAT_FE : Z := bit 17.
Definition LPUART_STAT_NF : Z := bit 18.
Definition LPUART_STAT_OR : Z := bit 19.
Definition LPUART_STAT_IDLE : Z := bit 20.
Definition LPUART_STAT_RDRF : Z := bit 21.
Definition LPUART_STAT_TC : Z := bit 22.
Definition LPUART_STAT_TDRE : Z := bit 23.
Definition LPUART_STAT_RAF : Z := bit 24.
Definition LPUART_STAT_LBKDE : Z := bit 25.
Definition LPUART_STAT_BRK13 : Z := bit 26.
Definition LPUART_STAT_RWUID : Z := bit 27.
Definition LPUART_STAT_RXINV : Z := bit 28.
Definition LPUART_STAT_MSBF : Z := bit 29.
Definition LPUART_STAT_RXEDGIF : Z := bit 30.
Definition LPUART_STAT_LBKDIF : Z := bit 31.

(** ** LPUART CTRL *)
Definition LPUART_CTRL_PT : Z := bit 0.
Definition LPUART_CTRL_PE : Z := bit 1.
Definition LPUART_CTRL_ILT : Z := bit 2.
Definition LPUART_CTRL_WAKE : Z := bit 3.
Definition LPUART_CTRL_M : Z := bit 4.
Definition LPUART_CTRL_RSRC : Z := bit 5.
Definition LPUART_CTRL_DOZEEN : Z := bit 6.
Definition LPUART_CTRL_LOOPS : Z := bit 7.
Definition LPUART_CTRL_IDLECFG (n : Z) : Z := u32 (Z.shiftl n 8).
Definition LPUART_CTRL_M7 : Z := bit 11.
Definition LPUART_CTRL_MA2IE : Z := bit 14.
Definition LPUART_CTRL_MA1IE : Z := bit 15.
Definition LPUART_CTRL_SBK : Z := bit 16.
Definition LPUART_CTRL_RWU : Z := bit 17.
Definition LPUART_CTRL_RE : Z := bit 18.
Definition LPUART_CTRL_TE : Z := bit 19.
Definition LPUART_CTRL_ILIE : Z := bit 20.
Definition LPUART_CTRL_RIE : Z := bit 21.
Definition LPUART_CTRL_TCIE : Z := bit 22.
Definition LPUART_CTRL_TIE : Z := bit 23.
Definition LPUART_CTRL_PEIE : Z := bit 24.
Definition LPUART_CTRL_FEIE : Z := bit 25.
Definition LPUART_CTRL_NEIE : Z := bit 26.
Definition LPUART_CTRL_ORIE : Z := bit 27.
Definition LPUART_CTRL_TXINV : Z := bit 28.
Definition LPUART_CTRL_TXDIR : Z := bit 29.
Definition LPUART_CTRL_R9T8 : Z := bit 30.
Definition LPUART_CTRL_R8T9 : Z := bit 31.

(** ** LPUART FIFO *)
Definition LPUART_FIFO_RXFIFOSIZE (n : Z) : Z := Z.land (Z.shiftr n 0) 0x7.
Definition LPUART_FIFO_RXFE : Z := bit 3.
Definition LPUART_FIFO_TXFIFOSIZE (n : Z) : Z := Z.land (Z.shiftr n 4) 0x7.
Definition LPUART_FIFO_TXFE : Z := bit 7.
Definition LPUART_FIFO_RXUFE : Z := bit 8.
Definition LPUART_FIFO_TXOFE : Z := bit 9.
Definition LPUART_FIFO_RXIDEN (n : Z) : Z := u32 (Z.shiftl n 10).
Definition LPUART_FIFO_RXFLUSH : Z := bit 14.
Definition LPUART_FIFO_TXFLUSH : Z := bit 15.
Definition LPUART_FIFO_RXUF : Z := bit 16.
Definition LPUART_FIFO_TXOF : Z := bit 17.
Definition LPUART_FIFO_RXEMPT : Z := bit 22.
Definition LPUART_FIFO_TXEMPT : Z := bit 23.

(** ** FlexSPI *)
Definition FLEXSPI_BASE : Z := 0x402A8000.
Definition FLEXSPI2_BASE : Z := 0x402A4000.

(** ** General purpose timers *)
Definition GPT1_BASE : Z := 0x401EC000.
Definition GPT2_BASE : Z := 0x401F0000.
Definition GPT_Type_CR (gpt : Z) : Z := gpt + 0x00.
Definition GPT_Type_PR (gpt : Z) : Z := gpt + 0x04.
Definition GPT_Type_SR (gpt : Z) : Z := gpt + 0x08.
Definition GPT_Type_IR (gpt : Z) : Z := gpt + 0x0C.
Definition GPT_Type_OCR1 (gpt : Z) : Z := gpt + 0x10.
Definition GPT_Type_OCR2 (gpt : Z) : Z := gpt + 0x14.
Definition GPT_Type_OCR3 (gpt : Z) : Z := gpt + 0x18.
Definition GPT_Type_ICR1 (gpt : Z) : Z := gpt + 0x1C.
Definition GPT_Type_ICR2 (gpt : Z) : Z := gpt + 0x20.
Definition GPT_Type_CNT (gpt : Z) : Z := gpt + 0x24.
Definition GPT1 : Z := GPT1_BASE.
Definition GPT2 : Z := GPT2_BASE.
Definition GPT_CR_EN : Z := bit 0.
Definition GPT_CR_ENMOD : Z := bit 1.
Definition GPT_CR_DBGEN : Z := bit 2.
Definition GPT_CR_WAITEN : Z := bit 3.
Definition GPT_CR_DOZEEN : Z := bit 4.
Definition GPT_CR_STOPEN : Z := bit 5.
Definition GPT_CR_CLKSRC (n : Z) : Z := u32 (Z.shiftl n 6).
Definition GPT_CR_FRR : Z := bit 9.
Definition GPT_CR_EN_24M : Z := bit 10.
Definition GPT_CR_SWR : Z := bit 15.
Definition GPT_CR_IM1 (n : Z) : Z := u32 (Z.shiftl n 16).
Definition GPT_CR_IM2 (n : Z) : Z := u32 (Z.shiftl n 18).
Definition GPT_CR_OM1 (n : Z) : Z := u32 (Z.shiftl n 20).
Definition GPT_CR_OM2 (n : Z) : Z := u32 (Z.shiftl n 23).
Definition GPT_CR_OM3 (n : Z) : Z := u32 (Z.shiftl n 26).
Definition GPT_CR_FO1 : Z := bit 29.
Definition GPT_CR_FO2 : Z := bit 30.
Definition GPT_CR_FO3 : Z := bit 31.

(** ** Watchdogs *)
Definition WDOG1_BASE : Z := 0x400B8000.
Definition WDOG2_BASE : Z := 0x400D0000.
Definition WDOG_Type_WCR (wdog : Z) : Z := wdog + 0x00.
Definition WDOG_Type_WSR (wdog : Z) : Z := wdog + 0x02.
Definition WDOG_Type_WRSR (wdog : Z) : Z := wdog + 0x04.
Definition WDOG_Type_WICR (wdog : Z) : Z := wdog + 0x06.
Definition WDOG_Type_WMCR (wdog : Z) : Z := wdog + 0x08.
Definition WDOG1 : Z := WDOG1_BASE.
Definition WDOG2 : Z := WDOG2_BASE.
Definition WDOG_WCR_WDZST : Z := bit 0.
Definition WDOG_WCR_WDBG : Z := bit 1.
Definition WDOG_WCR_WDE : Z := bit 2.
Definition WDOG_WCR_WDT : Z := bit 3.
Definition WDOG_WCR_SRS : Z := bit 4.
Definition WDOG_WCR_WDA : Z := bit 5.
Definition WDOG_WCR_SRE : Z := bit 6.
Definition WDOG_WCR_WDW : Z := bit 7.
Definition WDOG_WCR_WT (n : Z) : Z := u32 (Z.shiftl n 8).
Definition WDOG_UNLOCK_SEQ1 : Z := 0xC520.
Definition WDOG_UNLOCK_SEQ2 : Z := 0xD928.
Definition WDOG_REFRESH_SEQ1 : Z := 0xA602.
Definition WDOG_REFRESH_SEQ2 : Z := 0xB480.

(** ** Real-time watchdog *)
Definition RTWDOG_BASE : Z := 0x400BC000.
Definition RTWDOG_Type_CS (rtwdog : Z) : Z := rtwdog + 0x00.
Definition RTWDOG_Type_CNT (rtwdog : Z) : Z := rtwdog + 0x04.
Definition RTWDOG_Type_TOVAL (rtwdog : Z) : Z := rtwdog + 0x08.
Definition RTWDOG_Type_WIN (rtwdog : Z) : Z := rtwdog + 0x0C.
Definition RTWDOG : Z := RTWDOG_BASE.
Definition RTWDOG_CS_STOP : Z := bit 0.
Definition RTWDOG_CS_WAIT : Z := bit 1.
Definition RTWDOG_CS_DBG : Z := bit 2.
Definition RTWDOG_CS_TST (n : Z) : Z := u32 (Z.shiftl n 3).
Definition RTWDOG_CS_UPDATE : Z := bit 5.
Definition RTWDOG_CS_INT : Z := bit 6.
Definition RTWDOG_CS_EN : Z := bit 7.
Definition RTWDOG_CS_CLK (n : Z) : Z := u32 (Z.shiftl n 8).
Definition RTWDOG_CS_RCS : Z := bit 10.
Definition RTWDOG_CS_ULK : Z := bit 11.
Definition RTWDOG_CS_PRES : Z := bit 12.
Definition RTWDOG_CS_CMD32EN : Z := bit 13.
Definition RTWDOG_CS_FLG : Z := bit 14.
Definition RTWDOG_CS_WIN : Z := bit 15.
Definition RTWDOG_UPDATE_KEY : Z := 0xD928C520.
Definition RTWDOG_REFRESH_KEY : Z := 0xB480A602.

(** ** Interrupt numbers *)
Definition NonMaskableInt_IRQn : Z := -14.
Definition HardFault_IRQn : Z := -13.
Definition MemoryManagement_IRQn : Z := -12.
Definition BusFault_IRQn : Z := -11.
Definition UsageFault_IRQn : Z := -10.
Definition SVCall_IRQn : Z := -5.
Definition DebugMonitor_IRQn : Z := -4.
Definition PendSV_IRQn : Z := -2.
Definition SysTick_IRQn : Z := -1.
Definition DMA0_IRQn : Z := 0.
Definition DMA1_IRQn : Z := 1.
Definition DMA2_IRQn : Z := 2.
Definition DMA3_IRQn : Z := 3.
Definition DMA4_IRQn : Z := 4.
Definition DMA5_IRQn : Z := 5.
Definition DMA6_IRQn : Z := 6.
Definition DMA7_IRQn : Z := 7.
Definition DMA8_IRQn : Z := 8.
Definition DMA9_IRQn : Z := 9.
Definition DMA10_IRQn : Z := 10.
Definition DMA11_IRQn : Z := 11.
Definition DMA12_IRQn : Z := 12.
Definition DMA13_IRQn : Z := 13.
Definition DMA14_IRQn : Z := 14.
Definition DMA15_IRQn : Z := 15.
Definition DMA_ERROR_IRQn : Z := 16.
Definition LPUART1_IRQn : Z := 20.
Definition LPUART2_IRQn : Z := 21.
Definition LPUART3_IRQn : Z := 22.
Definition LPUART4_IRQn : Z := 23.
Definition LPUART5_IRQn : Z := 24.
Definition LPUART6_IRQn : Z := 25.
Definition LPUART7_IRQn : Z := 26.
Definition LPUART8_IRQn : Z := 27.
Definition GPT1_IRQn : Z := 100.
Definition GPT2_IRQn : Z := 101.
Definition GPIO1_Combined_0_15_IRQn : Z := 80.
Definition GPIO1_Combined_16_31_IRQn : Z := 81.
Definition GPIO2_Combined_0_15_IRQn : Z := 82.
Definition GPIO2_Combined_16_31_IRQn : Z := 83.
Definition GPIO3_Combined_0_15_IRQn : Z := 84.
Definition GPIO3_Combined_16_31_IRQn : Z := 85.
Definition GPIO4_Combined_0_15_IRQn : Z := 86.
Definition GPIO4_Combined_16_31_IRQn : Z := 87.
Definition GPIO5_Combined_0_15_IRQn : Z := 88.
Definition GPIO5_Combined_16_31_IRQn : Z := 89.
