(* ===== verification/Bus.v ===== *)
(** * The peripheral bus

    Volatile accesses and the barrier instructions of [hal/imxrt1062.h], on the
    trace of what the processor has done on the bus, oldest event first.  What
    the peripherals answer is not the program's: a read is answered by a
    parameter, the [device], which may depend on everything done before. *)
From S2P Require Import Prelude Critical Imxrt1062.

Inductive width : Set := W8 | W16 | W32.
#[export] Instance width_eq_dec : EqDecision width.
Proof. solve_decision. Defined.

Definition bits (w : width) : Z := match w with W8 => 8 | W16 => 16 | W32 => 32 end.

(** The conversion to the register's type. *)
Definition trunc (w : width) (v : Z) : Z := v mod 2 ^ bits w.

Inductive event : Set :=
| Rd (w : width) (addr value : Z)
| Wr (w : width) (addr value : Z)
| DSB
| ISB
| DMB
| WFI
| WFE
| NOP.
#[export] Instance event_eq_dec : EqDecision event.
Proof. solve_decision. Defined.

Abbreviation trace := (list event).

(** What a read returns, after a trace, for a width and an address. *)
Abbreviation device := (list event → width → Z → Z).

Definition emit (e : event) : M trace () := modify (λ t, t ++ [e]).
Definition write (w : width) (a v : Z) : M trace () := emit (Wr w a (trunc w v)).

(** ** Barriers and hints *)

Definition __DSB : M trace () := emit DSB.
Definition __ISB : M trace () := emit ISB.
Definition __DMB : M trace () := emit DMB.
Definition __WFI : M trace () := emit WFI.
Definition __WFE : M trace () := emit WFE.
Definition __NOP : M trace () := emit NOP.

(** ** Special registers *)

Definition __disable_irq : M cpu_t () := modify (λ c, c <| primask := 1 |>).
Definition __enable_irq : M cpu_t () := modify (λ c, c <| primask := 0 |>).
Definition __get_PRIMASK : M cpu_t Z := gets primask.
(** Only bit 0 of PRIMASK exists. *)
Definition __set_PRIMASK (value : Z) : M cpu_t () := modify (λ c, c <| primask := Z.land value 1 |>).

(** The main stack pointer: a register of its own, whose two low bits are zero. *)
Definition __get_MSP : M Z Z := gets (λ msp, msp).
Definition __set_MSP (value : Z) : M Z () := modify (λ _, Z.land (u32 value) (not32 3)).

(** ** Reads *)

Section bus.
Context (dev : device).

Definition answer (w : width) (a : Z) (t : trace) : Z := trunc w (dev t w a).
Definition read (w : width) (a : Z) : M trace Z := λ t, Ret (answer w a t) (t ++ [Rd w a (answer w a t)]).

(** [*a = f( *a)], the compound assignments. *)
Definition rmw (w : width) (a : Z) (f : Z → Z) : M trace () := v ← read w a; write w a (f v).

(** [while (!( *a & mask)) ;], for at most [fuel] reads. *)
Definition poll (fuel : nat) (a mask : Z) : M trace () :=
  loop fuel (λ _ : (), v ← read W32 a; mret (if Z.land v mask =? 0 then inl () else inr ())) ().

(** ** Properties *)

Lemma read_ret w a t : read w a t = Ret (answer w a t) (t ++ [Rd w a (answer w a t)]).
Proof using Type. done. Qed.

Lemma write_ret w a v t : write w a v t = Ret () (t ++ [Wr w a (trunc w v)]).
Proof using Type. done. Qed.

Lemma rmw_ret w a f t : rmw w a f t =
  Ret () (t ++ [Rd w a (answer w a t); Wr w a (trunc w (f (answer w a t)))]).
Proof using Type. unfold rmw. run (read_ret w a t). rewrite write_ret. by rewrite <- app_assoc. Qed.

(** The trace after [n] more reads of a register. *)
Fixpoint polled (a : Z) (n : nat) (t : trace) : trace :=
  match n with
  | O => t
  | S n' => polled a n' (t ++ [Rd W32 a (answer W32 a t)])
  end.

(** Whenever the register is read over and over, a bit of the mask is set in
    one of the next [k] reads. *)
Definition ready_within (k : nat) (a mask : Z) : Prop :=
  ∀ t, ∃ n, (n < k)%nat ∧ Z.land (answer W32 a (polled a n t)) mask ≠ 0.

(** A read that finds no bit of the mask. *)
Definition busy (a mask : Z) (e : event) : Prop := ∃ v, e = Rd W32 a v ∧ Z.land v mask = 0.

(** Polling ends with the first read that finds a bit. *)
Lemma poll_body a mask t :
  (v ← read W32 a; mret (if Z.land v mask =? 0 then inl () else inr ())) t =
  Ret (if Z.land (answer W32 a t) mask =? 0 then inl () else inr ()) (t ++ [Rd W32 a (answer W32 a t)]).
Proof using Type. done. Qed.

Lemma poll_done fuel a mask t : Z.land (answer W32 a t) mask ≠ 0 →
  poll (S fuel) a mask t = Ret () (t ++ [Rd W32 a (answer W32 a t)]).
Proof using Type. intros E. apply loop_done. by rewrite poll_body, (proj2 (Z.eqb_neq _ _) E). Qed.

Lemma poll_next fuel a mask t : Z.land (answer W32 a t) mask = 0 →
  poll (S fuel) a mask t = poll fuel a mask (t ++ [Rd W32 a (answer W32 a t)]).
Proof using Type. intros E. unfold poll. apply loop_next. by rewrite poll_body, E. Qed.

Lemma poll_steps n fuel a mask t : Z.land (answer W32 a (polled a n t)) mask ≠ 0 → (n < fuel)%nat →
  ∃ l v, poll fuel a mask t = Ret () (t ++ l ++ [Rd W32 a v]) ∧ Forall (busy a mask) l ∧ Z.land v mask ≠ 0.
Proof using Type.
  revert fuel t. induction n as [|n IH]; intros [|fuel] t Hn Hlt; try lia.
  - exists [], (answer W32 a t). by rewrite poll_done.
  - destruct (decide (Z.land (answer W32 a t) mask = 0)) as [E|E].
    + destruct (IH fuel _ Hn ltac:(lia)) as (l & v & Ep & Hl & Hv).
      exists (Rd W32 a (answer W32 a t) :: l), v. rewrite poll_next, Ep by done.
      split_and!; [by rewrite <- app_assoc|by constructor; [eexists|]|done].
    + exists [], (answer W32 a t). by rewrite poll_done.
Qed.

Lemma poll_ret k a mask t : ready_within k a mask → ∃ l v,
  poll k a mask t = Ret () (t ++ l ++ [Rd W32 a v]) ∧ Forall (busy a mask) l ∧ Z.land v mask ≠ 0.
Proof using Type. intros H. destruct (H t) as (n & Hn & Hm). by eapply poll_steps. Qed.
End bus.

Lemma land_bit v n : 0 ≤ n < 32 → Z.land v (bit n) = if Z.testbit v n then bit n else 0.
Proof.
  intros Hn. apply Z.bits_inj'. intros i Hi. rewrite Z.land_spec, testbit_bit by lia.
  destruct (decide (i = n)) as [->|Hne].
  - rewrite bool_decide_true, andb_true_r by done.
    destruct (Z.testbit v n); [by rewrite testbit_bit, bool_decide_true by lia|by rewrite Z.bits_0].
  - rewrite bool_decide_false, andb_false_r by done.
    destruct (Z.testbit v n); [by rewrite testbit_bit, bool_decide_false by lia|by rewrite Z.bits_0].
Qed.

(** ** NVIC *)

Definition NVIC_EnableIRQ (IRQn : Z) : M trace () :=
  when (0 <=? IRQn) (write W32 (NVIC_ISER (Z.shiftr IRQn 5)) (bit (Z.land IRQn 0x1F))).

Definition NVIC_DisableIRQ (IRQn : Z) : M trace () :=
  when (0 <=? IRQn) (write W32 (NVIC_ICER (Z.shiftr IRQn 5)) (bit (Z.land IRQn 0x1F))).

Definition NVIC_SetPriority (IRQn priority : Z) : M trace () :=
  when (0 <=? IRQn) (write W8 (NVIC_IPR IRQn) (u8 (Z.land (u32 (Z.shiftl priority 4)) 0xFF))).

(** The interrupts selected by a word written to a bank of 32-bit registers. *)
Definition lines_of (base addr value : Z) (n : Z) : Prop :=
  ∃ i, 0 ≤ i < 32 ∧ addr = base + 4 * ((n - i) / 32) ∧ (32 | n - i) ∧ Z.testbit value i = true.

Lemma testbit_trunc32_bit j i : 0 ≤ j < 32 → 0 ≤ i → Z.testbit (trunc W32 (bit j)) i = bool_decide (i = j).
Proof.
  intros Hj Hi. unfold trunc. simpl bits. change ((bit j) mod 2 ^ 32) with (u32 (bit j)).
  rewrite u32_small by apply u32_range. by apply testbit_bit.
Qed.

(** The word [NVIC_EnableIRQ] writes selects the interrupt it is given, and no other. *)
Lemma nvic_word base n m : 0 ≤ n →
  lines_of base (base + Z.shiftr n 5 * 4) (trunc W32 (bit (Z.land n 0x1F))) m ↔ m = n.
Proof.
  intros Hn. unfold lines_of. rewrite Z.shiftr_div_pow2 by lia.
  change 31 with (Z.ones 5). rewrite Z.land_ones by lia.
  change (2 ^ 5) with 32. pose proof (Z.mod_pos_bound n 32 ltac:(lia)). pose proof (Z.div_mod n 32 ltac:(lia)).
  split.
  - intros (i & Hi & Ea & [q Eq] & Hb). rewrite testbit_trunc32_bit in Hb by lia. apply bool_decide_eq_true in Hb as ->.
    rewrite Eq, Z.div_mul in Ea by lia. lia.
  - intros ->. exists (n mod 32). assert (n - n mod 32 = n / 32 * 32) as E by lia.
    rewrite E, Z.div_mul by lia. rewrite testbit_trunc32_bit, bool_decide_true by lia.
    split_and!; [lia..|by exists (n / 32)|done].
Qed.

Lemma priority_byte p :
  trunc W8 (u8 (Z.land (u32 (Z.shiftl p 4)) 0xFF)) = p mod 16 * 16.
Proof.
  unfold trunc, u8, u32. simpl bits. change 255 with (Z.ones 8). rewrite Z.land_ones by lia.
  rewrite !Z.mod_mod by done. rewrite Z.shiftl_mul_pow2 by lia.
  rewrite Z.mod_mod_divide by (by exists (2 ^ 24)).
  change (2 ^ 8) with (2 ^ 4 * 2 ^ 4). rewrite Z.mul_mod_distr_r by done. done.
Qed.

(** Each NVIC routine makes one access that concerns the interrupt it is
    given and no other: the word written for enabling and disabling has that
    interrupt's bit only, in its bank of registers, and the priority goes to the
    interrupt's byte, modulo 16 and in the upper four bits; exception numbers
    below zero are ignored. *)
Theorem nvic_selects_irq n t :
  (n < 0 → NVIC_EnableIRQ n t = Ret () t ∧ NVIC_DisableIRQ n t = Ret () t ∧
    ∀ p, NVIC_SetPriority n p t = Ret () t) ∧
  (0 ≤ n < 1024 →
    (∃ a v, NVIC_EnableIRQ n t = Ret () (t ++ [Wr W32 a v]) ∧ NVIC_ISER 0 ≤ a < NVIC_ICER 0 ∧
      ∀ m, lines_of (NVIC_ISER 0) a v m ↔ m = n) ∧
    (∃ a v, NVIC_DisableIRQ n t = Ret () (t ++ [Wr W32 a v]) ∧ NVIC_ICER 0 ≤ a < NVIC_ISPR 0 ∧
      ∀ m, lines_of (NVIC_ICER 0) a v m ↔ m = n) ∧
    ∀ p, NVIC_SetPriority n p t = Ret () (t ++ [Wr W8 (NVIC_IPR n) (p mod 16 * 16)])).
Proof.
  split.
  - intros Hn. unfold NVIC_EnableIRQ, NVIC_DisableIRQ, NVIC_SetPriority.
    apply Z.leb_gt in Hn. by rewrite !Hn.
  - intros Hn. unfold NVIC_EnableIRQ, NVIC_DisableIRQ, NVIC_SetPriority.
    rewrite !(proj2 (Z.leb_le 0 n)) by lia. simpl when.
    assert (0 ≤ Z.shiftr n 5 < 32) as Hs.
    { rewrite Z.shiftr_div_pow2 by lia. change (2 ^ 5) with 32.
      split; [apply Z.div_pos; lia|apply Z.div_lt_upper_bound; lia]. }
    split_and!.
    + eexists _, _. split; [apply write_ret|]. unfold NVIC_ISER, NVIC_ICER, NVIC_BASE in *.
      split; [lia|]. intros m. apply (nvic_word _ n m). lia.
    + eexists _, _. split; [apply write_ret|]. unfold NVIC_ICER, NVIC_ISPR, NVIC_BASE in *.
      split; [lia|]. intros m. apply (nvic_word _ n m). lia.
    + intros p. rewrite write_ret. do 4 f_equal. apply priority_byte.
Qed.

(** Interrupt 101 ([GPT2_IRQn]) is bit 5 of the fourth word. *)
Lemma nvic_selects_irq_witness : ∃ a v, NVIC_EnableIRQ GPT2_IRQn [] = Ret () [Wr W32 a v] ∧
  (∀ m, lines_of (NVIC_ISER 0) a v m ↔ m = 101) ∧
  NVIC_SetPriority GPT2_IRQn 0x1F [] = Ret () [Wr W8 0xE000E465 0xF0].
Proof.
  destruct (proj2 (nvic_selects_irq GPT2_IRQn []) ltac:(unfold GPT2_IRQn; lia)) as ((a & v & E & _ & H) & _ & Hp).
  exists a, v. split; [exact E|]. split; [exact H|]. exact (Hp 0x1F).
Defined.
