(* ===== verification/Hal.v ===== *)
(** * Clocks and pins

    [hal/clock.h] and [hal/gpio.h] on the bus. *)
From S2P Require Import Prelude Imxrt1062 Bus.

(** ** hal/clock.h *)

Definition CLOCK_ARM_PLL_FREQ : Z := 1200000000.
Definition CLOCK_SYS_PLL_FREQ : Z := 528000000.
Definition CLOCK_USB_PLL_FREQ : Z := 480000000.
Definition CLOCK_CORE_FREQ : Z := 600000000.
Definition CLOCK_AHB_FREQ : Z := 600000000.
Definition CLOCK_IPG_FREQ : Z := 150000000.
Definition CLOCK_OSC_FREQ : Z := 24000000.

(** [CCM_CCGR_ON << n] *)
Definition gate (n : Z) : Z := u32 (Z.shiftl CCM_CCGR_ON n).

Section clock.
Context (dev : device).

(** The state has the bus and the variable [SystemCoreClock]. *)
Context {W : Type} {bus : Lens (list event) W} (core_clock : Lens Z W).

Definition enable_gates (reg n : Z) : M W () := zoom (rmw dev W32 reg (λ v, Z.lor v (gate n))).

Definition clock_init : M W () :=
  zoom (Lens0 := core_clock) (modify (λ _, CLOCK_CORE_FREQ)) ;;
  enable_gates CCM_CCGR0 30 ;;
  enable_gates CCM_CCGR1 30 ;;
  enable_gates CCM_CCGR6 24.

Definition clock_get_core_freq : M W Z := zoom (Lens0 := core_clock) (gets (λ f, f)).

Definition clock_enable_gpio3 : M W () := enable_gates CCM_CCGR1 30.
Definition clock_enable_lpuart2 : M W () := enable_gates CCM_CCGR6 24.
Definition clock_enable_lpuart3 : M W () := enable_gates CCM_CCGR1 28.
Definition clock_enable_lpuart4 : M W () := enable_gates CCM_CCGR1 12.
Definition clock_enable_lpuart5 : M W () := enable_gates CCM_CCGR2 24.
Definition clock_enable_gpt2 : M W () := enable_gates CCM_CCGR2 20.
Definition clock_enable_gpt3 : M W () := enable_gates CCM_CCGR1 24.
End clock.

(** ** hal/gpio.h *)

Inductive gpio_mode_t : Set := GPIO_MODE_INPUT | GPIO_MODE_OUTPUT.
Inductive gpio_pull_t : Set := GPIO_PULL_NONE | GPIO_PULL_DOWN | GPIO_PULL_UP.
#[export] Instance gpio_mode_eq_dec : EqDecision gpio_mode_t.
Proof. solve_decision. Defined.

Section gpio.
Context (dev : device).

Definition gpio_set_mode (gpio pin : Z) (mode : gpio_mode_t) : M (list event) () :=
  if bool_decide (mode = GPIO_MODE_OUTPUT)
  then rmw dev W32 (GPIO_Type_GDIR gpio) (λ v, Z.lor v (bit pin))
  else rmw dev W32 (GPIO_Type_GDIR gpio) (λ v, Z.land v (not32 (bit pin))).

Definition gpio_set (gpio pin : Z) : M (list event) () := write W32 (GPIO_Type_DR_SET gpio) (bit pin).
Definition gpio_clear (gpio pin : Z) : M (list event) () := write W32 (GPIO_Type_DR_CLEAR gpio) (bit pin).
Definition gpio_toggle (gpio pin : Z) : M (list event) () := write W32 (GPIO_Type_DR_TOGGLE gpio) (bit pin).

Definition gpio_read (gpio pin : Z) : M (list event) Z :=
  v ← read dev W32 (GPIO_Type_PSR gpio); mret (Z.land (Z.shiftr v pin) 1).

Definition gpio_write (gpio pin value : Z) : M (list event) () :=
  if negb (value =? 0) then write W32 (GPIO_Type_DR_SET gpio) (bit pin)
  else write W32 (GPIO_Type_DR_CLEAR gpio) (bit pin).
End gpio.

(** ** Registers that store

    A register [a] of the device stores: it holds the value of the last word
    written to it, and a word to begin with. *)

Definition store_event (a v : Z) (e : event) : Z :=
  match e with Wr W32 b x => if b =? a then x else v | _ => v end.
Definition content (init : Z → Z) (a : Z) (t : list event) : Z := fold_left (store_event a) t (init a).
Definition stores (dev : device) (init : Z → Z) (a : Z) : Prop :=
  0 ≤ init a < 2 ^ 32 ∧ ∀ t, dev t W32 a = content init a t.

Section stores.
Context (dev : device) (init : Z → Z).

Lemma content_app a t t' : content init a (t ++ t') = fold_left (store_event a) t' (content init a t).
Proof using Type. apply fold_left_app. Qed.

(** A read of a register that stores, on a bus with words only. *)
Definition words (t : list event) : Prop := Forall (λ e, match e with Wr W32 _ v => 0 ≤ v < 2 ^ 32 | _ => True end) t.

Lemma content_range a t : words t → 0 ≤ init a < 2 ^ 32 → 0 ≤ content init a t < 2 ^ 32.
Proof using Type.
  intros Ht. unfold content. generalize (init a). induction Ht as [|e t He Ht IH]; intros v Hv; [done|].
  simpl. apply IH. destruct e as [| [] | | | | | |]; simpl; try done. by case_match.
Qed.

Lemma stores_answer a t : stores dev init a → words t → answer dev W32 a t = content init a t.
Proof using Type.
  intros [Hi Hs] Ht. unfold answer, trunc. rewrite Hs. apply Z.mod_small. by apply content_range.
Qed.

Lemma trunc_range v : 0 ≤ trunc W32 v < 2 ^ 32.
Proof using Type. by apply Z.mod_pos_bound. Qed.

(** A compound assignment, on a register that stores. *)
Lemma rmw_stores a f t : stores dev init a → words t → ∃ t', rmw dev W32 a f t = Ret () t' ∧ words t' ∧
  content init a t' = trunc W32 (f (content init a t)) ∧ ∀ b, b ≠ a → content init b t' = content init b t.
Proof using Type.
  intros Hs Ht. rewrite rmw_ret, stores_answer by done. eexists. split; [done|]. split_and!.
  - apply Forall_app. split; [done|]. repeat constructor; apply trunc_range.
  - rewrite content_app. simpl. by rewrite Z.eqb_refl.
  - intros b Hb. rewrite content_app. simpl. by rewrite (proj2 (Z.eqb_neq a b)) by done.
Qed.

Lemma write_stores a v t : words t → ∃ t', write W32 a v t = Ret () t' ∧ words t' ∧
  content init a t' = trunc W32 v ∧ ∀ b, b ≠ a → content init b t' = content init b t.
Proof using Type.
  intros Ht. rewrite write_ret. eexists. split; [done|]. split_and!.
  - apply Forall_app. split; [done|]. repeat constructor; apply trunc_range.
  - rewrite content_app. simpl. by rewrite Z.eqb_refl.
  - intros b Hb. rewrite content_app. simpl. by rewrite (proj2 (Z.eqb_neq a b)) by done.
Qed.
End stores.

Lemma lor_gate v n : 0 ≤ v < 2 ^ 32 → trunc W32 (Z.lor v (gate n)) = Z.lor v (gate n).
Proof. intros Hv. apply Z.mod_small, lor_range; [done|]. apply u32_range. Qed.

Lemma testbit_gate n i : 0 ≤ n → n + 1 < 32 → 0 ≤ i →
  Z.testbit (gate n) i = bool_decide (i = n ∨ i = n + 1).
Proof.
  intros H0 Hn Hi. unfold gate. rewrite testbit_u32, Z.shiftl_spec by lia. case_bool_decide as Hb; simpl.
  - unfold CCM_CCGR_ON. destruct (decide (i < n)).
    + rewrite Z.testbit_neg_r by lia. by rewrite bool_decide_false by lia.
    + destruct (decide (i = n)) as [->|]; [by rewrite Z.sub_diag, bool_decide_true by lia|].
      destruct (decide (i = n + 1)) as [->|].
      { replace (n + 1 - n) with 1 by lia. by rewrite bool_decide_true by lia. }
      rewrite bool_decide_false by lia. apply (Z.bits_above_log2 3); simpl; lia.
  - by rewrite bool_decide_false by lia.
Qed.

(** The two bits at [n] are on in [v'], the others are as in [v]. *)
Definition gate_on (n v v' : Z) : Prop :=
  ∀ i, 0 ≤ i < 32 → Z.testbit v' i = bool_decide (i = n ∨ i = n + 1) || Z.testbit v i.

Lemma gate_on_lor n v : 0 ≤ n → n + 1 < 32 → gate_on n v (Z.lor v (gate n)).
Proof. intros H0 Hn i Hi. rewrite Z.lor_spec, testbit_gate by lia. apply orb_comm. Qed.

(** The accesses that open the gates at [n]: the gate register is read and
    written back with the two bits on. *)
Definition gate_opened (a n : Z) (l : list event) : Prop := ∃ v v', l = [Rd W32 a v; Wr W32 a v'] ∧ gate_on n v v'.

(** What [clock_init] does on the bus: it opens the gates of GPIO2, GPIO3 and
    LPUART2, and touches no other register. *)
Definition clock_setup (l : list event) : Prop := ∃ l0 l1 l6, l = l0 ++ l1 ++ l6 ∧
  gate_opened CCM_CCGR0 30 l0 ∧ gate_opened CCM_CCGR1 30 l1 ∧ gate_opened CCM_CCGR6 24 l6.

Lemma rmw_gate dev a n t : 0 ≤ n → n + 1 < 32 →
  ∃ l, rmw dev W32 a (λ v, Z.lor v (gate n)) t = Ret () (t ++ l) ∧ gate_opened a n l.
Proof.
  intros H0 Hn. rewrite rmw_ret. eexists. split; [done|]. eexists _, _. split; [done|].
  rewrite lor_gate by apply trunc_range. by apply gate_on_lor.
Qed.

Section clock_props.
Context (dev : device) (init : Z → Z).
Context {W : Type} {bus : Lens (list event) W} (core_clock : Lens Z W).
(** The two components are apart. *)
Context (apart : ∀ t w, view (Lens := core_clock) (over (Lens := bus) t w) = view (Lens := core_clock) w).
Context (apart' : ∀ f w, view (Lens := bus) (over (Lens := core_clock) f w) = view (Lens := bus) w).

Lemma enable_gates_ret a n w : 0 ≤ n → n + 1 < 32 → stores dev init a → words (view w) →
  ∃ t', enable_gates dev a n w = Ret () (over t' w) ∧ words t' ∧
    gate_on n (content init a (view w)) (content init a t') ∧
    ∀ b, b ≠ a → content init b t' = content init b (view w).
Proof using Type.
  intros H0 Hn Hs Ht. destruct (rmw_stores dev init a (λ v, Z.lor v (gate n)) (view w) Hs Ht) as (t' & E & Ht' & Ea & Eb).
  exists t'. split; [by apply zoom_ret|]. split_and!; [done| |done].
  rewrite Ea, lor_gate by (apply content_range; [done|apply Hs]). by apply gate_on_lor.
Qed.

(** [clock_init] publishes the core frequency, which [clock_get_core_freq]
    then returns, and opens the clock gates of the two GPIO ports and of the
    LPUART, two bits each, leaving every other bit of the gate registers and
    every other register as it was. *)
Theorem clock_init_spec w : stores dev init CCM_CCGR0 → stores dev init CCM_CCGR1 → stores dev init CCM_CCGR6 →
  words (view w) → ∃ w', clock_init dev core_clock w = Ret () w' ∧
    clock_get_core_freq core_clock w' = Ret CLOCK_CORE_FREQ w' ∧
    gate_on 30 (content init CCM_CCGR0 (view w)) (content init CCM_CCGR0 (view w')) ∧
    gate_on 30 (content init CCM_CCGR1 (view w)) (content init CCM_CCGR1 (view w')) ∧
    gate_on 24 (content init CCM_CCGR6 (view w)) (content init CCM_CCGR6 (view w')) ∧
    ∀ a, a ∉ [CCM_CCGR0; CCM_CCGR1; CCM_CCGR6] → content init a (view w') = content init a (view w).
Proof using apart apart'.
  intros S0 S1 S6 Hw. set (w0 := over (Lens := core_clock) CLOCK_CORE_FREQ w).
  assert (view (Lens := bus) w0 = view w) as E0 by apply apart'. rewrite <- E0 in Hw.
  destruct (enable_gates_ret CCM_CCGR0 30 w0 ltac:(lia) ltac:(lia) S0 Hw) as (t1 & E1 & H1 & G1 & O1).
  destruct (enable_gates_ret CCM_CCGR1 30 (over t1 w0) ltac:(lia) ltac:(lia) S1) as (t2 & E2 & H2 & G2 & O2);
    [by rewrite view_over|].
  destruct (enable_gates_ret CCM_CCGR6 24 (over t2 (over t1 w0)) ltac:(lia) ltac:(lia) S6) as (t3 & E3 & H3 & G3 & O3);
    [by rewrite view_over|].
  rewrite !view_over in *. rewrite E0 in *. exists (over t3 (over t2 (over t1 w0))). split_and!.
  - unfold clock_init. rewrite (bind_ret _ _ _ () w0) by done. run E1. run E2. exact E3.
  - apply zoom_ret_same. unfold gets. rewrite !apart. unfold w0. by rewrite !view_over.
  - rewrite view_over, O3, O2 by done. done.
  - rewrite view_over, O3 by done. by rewrite O1 in G2.
  - rewrite view_over. rewrite O2, O1 in G3; done.
  - intros a Ha. rewrite !not_elem_of_cons in Ha. destruct Ha as (?&?&?&_).
    by rewrite view_over, O3, O2, O1.
Qed.
End clock_props.

(** ** Pins *)

(** The word selects the pin and no other. *)
Definition only_pin (pin v : Z) : Prop := ∀ i, 0 ≤ i < 32 → Z.testbit v i = bool_decide (i = pin).

Lemma trunc_word v : 0 ≤ v < 2 ^ 32 → trunc W32 v = v.
Proof. apply Z.mod_small. Qed.

Lemma only_pin_bit pin : 0 ≤ pin < 32 → only_pin pin (trunc W32 (bit pin)).
Proof. intros Hp i Hi. rewrite trunc_word by apply u32_range. apply testbit_bit; lia. Qed.

Lemma answer_range dev a t : 0 ≤ answer dev W32 a t < 2 ^ 32.
Proof. apply trunc_range. Qed.

Lemma gpio_set_mode_ret dev gpio pin mode t : 0 ≤ pin < 32 → ∃ v v', gpio_set_mode dev gpio pin mode t =
    Ret () (t ++ [Rd W32 (GPIO_Type_GDIR gpio) v; Wr W32 (GPIO_Type_GDIR gpio) v']) ∧
  ∀ i, 0 ≤ i < 32 → Z.testbit v' i =
    if decide (i = pin) then bool_decide (mode = GPIO_MODE_OUTPUT) else Z.testbit v i.
Proof.
  intros Hp. pose proof (answer_range dev (GPIO_Type_GDIR gpio) t) as Hv.
  set (v := answer dev W32 (GPIO_Type_GDIR gpio) t) in *. unfold gpio_set_mode.
  case_bool_decide; rewrite rmw_ret; fold v; eexists v, _; (split; [done|]); intros i Hi.
  - rewrite trunc_word by (apply lor_range; [done|apply u32_range]).
    rewrite Z.lor_spec, testbit_bit by lia. case_decide; [by rewrite bool_decide_true, orb_true_r|].
    by rewrite bool_decide_false, orb_false_r.
  - rewrite trunc_word by (by apply land_range).
    rewrite Z.land_spec, testbit_not32, testbit_bit, (bool_decide_true (i < 32)) by lia.
    case_decide; [by rewrite bool_decide_true, andb_false_r|].
    by rewrite bool_decide_false, andb_true_r.
Qed.

(** The pin routines touch the pin they are given and no other: setting the
    direction rewrites the direction register with only that pin's bit changed,
    to output or to input; set, clear and toggle write a word with that bit only
    to their register, [gpio_write] being set for a value other than 0 and clear
    for 0; and reading returns that pin's bit of the pad status, 0 or 1. *)
Theorem gpio_one_pin dev gpio pin t : 0 ≤ pin < 32 →
  (∀ mode, ∃ v v', gpio_set_mode dev gpio pin mode t =
      Ret () (t ++ [Rd W32 (GPIO_Type_GDIR gpio) v; Wr W32 (GPIO_Type_GDIR gpio) v']) ∧
    ∀ i, 0 ≤ i < 32 → Z.testbit v' i =
      if decide (i = pin) then bool_decide (mode = GPIO_MODE_OUTPUT) else Z.testbit v i) ∧
  (∃ v, only_pin pin v ∧
    gpio_set gpio pin t = Ret () (t ++ [Wr W32 (GPIO_Type_DR_SET gpio) v]) ∧
    gpio_clear gpio pin t = Ret () (t ++ [Wr W32 (GPIO_Type_DR_CLEAR gpio) v]) ∧
    gpio_toggle gpio pin t = Ret () (t ++ [Wr W32 (GPIO_Type_DR_TOGGLE gpio) v])) ∧
  (∀ value, gpio_write gpio pin value t = if decide (value = 0) then gpio_clear gpio pin t else gpio_set gpio pin t) ∧
  (∃ v, gpio_read dev gpio pin t = Ret (Z.b2z (Z.testbit v pin)) (t ++ [Rd W32 (GPIO_Type_PSR gpio) v])).
Proof.
  intros Hp. split_and!.
  - intros mode. by apply gpio_set_mode_ret.
  - exists (trunc W32 (bit pin)). split_and!; [by apply only_pin_bit|done..].
  - intros value. unfold gpio_write. case_decide as E; [by subst|]. by rewrite (proj2 (Z.eqb_neq _ _) E).
  - eexists. unfold gpio_read. run (read_ret dev W32 (GPIO_Type_PSR gpio) t).
    change 1 with (Z.ones 1). rewrite Z.land_ones, Z.shiftr_div_pow2 by lia.
    rewrite <- Z.testbit_spec' by lia. done.
Qed.

(** ** Instances *)

Section pair_lens.
Context {A B : Type}.
#[program] Definition fst_lens : Lens A (A * B) := {| view := fst; over x w := (x, snd w) |}.
Next Obligation. done. Qed.
Next Obligation. by intros []. Qed.
Next Obligation. done. Qed.
#[program] Definition snd_lens : Lens B (A * B) := {| view := snd; over y w := (fst w, y) |}.
Next Obligation. done. Qed.
Next Obligation. by intros []. Qed.
Next Obligation. done. Qed.
End pair_lens.

(** Every register stores, and holds 5 to begin with. *)
Definition example_init : Z → Z := λ _, 5.
Definition example_device : device := λ t _ a, content example_init a t.

Lemma example_stores a : stores example_device example_init a.
Proof. split; [done|]. done. Qed.

Lemma clock_init_spec_witness : ∃ w', clock_init (bus := fst_lens) example_device snd_lens ([], 0) = Ret () w' ∧
  clock_get_core_freq snd_lens w' = Ret 600000000 w' ∧
  gate_on 24 5 (content example_init CCM_CCGR6 (fst w')).
Proof.
  destruct (clock_init_spec (bus := fst_lens) example_device example_init snd_lens (λ _ _, eq_refl) (λ _ _, eq_refl) ([], 0)
    (example_stores _) (example_stores _) (example_stores _) (List.Forall_nil _)) as (w' & E & Ec & _ & _ & G & _).
  exists w'. split; [exact E|]. split; [exact Ec|exact G].
Defined.

(** Pin 3 of GPIO2 becomes an output. *)
Lemma gpio_one_pin_witness : ∃ v', gpio_set_mode example_device GPIO2 3 GPIO_MODE_OUTPUT [] =
    Ret () [Rd W32 0x401BC004 5; Wr W32 0x401BC004 v'] ∧ v' = 13 ∧
  ∃ v, only_pin 3 v ∧ gpio_toggle GPIO2 3 [] = Ret () [Wr W32 0x401BC08C v].
Proof.
  destruct (gpio_one_pin example_device GPIO2 3 [] ltac:(lia)) as (Hm & (v & Hv & _ & _ & Ht) & _).
  destruct (Hm GPIO_MODE_OUTPUT) as (u & u' & E & _). exists u'.
  assert (u = 5 ∧ u' = 13) as [-> ->].
  { change (gpio_set_mode example_device GPIO2 3 GPIO_MODE_OUTPUT [])
      with (Ret (S := list event) () [Rd W32 0x401BC004 5; Wr W32 0x401BC004 13]) in E. by injection E as <- <-. }
  split; [exact E|]. split; [reflexivity|]. exists v. split; [exact Hv|exact Ht].
Defined.
