(* ===== verification/Uart.v ===== *)
(** * The serial port

    [hal/uart.h] on the bus: the LPUART's configuration and its polled transfer
    of bytes.  [mem] is the memory the buffers and strings are in, by the byte;
    a wait gives up the model's fuel after [polls] reads. *)
From S2P Require Import Prelude Imxrt1062 Bus Hal.

Record uart_config_t : Set := mkUartConfig {
  baudrate : Z;
  data_bits : Z;
  stop_bits : Z;
  parity : Z;
}.

Definition UART_CONFIG_DEFAULT : uart_config_t := mkUartConfig 115200 8 1 0.

Section uart.
Context (dev : device) (mem : Z → Z) (polls : nat).

(** The divisor; dividing by zero has no result. *)
Definition uart_sbr (clock_freq baud : Z) : M (list event) Z :=
  let d := u32 (baud * (15 + 1)) in
  if d =? 0 then fault else mret (clock_freq / d).

(** The control register's value: 9 data bits, parity, odd parity. *)
Definition uart_ctrl (config : uart_config_t) : Z :=
  let ctrl := 0 in
  let ctrl := if data_bits config =? 9 then Z.lor ctrl LPUART_CTRL_M else ctrl in
  let ctrl := if negb (parity config =? 0) then
                let ctrl := Z.lor ctrl LPUART_CTRL_PE in
                if parity config =? 1 then Z.lor ctrl LPUART_CTRL_PT else ctrl
              else ctrl in
  Z.lor ctrl (Z.lor LPUART_CTRL_TE LPUART_CTRL_RE).

Definition uart_init (uart : Z) (config : uart_config_t) (clock_freq : Z) : M (list event) () :=
  rmw dev W32 (LPUART_Type_GLOBAL uart) (λ v, Z.lor v (bit 1)) ;;
  rmw dev W32 (LPUART_Type_GLOBAL uart) (λ v, Z.land v (not32 (bit 1))) ;;
  sbr ← uart_sbr clock_freq (baudrate config);
  write W32 (LPUART_Type_BAUD uart) (Z.lor (LPUART_BAUD_SBR sbr) (LPUART_BAUD_OSR 15)) ;;
  write W32 (LPUART_Type_CTRL uart) (uart_ctrl config) ;;
  when (stop_bits config =? 2) (rmw dev W32 (LPUART_Type_BAUD uart) (λ v, Z.lor v LPUART_BAUD_SBNS)).

Definition uart_putc (uart c : Z) : M (list event) () :=
  poll dev polls (LPUART_Type_STAT uart) LPUART_STAT_TDRE ;;
  write W32 (LPUART_Type_DATA uart) (u8 c).

Definition uart_getc (uart : Z) : M (list event) Z :=
  poll dev polls (LPUART_Type_STAT uart) LPUART_STAT_RDRF ;;
  d ← read dev W32 (LPUART_Type_DATA uart);
  mret (u8 d).

Definition uart_available (uart : Z) : M (list event) Z :=
  v ← read dev W32 (LPUART_Type_STAT uart);
  mret (if negb (Z.land v LPUART_STAT_RDRF =? 0) then 1 else 0).

Definition uart_tx_ready (uart : Z) : M (list event) Z :=
  v ← read dev W32 (LPUART_Type_STAT uart);
  mret (if negb (Z.land v LPUART_STAT_TDRE =? 0) then 1 else 0).

(** [*s], a byte. *)
Definition load_byte (s : Z) : Z := u8 (mem s).

Definition uart_puts (fuel : nat) (uart s : Z) : M (list event) () :=
  loop fuel (λ s,
    if load_byte s =? 0 then mret (inr ())
    else uart_putc uart (load_byte s) ;; mret (inl (u32 (s + 1)))) s.

(** One round for each byte and one to stop: the fuel is enough. *)
Definition uart_write (uart data len : Z) : M (list event) () :=
  loop (Datatypes.S (Z.to_nat len)) (λ '(len, data),
    if len =? 0 then mret (inr ())
    else uart_putc uart (load_byte data) ;; mret (inl (u32 (len - 1), u32 (data + 1)))) (len, data).

(** ** Transfers *)

(** What a trace says about sending bytes: each is written to the data register
    right after a read that finds the transmit register empty, and between two
    bytes there are only reads that find it full. *)
Inductive transmission (uart : Z) : list event → list Z → Prop :=
| tx_nil : transmission uart [] []
| tx_byte l v c t cs :
    Forall (busy (LPUART_Type_STAT uart) LPUART_STAT_TDRE) l →
    Z.land v LPUART_STAT_TDRE ≠ 0 →
    transmission uart t cs →
    transmission uart (l ++ Rd W32 (LPUART_Type_STAT uart) v :: Wr W32 (LPUART_Type_DATA uart) c :: t) (c :: cs).

Lemma trunc_u8 c : trunc W32 (u8 c) = u8 c.
Proof using Type. apply trunc_word. pose proof (u8_range c). lia. Qed.

(** The transmitter accepts a byte within [polls] reads. *)
Definition drains (uart : Z) : Prop := ready_within dev polls (LPUART_Type_STAT uart) LPUART_STAT_TDRE.

Lemma putc_ret uart c t : drains uart → ∃ l v, uart_putc uart c t =
    Ret () (t ++ l ++ [Rd W32 (LPUART_Type_STAT uart) v; Wr W32 (LPUART_Type_DATA uart) (u8 c)]) ∧
  Forall (busy (LPUART_Type_STAT uart) LPUART_STAT_TDRE) l ∧ Z.land v LPUART_STAT_TDRE ≠ 0.
Proof using Type.
  intros Hr. destruct (poll_ret _ _ _ _ t Hr) as (l & v & E & Hl & Hv). exists l, v. split_and!; [|done..].
  unfold uart_putc. run E. rewrite write_ret, trunc_u8. by rewrite <- !app_assoc.
Qed.

(** The bytes from an address on; the address wraps. *)
Definition bytes_from (p : Z) (n : nat) : list Z := (λ i, load_byte (u32 (p + Z.of_nat i))) <$> seq 0 n.

Lemma bytes_from_S p n : bytes_from p (S n) = load_byte (u32 p) :: bytes_from (u32 (p + 1)) n.
Proof using Type.
  unfold bytes_from. simpl. rewrite Z.add_0_r. f_equal. rewrite <- fmap_S_seq, <- list_fmap_compose.
  apply list_fmap_ext. intros i x _. simpl. f_equal. unfold u32.
  rewrite Z.add_mod_idemp_l by done. f_equal. lia.
Qed.

Lemma transmission_cons uart c cs t l v t' : Forall (busy (LPUART_Type_STAT uart) LPUART_STAT_TDRE) l →
  Z.land v LPUART_STAT_TDRE ≠ 0 → transmission uart t' cs →
  ∃ t'', (t ++ l ++ [Rd W32 (LPUART_Type_STAT uart) v; Wr W32 (LPUART_Type_DATA uart) c]) ++ t' = t ++ t'' ∧
    transmission uart t'' (c :: cs).
Proof using Type.
  intros Hl Hv Ht. eexists. split; [|by apply tx_byte]. by rewrite <- !app_assoc.
Qed.

(** C37: [uart_write] sends exactly the [len] bytes of the buffer in order and
    returns, whatever the serial port's speed, provided that the transmitter
    becomes empty within [polls] reads of its status. *)
Theorem uart_write_sends uart data len t : drains uart → 0 ≤ data < 2 ^ 32 → 0 ≤ len < 2 ^ 32 →
  ∃ l, uart_write uart data len t = Ret () (t ++ l) ∧ transmission uart l (bytes_from data (Z.to_nat len)).
Proof using Type.
  intros Hr Hd Hl. unfold uart_write. destruct (Z_of_nat_complete len (proj1 Hl)) as [n ->].
  rewrite Nat2Z.id. revert t data Hd Hl. induction n as [|n IH]; intros t data Hd Hl.
  - exists []. rewrite app_nil_r. split; [done|constructor].
  - destruct (putc_ret uart (load_byte data) t Hr) as (l & v & E & Hbusy & Hv).
    erewrite loop_next.
    2: { rewrite (proj2 (Z.eqb_neq _ 0)) by lia. run E. reflexivity. }
    rewrite (u32_small (Z.of_nat (S n) - 1)) by lia. replace (Z.of_nat (S n) - 1) with (Z.of_nat n) by lia.
    match goal with |- context [loop _ _ _ ?t1] =>
      destruct (IH t1 (u32 (data + 1)) (u32_range _) ltac:(lia)) as (l' & -> & Ht) end.
    rewrite bytes_from_S. destruct (transmission_cons uart (u8 (load_byte data)) _ t l v l' Hbusy Hv Ht) as (l'' & -> & Ht'').
    exists l''. split; [done|]. rewrite u32_small by done. unfold load_byte in *.
    by rewrite (u8_small (u8 _)) in Ht'' by apply u8_range.
Qed.

(** [uart_puts] sends exactly the bytes of the string before its terminating
    zero, in order, and returns, given fuel for the length of the string. *)
Theorem uart_puts_sends fuel uart s n t : drains uart → 0 ≤ s < 2 ^ 32 → (n < fuel)%nat →
  Forall (λ c, c ≠ 0) (bytes_from s n) → load_byte (u32 (s + Z.of_nat n)) = 0 →
  ∃ l, uart_puts fuel uart s t = Ret () (t ++ l) ∧ transmission uart l (bytes_from s n).
Proof using Type.
  intros Hr. revert fuel s t. induction n as [|n IH]; intros [|fuel] s t Hs Hf Hn Hz; try lia; unfold uart_puts.
  - rewrite Z.add_0_r, u32_small in Hz by done. exists []. rewrite app_nil_r. split; [|constructor].
    apply loop_done. by rewrite Hz.
  - rewrite bytes_from_S in *. apply Forall_cons in Hn as [Hc Hn]. rewrite u32_small in * by done.
    destruct (putc_ret uart (load_byte s) t Hr) as (l & v & E & Hbusy & Hv).
    erewrite loop_next.
    2: { rewrite (proj2 (Z.eqb_neq _ 0)) by done. run E. reflexivity. }
    assert (load_byte (u32 (u32 (s + 1) + Z.of_nat n)) = 0) as Hz'.
    { rewrite <- Hz. f_equal. unfold u32. rewrite Z.add_mod_idemp_l by done. f_equal. lia. }
    match goal with |- context [loop _ _ _ ?t1] =>
      destruct (IH fuel (u32 (s + 1)) t1 (u32_range _) ltac:(lia) Hn Hz') as (l' & E' & Ht) end.
    unfold uart_puts in E'. rewrite E'.
    destruct (transmission_cons uart (u8 (load_byte s)) _ t l v l' Hbusy Hv Ht) as (l'' & -> & Ht'').
    exists l''. split; [done|]. unfold load_byte in *. by rewrite (u8_small (u8 _)) in Ht'' by apply u8_range.
Qed.

(** [uart_getc] returns the low byte of the data register, read once, right
    after the first status that reports a received byte; [uart_available] and
    [uart_tx_ready] report the two status bits as 0 or 1. *)
Theorem uart_receives uart t :
  (ready_within dev polls (LPUART_Type_STAT uart) LPUART_STAT_RDRF → ∃ l v d,
    uart_getc uart t = Ret (d mod 256) (t ++ l ++ [Rd W32 (LPUART_Type_STAT uart) v; Rd W32 (LPUART_Type_DATA uart) d]) ∧
    Forall (busy (LPUART_Type_STAT uart) LPUART_STAT_RDRF) l ∧ Z.testbit v 21 = true) ∧
  (∃ v, uart_available uart t = Ret (Z.b2z (Z.testbit v 21)) (t ++ [Rd W32 (LPUART_Type_STAT uart) v])) ∧
  (∃ v, uart_tx_ready uart t = Ret (Z.b2z (Z.testbit v 23)) (t ++ [Rd W32 (LPUART_Type_STAT uart) v])).
Proof using Type.
  split_and!.
  - intros Hr. destruct (poll_ret _ _ _ _ t Hr) as (l & v & E & Hl & Hv). eexists l, v, _. split_and!; [|done|].
    + unfold uart_getc. run E. run (read_ret dev W32 (LPUART_Type_DATA uart) (t ++ l ++ [Rd W32 (LPUART_Type_STAT uart) v])).
      by rewrite <- !app_assoc.
    + unfold LPUART_STAT_RDRF in Hv. rewrite (land_bit v 21) in Hv by lia. by destruct (Z.testbit v 21).
  - exists (answer dev W32 (LPUART_Type_STAT uart) t). unfold uart_available. run (read_ret dev W32 (LPUART_Type_STAT uart) t).
    unfold LPUART_STAT_RDRF. rewrite (land_bit _ 21) by lia. by destruct (Z.testbit _ 21).
  - exists (answer dev W32 (LPUART_Type_STAT uart) t). unfold uart_tx_ready. run (read_ret dev W32 (LPUART_Type_STAT uart) t).
    unfold LPUART_STAT_TDRE. rewrite (land_bit _ 23) by lia. by destruct (Z.testbit _ 23).
Qed.
(** ** Configuration *)

(** The divisor written for a quotient [q] and the number of stop bits. *)
Definition baud_word (q stop : Z) : Z :=
  let w := Z.lor (LPUART_BAUD_SBR q) (LPUART_BAUD_OSR 15) in
  if stop =? 2 then Z.lor w LPUART_BAUD_SBNS else w.

Lemma land_range_r a b : 0 ≤ b < 2 ^ 32 → 0 ≤ Z.land a b < 2 ^ 32.
Proof using Type. rewrite Z.land_comm. apply land_range. Qed.

Lemma baud_word_range q stop : 0 ≤ baud_word q stop < 2 ^ 32.
Proof using Type.
  assert (0 ≤ Z.lor (LPUART_BAUD_SBR q) (LPUART_BAUD_OSR 15) < 2 ^ 32).
  { apply lor_range; [by apply land_range_r|done]. }
  unfold baud_word. destruct (stop =? 2); [|done]. by apply lor_range.
Qed.

Lemma baud_word_fields q stop :
  Z.land (baud_word q stop) 0x1FFF = q mod 2 ^ 13 ∧ Z.land (Z.shiftr (baud_word q stop) 24) 0x1F = 15 ∧
  Z.testbit (baud_word q stop) 13 = bool_decide (stop = 2).
Proof using Type.
  assert (Z.land q 0x1FFF = q mod 2 ^ 13) as E by (apply (Z.land_ones q 13); lia).
  pose proof (Z.mod_pos_bound q (2 ^ 13) ltac:(lia)) as Hq.
  assert (Z.shiftr (q mod 2 ^ 13) 24 = 0) as E24.
  { rewrite Z.shiftr_div_pow2 by lia. apply Z.div_small. lia. }
  assert (Z.testbit (q mod 2 ^ 13) 13 = false) as E13 by (apply Z.mod_pow2_bits_high; lia).
  assert (Z.land (q mod 2 ^ 13) 0x1FFF = q mod 2 ^ 13) as Em.
  { change 0x1FFF with (Z.ones 13). rewrite Z.land_ones by lia. by apply Z.mod_small. }
  unfold baud_word, LPUART_BAUD_SBR. rewrite E. destruct (Z.eqb_spec stop 2) as [->|Hs].
  - rewrite !Z.land_lor_distr_l, !Z.shiftr_lor, !Z.land_lor_distr_l, !Z.lor_spec, Em, E24, E13.
    split_and!; [|done..]. change (Z.land _ 0x1FFF) with 0 at 1. by rewrite !Z.lor_0_r.
  - rewrite Z.land_lor_distr_l, Z.shiftr_lor, Z.land_lor_distr_l, Z.lor_spec, Em, E24, E13.
    rewrite bool_decide_false by done. split_and!; [|done..]. by rewrite Z.lor_0_r.
Qed.

Lemma uart_ctrl_range config : 0 ≤ uart_ctrl config < 2 ^ 32.
Proof using Type.
  unfold uart_ctrl. destruct (data_bits config =? 9), (parity config =? 0), (parity config =? 1); done.
Qed.

(** The mode bits of the control register: PT, PE, M, RE and TE. *)
Lemma uart_ctrl_bits config :
  Z.testbit (uart_ctrl config) 4 = bool_decide (data_bits config = 9) ∧
  Z.testbit (uart_ctrl config) 1 = bool_decide (parity config ≠ 0) ∧
  Z.testbit (uart_ctrl config) 0 = bool_decide (parity config = 1) ∧
  Z.testbit (uart_ctrl config) 18 = true ∧ Z.testbit (uart_ctrl config) 19 = true ∧
  Z.ldiff (uart_ctrl config) 0xC0013 = 0.
Proof using Type.
  unfold uart_ctrl. destruct (Z.eqb_spec (data_bits config) 9) as [->|H9],
    (Z.eqb_spec (parity config) 0) as [->|H0]; try destruct (Z.eqb_spec (parity config) 1) as [->|H1];
    rewrite ?(bool_decide_false (data_bits config = 9)), ?(bool_decide_false (parity config = 1)),
      ?(bool_decide_true (parity config ≠ 0)) by lia; done.
Qed.

Lemma clear_reset v : 0 ≤ v < 2 ^ 32 → Z.land (Z.lor v (bit 1)) (not32 (bit 1)) = Z.land v (not32 (bit 1)).
Proof using Type. intros Hv. rewrite Z.land_lor_distr_l. change (Z.land (bit 1) _) with 0. apply Z.lor_0_r. Qed.

(** The configured registers of a port store. *)
Definition port_stores (init : Z → Z) (uart : Z) : Prop :=
  stores dev init (LPUART_Type_GLOBAL uart) ∧ stores dev init (LPUART_Type_BAUD uart).

(** The first two assignments: the reset bit goes on and off. *)
Lemma reset_pulse init uart t : port_stores init uart → words t → ∃ t',
  (rmw dev W32 (LPUART_Type_GLOBAL uart) (λ v, Z.lor v (bit 1)) ;;
   rmw dev W32 (LPUART_Type_GLOBAL uart) (λ v, Z.land v (not32 (bit 1)))) t = Ret () t' ∧ words t' ∧
  content init (LPUART_Type_GLOBAL uart) t' = Z.land (content init (LPUART_Type_GLOBAL uart) t) (not32 (bit 1)) ∧
  ∀ b, b ≠ LPUART_Type_GLOBAL uart → content init b t' = content init b t.
Proof using Type.
  intros [Hg _] Ht. pose proof (content_range init _ t Ht (proj1 Hg)) as Hv.
  destruct (rmw_stores dev init _ (λ v, Z.lor v (bit 1)) t Hg Ht) as (t1 & E1 & H1 & C1 & O1).
  destruct (rmw_stores dev init _ (λ v, Z.land v (not32 (bit 1))) t1 Hg H1) as (t2 & E2 & H2 & C2 & O2).
  exists t2. run E1. split_and!; [done..| |].
  - rewrite C2, C1, (trunc_word (Z.lor _ _)) by (by apply lor_range). rewrite clear_reset by done.
    apply trunc_word. by apply land_range.
  - intros b Hb. by rewrite O2, O1.
Qed.

(** [uart_init] with a baud rate whose divisor exists: the divisor field is
    the quotient of the clock by sixteen times the baud rate, modulo 2^13, with
    16x oversampling; a quotient below 2^13 gives a rate that is the nearest one
    not below the request; two stop bits, nine data bits, parity and odd parity
    are set exactly when configured, transmitter and receiver are enabled and no
    other control bit is; the reset bit ends clear, and no register outside the
    port's three changes. *)
Theorem uart_init_spec init uart config clock_freq t :
  port_stores init uart → words t → 0 ≤ clock_freq < 2 ^ 32 → 0 < 16 * baudrate config < 2 ^ 32 →
  ∃ t', uart_init uart config clock_freq t = Ret () t' ∧
    let q := clock_freq / (16 * baudrate config) in
    let baud := content init (LPUART_Type_BAUD uart) t' in
    let ctrl := content init (LPUART_Type_CTRL uart) t' in
    let global := content init (LPUART_Type_GLOBAL uart) in
    (Z.land baud 0x1FFF = q mod 2 ^ 13 ∧ Z.land (Z.shiftr baud 24) 0x1F = 15 ∧
     Z.testbit baud 13 = bool_decide (stop_bits config = 2)) ∧
    (q < 2 ^ 13 → let sbr := Z.land baud 0x1FFF in
      baudrate config * (16 * sbr) ≤ clock_freq < baudrate config * (16 * (sbr + 1))) ∧
    (Z.testbit ctrl 4 = bool_decide (data_bits config = 9) ∧ Z.testbit ctrl 1 = bool_decide (parity config ≠ 0) ∧
     Z.testbit ctrl 0 = bool_decide (parity config = 1) ∧ Z.testbit ctrl 18 = true ∧ Z.testbit ctrl 19 = true ∧
     Z.ldiff ctrl 0xC0013 = 0) ∧
    global t' = Z.land (global t) (not32 (bit 1)) ∧
    ∀ a, a ∉ [LPUART_Type_GLOBAL uart; LPUART_Type_BAUD uart; LPUART_Type_CTRL uart] →
      content init a t' = content init a t.
Proof using Type.
  intros Hp Ht Hc Hb. set (q := clock_freq / (16 * baudrate config)).
  assert (∀ b c n m, n ≠ m → b = c → b + n ≠ c + m) as Hne by lia.
  assert (LPUART_Type_BAUD uart ≠ LPUART_Type_GLOBAL uart ∧ LPUART_Type_CTRL uart ≠ LPUART_Type_GLOBAL uart ∧
    LPUART_Type_CTRL uart ≠ LPUART_Type_BAUD uart) as (Hbg & Hcg & Hcb) by (split_and!; by apply Hne).
  destruct (reset_pulse init uart t Hp Ht) as (t1 & E1 & H1 & C1 & O1).
  destruct (write_stores init (LPUART_Type_BAUD uart) (Z.lor (LPUART_BAUD_SBR q) (LPUART_BAUD_OSR 15)) t1 H1)
    as (t2 & E2 & H2 & C2 & O2).
  destruct (write_stores init (LPUART_Type_CTRL uart) (uart_ctrl config) t2 H2) as (t3 & E3 & H3 & C3 & O3).
  assert (∃ t4, when (stop_bits config =? 2) (rmw dev W32 (LPUART_Type_BAUD uart) (λ v, Z.lor v LPUART_BAUD_SBNS)) t3 =
    Ret () t4 ∧ content init (LPUART_Type_BAUD uart) t4 = baud_word q (stop_bits config) ∧
    ∀ b, b ≠ LPUART_Type_BAUD uart → content init b t4 = content init b t3) as (t4 & E4 & C4 & O4).
  { pose proof (baud_word_range q (stop_bits config)) as Hr. pose proof (baud_word_range q 0) as Hr0.
    unfold baud_word in *. simpl in Hr0. rewrite trunc_word, <- (O3 (LPUART_Type_BAUD uart)) in C2 by done.
    destruct (stop_bits config =? 2); [|by exists t3].
    destruct (rmw_stores dev init _ (λ v, Z.lor v LPUART_BAUD_SBNS) t3 (proj2 Hp) H3) as (t4 & E4 & _ & C4 & O4).
    exists t4. split_and!; [done| |done]. rewrite C4, C2. by apply trunc_word. }
  exists t4. split.
  { unfold uart_init. rewrite <- bind_assoc. run E1. unfold uart_sbr. rewrite u32_small by lia.
    rewrite (proj2 (Z.eqb_neq _ 0)) by lia. step. replace (baudrate config * (15 + 1)) with (16 * baudrate config) by lia.
    fold q. run E2. run E3. exact E4. }
  cbv zeta. rewrite C4, O4, C3 by done. rewrite (O4 (LPUART_Type_GLOBAL uart)), O3, O2, C1 by done.
  rewrite trunc_word by apply uart_ctrl_range. destruct (baud_word_fields q (stop_bits config)) as (F1 & F2 & F3).
  split; [done|]. split; [|split; [apply uart_ctrl_bits|split; [done|]]].
  - intros Hq. rewrite F1, Z.mod_small by (split; [apply Z.div_pos; lia|done]).
    pose proof (Z.div_mod clock_freq (16 * baudrate config) ltac:(lia)).
    pose proof (Z.mod_pos_bound clock_freq (16 * baudrate config) ltac:(lia)). fold q in H. nia.
  - intros a Ha. rewrite !not_elem_of_cons in Ha. destruct Ha as (?&?&?&_). by rewrite O4, O3, O2, O1.
Qed.

(** Without a divisor there is no result: the division is by zero. *)
Lemma uart_init_zero uart config clock_freq t : u32 (baudrate config * 16) = 0 →
  uart_init uart config clock_freq t = Fault.
Proof using Type.
  intros Hz. unfold uart_init. run (rmw_ret dev W32 (LPUART_Type_GLOBAL uart) (λ v, Z.lor v (bit 1)) t).
  erewrite bind_ret by apply rmw_ret. unfold uart_sbr. change (15 + 1) with 16. by rewrite Hz.
Qed.
End uart.

(** ** Instances *)

(** A port whose status is ready at every third event on the bus and which has
    received the byte 0x41. *)
Definition slow_port : device := λ t _ a,
  if a =? LPUART_Type_DATA LPUART2 then 0x141 else
  if Z.of_nat (length t) mod 3 =? 2 then Z.lor LPUART_STAT_TDRE LPUART_STAT_RDRF else 0.

Lemma length_polled dev a n t : length (polled dev a n t) = (n + length t)%nat.
Proof. revert t. induction n as [|n IH]; intros t; [done|]. simpl. rewrite IH, length_app. simpl. lia. Qed.

Lemma slow_port_ready a mask : a ≠ LPUART_Type_DATA LPUART2 →
  Z.land (Z.lor LPUART_STAT_TDRE LPUART_STAT_RDRF) mask ≠ 0 → ready_within slow_port 3 a mask.
Proof.
  intros Ha Hm t. pose proof (Z.mod_pos_bound (Z.of_nat (length t)) 3 ltac:(lia)) as Hr.
  exists (Z.to_nat (2 - Z.of_nat (length t) mod 3)). split; [lia|].
  assert (answer slow_port W32 a (polled slow_port a (Z.to_nat (2 - Z.of_nat (length t) mod 3)) t) =
    Z.lor LPUART_STAT_TDRE LPUART_STAT_RDRF) as ->; [|done].
  unfold answer, slow_port at 1. rewrite (proj2 (Z.eqb_neq a _)) by done. rewrite length_polled.
  assert (Z.of_nat (Z.to_nat (2 - Z.of_nat (length t) mod 3) + length t) mod 3 = 2) as ->; [|done].
  pose proof (Z.div_mod (Z.of_nat (length t)) 3 ltac:(lia)).
  replace (Z.of_nat _) with (2 + Z.of_nat (length t) / 3 * 3) by lia. by rewrite Z.mod_add.
Qed.

(** "Hi" and its terminating zero at 0x100. *)
Definition hi_mem (p : Z) : Z := if p =? 0x100 then 72 else if p =? 0x101 then 105 else 0.

Lemma uart_write_sends_witness : ∃ l, uart_write slow_port hi_mem 3 LPUART2 0x100 3 [] = Ret () l ∧
  transmission LPUART2 l [72; 105; 0].
Proof.
  destruct (uart_write_sends slow_port hi_mem 3 LPUART2 0x100 3 []
    (slow_port_ready (LPUART_Type_STAT LPUART2) LPUART_STAT_TDRE ltac:(vm_compute; discriminate) ltac:(vm_compute; discriminate)) ltac:(lia) ltac:(lia)) as (l & E & Ht).
  exists l. split; [exact E|exact Ht].
Defined.

Lemma uart_puts_sends_witness : ∃ l, uart_puts slow_port hi_mem 3 5 LPUART2 0x100 [] = Ret () l ∧
  transmission LPUART2 l [72; 105].
Proof.
  assert (Forall (λ c, c ≠ 0) (bytes_from hi_mem 0x100 2)) as Hn by (repeat constructor; discriminate).
  destruct (uart_puts_sends slow_port hi_mem 3 5 LPUART2 0x100 2 []
    (slow_port_ready (LPUART_Type_STAT LPUART2) LPUART_STAT_TDRE ltac:(vm_compute; discriminate) ltac:(vm_compute; discriminate)) ltac:(lia) ltac:(lia) Hn eq_refl) as (l & E & Ht).
  exists l. split; [exact E|exact Ht].
Defined.

Lemma uart_receives_witness : ∃ l, uart_getc slow_port 3 LPUART2 [] = Ret 0x41 l.
Proof.
  destruct (proj1 (uart_receives slow_port 3 LPUART2 [])
    (slow_port_ready (LPUART_Type_STAT LPUART2) LPUART_STAT_RDRF ltac:(vm_compute; discriminate) ltac:(vm_compute; discriminate))) as (l & v & d & E & _).
  assert (d mod 256 = 0x41) as Ed.
  { assert (match uart_getc slow_port 3 LPUART2 [] with Ret x _ => x | _ => 0 end = 0x41) as Ev by (vm_compute; reflexivity).
    rewrite E in Ev. exact Ev. }
  rewrite Ed in E. eexists. exact E.
Defined.

(** 115200 baud from a 24 MHz clock: the divisor is 13. *)
Lemma uart_init_spec_witness : ∃ t', uart_init example_device LPUART2 UART_CONFIG_DEFAULT CLOCK_OSC_FREQ [] = Ret () t' ∧
  Z.land (content example_init (LPUART_Type_BAUD LPUART2) t') 0x1FFF = 13.
Proof.
  destruct (uart_init_spec example_device example_init LPUART2 UART_CONFIG_DEFAULT CLOCK_OSC_FREQ []
    (conj (example_stores _) (example_stores _)) (List.Forall_nil _) ltac:(done) ltac:(done)) as (t' & E & [F _] & _).
  exists t'. split; [exact E|exact F].
Defined.

(** At 300 baud from 80 MHz the quotient does not fit in the divisor field: the
    port runs at 17730 baud, and nothing reports it. *)
Example uart_init_truncates : ∃ t', uart_init example_device LPUART2 (mkUartConfig 300 8 1 0) 80000000 [] = Ret () t' ∧
  Z.land (content example_init (LPUART_Type_BAUD LPUART2) t') 0x1FFF = 282 ∧ 80000000 / (16 * 300) = 16666 ∧
  80000000 / (16 * 282) = 17730.
Proof. eexists. split; [vm_compute; reflexivity|]. vm_compute. intuition reflexivity. Qed.

(** Seven data bits are configured as eight. *)
Example uart_seven_bits : uart_ctrl (mkUartConfig 115200 7 1 0) = uart_ctrl (mkUartConfig 115200 8 1 0).
Proof. done. Qed.
