(* ===== verification/Startup.v ===== *)
(** * Startup

    [src/startup.c]: the boot header in flash, the vector table and the reset
    handler, on a machine with a peripheral bus, word-addressed memory and the
    rest of the program's state.  The addresses of the sections come from the
    linker; a wait for a status bit gives up the model's fuel after [polls]
    reads, the copy loops after [fuel] words. *)
From S2P Require Import Prelude Critical Imxrt1062 Bus Hal.

(** ** Boot header *)

Definition flash_config : list Z :=
  [0x42464346; 0x56010400; 0; 0x00030301; 0; 0; 0; 0;
   0; 0; 0; 0; 0; 0; 0; 0;
   0; 0; 0; 0; 0; 0; 0; 0;
   0; 0; 0; 0; 0; 0x00010100; 0; 0;
   0x00800000; 0; 0; 0; 0; 0; 0; 0;
   0; 0; 0; 0; 0x0A1804EB; 0x26043206; 0x00000000; 0x00000000;
   0x24040405; 0x00000000; 0x00000000; 0x00000000; 0x00000000; 0x00000000; 0x00000000; 0x00000000;
   0x00000406; 0x00000000; 0x00000000; 0x00000000; 0x00000000; 0x00000000; 0x00000000; 0x00000000;
   0x08180420; 0x00000000; 0x00000000; 0x00000000; 0x00000000; 0x00000000; 0x00000000; 0x00000000;
   0x00000000; 0x00000000; 0x00000000; 0x00000000; 0x00000000; 0x00000000; 0x00000000; 0x00000000;
   0x08180402; 0x00002004; 0x00000000; 0x00000000; 0x00000000; 0x00000000; 0x00000000; 0x00000000;
   0x00000460; 0x00000000; 0x00000000; 0x00000000; 0x00000000; 0x00000000; 0x00000000; 0x00000000;
   0; 0; 0; 0; 0; 0; 0; 0;
   0; 0; 0; 0; 0; 0; 0; 0;
   0x00000100; 0x00001000; 0x00000001; 0x00000000; 0; 0; 0; 0;
   0; 0; 0; 0; 0; 0; 0; 0].
Definition IVT_ADDRESS : Z := 0x60000400.
Definition BOOT_DATA_ADDRESS : Z := 0x60000420.
Definition VECTORS_ADDRESS : Z := 0x60001000.

Definition image_vector_table : list Z :=
  [0x402000D1; VECTORS_ADDRESS; 0; 0; BOOT_DATA_ADDRESS; IVT_ADDRESS; 0; 0].

(** Start and size of the image, plugin flag, reserved. *)
Definition boot_data : list Z := [0x60000000; 0x00100000; 0; 0].

(** ** Vector table *)

Inductive vector : Set :=
| stack_top_word
| Reserved
| Reset_Handler_entry
| NMI_Handler
| HardFault_Handler
| MemManage_Handler
| BusFault_Handler
| UsageFault_Handler
| SVC_Handler_entry
| DebugMon_Handler
| PendSV_Handler_entry
| SysTick_Handler_entry
| Default_Handler.
#[export] Instance vector_eq_dec : EqDecision vector.
Proof. solve_decision. Defined.

Definition vector_table : list vector :=
  [stack_top_word; Reset_Handler_entry; NMI_Handler; HardFault_Handler; MemManage_Handler; BusFault_Handler;
   UsageFault_Handler; Reserved; Reserved; Reserved; Reserved; SVC_Handler_entry; DebugMon_Handler; Reserved;
   PendSV_Handler_entry; SysTick_Handler_entry] ++ replicate 160 Default_Handler.

(** The entry of an interrupt number of [IRQn_Type]. *)
Definition vector_of (IRQn : Z) : option vector := vector_table !! Z.to_nat (IRQn + 16).

(** ** The machine *)

Record machine (V : Type) : Type := mkMachine {
  m_bus : list event;
  m_mem : gmap Z Z;
  m_app : V;
}.
Arguments mkMachine {V} _ _ _.
Arguments m_bus {V} _.
Arguments m_mem {V} _.
Arguments m_app {V} _.

#[export] Program Instance machine_bus {V} : Lens (list event) (machine V) := {|
  view := m_bus; over t w := mkMachine t (m_mem w) (m_app w);
|}.
Solve Obligations with by intros; repeat destruct select (machine _).
#[export] Program Instance machine_mem {V} : Lens (gmap Z Z) (machine V) := {|
  view := m_mem; over m w := mkMachine (m_bus w) m (m_app w);
|}.
Solve Obligations with by intros; repeat destruct select (machine _).
#[export] Program Instance machine_app {V} : Lens V (machine V) := {|
  view := m_app; over v w := mkMachine (m_bus w) (m_mem w) v;
|}.
Solve Obligations with by intros; repeat destruct select (machine _).

(** [*p] and [*p = v] on memory; there is none at an address that is not in the map. *)
Definition load (p : Z) : M (gmap Z Z) Z := λ m, match m !! p with Some v => Ret v m | None => Fault end.
Definition store (p v : Z) : M (gmap Z Z) () := λ m,
  match m !! p with Some _ => Ret () (<[p := v]> m) | None => Fault end.

(** The symbols of the linker script the reset handler uses. *)
Record linker : Set := mkLinker {
  __vectors_start : Z;
  __fast_code_start : Z; __fast_code_end : Z; __fast_code_load : Z;
  __data_start : Z; __data_end : Z; __data_load : Z;
  __bss_start : Z; __bss_end : Z;
}.

(** ** Reset handler *)

Section reset.
Context (dev : device) (polls fuel : nat) (ld : linker).

(** [WDOGn->WCR &= ~WDOG_WCR_WDE]: [n] is 1 or 2. *)
Definition wdog_disable (wdog : Z) : M (list event) () :=
  rmw dev W16 (WDOG_Type_WCR wdog) (λ v, Z.land v (not32 WDOG_WCR_WDE)).

Definition rtwdog_disable : M (list event) () :=
  cs ← read dev W32 (RTWDOG_Type_CS RTWDOG);
  (if negb (Z.land cs RTWDOG_CS_CMD32EN =? 0) then write W32 (RTWDOG_Type_CNT RTWDOG) 0xD928C520
   else write W16 (RTWDOG_Type_CNT RTWDOG) 0xC520 ;; write W16 (RTWDOG_Type_CNT RTWDOG) 0xD928) ;;
  poll dev polls (RTWDOG_Type_CS RTWDOG) RTWDOG_CS_ULK ;;
  write W32 (RTWDOG_Type_TOVAL RTWDOG) 0xFFFF ;;
  rmw dev W32 (RTWDOG_Type_CS RTWDOG) (λ v, Z.lor (Z.land v (not32 RTWDOG_CS_EN)) RTWDOG_CS_UPDATE).

Definition SCB_CPACR : Z := 0xE000ED88.

Definition fpu_enable : M (list event) () :=
  rmw dev W32 SCB_CPACR (λ v, Z.lor v (u32 (Z.shiftl 0xF 20))) ;; __DSB ;; __ISB.

(** [while (dst < end) *dst++ = *src++;] *)
Definition copy_section (src dst end_ : Z) : M (gmap Z Z) () :=
  loop fuel (λ '(src, dst),
    if dst <? end_ then v ← load src; store dst v ;; mret (inl (u32 (src + 4), u32 (dst + 4)))
    else mret (inr ())) (src, dst).

(** [while (dst < end) *dst++ = 0;] *)
Definition zero_section (dst end_ : Z) : M (gmap Z Z) () :=
  loop fuel (λ dst,
    if dst <? end_ then store dst 0 ;; mret (inl (u32 (dst + 4)))
    else mret (inr ())) dst.

Definition vectors_install : M (list event) () :=
  write W32 SCB_VTOR (__vectors_start ld) ;; __DSB ;; __ISB.

Context {V : Type}.

(** The handler up to the call of [main]. *)
Definition reset_init : M (machine V) () :=
  zoom (wdog_disable WDOG1) ;;
  zoom (wdog_disable WDOG2) ;;
  zoom rtwdog_disable ;;
  zoom fpu_enable ;;
  zoom (copy_section (__data_load ld) (__data_start ld) (__data_end ld)) ;;
  zoom (copy_section (__fast_code_load ld) (__fast_code_start ld) (__fast_code_end ld)) ;;
  zoom (zero_section (__bss_start ld) (__bss_end ld)) ;;
  zoom vectors_install.

(** If [main] returns, hang. *)
Definition Reset_Handler (main : M (machine V) ()) : M (machine V) () :=
  reset_init ;; main ;; spin.
End reset.

(** The weak default handlers: all hang, but for the tick's, which returns. *)
Definition weak_handler {S} (v : vector) : M S () :=
  match v with
  | SysTick_Handler_entry => mret ()
  | stack_top_word | Reserved | Reset_Handler_entry => fault
  | _ => spin
  end.

(** ** Memory sections *)

(** The [n] words from [a] on, below the end of the address space. *)
Definition section_at (a n end_ : Z) : Prop := 0 ≤ a ∧ 0 ≤ n ∧ end_ = a + 4 * n ∧ end_ < 2 ^ 32.
Definition in_section (a n p : Z) : Prop := ∃ i, 0 ≤ i < n ∧ p = a + 4 * i.
#[export] Instance in_section_dec a n p : Decision (in_section a n p).
Proof.
  refine (cast_if (decide (0 ≤ p - a < 4 * n ∧ (p - a) mod 4 = 0))).
  - abstract (exists ((p - a) / 4); pose proof (Z.div_mod (p - a) 4 ltac:(lia)); lia).
  - abstract (intros (i & Hi & ->); rewrite Z.add_simpl_l, Z.mul_comm, Z.mod_mul in n0 by lia; lia).
Defined.
Definition mapped (a n : Z) (m : gmap Z Z) : Prop := ∀ p, in_section a n p → is_Some (m !! p).
Definition disjoint_sections (a n b k : Z) : Prop := ∀ p, in_section a n p → ¬ in_section b k p.

Lemma in_section_S a n p : 0 ≤ n → in_section a (n + 1) p ↔ p = a ∨ in_section (a + 4) n p.
Proof.
  intros Hn. split.
  - intros (i & Hi & ->). destruct (decide (i = 0)) as [->|]; [left; lia|]. right. exists (i - 1). lia.
  - intros [->|(i & Hi & ->)]; [exists 0; lia|exists (i + 1); lia].
Qed.

(** What a loop over a section leaves in memory: [f i] in the word [i]. *)
Definition filled (f : Z → option Z) (a n : Z) (m m' : gmap Z Z) : Prop :=
  (∀ i, 0 ≤ i < n → m' !! (a + 4 * i) = f i) ∧ ∀ p, ¬ in_section a n p → m' !! p = m !! p.

Lemma filled_mapped f a n m m' b k : (∀ i, 0 ≤ i < n → is_Some (f i)) →
  filled f a n m m' → mapped b k m → mapped b k m'.
Proof.
  intros Hf [Hin Hout] Hm p Hp. destruct (decide (in_section a n p)) as [(i & Hi & ->)|Hno].
  - rewrite Hin by done. by apply Hf.
  - rewrite Hout by done. by apply Hm.
Qed.

Section copy.
Context (end_ : Z).

Lemma copy_section_ret n : ∀ fuel src dst m, (n < fuel)%nat →
  section_at dst (Z.of_nat n) end_ → 0 ≤ src → src + 4 * Z.of_nat n < 2 ^ 32 →
  mapped src (Z.of_nat n) m → mapped dst (Z.of_nat n) m →
  disjoint_sections src (Z.of_nat n) dst (Z.of_nat n) →
  ∃ m', copy_section fuel src dst end_ m = Ret () m' ∧ filled (λ i, m !! (src + 4 * i)) dst (Z.of_nat n) m m'.
Proof using Type.
  induction n as [|n IH]; intros [|fuel] src dst m Hf (Hd & Hn & He & Hlt) Hs Hsl Hms Hmd Hdis; try lia; unfold copy_section.
  - exists m. split; [|split; [lia|done]]. apply loop_done. by rewrite (proj2 (Z.ltb_ge _ _)) by lia.
  - rewrite Nat2Z.inj_succ in *. unfold Z.succ in *.
    destruct (Hms src) as [v Hv]; [exists 0; lia|]. destruct (Hmd dst) as [u Hu]; [exists 0; lia|].
    assert (load src m = Ret v m) as El by (unfold load; by rewrite Hv).
    assert (store dst v m = Ret () (<[dst := v]> m)) as Es by (unfold store; by rewrite Hu).
    erewrite loop_next.
    2: { rewrite (proj2 (Z.ltb_lt _ _)) by lia. run El. run Es. reflexivity. }
    rewrite !u32_small by lia.
    assert (∀ p, in_section (src + 4) (Z.of_nat n) p → p ≠ dst) as Hne.
    { intros p Hp ->. apply (Hdis dst); [by apply in_section_S; [lia|right]|exists 0; lia]. }
    destruct (IH fuel (src + 4) (dst + 4) (<[dst := v]> m)) as (m' & E & Hin & Hout); [lia|split; lia|lia..| | | |].
    + intros p Hp. rewrite lookup_insert_ne by (by apply not_eq_sym, Hne). apply Hms, in_section_S; [lia|by right].
    + intros p (i & Hi & ->). rewrite lookup_insert_ne by lia. apply Hmd. exists (i + 1). lia.
    + intros p Hp Hp'. apply (Hdis p); apply in_section_S; try lia; by right.
    + exists m'. split; [exact E|split].
      * intros i Hi. destruct (decide (i = 0)) as [->|].
        { rewrite !Z.mul_0_r, !Z.add_0_r. rewrite Hout, lookup_insert_eq by (intros (j & ? & ?); lia). by rewrite Hv. }
        replace (dst + 4 * i) with (dst + 4 + 4 * (i - 1)) by lia. rewrite Hin by lia.
        replace (src + 4 + 4 * (i - 1)) with (src + 4 * i) by lia. apply lookup_insert_ne, not_eq_sym, Hne.
        exists (i - 1). lia.
      * intros p Hp. rewrite in_section_S in Hp by lia. rewrite Hout by tauto. apply lookup_insert_ne. intuition congruence.
Qed.

Lemma zero_section_ret n : ∀ fuel dst m, (n < fuel)%nat → section_at dst (Z.of_nat n) end_ →
  mapped dst (Z.of_nat n) m →
  ∃ m', zero_section fuel dst end_ m = Ret () m' ∧ filled (λ _, Some 0) dst (Z.of_nat n) m m'.
Proof using Type.
  induction n as [|n IH]; intros [|fuel] dst m Hf (Hd & Hn & He & Hlt) Hmd; try lia; unfold zero_section.
  - exists m. split; [|split; [lia|done]]. apply loop_done. by rewrite (proj2 (Z.ltb_ge _ _)) by lia.
  - rewrite Nat2Z.inj_succ in *. unfold Z.succ in *. destruct (Hmd dst) as [u Hu]; [exists 0; lia|].
    assert (store dst 0 m = Ret () (<[dst := 0]> m)) as Es by (unfold store; by rewrite Hu).
    erewrite loop_next.
    2: { rewrite (proj2 (Z.ltb_lt _ _)) by lia. run Es. reflexivity. }
    rewrite !u32_small by lia.
    destruct (IH fuel (dst + 4) (<[dst := 0]> m)) as (m' & E & Hin & Hout); [lia|split; lia| |].
    + intros p (i & Hi & ->). rewrite lookup_insert_ne by lia. apply Hmd. exists (i + 1). lia.
    + exists m'. split; [exact E|split].
      * intros i Hi. destruct (decide (i = 0)) as [->|].
        { rewrite !Z.mul_0_r, !Z.add_0_r. rewrite Hout, lookup_insert_eq by (intros (j & ? & ?); lia). done. }
        replace (dst + 4 * i) with (dst + 4 + 4 * (i - 1)) by lia. apply Hin. lia.
      * intros p Hp. rewrite in_section_S in Hp by lia. rewrite Hout by tauto. apply lookup_insert_ne. intuition congruence.
Qed.
End copy.

(** ** What the reset handler does on the bus *)

(** [v'] is [v] of [w] bits with bit [n] off. *)
Definition bit_off (w n v v' : Z) : Prop :=
  ∀ i, 0 ≤ i < w → Z.testbit v' i = if decide (i = n) then false else Z.testbit v i.

(** Both watchdogs lose their enable bit; the real-time watchdog gets the unlock
    key of its command width, is polled until it reports that it is unlocked,
    gets the longest timeout and is switched off, with updates allowed. *)
Inductive watchdogs_off : list event → Prop :=
| watchdog_steps v1 v1' v2 v2' cs unlock l u c c' :
    bit_off 16 2 v1 v1' → bit_off 16 2 v2 v2' →
    unlock = (if Z.testbit cs 13 then [Wr W32 (RTWDOG_Type_CNT RTWDOG) RTWDOG_UPDATE_KEY]
              else [Wr W16 (RTWDOG_Type_CNT RTWDOG) WDOG_UNLOCK_SEQ1; Wr W16 (RTWDOG_Type_CNT RTWDOG) WDOG_UNLOCK_SEQ2]) →
    Forall (busy (RTWDOG_Type_CS RTWDOG) RTWDOG_CS_ULK) l → Z.testbit u 11 = true →
    (∀ i, 0 ≤ i < 32 → Z.testbit c' i = if decide (i = 7) then false else if decide (i = 5) then true else Z.testbit c i) →
    watchdogs_off (
      [Rd W16 (WDOG_Type_WCR WDOG1) v1; Wr W16 (WDOG_Type_WCR WDOG1) v1';
       Rd W16 (WDOG_Type_WCR WDOG2) v2; Wr W16 (WDOG_Type_WCR WDOG2) v2'; Rd W32 (RTWDOG_Type_CS RTWDOG) cs] ++
      unlock ++ l ++
      [Rd W32 (RTWDOG_Type_CS RTWDOG) u; Wr W32 (RTWDOG_Type_TOVAL RTWDOG) 0xFFFF;
       Rd W32 (RTWDOG_Type_CS RTWDOG) c; Wr W32 (RTWDOG_Type_CS RTWDOG) c']).

(** Full access to the floating-point unit, then barriers; the vector table,
    then barriers. *)
Definition fpu_on (l : list event) : Prop := ∃ v v', l = [Rd W32 SCB_CPACR v; Wr W32 SCB_CPACR v'; DSB; ISB] ∧
  ∀ i, 0 ≤ i < 32 → Z.testbit v' i = bool_decide (20 ≤ i < 24) || Z.testbit v i.
Definition vectors_on (a : Z) : list event := [Wr W32 SCB_VTOR a; DSB; ISB].

Lemma land_not_bit v n i : 0 ≤ n < 32 → 0 ≤ i < 32 →
  Z.testbit (Z.land v (not32 (bit n))) i = if decide (i = n) then false else Z.testbit v i.
Proof.
  intros Hn Hi. rewrite Z.land_spec, testbit_not32, testbit_bit, bool_decide_true by lia.
  case_decide; [by rewrite bool_decide_true, andb_false_r|]. by rewrite bool_decide_false, andb_true_r.
Qed.

Lemma wdog_disable_ret dev wdog t : ∃ v v', wdog_disable dev wdog t =
  Ret () (t ++ [Rd W16 (WDOG_Type_WCR wdog) v; Wr W16 (WDOG_Type_WCR wdog) v']) ∧ bit_off 16 2 v v'.
Proof.
  eexists _, _. split; [apply rmw_ret|]. intros i Hi. unfold trunc. simpl bits.
  rewrite Z.mod_pow2_bits_low by lia. apply land_not_bit; lia.
Qed.

Lemma lor_update v i : 0 ≤ i < 32 →
  Z.testbit (Z.lor (Z.land v (not32 RTWDOG_CS_EN)) RTWDOG_CS_UPDATE) i =
  if decide (i = 7) then false else if decide (i = 5) then true else Z.testbit v i.
Proof.
  intros Hi. unfold RTWDOG_CS_EN, RTWDOG_CS_UPDATE. rewrite Z.lor_spec, land_not_bit, testbit_bit by lia.
  repeat case_decide; try lia; [by rewrite bool_decide_false by lia|by rewrite bool_decide_true, orb_true_r|].
  by rewrite bool_decide_false, orb_false_r.
Qed.

Lemma rtwdog_disable_ret dev polls t : ready_within dev polls (RTWDOG_Type_CS RTWDOG) RTWDOG_CS_ULK →
  ∃ cs l u c c', rtwdog_disable dev polls t = Ret () (t ++ [Rd W32 (RTWDOG_Type_CS RTWDOG) cs] ++
    (if Z.testbit cs 13 then [Wr W32 (RTWDOG_Type_CNT RTWDOG) RTWDOG_UPDATE_KEY]
     else [Wr W16 (RTWDOG_Type_CNT RTWDOG) WDOG_UNLOCK_SEQ1; Wr W16 (RTWDOG_Type_CNT RTWDOG) WDOG_UNLOCK_SEQ2]) ++ l ++
    [Rd W32 (RTWDOG_Type_CS RTWDOG) u; Wr W32 (RTWDOG_Type_TOVAL RTWDOG) 0xFFFF;
     Rd W32 (RTWDOG_Type_CS RTWDOG) c; Wr W32 (RTWDOG_Type_CS RTWDOG) c']) ∧
  Forall (busy (RTWDOG_Type_CS RTWDOG) RTWDOG_CS_ULK) l ∧ Z.testbit u 11 = true ∧
  ∀ i, 0 ≤ i < 32 → Z.testbit c' i = if decide (i = 7) then false else if decide (i = 5) then true else Z.testbit c i.
Proof.
  intros Hr. set (cs := answer dev W32 (RTWDOG_Type_CS RTWDOG) t).
  set (unlock := if Z.testbit cs 13 then [Wr W32 (RTWDOG_Type_CNT RTWDOG) RTWDOG_UPDATE_KEY]
    else [Wr W16 (RTWDOG_Type_CNT RTWDOG) WDOG_UNLOCK_SEQ1; Wr W16 (RTWDOG_Type_CNT RTWDOG) WDOG_UNLOCK_SEQ2]).
  set (t1 := (t ++ [Rd W32 (RTWDOG_Type_CS RTWDOG) cs]) ++ unlock).
  destruct (poll_ret _ _ _ _ t1 Hr) as (l & u & E & Hl & Hu).
  exists cs, l, u. eexists _, _. split_and!; [|done| |].
  - unfold rtwdog_disable. run (read_ret dev W32 (RTWDOG_Type_CS RTWDOG) t). fold cs.
    rewrite (bind_ret _ _ _ () t1).
    2: { unfold RTWDOG_CS_CMD32EN, t1, unlock. rewrite land_bit by lia.
      destruct (Z.testbit cs 13); [done|]. cbn [negb Z.eqb]. run (write_ret W16 (RTWDOG_Type_CNT RTWDOG) 0xC520 (t ++ [Rd W32 (RTWDOG_Type_CS RTWDOG) cs])).
      rewrite write_ret. by rewrite <- app_assoc. }
    run E. erewrite bind_ret by apply write_ret. rewrite rmw_ret. unfold t1. by rewrite <- !app_assoc.
  - unfold RTWDOG_CS_ULK in Hu. rewrite land_bit in Hu by lia. by destruct (Z.testbit u 11).
  - intros i Hi. unfold trunc at 1. simpl bits. rewrite Z.mod_pow2_bits_low by lia. by apply lor_update.
Qed.

Lemma fpu_enable_ret dev t : ∃ l, fpu_enable dev t = Ret () (t ++ l) ∧ fpu_on l.
Proof.
  eexists. split.
  - unfold fpu_enable. run (rmw_ret dev W32 SCB_CPACR (λ v, Z.lor v (u32 (Z.shiftl 0xF 20))) t).
    unfold __DSB, __ISB, emit. step. unfold modify. by rewrite <- !app_assoc.
  - eexists _, _. split; [reflexivity|]. intros i Hi. unfold trunc at 1. simpl bits.
    rewrite Z.mod_pow2_bits_low, Z.lor_spec, orb_comm, testbit_u32, bool_decide_true, Z.shiftl_spec by lia.
    f_equal. change 0xF with (Z.ones 4). case_bool_decide.
    + apply Z.ones_spec_low. lia.
    + destruct (decide (i < 20)); [by apply Z.testbit_neg_r; lia|apply Z.ones_spec_high; lia].
Qed.

(** ** The reset handler *)

(** The sections of the image in memory: [nd], [nf] and [nb] words of data, fast
    code and zeroed variables; none overlaps what is copied after it. *)
Record image_ok (ld : linker) (nd nf nb : Z) (m : gmap Z Z) : Prop := {
  data_at : section_at (__data_start ld) nd (__data_end ld);
  data_load_at : 0 ≤ __data_load ld ∧ __data_load ld + 4 * nd < 2 ^ 32;
  fast_at : section_at (__fast_code_start ld) nf (__fast_code_end ld);
  fast_load_at : 0 ≤ __fast_code_load ld ∧ __fast_code_load ld + 4 * nf < 2 ^ 32;
  bss_at : section_at (__bss_start ld) nb (__bss_end ld);
  data_mapped : mapped (__data_start ld) nd m;
  data_load_mapped : mapped (__data_load ld) nd m;
  fast_mapped : mapped (__fast_code_start ld) nf m;
  fast_load_mapped : mapped (__fast_code_load ld) nf m;
  bss_mapped : mapped (__bss_start ld) nb m;
  data_load_apart : disjoint_sections (__data_load ld) nd (__data_start ld) nd;
  fast_load_apart : disjoint_sections (__fast_code_load ld) nf (__fast_code_start ld) nf;
  fast_load_data : disjoint_sections (__fast_code_load ld) nf (__data_start ld) nd;
  data_fast : disjoint_sections (__data_start ld) nd (__fast_code_start ld) nf;
  data_bss : disjoint_sections (__data_start ld) nd (__bss_start ld) nb;
  fast_bss : disjoint_sections (__fast_code_start ld) nf (__bss_start ld) nb;
}.

(** Memory as C code expects it: variables with their initial values, the code
    of the fast section in place, other variables zero, all else untouched. *)
Definition memory_ready (ld : linker) (nd nf nb : Z) (m m' : gmap Z Z) : Prop :=
  (∀ i, 0 ≤ i < nd → m' !! (__data_start ld + 4 * i) = m !! (__data_load ld + 4 * i)) ∧
  (∀ i, 0 ≤ i < nf → m' !! (__fast_code_start ld + 4 * i) = m !! (__fast_code_load ld + 4 * i)) ∧
  (∀ i, 0 ≤ i < nb → m' !! (__bss_start ld + 4 * i) = Some 0) ∧
  ∀ p, ¬ in_section (__data_start ld) nd p → ¬ in_section (__fast_code_start ld) nf p →
    ¬ in_section (__bss_start ld) nb p → m' !! p = m !! p.

Lemma word_in_section a n i : 0 ≤ i < n → in_section a n (a + 4 * i).
Proof. intros Hi. by exists i. Qed.

Section memory.
Context (ld : linker) (fuel : nat).


Lemma memory_init_ret nd nf nb m : image_ok ld nd nf nb m → nd < Z.of_nat fuel → nf < Z.of_nat fuel → nb < Z.of_nat fuel →
  ∃ m1 m2 m', copy_section fuel (__data_load ld) (__data_start ld) (__data_end ld) m = Ret () m1 ∧
    copy_section fuel (__fast_code_load ld) (__fast_code_start ld) (__fast_code_end ld) m1 = Ret () m2 ∧
    zero_section fuel (__bss_start ld) (__bss_end ld) m2 = Ret () m' ∧ memory_ready ld nd nf nb m m'.
Proof using Type.
  intros [Hd Hdl Hf Hfl Hb Md Mdl Mf Mfl Mb Ad Af Afd Adf Adb Afb] Fd Ff Fb.
  destruct (Z_of_nat_complete nd ltac:(apply Hd)) as [n ->], (Z_of_nat_complete nf ltac:(apply Hf)) as [k ->],
    (Z_of_nat_complete nb ltac:(apply Hb)) as [j ->].
  destruct (copy_section_ret _ n fuel (__data_load ld) (__data_start ld) m ltac:(lia) Hd (proj1 Hdl) (proj2 Hdl) Mdl Md Ad)
    as (m1 & E1 & F1).
  assert (∀ a c, mapped a c m → mapped a c m1) as K1.
  { intros a c. apply (filled_mapped _ _ _ _ _ a c (λ i Hi, Mdl _ (word_in_section _ _ i Hi)) F1). }
  destruct (copy_section_ret _ k fuel (__fast_code_load ld) (__fast_code_start ld) m1 ltac:(lia) Hf (proj1 Hfl)
    (proj2 Hfl) (K1 _ _ Mfl) (K1 _ _ Mf) Af) as (m2 & E2 & F2).
  assert (mapped (__bss_start ld) (Z.of_nat j) m2) as Mb2.
  { apply (filled_mapped _ _ _ _ _ _ _ (λ i Hi, K1 _ _ Mfl _ (word_in_section _ _ i Hi)) F2), K1, Mb. }
  destruct (zero_section_ret _ j fuel (__bss_start ld) m2 ltac:(lia) Hb Mb2) as (m' & E3 & F3).
  exists m1, m2, m'. destruct F1 as [I1 O1], F2 as [I2 O2], F3 as [I3 O3]. split_and!; [done..|]. split_and!.
  - intros i Hi. pose proof (word_in_section (__data_start ld) _ i Hi) as Hw.
    rewrite O3, O2, I1 by (done || by apply Adb || by apply Adf). done.
  - intros i Hi. rewrite O3, I2 by (done || by apply Afb, word_in_section).
    apply O1, Afd, word_in_section, Hi.
  - exact I3.
  - intros p H1 H2 H3. by rewrite O3, O2, O1.
Qed.
End memory.

Lemma reset_ret {V} dev polls fuel ld nd nf nb main (w : machine V) :
  ready_within dev polls (RTWDOG_Type_CS RTWDOG) RTWDOG_CS_ULK → image_ok ld nd nf nb (m_mem w) →
  0 ≤ __vectors_start ld < 2 ^ 32 → nd < Z.of_nat fuel → nf < Z.of_nat fuel → nb < Z.of_nat fuel →
  ∃ dogs fpu w', Reset_Handler dev polls fuel ld main w = (main ;; spin) w' ∧
    m_bus w' = m_bus w ++ dogs ++ fpu ++ vectors_on (__vectors_start ld) ∧ watchdogs_off dogs ∧ fpu_on fpu ∧
    memory_ready ld nd nf nb (m_mem w) (m_mem w') ∧ m_app w' = m_app w.
Proof.
  intros Hr Him Hv Fd Ff Fb. destruct w as [t m a]. simpl m_bus. simpl m_mem in *.
  destruct (wdog_disable_ret dev WDOG1 t) as (v1 & v1' & E1 & B1).
  destruct (wdog_disable_ret dev WDOG2 (t ++ [Rd W16 (WDOG_Type_WCR WDOG1) v1; Wr W16 (WDOG_Type_WCR WDOG1) v1'])) as (v2 & v2' & E2 & B2).
  match type of E2 with _ = Ret _ ?x => set (t2 := x) in * end.
  destruct (rtwdog_disable_ret dev polls t2 Hr) as (cs & l & u & c & c' & E3 & Hl & Hu & Hc).
  match type of E3 with _ = Ret _ ?x => set (t3 := x) in * end.
  assert (∃ dogs, t3 = t ++ dogs ∧ watchdogs_off dogs) as (dogs & Edogs & Hdogs).
  { eexists. split; [|exact (watchdog_steps v1 v1' v2 v2' cs _ l u c c' B1 B2 eq_refl Hl Hu Hc)].
    unfold t3, t2. by rewrite <- !app_assoc. }
  destruct (fpu_enable_ret dev t3) as (fpu & E4 & Hfpu).
  destruct (memory_init_ret ld fuel nd nf nb m Him Fd Ff Fb) as (m1 & m2 & m' & E5 & E6 & E7 & Hm).
  assert (vectors_install ld (t3 ++ fpu) = Ret () ((t3 ++ fpu) ++ vectors_on (__vectors_start ld))) as E8.
  { unfold vectors_install. erewrite bind_ret by apply write_ret. rewrite trunc_word by done.
    unfold __DSB, __ISB, emit. step. unfold modify. by rewrite <- !app_assoc. }
  exists dogs, fpu, (mkMachine ((t3 ++ fpu) ++ vectors_on (__vectors_start ld)) m' a). split_and!.
  - unfold Reset_Handler, reset_init. rewrite (bind_ret _ _ _ () (mkMachine ((t3 ++ fpu) ++ vectors_on (__vectors_start ld)) m' a)); [done|].
    run (zoom_ret (L := machine_bus) _ (mkMachine t m a) _ _ E1).
    erewrite bind_ret by (apply (zoom_ret (L := machine_bus)); exact E2).
    erewrite bind_ret by (apply (zoom_ret (L := machine_bus)); exact E3).
    erewrite bind_ret by (apply (zoom_ret (L := machine_bus)); exact E4).
    erewrite bind_ret by (apply (zoom_ret (L := machine_mem)); exact E5).
    erewrite bind_ret by (apply (zoom_ret (L := machine_mem)); exact E6).
    erewrite bind_ret by (apply (zoom_ret (L := machine_mem)); exact E7).
    exact (zoom_ret (L := machine_bus) _ (mkMachine (t3 ++ fpu) m' a) _ _ E8).
  - simpl. by rewrite Edogs, <- !app_assoc.
  - done.
  - done.
  - done.
  - done.
Qed.

(** C24: The reset handler terminates and hands [main] a working machine: the
    first thing it does on the bus is to switch off the three watchdogs in the
    required order, whatever the command width of the real-time watchdog, then
    it enables the floating-point unit; in memory the initialised variables and
    the fast code have their load values, the other variables are zero and
    nothing else has changed; last, the vector table is installed.  If [main]
    returns, the handler hangs. *)
Theorem reset_ready {V} dev polls fuel ld nd nf nb main (w : machine V) :
  ready_within dev polls (RTWDOG_Type_CS RTWDOG) RTWDOG_CS_ULK → image_ok ld nd nf nb (m_mem w) →
  0 ≤ __vectors_start ld < 2 ^ 32 → nd < Z.of_nat fuel → nf < Z.of_nat fuel → nb < Z.of_nat fuel →
  ∃ dogs fpu w', Reset_Handler dev polls fuel ld main w = (main ;; spin) w' ∧
    m_bus w' = m_bus w ++ dogs ++ fpu ++ vectors_on (__vectors_start ld) ∧ watchdogs_off dogs ∧ fpu_on fpu ∧
    memory_ready ld nd nf nb (m_mem w) (m_mem w') ∧ m_app w' = m_app w.
Proof. apply reset_ret. Qed.

(** ** The tables in flash *)

(** The vector table is the one the processor expects: sixteen system
    entries, the stack top and the reset handler first, and one entry for each of
    160 interrupts; the handlers of the kernel are at the numbers of their
    exceptions, as are the fault handlers; and an external interrupt, for which
    the program has no handler, hangs the system, while a tick without one
    returns. *)
Theorem vector_table_layout :
  length vector_table = 176%nat ∧
  vector_table !! 0%nat = Some stack_top_word ∧ vector_table !! 1%nat = Some Reset_Handler_entry ∧
  vector_of SVCall_IRQn = Some SVC_Handler_entry ∧ vector_of PendSV_IRQn = Some PendSV_Handler_entry ∧
  vector_of SysTick_IRQn = Some SysTick_Handler_entry ∧
  vector_of NonMaskableInt_IRQn = Some NMI_Handler ∧ vector_of HardFault_IRQn = Some HardFault_Handler ∧
  vector_of MemoryManagement_IRQn = Some MemManage_Handler ∧ vector_of BusFault_IRQn = Some BusFault_Handler ∧
  vector_of UsageFault_IRQn = Some UsageFault_Handler ∧ vector_of DebugMonitor_IRQn = Some DebugMon_Handler ∧
  (∀ n, 0 ≤ n < 160 → vector_of n = Some Default_Handler) ∧
  ∀ S (s : S), weak_handler Default_Handler s = Spin s ∧ weak_handler SysTick_Handler_entry s = Ret () s.
Proof.
  split_and!; try reflexivity; [|done].
  intros n Hn. unfold vector_of, vector_table. rewrite lookup_app_r by (simpl; lia).
  apply lookup_replicate. simpl. split; [done|lia].
Qed.

(** The bytes of a word, and a big-endian half-word in the middle two. *)
Definition byte_of (i w : Z) : Z := Z.land (Z.shiftr w (8 * i)) 0xFF.

(** The boot header is consistent: the image vector table names its own
    address, gives its own length, and points to the boot data right behind it
    and to a vector table that lies inside the image the boot data describes,
    behind the header, aligned for its size; the flash configuration block has
    its 512 bytes and the flash geometry at the documented offsets. *)
Theorem boot_header_layout :
  image_vector_table !! 5%nat = Some IVT_ADDRESS ∧
  image_vector_table !! 4%nat = Some (IVT_ADDRESS + 4 * Z.of_nat (length image_vector_table)) ∧
  (∃ h, image_vector_table !! 0%nat = Some h ∧ byte_of 0 h = 0xD1 ∧
    byte_of 1 h * 256 + byte_of 2 h = 4 * Z.of_nat (length image_vector_table)) ∧
  (∃ start size vectors, boot_data !! 0%nat = Some start ∧ boot_data !! 1%nat = Some size ∧
    image_vector_table !! 1%nat = Some vectors ∧ start ≤ IVT_ADDRESS ∧
    BOOT_DATA_ADDRESS + 4 * Z.of_nat (length boot_data) ≤ vectors ∧
    vectors + 4 * Z.of_nat (length vector_table) ≤ start + size ∧
    4 * Z.of_nat (length vector_table) ≤ 1024 ∧ vectors mod 1024 = 0) ∧
  4 * Z.of_nat (length flash_config) = 512 ∧ boot_data !! 0%nat = Some (IVT_ADDRESS - 0x400) ∧
  flash_config !! Z.to_nat (0x080 / 4) = Some (8 * 1024 * 1024) ∧
  flash_config !! Z.to_nat (0x1C0 / 4) = Some 256 ∧ flash_config !! Z.to_nat (0x1C4 / 4) = Some 4096.
Proof.
  split; [reflexivity|]. split; [reflexivity|]. split; [by exists 0x402000D1|]. split; [|by split_and!].
  exists 0x60000000, 0x00100000, VECTORS_ADDRESS. by split_and!.
Qed.

(** ** An instance *)

(** Three words of data, one of fast code, two zeroed. *)
Definition example_linker : linker :=
  mkLinker 0x60001000 0 4 0x60008000 0x20000000 0x2000000C 0x60008004 0x2000000C 0x20000014.
Definition example_memory : gmap Z Z := list_to_map
  [(0, 99); (0x60008000, 11); (0x60008004, 21); (0x60008008, 22); (0x6000800C, 23); (0x20000000, 99);
   (0x20000004, 99); (0x20000008, 99); (0x2000000C, 99); (0x20000010, 99); (0x20000014, 99)].

(** A device whose registers all read as all ones. *)
Definition ones_device : device := λ _ _ _, 0xFFFFFFFF.

Lemma mapped_check a n m : 0 ≤ n → forallb (λ i, bool_decide (is_Some (m !! (a + 4 * i)))) (seqZ 0 n) = true →
  mapped a n m.
Proof.
  intros Hn H p (i & Hi & ->). rewrite forallb_forall in H. specialize (H i).
  rewrite bool_decide_eq_true in H. apply H, list_elem_of_In, elem_of_seqZ. lia.
Qed.

Lemma example_image : image_ok example_linker 3 1 2 example_memory.
Proof.
  split; try (apply mapped_check; [lia|by vm_compute]); unfold section_at, disjoint_sections, in_section; simpl; try lia.
  all: intros p (i & Hi & ->) (j & Hj & E); lia.
Qed.

Lemma reset_ready_witness : ∃ w', Reset_Handler ones_device 1 4 example_linker (mret ()) (mkMachine [] example_memory ()) = Spin w' ∧
  m_mem w' !! 0x20000004 = Some 22 ∧ m_mem w' !! 0 = Some 11 ∧ m_mem w' !! 0x20000010 = Some 0 ∧
  m_mem w' !! 0x20000014 = Some 99.
Proof.
  assert (ready_within ones_device 1 (RTWDOG_Type_CS RTWDOG) RTWDOG_CS_ULK) as Hr.
  { intros t. exists 0%nat. split; [lia|discriminate]. }
  destruct (reset_ready ones_device 1 4 example_linker 3 1 2 (mret ()) (mkMachine [] example_memory ()) Hr example_image
    ltac:(done) ltac:(done) ltac:(done) ltac:(done)) as (dogs & fpu & w' & E & _ & _ & _ & (Hd & Hf & Hb & Ho) & _).
  exists w'. split; [exact E|]. split; [exact (Hd 1 ltac:(lia))|]. split; [exact (Hf 0 ltac:(lia))|].
  split; [exact (Hb 1 ltac:(lia))|]. apply Ho; intros (i & Hi & Ei); simpl in Ei; lia.
Defined.
