(* ===== verification/Hooks.v ===== *)
(** * Hooks and the idle task

    The weak hooks and the idle task of [kernel/kernel.c], on the machine, and
    the tick rate of [kernel/kernel.h]. *)
From S2P Require Import Prelude Config Bus.

Definition kernel_get_tick_rate {S} : M S Z := mret CONFIG_TICK_RATE_HZ.

Definition kernel_idle_hook : M (list event) () := __WFI.

(** [while (1) { __WFI(); }]; the arguments are not used. *)
Definition kernel_stack_overflow_hook {S} (tcb : ptr) : M S () := spin.
Definition kernel_assert_failed {S} (file : ptr) (line : Z) : M S () := spin.

(** The loop of the idle task, never left; [hook] is [kernel_idle_hook] or the
    application's. *)
Definition idle_task {S} (hook : M S ()) (fuel : nat) (arg : ptr) : M S () :=
  loop fuel (λ _ : (), hook ;; mret (inl ())) ().

(** What has happened after [n] rounds of a loop that is never left. *)
Fixpoint rounds {S} (n : nat) (body : M S ()) : M S () :=
  match n with O => mret () | Datatypes.S n' => body ;; rounds n' body end.

Lemma rounds_idle n t : rounds n kernel_idle_hook t = Ret () (t ++ replicate n WFI).
Proof.
  revert t. induction n as [|n IH]; intros t; simpl; [by rewrite app_nil_r|].
  unfold kernel_idle_hook at 1, __WFI, emit. step. rewrite IH. by rewrite <- app_assoc.
Qed.

(** The idle task never returns: whatever the fuel, it is in its loop, and every
    round before that only waits for an interrupt. *)
Lemma idle_task_waits fuel arg t : idle_task kernel_idle_hook fuel arg t = Diverge ∧
  rounds fuel kernel_idle_hook t = Ret () (t ++ replicate fuel WFI).
Proof.
  split; [|apply rounds_idle]. unfold idle_task. revert t. induction fuel as [|n IH]; intros t; [done|].
  erewrite loop_next; [apply IH|reflexivity].
Qed.
