(* ===== verification/Bitmap.v ===== *)
(** * Priority bitmap

    The helpers of [kernel/scheduler.h] on the 32-bit word in which bit [n]
    says that priority [n] has a ready task. *)
From S2P Require Import Prelude Config.

(** [__builtin_ctz] of a non-zero word: the position of its lowest set bit. *)
Fixpoint ctz_from (n : nat) (i : Z) (bitmap : Z) : Z :=
  match n with
  | O => i
  | S n' => if Z.testbit bitmap i then i else ctz_from n' (i + 1) bitmap
  end.
Definition builtin_ctz (bitmap : Z) : Z := ctz_from 32 0 bitmap.

Definition bitmap_find_highest (bitmap : Z) : Z :=
  if bitmap =? 0 then CONFIG_MAX_PRIORITY else u8 (builtin_ctz bitmap).

Definition bitmap_set (bitmap b : Z) : Z := Z.lor bitmap (bit b).
Definition bitmap_clear (bitmap b : Z) : Z := Z.land bitmap (not32 (bit b)).
Definition bitmap_test (bitmap b : Z) : bool := negb (Z.land bitmap (bit b) =? 0).

Lemma ctz_from_spec n i bm :
  (i ≤ ctz_from n i bm ≤ i + Z.of_nat n) ∧
  (∀ j, i ≤ j < ctz_from n i bm → Z.testbit bm j = false) ∧
  (ctz_from n i bm < i + Z.of_nat n → Z.testbit bm (ctz_from n i bm) = true).
Proof.
  revert i. induction n as [|n IH]; intros i; simpl.
  - repeat split; intros; lia.
  - destruct (Z.testbit bm i) eqn:E.
    + repeat split; intros; done || lia.
    + destruct (IH (i + 1)) as (? & Hlow & Hhit). repeat split; [lia..| |].
      * intros j ?. destruct (decide (j = i)) as [->|]; [done|apply Hlow; lia].
      * intros ?. apply Hhit. lia.
Qed.

Lemma testbit_set bm b i : 0 ≤ b < 32 → 0 ≤ i →
  Z.testbit (bitmap_set bm b) i = Z.testbit bm i || bool_decide (i = b).
Proof. intros. unfold bitmap_set. by rewrite Z.lor_spec, testbit_bit. Qed.

Lemma testbit_clear bm b i : 0 ≤ bm < 2 ^ 32 → 0 ≤ b < 32 → 0 ≤ i →
  Z.testbit (bitmap_clear bm b) i = Z.testbit bm i && negb (bool_decide (i = b)).
Proof.
  intros Hbm Hb Hi. unfold bitmap_clear.
  rewrite Z.land_spec, testbit_not32, testbit_bit by lia.
  case_bool_decide; [done|]. rewrite <- (u32_small bm), testbit_u32 by lia.
  by rewrite bool_decide_false by lia.
Qed.

Lemma bitmap_set_range bm b : 0 ≤ bm < 2 ^ 32 → 0 ≤ bitmap_set bm b < 2 ^ 32.
Proof. intros. apply lor_range; [done|apply u32_range]. Qed.

Lemma bitmap_clear_range bm b : 0 ≤ bm < 2 ^ 32 → 0 ≤ bitmap_clear bm b < 2 ^ 32.
Proof. apply land_range. Qed.

(** Membership reads one bit. *)
Lemma bitmap_test_bit bm b : 0 ≤ b < 32 → bitmap_test bm b = Z.testbit bm b.
Proof.
  intros Hb. unfold bitmap_test. destruct (Z.testbit bm b) eqn:E.
  - apply negb_true_iff, Z.eqb_neq. intros H0.
    assert (Z.testbit (Z.land bm (bit b)) b = true) as H1.
    { rewrite Z.land_spec, testbit_bit, bool_decide_true, E by lia. done. }
    rewrite H0, Z.bits_0 in H1. done.
  - apply negb_false_iff, Z.eqb_eq. apply Z.bits_inj'. intros i Hi.
    rewrite Z.land_spec, testbit_bit, Z.bits_0 by lia.
    case_bool_decide; [subst; by rewrite E|apply andb_false_r].
Qed.

(** The lookup returns the lowest set bit, and [CONFIG_MAX_PRIORITY] exactly
    when no bit is set. *)
Lemma find_highest_zero : bitmap_find_highest 0 = CONFIG_MAX_PRIORITY.
Proof. done. Qed.

Lemma find_highest_spec bm : 0 ≤ bm < 2 ^ 32 → bm ≠ 0 →
  0 ≤ bitmap_find_highest bm < 32 ∧
  Z.testbit bm (bitmap_find_highest bm) = true ∧
  (∀ j, 0 ≤ j < bitmap_find_highest bm → Z.testbit bm j = false).
Proof.
  intros Hbm Hne. unfold bitmap_find_highest. rewrite (proj2 (Z.eqb_neq _ _) Hne).
  destruct (ctz_from_spec 32 0 bm) as (Hr & Hlow & Hhit).
  fold (builtin_ctz bm) in *. change (Z.of_nat 32) with 32 in *.
  assert (builtin_ctz bm < 32) as Hlt.
  { destruct (Z.lt_ge_cases (builtin_ctz bm) 32) as [|Hge]; [done|].
    exfalso. apply Hne. apply word_ext; [done|lia|]. intros i Hi.
    rewrite Z.bits_0. apply Hlow. lia. }
  rewrite u8_small by lia.
  split; [lia|]. split; [apply Hhit; lia|]. intros j ?. apply Hlow. lia.
Qed.

(** Characterisation by the bits alone. *)
Lemma find_highest_eq bm p : 0 ≤ bm < 2 ^ 32 → 0 ≤ p < 32 →
  Z.testbit bm p = true → (∀ j, 0 ≤ j < p → Z.testbit bm j = false) →
  bitmap_find_highest bm = p.
Proof.
  intros Hbm Hp Hhit Hlow.
  assert (bm ≠ 0) as Hne by (intros ->; by rewrite Z.bits_0 in Hhit).
  destruct (find_highest_spec bm Hbm Hne) as (Hr & Hhit' & Hlow').
  destruct (Z.lt_trichotomy (bitmap_find_highest bm) p) as [Hlt|[|Hlt]]; [|done|].
  - rewrite Hlow in Hhit' by lia. done.
  - rewrite Hlow' in Hhit by lia. done.
Qed.

(** C38: The bitmap is a set of priorities: [bitmap_set] adds and [bitmap_clear]
    removes exactly the given one, and [bitmap_find_highest] finds its least
    member, [CONFIG_MAX_PRIORITY] when it is empty. *)
Theorem bitmap_is_set bm b p : 0 ≤ bm < 2 ^ 32 → 0 ≤ b < 32 → 0 ≤ p < 32 →
  bitmap_test (bitmap_set bm b) p = bitmap_test bm p || (p =? b) ∧
  bitmap_test (bitmap_clear bm b) p = bitmap_test bm p && negb (p =? b) ∧
  (bitmap_find_highest bm = p ↔
    bitmap_test bm p = true ∧ ∀ q, 0 ≤ q < p → bitmap_test bm q = false) ∧
  (bitmap_find_highest bm = CONFIG_MAX_PRIORITY ↔ ∀ q, 0 ≤ q < 32 → bitmap_test bm q = false).
Proof.
  intros Hbm Hb Hp. rewrite !bitmap_test_bit, testbit_set, testbit_clear by (try done; lia).
  assert (bool_decide (p = b) = (p =? b)) as ->.
  { destruct (Z.eqb_spec p b); [by apply bool_decide_true|by apply bool_decide_false]. }
  split_and!; try done.
  - split.
    + intros E. destruct (decide (bm = 0)) as [->|Hn].
      { rewrite find_highest_zero in E. unfold CONFIG_MAX_PRIORITY in E. lia. }
      destruct (find_highest_spec bm Hbm Hn) as (_ & Hhit & Hlow). rewrite E in *. split; [done|].
      intros q Hq. rewrite bitmap_test_bit by lia. by apply Hlow.
    + intros [Hhit Hlow]. apply find_highest_eq; try done. intros j Hj.
      rewrite <- bitmap_test_bit by lia. by apply Hlow.
  - split.
    + intros E q Hq. destruct (decide (bm = 0)) as [->|Hn]; [by rewrite bitmap_test_bit, Z.bits_0 by lia|].
      destruct (find_highest_spec bm Hbm Hn) as (Hr & _). rewrite E in Hr. unfold CONFIG_MAX_PRIORITY in Hr. lia.
    + intros Hq. destruct (decide (bm = 0)) as [->|Hn]; [done|].
      destruct (find_highest_spec bm Hbm Hn) as (Hr & Hhit & _).
      rewrite <- bitmap_test_bit, Hq in Hhit by lia. done.
Qed.

Lemma bitmap_is_set_witness :
  bitmap_test (bitmap_set 6 4) 1 = bitmap_test 6 1 || (1 =? 4) ∧
  bitmap_test (bitmap_clear 6 4) 1 = bitmap_test 6 1 && negb (1 =? 4) ∧
  (bitmap_find_highest 6 = 1 ↔
    bitmap_test 6 1 = true ∧ ∀ q, 0 ≤ q < 1 → bitmap_test 6 q = false) ∧
  (bitmap_find_highest 6 = CONFIG_MAX_PRIORITY ↔ ∀ q, 0 ≤ q < 32 → bitmap_test 6 q = false).
Proof. apply (bitmap_is_set 6 4 1); lia. Defined.
