(* ===== verification/TcbList.v ===== *)
(** * Doubly linked lists of task control blocks

    The scheduler threads its ready and blocked queues through the [next] and
    [prev] fields of the TCBs.  This file relates such a chain in the TCB store
    to the list of the tasks on it, gives the effect of the three pointer
    manipulations of [kernel/scheduler.c] (append at the tail, push at the
    head, unlink), and extends them to a family of disjoint queues. *)
From S2P Require Import Prelude Config Task.

Abbreviation tcb_store := (gmap Z task_tcb) (only parsing).

(** ** Link fields *)

Definition links (h : tcb_store) (x : ptr) : option (ptr * ptr) :=
  (λ t, (next t, prev t)) <$> h !! x.

(** Two stores with the same links. *)
Definition links_eq (h h' : tcb_store) : Prop := ∀ x, links h x = links h' x.

#[export] Instance links_eq_equiv : Equivalence links_eq.
Proof. split; unfold links_eq; repeat intro; congruence. Qed.

Lemma links_alter f x h y :
  links (alter f x h) y =
  if decide (x = y) then (λ t, (next (f t), prev (f t))) <$> h !! y else links h y.
Proof.
  unfold links. destruct (decide (x = y)) as [->|].
  - rewrite lookup_alter_eq. by destruct (h !! y).
  - by rewrite lookup_alter_ne.
Qed.

Lemma links_alter_ne f x h y : x ≠ y → links (alter f x h) y = links h y.
Proof. intros. by rewrite links_alter, decide_False. Qed.

Lemma links_set_next h x v n p :
  links h x = Some (n, p) → links (alter (set_field next v) x h) x = Some (v, p).
Proof. rewrite links_alter, decide_True by done. unfold links. destruct (h !! x); naive_solver. Qed.

Lemma links_set_prev h x v n p :
  links h x = Some (n, p) → links (alter (set_field prev v) x h) x = Some (n, v).
Proof. rewrite links_alter, decide_True by done. unfold links. destruct (h !! x); naive_solver. Qed.

Lemma links_link_free f x h : link_free f → links_eq (alter f x h) h.
Proof.
  intros Hf y. rewrite links_alter. case_decide; [|done]. unfold links.
  destruct (h !! y) as [t|]; simpl; [|done]. destruct (Hf t) as (->&->&_). done.
Qed.

Lemma links_is_Some h x n p : links h x = Some (n, p) → ∃ t, h !! x = Some t ∧ next t = n ∧ prev t = p.
Proof. unfold links. destruct (h !! x); naive_solver. Qed.

Lemma links_lookup h x t : h !! x = Some t → links h x = Some (next t, prev t).
Proof. unfold links. by intros ->. Qed.

(** Link updates are invisible once the links are forgotten; other updates
    commute with forgetting them. *)
Lemma unlink_alter_links (f : task_tcb → task_tcb) x (h : tcb_store) :
  (∀ t, unlink (f t) = unlink t) → unlink <$> alter f x h = unlink <$> h.
Proof.
  intros Hf. apply map_eq. intros y. rewrite !lookup_fmap.
  destruct (decide (x = y)) as [->|].
  - rewrite lookup_alter_eq. destruct (h !! y); simpl; [by rewrite Hf|done].
  - by rewrite lookup_alter_ne.
Qed.

Lemma unlink_alter_free (f : task_tcb → task_tcb) x (h : tcb_store) :
  link_free f → unlink <$> alter f x h = alter f x (unlink <$> h).
Proof.
  intros Hf. apply map_eq. intros y. rewrite lookup_fmap.
  destruct (decide (x = y)) as [->|].
  - rewrite !lookup_alter_eq, lookup_fmap. destruct (h !! y) as [t|]; simpl; [|done].
    by destruct (Hf t) as (_&_&->).
  - by rewrite !lookup_alter_ne, lookup_fmap.
Qed.

(** ** Segments and lists *)

(** [dseg h p l n]: the tasks [l] are chained in order, the first one's [prev]
    is [p] and the last one's [next] is [n]. *)
Fixpoint dseg (h : tcb_store) (p : ptr) (l : list ptr) (n : ptr) : Prop :=
  match l with
  | [] => True
  | x :: l' => x ≠ NULL ∧ links h x = Some (hd n l', p) ∧ dseg h x l' n
  end.

Definition dll (h : tcb_store) (l : list ptr) : Prop := dseg h NULL l NULL.

#[export] Instance dseg_proper : Proper (links_eq ==> eq ==> eq ==> eq ==> iff) dseg.
Proof.
  intros h h' Hh p p' <- l l' <- n n' <-. revert p.
  induction l as [|x l IH]; intros p; simpl; [done|]. by rewrite (Hh x), IH.
Qed.

#[export] Instance dll_proper : Proper (links_eq ==> eq ==> iff) dll.
Proof. intros h h' Hh l l' <-. unfold dll. by rewrite Hh. Qed.

Lemma dseg_ext h h' p l n :
  (∀ x, x ∈ l → links h' x = links h x) → dseg h p l n → dseg h' p l n.
Proof.
  revert p. induction l as [|x l IH]; intros p Hext; simpl; [done|].
  intros (?&?&?). rewrite Hext by set_solver.
  split_and!; [done..|]. apply IH; [set_solver|done].
Qed.

Lemma dseg_app h p l1 l2 n :
  dseg h p (l1 ++ l2) n ↔ dseg h p l1 (hd n l2) ∧ dseg h (last_ptr p l1) l2 n.
Proof.
  revert p. induction l1 as [|x l1 IH]; intros p; [simpl; tauto|].
  cbn [app dseg last_ptr]. rewrite IH, hd_app. tauto.
Qed.

Lemma dseg_nonnull h p l n x : dseg h p l n → x ∈ l → x ≠ NULL.
Proof.
  revert p. induction l as [|y l IH]; intros p; [set_solver|].
  intros (?&?&?) [->|?]%elem_of_cons; [done|eauto].
Qed.

Lemma dseg_lookup h p l n x : dseg h p l n → x ∈ l → is_Some (h !! x).
Proof.
  revert p. induction l as [|y l IH]; intros p; [set_solver|].
  intros (?&Hl&?) [->|?]%elem_of_cons; [|eauto].
  apply links_is_Some in Hl as (?&->&_). eauto.
Qed.

(** A list is empty exactly when its head pointer is [NULL]. *)
Lemma dseg_hd_null h p l n : dseg h p l n → (hd NULL l = NULL ↔ l = []).
Proof. destruct l as [|x l]; simpl; [done|]. intros (?&_). naive_solver. Qed.

(** ** The pointer manipulations *)

(** The stores the code's assignments lead to. *)
Definition append_store (x last : ptr) (h : tcb_store) : tcb_store :=
  alter (set_field prev last) x (alter (set_field next x) last
    (alter (set_field prev NULL) x (alter (set_field next NULL) x h))).

Definition push_store (x head : ptr) (h : tcb_store) : tcb_store :=
  let h1 := alter (set_field prev NULL) x (alter (set_field next head) x h) in
  if head =? NULL then h1 else alter (set_field prev x) head h1.

Definition drop_store (x : ptr) (h : tcb_store) : tcb_store :=
  match links h x with
  | None => h
  | Some (n, p) =>
    let h1 := if p =? NULL then h else alter (set_field next n) p h in
    let h2 := if n =? NULL then h1 else alter (set_field prev p) n h1 in
    alter (set_field prev NULL) x (alter (set_field next NULL) x h2)
  end.

(** Evaluates the links of one TCB through a sequence of link updates; the
    disequalities it needs are hypotheses. *)
Ltac solve_links :=
  lazymatch goal with
  | |- links (alter _ ?x _) ?x = _ =>
      first [eapply links_set_next | eapply links_set_prev]; solve_links
  | |- links (alter _ _ _) _ = _ =>
      rewrite links_alter_ne by congruence; solve_links
  | |- _ => eassumption
  end.

Lemma dll_singleton h x :
  x ≠ NULL → is_Some (h !! x) →
  dll (alter (set_field prev NULL) x (alter (set_field next NULL) x h)) [x].
Proof.
  intros Hx [t Ht]. apply links_lookup in Ht. unfold dll. cbn [dseg hd].
  split_and!; [done| |done]. solve_links.
Qed.

Lemma dll_append h l z x :
  dll h (l ++ [z]) → NoDup (l ++ [z]) → x ∉ l ++ [z] → x ≠ NULL → is_Some (h !! x) →
  dll (append_store x z h) ((l ++ [z]) ++ [x]).
Proof.
  intros Hl Hnd Hx Hnull [t Ht]. apply links_lookup in Ht.
  apply dseg_app in Hl as [Hl (Hz & Hlz & _)].
  apply NoDup_app in Hnd as (_ & Hdisj & _).
  assert (z ∉ l) as Hzl by (intros ?; eapply Hdisj; set_solver).
  assert (x ≠ z ∧ x ∉ l) as [Hxz Hxl] by set_solver.
  rewrite <- app_assoc. apply dseg_app. unfold append_store. cbn [dseg hd app].
  split.
  - eapply dseg_ext; [|exact Hl]. intros y Hy.
    rewrite !links_alter_ne by congruence. done.
  - split_and!; [done| |done| |done]; solve_links.
Qed.

Lemma dll_push h l x :
  dll h l → NoDup l → x ∉ l → x ≠ NULL → is_Some (h !! x) →
  dll (push_store x (hd NULL l) h) (x :: l).
Proof.
  intros Hl Hnd Hx Hnull [t Ht]. apply links_lookup in Ht. unfold push_store.
  destruct l as [|y l]; unfold dll; cbn [dseg hd].
  - rewrite Z.eqb_refl. split_and!; [done| |done]. solve_links.
  - destruct Hl as (Hy & Hly & Hl). rewrite (proj2 (Z.eqb_neq y NULL) Hy).
    apply NoDup_cons in Hnd as [Hyl _].
    assert (x ≠ y ∧ x ∉ l) as [Hxy Hxl] by set_solver.
    split_and!; [done| |done| |]; [solve_links..|].
    eapply dseg_ext; [|exact Hl]. intros w Hw.
    rewrite !links_alter_ne by congruence. done.
Qed.

Lemma dll_drop h l1 x l2 :
  dll h (l1 ++ x :: l2) → NoDup (l1 ++ x :: l2) →
  dll (drop_store x h) (l1 ++ l2) ∧ links (drop_store x h) x = Some (NULL, NULL).
Proof.
  intros Hl Hnd. apply dseg_app in Hl as [Hl1 (Hx & Hlx & Hl2)].
  apply NoDup_app in Hnd as (Hnd1 & Hdisj & [Hx2 Hnd2]%NoDup_cons).
  assert (x ∉ l1) as Hx1 by (intros ?; eapply Hdisj; set_solver).
  assert (∀ y, y ∈ l1 → y ∉ l2) as H12 by (intros y ??; eapply Hdisj; set_solver).
  clear Hdisj. unfold drop_store. rewrite Hlx.
  destruct l1 as [|z l1 _] using rev_ind;
    [|rewrite last_ptr_snoc in *; apply dseg_app in Hl1 as [Hl1 (Hz & Hlz & _)];
      apply NoDup_app in Hnd1 as (_ & Hz1 & _); specialize (Hz1 z);
      assert (z ∉ l1 ∧ x ≠ z ∧ z ∉ l2 ∧ x ∉ l1) as (?&?&?&?) by set_solver];
    (destruct l2 as [|y l2];
      [|destruct Hl2 as (Hy & Hly & Hl2); apply NoDup_cons in Hnd2 as [Hyl _];
        assert (x ≠ y ∧ x ∉ l2) as [? ?] by set_solver]);
    cbn [hd app last_ptr] in *; rewrite ?Z.eqb_refl, ?app_nil_r;
    repeat match goal with H : ?a ≠ NULL |- context [?a =? NULL] =>
      rewrite (proj2 (Z.eqb_neq a NULL) H) end.
  - split; [done|]. solve_links.
  - split; [|solve_links]. unfold dll. cbn [dseg hd].
    split_and!; [done|solve_links|].
    eapply dseg_ext; [|exact Hl2]. intros w Hw. by rewrite !links_alter_ne by congruence.
  - split; [|solve_links]. apply dseg_app. cbn [dseg hd].
    split_and!; [|done|solve_links|done].
    eapply dseg_ext; [|exact Hl1]. intros w Hw. by rewrite !links_alter_ne by congruence.
  - assert (z ≠ y ∧ y ∉ l1 ∧ z ∉ l2) as (?&?&?) by set_solver.
    split; [|solve_links]. rewrite <- app_assoc. apply dseg_app.
    cbn [dseg hd app]. split_and!; [|done|solve_links|done|solve_links|].
    + eapply dseg_ext; [|exact Hl1]. intros w Hw. by rewrite !links_alter_ne by congruence.
    + eapply dseg_ext; [|exact Hl2]. intros w Hw. by rewrite !links_alter_ne by congruence.
Qed.

(** None of the manipulations changes anything but links, and each touches
    the links of the task and of its neighbours only. *)
Lemma unlink_append_store x z h : unlink <$> append_store x z h = unlink <$> h.
Proof. unfold append_store. by rewrite !unlink_alter_links by done. Qed.

Lemma unlink_push_store x y h : unlink <$> push_store x y h = unlink <$> h.
Proof. unfold push_store. destruct (y =? NULL); by rewrite !unlink_alter_links by done. Qed.

Lemma unlink_drop_store x h : unlink <$> drop_store x h = unlink <$> h.
Proof.
  unfold drop_store. destruct (links h x) as [[n p]|]; [|done].
  rewrite !unlink_alter_links by done.
  destruct (p =? NULL), (n =? NULL); by rewrite ?unlink_alter_links by done.
Qed.

Lemma links_append_store x z h y : y ≠ x → y ≠ z → links (append_store x z h) y = links h y.
Proof. intros. unfold append_store. by rewrite !links_alter_ne by congruence. Qed.

Lemma links_push_store x z h y : y ≠ x → y ≠ z → links (push_store x z h) y = links h y.
Proof.
  intros. unfold push_store. destruct (z =? NULL); by rewrite !links_alter_ne by congruence.
Qed.

Lemma links_drop_store x n p h y :
  links h x = Some (n, p) → y ≠ x → y ≠ n → y ≠ p → links (drop_store x h) y = links h y.
Proof.
  intros Hx ???. unfold drop_store. rewrite Hx.
  destruct (p =? NULL), (n =? NULL); by rewrite !links_alter_ne by congruence.
Qed.

(** Same contents up to links: same addresses. *)
Lemma unlink_is_Some (h h' : tcb_store) x :
  unlink <$> h' = unlink <$> h → (is_Some (h' !! x) ↔ is_Some (h !! x)).
Proof.
  intros H. apply (f_equal (lookup x)) in H. rewrite !lookup_fmap in H.
  destruct (h !! x), (h' !! x); simpl in H; try discriminate; by split; eauto.
Qed.

(** ** Families of disjoint queues *)

Definition listed (x : ptr) (lls : list (list ptr)) : Prop := Exists (λ l, x ∈ l) lls.
#[export] Instance listed_dec x lls : Decision (listed x lls) := Exists_dec _ _.

Lemma listed_lookup x lls : listed x lls ↔ ∃ i l, lls !! i = Some l ∧ x ∈ l.
Proof.
  unfold listed. rewrite Exists_exists. split.
  - intros (l & (i & ?)%list_elem_of_lookup & ?). eauto.
  - intros (i & l & ? & ?). exists l. split; [|done]. eapply list_elem_of_lookup_2; eauto.
Qed.

Record linked (h : tcb_store) (lls : list (list ptr)) : Prop := {
  linked_null : h !! NULL = None;
  linked_dll i l : lls !! i = Some l → dll h l;
  linked_nodup i l : lls !! i = Some l → NoDup l;
  linked_disj i j l m x : lls !! i = Some l → lls !! j = Some m → x ∈ l → x ∈ m → i = j;
  linked_free x n p : links h x = Some (n, p) → ¬ listed x lls → n = NULL ∧ p = NULL;
}.

Lemma linked_is_Some h lls x : linked h lls → listed x lls → is_Some (h !! x).
Proof.
  intros Hlk (i & l & Hi & Hx)%listed_lookup. eapply dseg_lookup; [|done].
  by eapply linked_dll.
Qed.

Lemma linked_nonnull h lls x : linked h lls → is_Some (h !! x) → x ≠ NULL.
Proof. intros Hlk [t Ht] ->. by rewrite (linked_null _ _ Hlk) in Ht. Qed.

(** Updates that leave the links alone leave the queues alone. *)
Lemma linked_links_eq h h' lls :
  h' !! NULL = None → links_eq h h' → linked h lls → linked h' lls.
Proof.
  intros Hnull Heq [_ Hdll Hnd Hdisj Hfree]. split; [done| |done|done|].
  - intros i l Hi. rewrite <- Heq. eauto.
  - intros x n p. rewrite <- (Heq x). eauto.
Qed.

(** Replacing one queue: the new chain is well formed, every other task keeps
    its links, and tasks taken off the queue are reset. *)
Lemma linked_replace h h' lls i l l' :
  linked h lls → lls !! i = Some l → unlink <$> h' = unlink <$> h →
  dll h' l' → NoDup l' →
  (∀ y, y ∈ l' → y ∈ l ∨ ¬ listed y lls) →
  (∀ y, y ∉ l → y ∉ l' → links h' y = links h y) →
  (∀ y n p, y ∈ l → y ∉ l' → links h' y = Some (n, p) → n = NULL ∧ p = NULL) →
  linked h' (<[i := l']> lls).
Proof.
  intros [Hnull Hdll Hnd Hdisj Hfree] Hi Hun Hl' Hnd' Hnew Hsame Hout.
  assert (i < length lls)%nat as Hlt by (by eapply lookup_lt_Some).
  assert (∀ j m, j ≠ i → lls !! j = Some m → ∀ y, y ∈ m → y ∉ l ∧ y ∉ l') as Hoth.
  { intros j m Hj Hm y Hy. assert (y ∉ l) by (intros ?; by eapply Hj, Hdisj).
    split; [done|]. intros [? |Hnl]%Hnew; [done|]. apply Hnl, listed_lookup; eauto. }
  assert (∀ j m, <[i:=l']> lls !! j = Some m →
    j = i ∧ m = l' ∨ j ≠ i ∧ lls !! j = Some m) as Hcase.
  { intros j m. destruct (decide (i = j)) as [<-|].
    - rewrite list_lookup_insert_eq by done. naive_solver.
    - rewrite list_lookup_insert_ne by done. naive_solver. }
  split.
  - destruct (h' !! NULL) eqn:E; [|done].
    assert (is_Some (h !! NULL)) as [? ?] by (apply (unlink_is_Some h h'); eauto). congruence.
  - intros j m [[-> ->]|[Hj Hm]]%Hcase; [done|].
    eapply dseg_ext; [|by eapply Hdll]. intros y Hy.
    apply Hsame; by edestruct Hoth.
  - intros j m [[-> ->]|[Hj Hm]]%Hcase; eauto.
  - intros j k m m' y [[-> ->]|[Hj Hm]]%Hcase [[-> ->]|[Hk Hm']]%Hcase Hy Hy'; [done| | |].
    + exfalso. by eapply (Hoth k m').
    + exfalso. by eapply (Hoth j m).
    + eapply Hdisj; [exact Hm|exact Hm'|done..].
  - intros y n p Hy Hnl. rewrite listed_lookup in Hnl.
    assert (y ∉ l').
    { intros ?. apply Hnl. exists i, l'. by rewrite list_lookup_insert_eq. }
    destruct (decide (y ∈ l)); [by eapply Hout|].
    rewrite Hsame in Hy by done. eapply Hfree; [exact Hy|].
    rewrite listed_lookup. intros (j & m & Hm & Hym). apply Hnl.
    exists j, m. split; [|done]. rewrite list_lookup_insert_ne; [done|]. congruence.
Qed.

(** The three manipulations on one queue of a family. *)
Lemma linked_append_nil h lls i x :
  linked h lls → lls !! i = Some [] → is_Some (h !! x) → ¬ listed x lls →
  linked (alter (set_field prev NULL) x (alter (set_field next NULL) x h)) (<[i := [x]]> lls).
Proof.
  intros Hlk Hi Hx Hnl. eapply linked_replace; eauto.
  - by rewrite !unlink_alter_links.
  - apply dll_singleton; [by eapply linked_nonnull|done].
  - apply NoDup_singleton.
  - intros y ->%list_elem_of_singleton. by right.
  - intros y _ ?. rewrite !links_alter_ne by set_solver. done.
  - set_solver.
Qed.

Lemma linked_append h lls i l z x :
  linked h lls → lls !! i = Some (l ++ [z]) → is_Some (h !! x) → ¬ listed x lls →
  linked (append_store x z h) (<[i := (l ++ [z]) ++ [x]]> lls).
Proof.
  intros Hlk Hi Hx Hnl.
  assert (x ∉ l ++ [z]) as Hxl by (intros ?; apply Hnl, listed_lookup; eauto).
  pose proof (linked_nodup _ _ Hlk _ _ Hi) as Hnd.
  eapply linked_replace; eauto using unlink_append_store.
  - apply dll_append; eauto using linked_dll, linked_nonnull.
  - apply NoDup_app; split_and!; [done|set_solver|apply NoDup_singleton].
  - intros y [? | ->%list_elem_of_singleton]%elem_of_app; eauto.
  - intros y ??. apply links_append_store; set_solver.
  - set_solver.
Qed.

Lemma linked_push h lls i l x :
  linked h lls → lls !! i = Some l → is_Some (h !! x) → ¬ listed x lls →
  linked (push_store x (hd NULL l) h) (<[i := x :: l]> lls).
Proof.
  intros Hlk Hi Hx Hnl.
  assert (x ∉ l) as Hxl by (intros ?; apply Hnl, listed_lookup; eauto).
  pose proof (linked_nodup _ _ Hlk _ _ Hi) as Hnd.
  eapply linked_replace; eauto using unlink_push_store.
  - apply dll_push; eauto using linked_dll, linked_nonnull.
  - by apply NoDup_cons.
  - intros y [->|?]%elem_of_cons; eauto.
  - intros y ??. destruct (decide (y = NULL)) as [->|].
    + unfold links. pose proof (linked_null _ _ Hlk) as ->.
      destruct (push_store x (hd NULL l) h !! NULL) eqn:E; [|done].
      assert (is_Some (h !! NULL)) as [? ?].
      { apply (unlink_is_Some _ (push_store x (hd NULL l) h)); eauto using unlink_push_store. }
      by rewrite (linked_null _ _ Hlk) in *.
    + apply links_push_store; [set_solver|]. destruct l; [done|set_solver].
  - set_solver.
Qed.

Lemma linked_drop h lls i l1 x l2 :
  linked h lls → lls !! i = Some (l1 ++ x :: l2) →
  linked (drop_store x h) (<[i := l1 ++ l2]> lls).
Proof.
  intros Hlk Hi. pose proof (linked_nodup _ _ Hlk _ _ Hi) as Hnd.
  pose proof (linked_dll _ _ Hlk _ _ Hi) as Hdll.
  destruct (dll_drop _ _ _ _ Hdll Hnd) as [Hdll' Hx].
  assert (∀ y, y ∈ l1 ++ x :: l2 → y ∉ l1 ++ l2 → y = x) as Honly by set_solver.
  eapply linked_replace; eauto using unlink_drop_store.
  - eapply sublist_NoDup; [exact Hnd|]. apply sublist_app; [done|by apply sublist_cons].
  - set_solver.
  - intros y ??. apply dseg_app in Hdll as (Hl1 & _ & Hlx & Hl2).
    destruct (decide (y = NULL)) as [->|Hy].
    + unfold links. pose proof (linked_null _ _ Hlk) as ->.
      destruct (drop_store x h !! NULL) eqn:E; [|done].
      assert (is_Some (h !! NULL)) as [? ?].
      { apply (unlink_is_Some _ (drop_store x h)); eauto using unlink_drop_store. }
      by rewrite (linked_null _ _ Hlk) in *.
    + eapply links_drop_store; [done|set_solver| |].
      * destruct l2; [done|set_solver].
      * destruct l1 as [|z l1 _] using rev_ind; [done|]. rewrite last_ptr_snoc. set_solver.
  - intros y n p Hy Hy'. rewrite (Honly y Hy Hy'), Hx. naive_solver.
Qed.

(** A task taken off its queue is on no queue. *)
Lemma linked_unlisted h lls i l l' x :
  linked h lls → lls !! i = Some l → x ∈ l → x ∉ l' → ¬ listed x (<[i := l']> lls).
Proof.
  intros Hlk Hi Hx Hx' (j & m & Hm & Hxm)%listed_lookup.
  destruct (decide (i = j)) as [<-|].
  - rewrite list_lookup_insert_eq in Hm by (by eapply lookup_lt_Some). naive_solver.
  - rewrite list_lookup_insert_ne in Hm by done. by apply (linked_disj _ _ Hlk i j l m x) in Hx.
Qed.
