(* ===== verification/Scheduler.v ===== *)
(** * Scheduler

    The state and the routines of [kernel/scheduler.c], in the order of the
    file.  The two kinds of queue (one ready list per priority and the blocked
    list) are chains of TCBs in the store [tcbs]. *)
From S2P Require Import Prelude Config Task Critical Bitmap TcbList.

(** ** State *)

(** [scheduler_t] of [kernel/scheduler.h]. *)
Record scheduler_t : Set := mkScheduler {
  priority_bitmap : Z;
  ready_list : list ptr;
  current : ptr;
  lock_count : Z;
  reschedule_pending : bool;
}.

Definition eta_scheduler (g : scheduler_t) : scheduler_t :=
  mkScheduler (priority_bitmap g) (ready_list g) (current g) (lock_count g)
    (reschedule_pending g).
#[export] Instance set_priority_bitmap : Setter priority_bitmap := ltac:(derive_setter eta_scheduler priority_bitmap).
#[export] Instance set_ready_list : Setter ready_list := ltac:(derive_setter eta_scheduler ready_list).
#[export] Instance set_current : Setter current := ltac:(derive_setter eta_scheduler current).
#[export] Instance set_lock_count : Setter lock_count := ltac:(derive_setter eta_scheduler lock_count).
#[export] Instance set_reschedule_pending : Setter reschedule_pending := ltac:(derive_setter eta_scheduler reschedule_pending).

(** The variables of [scheduler.c], the TCB store and the processor. *)
Record sched : Type := mkSched {
  g_sched : scheduler_t;
  g_tick_count : Z;
  g_blocked_head : ptr;
  current_task : ptr;
  next_task : ptr;
  tcbs : gmap Z task_tcb;
  cpu : cpu_t;
}.

Definition eta_sched (s : sched) : sched :=
  mkSched (g_sched s) (g_tick_count s) (g_blocked_head s) (current_task s) (next_task s)
    (tcbs s) (cpu s).
#[export] Instance set_g_sched : Setter g_sched := ltac:(derive_setter eta_sched g_sched).
#[export] Instance set_g_tick_count : Setter g_tick_count := ltac:(derive_setter eta_sched g_tick_count).
#[export] Instance set_g_blocked_head : Setter g_blocked_head := ltac:(derive_setter eta_sched g_blocked_head).
#[export] Instance set_current_task : Setter current_task := ltac:(derive_setter eta_sched current_task).
#[export] Instance set_next_task : Setter next_task := ltac:(derive_setter eta_sched next_task).
#[export] Instance set_tcbs : Setter tcbs := ltac:(derive_setter eta_sched tcbs).
#[export] Instance set_cpu : Setter cpu := ltac:(derive_setter eta_sched cpu).

#[export] Program Instance cpu_lens : Lens cpu_t sched := {|
  view := cpu; over c s := s <| cpu := c |>;
|}.
Solve Obligations with by intros; repeat destruct select sched.

#[export] Program Instance scheduler_lens : Lens scheduler_t sched := {|
  view := g_sched; over g s := s <| g_sched := g |>;
|}.
Solve Obligations with by intros; repeat destruct select sched.

(** Successive assignments to one variable, and to two in either order. *)
Lemma set_tcbs_twice s h h' : s <| tcbs := h |> <| tcbs := h' |> = s <| tcbs := h' |>.
Proof. done. Qed.
Lemma set_g_sched_twice s g g' : s <| g_sched := g |> <| g_sched := g' |> = s <| g_sched := g' |>.
Proof. done. Qed.
Lemma set_g_sched_tcbs s g h :
  s <| tcbs := h |> <| g_sched := g |> = s <| g_sched := g |> <| tcbs := h |>.
Proof. done. Qed.
Create HintDb state_norm discriminated.
#[export] Hint Rewrite set_tcbs_twice set_g_sched_twice set_g_sched_tcbs : state_norm.

(** ** Memory accesses *)

(** [*p], [p->f = v] on a TCB. *)
Definition deref (p : ptr) : M sched task_tcb := λ s,
  match tcbs s !! p with Some t => Ret t s | None => Fault end.
Definition upd (p : ptr) (f : task_tcb → task_tcb) : M sched () := λ s,
  match tcbs s !! p with
  | Some _ => Ret () (s <| tcbs := alter f p (tcbs s) |>)
  | None => Fault
  end.

(** [g_sched.ready_list[prio]] and the assignment to it; the index is a
    [uint8_t]. *)
Definition ready_head (prio : Z) : M sched ptr := λ s,
  match ready_list (g_sched s) !! Z.to_nat prio with Some p => Ret p s | None => Fault end.
Definition set_ready_head (prio : Z) (p : ptr) : M sched () := λ s,
  match ready_list (g_sched s) !! Z.to_nat prio with
  | Some _ => Ret () (s <| g_sched := g_sched s
      <| ready_list := <[Z.to_nat prio := p]> (ready_list (g_sched s)) |> |>)
  | None => Fault
  end.

Definition set_bitmap (f : Z → Z) : M sched () :=
  modify (λ s, s <| g_sched := g_sched s <| priority_bitmap := f (priority_bitmap (g_sched s)) |> |>).

(** A list walk visits at most every TCB once. *)
Definition list_fuel : M sched nat := gets (λ s, Datatypes.S (size (tcbs s))).

(** ** Queue manipulation *)

Definition ready_insert_tail (tcb : ptr) : M sched () :=
  t ← deref tcb;
  let prio := priority t in
  upd tcb (set_field next NULL) ;;
  upd tcb (set_field prev NULL) ;;
  head ← ready_head prio;
  if head =? NULL then
    set_ready_head prio tcb ;;
    set_bitmap (λ b, bitmap_set b prio)
  else
    fuel ← list_fuel;
    last ← loop fuel (λ head,
      h ← deref head;
      mret (if next h =? NULL then inr head else inl (next h))) head;
    upd last (set_field next tcb) ;;
    upd tcb (set_field prev last).

Definition blocked_insert (tcb : ptr) : M sched () :=
  head ← gets g_blocked_head;
  upd tcb (set_field next head) ;;
  upd tcb (set_field prev NULL) ;;
  when (negb (head =? NULL)) (upd head (set_field prev tcb)) ;;
  modify (set_field g_blocked_head tcb).

Definition blocked_remove (tcb : ptr) : M sched () :=
  t ← deref tcb;
  head ← gets g_blocked_head;
  (if negb (prev t =? NULL) then upd (prev t) (set_field next (next t))
   else when (head =? tcb) (modify (set_field g_blocked_head (next t)))) ;;
  t ← deref tcb;
  when (negb (next t =? NULL)) (upd (next t) (set_field prev (prev t))) ;;
  upd tcb (set_field next NULL) ;;
  upd tcb (set_field prev NULL).

Definition scheduler_init : M sched () :=
  modify (λ s, s
    <| g_sched := mkScheduler 0 (replicate (Z.to_nat CONFIG_MAX_PRIORITY) NULL) NULL 0 false |>
    <| g_tick_count := 0 |>
    <| g_blocked_head := NULL |>
    <| current_task := NULL |>
    <| next_task := NULL |>).

(** ** Priority test and switch request shared by the routines *)

(** [current_task != NULL && tcb->priority < current_task->priority] *)
Definition preempts (tcb : ptr) : M sched bool :=
  cur ← gets current_task;
  if cur =? NULL then mret false else
  t ← deref tcb;
  c ← deref cur;
  mret (priority t <? priority c).

Definition trigger_switch : M sched () := zoom scheduler_trigger_switch.

(** ** Ready tasks *)

Definition scheduler_add_task (tcb : ptr) : M sched () :=
  irq_state ← zoom critical_enter;
  upd tcb (set_field state TASK_STATE_READY) ;;
  upd tcb (set_field time_slice CONFIG_TIME_SLICE) ;;
  ready_insert_tail tcb ;;
  higher ← preempts tcb;
  when higher trigger_switch ;;
  zoom (critical_exit irq_state).

Definition scheduler_remove_task (tcb : ptr) : M sched () :=
  irq_state ← zoom critical_enter;
  if tcb =? NULL then zoom (critical_exit irq_state) else
  t ← deref tcb;
  let prio := priority t in
  head ← ready_head prio;
  when (head =? tcb) (set_ready_head prio (next t)) ;;
  when (negb (prev t =? NULL)) (upd (prev t) (set_field next (next t))) ;;
  t ← deref tcb;
  when (negb (next t =? NULL)) (upd (next t) (set_field prev (prev t))) ;;
  head ← ready_head prio;
  when (head =? NULL) (set_bitmap (λ b, bitmap_clear b prio)) ;;
  upd tcb (set_field next NULL) ;;
  upd tcb (set_field prev NULL) ;;
  zoom (critical_exit irq_state).

Definition scheduler_set_priority (tcb : ptr) (new_priority : Z) : M sched () :=
  if (tcb =? NULL) || (CONFIG_MAX_PRIORITY <=? new_priority) then mret () else
  t ← deref tcb;
  if bool_decide (state t = TASK_STATE_READY ∨ state t = TASK_STATE_RUNNING) then
    scheduler_remove_task tcb ;;
    upd tcb (set_field priority new_priority) ;;
    scheduler_add_task tcb
  else
    upd tcb (set_field priority new_priority).

Definition scheduler_yield : M sched () :=
  irq_state ← zoom critical_enter;
  cur ← gets current_task;
  if cur =? NULL then zoom (critical_exit irq_state) else
  lock ← gets (λ s, lock_count (g_sched s));
  if 0 <? lock then
    modify (λ s, s <| g_sched := g_sched s <| reschedule_pending := true |> |>) ;;
    zoom (critical_exit irq_state)
  else
  c ← deref cur;
  let prio := priority c in
  head ← ready_head prio;
  (* head != NULL && head->next != NULL && head == current_task *)
  rotate ← (if head =? NULL then mret false else
            h ← deref head; mret (negb (next h =? NULL) && (head =? cur)));
  when rotate
    (h ← deref head;
     set_ready_head prio (next h) ;;
     new_head ← ready_head prio;
     upd new_head (set_field prev NULL) ;;
     upd head (set_field next NULL) ;;
     upd head (set_field prev NULL) ;;
     ready_insert_tail head) ;;
  trigger_switch ;;
  zoom (critical_exit irq_state).

(** ** Time *)

(** The wake-up test of [scheduler_tick]: wake, and report a timeout. *)
Definition tick_expired (tick : Z) (t : task_tcb) : bool * bool :=
  if bool_decide (block_reason t = BLOCK_DELAY) then
    (wake_tick t <=? tick, false)
  else if negb (block_timeout t =? 0) && negb (block_timeout t =? UINT32_MAX) then
    (wake_tick t <=? tick, wake_tick t <=? tick)
  else (false, false).

Definition tick_wake_body (iter : ptr) : M sched (ptr + ()) :=
  if iter =? NULL then mret (inr ()) else
  t ← deref iter;
  let next_iter := next t in
  tick ← gets g_tick_count;
  let '(wake, timed_out) := tick_expired tick t in
  when timed_out (upd iter (set_field block_result KERNEL_ERR_TIMEOUT)) ;;
  when wake
    (blocked_remove iter ;;
     upd iter (set_field block_reason BLOCK_NONE) ;;
     upd iter (set_field block_object NULL) ;;
     upd iter (set_field block_timeout 0) ;;
     upd iter (set_field state TASK_STATE_READY) ;;
     ready_insert_tail iter) ;;
  mret (inl next_iter).

(** Lines 257-265: the running task's time slice. *)
Definition tick_time_slice : M sched () :=
  cur ← gets current_task;
  if cur =? NULL then mret () else
  c ← deref cur;
  when (0 <? time_slice c) (upd cur (λ t, t <| time_slice := time_slice t - 1 |>)) ;;
  c ← deref cur;
  when (CONFIG_ROUND_ROBIN && (time_slice c =? 0))
    (upd cur (set_field time_slice CONFIG_TIME_SLICE) ;;
     scheduler_yield).

Definition scheduler_tick : M sched () :=
  irq_state ← zoom critical_enter;
  modify (λ s, s <| g_tick_count := u32 (g_tick_count s + 1) |>) ;;
  iter ← gets g_blocked_head;
  fuel ← list_fuel;
  loop fuel tick_wake_body iter ;;
  tick_time_slice ;;
  highest_prio ← gets (λ s, bitmap_find_highest (priority_bitmap (g_sched s)));
  cur ← gets current_task;
  (if cur =? NULL then mret () else
   c ← deref cur;
   when (highest_prio <? priority c) trigger_switch) ;;
  zoom (critical_exit irq_state).

(** ** Blocking *)

(** [scheduler_block_task] up to its switch point (lines 275-302): the caller
    leaves the ready list, joins the blocked list and a switch is requested.
    [inr self] is the task that waits, [inl e] an immediate return. *)
Definition block_wake_tick (now timeout : Z) : Z :=
  if timeout =? 0 then u32 (now + 1)
  else if timeout =? UINT32_MAX then UINT32_MAX
  else u32 (now + timeout).

Definition block_task_enter (reason : block_reason_t) (object : ptr) (timeout : Z)
    : M sched (Z + ptr) :=
  irq_state ← zoom critical_enter;
  self ← gets current_task;
  if self =? NULL then zoom (critical_exit irq_state) ;; mret (inl KERNEL_ERR_STATE) else
  scheduler_remove_task self ;;
  upd self (set_field state TASK_STATE_BLOCKED) ;;
  upd self (set_field block_reason reason) ;;
  upd self (set_field block_object object) ;;
  upd self (set_field block_timeout timeout) ;;
  upd self (set_field block_result KERNEL_OK) ;;
  tick ← gets g_tick_count;
  upd self (set_field wake_tick (block_wake_tick tick timeout)) ;;
  blocked_insert self ;;
  trigger_switch ;;
  zoom (critical_exit irq_state) ;;
  mret (inr self).

(** [self->block_result], read when [self] runs again. *)
Definition get_block_result (self : ptr) : M sched Z :=
  t ← deref self; mret (block_result t).

(** What a wake-up does to the TCB, the same in the three routines below. *)
Definition make_ready (tcb : ptr) (result : Z) : M sched () :=
  upd tcb (set_field state TASK_STATE_READY) ;;
  upd tcb (set_field block_reason BLOCK_NONE) ;;
  upd tcb (set_field block_result result) ;;
  upd tcb (set_field block_object NULL) ;;
  upd tcb (set_field block_timeout 0) ;;
  ready_insert_tail tcb.

Definition scheduler_unblock_task (tcb : ptr) (result : Z) : M sched () :=
  irq_state ← zoom critical_enter;
  blocked ← (if tcb =? NULL then mret false else
             t ← deref tcb; mret (bool_decide (state t = TASK_STATE_BLOCKED)));
  if negb blocked then zoom (critical_exit irq_state) else
  blocked_remove tcb ;;
  make_ready tcb result ;;
  higher ← preempts tcb;
  when higher trigger_switch ;;
  zoom (critical_exit irq_state).

(** [iter->block_reason == reason && iter->block_object == object] *)
Definition waits_for (reason : block_reason_t) (object : ptr) (t : task_tcb) : bool :=
  bool_decide (block_reason t = reason) && (block_object t =? object).

Definition unblock_one_body (reason : block_reason_t) (object : ptr)
    (x : ptr * ptr) : M sched (ptr * ptr + ptr) :=
  let '(iter, best) := x in
  if iter =? NULL then mret (inr best) else
  t ← deref iter;
  better ← (if waits_for reason object t then
              if best =? NULL then mret true else
              b ← deref best; mret (priority t <? priority b)
            else mret false);
  mret (inl (next t, if better : bool then iter else best)).

Definition scheduler_unblock_one (reason : block_reason_t) (object : ptr) (result : Z)
    : M sched bool :=
  irq_state ← zoom critical_enter;
  iter ← gets g_blocked_head;
  fuel ← list_fuel;
  best ← loop fuel (unblock_one_body reason object) (iter, NULL);
  if negb (best =? NULL) then
    blocked_remove best ;;
    make_ready best result ;;
    higher ← preempts best;
    when higher trigger_switch ;;
    zoom (critical_exit irq_state) ;;
    mret true
  else
    zoom (critical_exit irq_state) ;;
    mret false.

Definition unblock_all_body (reason : block_reason_t) (object : ptr) (result : Z)
    (x : ptr * Z) : M sched (ptr * Z + Z) :=
  let '(iter, unblocked) := x in
  if iter =? NULL then mret (inr unblocked) else
  t ← deref iter;
  let next_iter := next t in
  if waits_for reason object t then
    blocked_remove iter ;;
    make_ready iter result ;;
    mret (inl (next_iter, u32 (unblocked + 1)))
  else mret (inl (next_iter, unblocked)).

Definition scheduler_unblock_all (reason : block_reason_t) (object : ptr) (result : Z)
    : M sched Z :=
  irq_state ← zoom critical_enter;
  iter ← gets g_blocked_head;
  fuel ← list_fuel;
  unblocked ← loop fuel (unblock_all_body reason object result) (iter, 0);
  when (0 <? unblocked) trigger_switch ;;
  zoom (critical_exit irq_state) ;;
  mret unblocked.

(** ** Selection *)

Definition scheduler_get_current : M sched ptr := gets current_task.

Definition scheduler_get_next : M sched ptr :=
  highest_prio ← gets (λ s, bitmap_find_highest (priority_bitmap (g_sched s)));
  if CONFIG_MAX_PRIORITY <=? highest_prio then mret NULL
  else ready_head highest_prio.

Definition scheduler_select_next_task : M sched ptr :=
  n ← scheduler_get_next;
  modify (set_field next_task n) ;;
  modify (λ s, s <| g_sched := g_sched s <| current := n |> |>) ;;
  gets next_task.

Definition scheduler_get_tick_count : M sched Z := gets g_tick_count.

(** [scheduler_start] up to the inline assembly that changes to the process
    stack ([use_process_stack] of [Context.v]): the function that is then
    called, [first->entry], and its argument.  Without a ready task it waits
    for ever. *)
Definition scheduler_start : M sched (ptr * ptr) :=
  first ← scheduler_get_next;
  if first =? NULL then spin else
  modify (set_field current_task first) ;;
  modify (λ s, s <| g_sched := g_sched s <| current := first |> |>) ;;
  upd first (set_field state TASK_STATE_RUNNING) ;;
  upd first (set_field time_slice CONFIG_TIME_SLICE) ;;
  upd first (λ t, t <| sp := stack_top t |>) ;;
  t ← deref first;
  mret (entry t, arg t).

(** ** Preemption lock *)

Definition scheduler_lock : M sched () :=
  irq_state ← zoom critical_enter;
  modify (λ s, s <| g_sched := g_sched s
    <| lock_count := u32 (lock_count (g_sched s) + 1) |> |>) ;;
  zoom (critical_exit irq_state).

Definition scheduler_unlock : M sched () :=
  irq_state ← zoom critical_enter;
  lock ← gets (λ s, lock_count (g_sched s));
  when (0 <? lock)
    (modify (λ s, s <| g_sched := g_sched s <| lock_count := lock_count (g_sched s) - 1 |> |>)) ;;
  lock ← gets (λ s, lock_count (g_sched s));
  pending ← gets (λ s, reschedule_pending (g_sched s));
  when ((lock =? 0) && pending)
    (modify (λ s, s <| g_sched := g_sched s <| reschedule_pending := false |> |>) ;;
     trigger_switch) ;;
  zoom (critical_exit irq_state).

Definition scheduler_is_locked : M sched bool :=
  gets (λ s, 0 <? lock_count (g_sched s)).
