(* ===== verification/SchedSpec.v ===== *)
(** * Abstract scheduler

    The specification the scheduler implements: the queues are Coq lists of
    tasks, there are no links, no bitmap and no head pointers.  Each operation
    of [Scheduler.v] has a counterpart here; it faults where the C code would
    corrupt its queues (appending a task that is already queued, taking a
    blocked task off the ready lists), so a call it accepts is a proper use. *)
From S2P Require Import Prelude Config Task Critical Scheduler.

Record asched : Type := mkASched {
  a_tasks : gmap Z task_tcb;
  a_ready : list (list ptr);
  a_blocked : list ptr;
  a_tick : Z;
  a_current_task : ptr;
  a_next_task : ptr;
  a_selected : ptr;
  a_lock : Z;
  a_resched : bool;
  a_cpu : cpu_t;
}.

Definition eta_asched (a : asched) : asched :=
  mkASched (a_tasks a) (a_ready a) (a_blocked a) (a_tick a) (a_current_task a)
    (a_next_task a) (a_selected a) (a_lock a) (a_resched a) (a_cpu a).
#[export] Instance set_a_tasks : Setter a_tasks := ltac:(derive_setter eta_asched a_tasks).
#[export] Instance set_a_ready : Setter a_ready := ltac:(derive_setter eta_asched a_ready).
#[export] Instance set_a_blocked : Setter a_blocked := ltac:(derive_setter eta_asched a_blocked).
#[export] Instance set_a_tick : Setter a_tick := ltac:(derive_setter eta_asched a_tick).
#[export] Instance set_a_current_task : Setter a_current_task := ltac:(derive_setter eta_asched a_current_task).
#[export] Instance set_a_next_task : Setter a_next_task := ltac:(derive_setter eta_asched a_next_task).
#[export] Instance set_a_selected : Setter a_selected := ltac:(derive_setter eta_asched a_selected).
#[export] Instance set_a_lock : Setter a_lock := ltac:(derive_setter eta_asched a_lock).
#[export] Instance set_a_resched : Setter a_resched := ltac:(derive_setter eta_asched a_resched).
#[export] Instance set_a_cpu : Setter a_cpu := ltac:(derive_setter eta_asched a_cpu).

#[export] Program Instance a_cpu_lens : Lens cpu_t asched := {|
  view := a_cpu; over c a := a <| a_cpu := c |>;
|}.
Solve Obligations with by intros; repeat destruct select asched.

(** All queues: the blocked list first, then the ready list of each priority. *)
Definition a_queues (a : asched) : list (list ptr) := a_blocked a :: a_ready a.
Definition a_listed (x : ptr) (a : asched) : Prop := Exists (λ l, x ∈ l) (a_queues a).

Definition require (P : asched → Prop) `{!∀ a, Decision (P a)} : M asched () := λ a,
  if decide (P a) then Ret () a else Fault.

Definition a_deref (x : ptr) : M asched task_tcb := λ a,
  match a_tasks a !! x with Some t => Ret t a | None => Fault end.
Definition a_upd (x : ptr) (f : task_tcb → task_tcb) : M asched () := λ a,
  match a_tasks a !! x with
  | Some _ => Ret () (a <| a_tasks := alter f x (a_tasks a) |>)
  | None => Fault
  end.
Definition a_trigger : M asched () := zoom scheduler_trigger_switch.

(** ** Queues *)

Definition remove_ptr (x : ptr) (l : list ptr) : list ptr := filter (λ y, y ≠ x) l.

Definition valid_priority (prio : Z) (a : asched) : Prop :=
  0 ≤ prio ∧ (Z.to_nat prio < length (a_ready a))%nat.

Definition a_ready_insert_tail (x : ptr) : M asched () :=
  t ← a_deref x;
  require (λ a, ¬ a_listed x a ∧ valid_priority (priority t) a) ;;
  modify (λ a, a <| a_ready := alter (λ l, l ++ [x]) (Z.to_nat (priority t)) (a_ready a) |>).

Definition a_blocked_insert (x : ptr) : M asched () :=
  a_deref x ;;
  require (λ a, ¬ a_listed x a) ;;
  modify (λ a, a <| a_blocked := x :: a_blocked a |>).

Definition a_blocked_remove (x : ptr) : M asched () :=
  require (λ a, x ∈ a_blocked a) ;;
  modify (λ a, a <| a_blocked := remove_ptr x (a_blocked a) |>).

(** The task is on the ready list of its own priority, or on no list. *)
Definition a_ready_or_free (x : ptr) (prio : Z) (a : asched) : Prop :=
  valid_priority prio a ∧
  (x ∈ default [] (a_ready a !! Z.to_nat prio) ∨ ¬ a_listed x a).

Definition a_remove_task (x : ptr) : M asched () :=
  irq_state ← zoom critical_enter;
  if x =? NULL then zoom (critical_exit irq_state) else
  t ← a_deref x;
  require (λ a, a_ready_or_free x (priority t) a) ;;
  modify (λ a, a <| a_ready := alter (remove_ptr x) (Z.to_nat (priority t)) (a_ready a) |>) ;;
  zoom (critical_exit irq_state).

(** ** Operations *)

Definition a_preempts (x : ptr) : M asched bool :=
  cur ← gets a_current_task;
  if cur =? NULL then mret false else
  t ← a_deref x;
  c ← a_deref cur;
  mret (priority t <? priority c).

Definition a_add_task (x : ptr) : M asched () :=
  irq_state ← zoom critical_enter;
  a_upd x (set_field state TASK_STATE_READY) ;;
  a_upd x (set_field time_slice CONFIG_TIME_SLICE) ;;
  a_ready_insert_tail x ;;
  higher ← a_preempts x;
  when higher a_trigger ;;
  zoom (critical_exit irq_state).

Definition a_set_priority (x : ptr) (new_priority : Z) : M asched () :=
  if (x =? NULL) || (CONFIG_MAX_PRIORITY <=? new_priority) then mret () else
  t ← a_deref x;
  if bool_decide (state t = TASK_STATE_READY ∨ state t = TASK_STATE_RUNNING) then
    a_remove_task x ;;
    a_upd x (set_field priority new_priority) ;;
    a_add_task x
  else
    a_upd x (set_field priority new_priority).

(** Round robin: the running task goes behind its peers. *)
Definition rotate (x : ptr) (l : list ptr) : list ptr :=
  match l with
  | y :: z :: l' => if y =? x then z :: l' ++ [y] else l
  | _ => l
  end.

Definition a_yield : M asched () :=
  irq_state ← zoom critical_enter;
  cur ← gets a_current_task;
  if cur =? NULL then zoom (critical_exit irq_state) else
  lock ← gets a_lock;
  if 0 <? lock then
    modify (set_field a_resched true) ;;
    zoom (critical_exit irq_state)
  else
  c ← a_deref cur;
  require (valid_priority (priority c)) ;;
  modify (λ a, a <| a_ready := alter (rotate cur) (Z.to_nat (priority c)) (a_ready a) |>) ;;
  a_trigger ;;
  zoom (critical_exit irq_state).

(** [for x in l] *)
Fixpoint foreach {S C} (f : ptr → C → M S C) (l : list ptr) (c : C) : M S C :=
  match l with
  | [] => mret c
  | x :: l' => c' ← f x c; foreach f l' c'
  end.

Definition a_tick_wake (x : ptr) (_ : ()) : M asched () :=
  t ← a_deref x;
  tick ← gets a_tick;
  let '(wake, timed_out) := tick_expired tick t in
  when timed_out (a_upd x (set_field block_result KERNEL_ERR_TIMEOUT)) ;;
  when wake
    (a_blocked_remove x ;;
     a_upd x (set_field block_reason BLOCK_NONE) ;;
     a_upd x (set_field block_object NULL) ;;
     a_upd x (set_field block_timeout 0) ;;
     a_upd x (set_field state TASK_STATE_READY) ;;
     a_ready_insert_tail x).

Definition a_time_slice : M asched () :=
  cur ← gets a_current_task;
  if cur =? NULL then mret () else
  c ← a_deref cur;
  when (0 <? time_slice c) (a_upd cur (λ t, t <| time_slice := time_slice t - 1 |>)) ;;
  c ← a_deref cur;
  when (CONFIG_ROUND_ROBIN && (time_slice c =? 0))
    (a_upd cur (set_field time_slice CONFIG_TIME_SLICE) ;;
     a_yield).

(** The most urgent priority with a ready task, [CONFIG_MAX_PRIORITY] if none. *)
Fixpoint first_nonempty (ls : list (list ptr)) : Z :=
  match ls with
  | [] => 0
  | [] :: ls' => 1 + first_nonempty ls'
  | (_ :: _) :: _ => 0
  end.

Definition a_tick_handler : M asched () :=
  irq_state ← zoom critical_enter;
  modify (λ a, a <| a_tick := u32 (a_tick a + 1) |>) ;;
  bl ← gets a_blocked;
  foreach a_tick_wake bl () ;;
  a_time_slice ;;
  highest_prio ← gets (λ a, first_nonempty (a_ready a));
  cur ← gets a_current_task;
  (if cur =? NULL then mret () else
   c ← a_deref cur;
   when (highest_prio <? priority c) a_trigger) ;;
  zoom (critical_exit irq_state).

Definition a_block_task_enter (reason : block_reason_t) (object : ptr) (timeout : Z)
    : M asched (Z + ptr) :=
  irq_state ← zoom critical_enter;
  self ← gets a_current_task;
  if self =? NULL then zoom (critical_exit irq_state) ;; mret (inl KERNEL_ERR_STATE) else
  a_remove_task self ;;
  a_upd self (set_field state TASK_STATE_BLOCKED) ;;
  a_upd self (set_field block_reason reason) ;;
  a_upd self (set_field block_object object) ;;
  a_upd self (set_field block_timeout timeout) ;;
  a_upd self (set_field block_result KERNEL_OK) ;;
  tick ← gets a_tick;
  a_upd self (set_field wake_tick (block_wake_tick tick timeout)) ;;
  a_blocked_insert self ;;
  a_trigger ;;
  zoom (critical_exit irq_state) ;;
  mret (inr self).

Definition a_block_result (self : ptr) : M asched Z :=
  t ← a_deref self; mret (block_result t).

Definition a_make_ready (x : ptr) (result : Z) : M asched () :=
  a_upd x (set_field state TASK_STATE_READY) ;;
  a_upd x (set_field block_reason BLOCK_NONE) ;;
  a_upd x (set_field block_result result) ;;
  a_upd x (set_field block_object NULL) ;;
  a_upd x (set_field block_timeout 0) ;;
  a_ready_insert_tail x.

Definition a_unblock_task (x : ptr) (result : Z) : M asched () :=
  irq_state ← zoom critical_enter;
  blocked ← (if x =? NULL then mret false else
             t ← a_deref x; mret (bool_decide (state t = TASK_STATE_BLOCKED)));
  if negb blocked then zoom (critical_exit irq_state) else
  a_blocked_remove x ;;
  a_make_ready x result ;;
  higher ← a_preempts x;
  when higher a_trigger ;;
  zoom (critical_exit irq_state).

(** The waiter to wake: the first one of the blocked list with the most urgent
    priority among those waiting for the object. *)
Definition a_better_waiter (reason : block_reason_t) (object : ptr) (x best : ptr)
    : M asched ptr :=
  t ← a_deref x;
  better ← (if waits_for reason object t then
              if best =? NULL then mret true else
              b ← a_deref best; mret (priority t <? priority b)
            else mret false);
  mret (if better : bool then x else best).

Definition a_unblock_one (reason : block_reason_t) (object : ptr) (result : Z)
    : M asched bool :=
  irq_state ← zoom critical_enter;
  bl ← gets a_blocked;
  best ← foreach (a_better_waiter reason object) bl NULL;
  if negb (best =? NULL) then
    a_blocked_remove best ;;
    a_make_ready best result ;;
    higher ← a_preempts best;
    when higher a_trigger ;;
    zoom (critical_exit irq_state) ;;
    mret true
  else
    zoom (critical_exit irq_state) ;;
    mret false.

Definition a_wake_waiter (reason : block_reason_t) (object : ptr) (result : Z)
    (x : ptr) (n : Z) : M asched Z :=
  t ← a_deref x;
  if waits_for reason object t then
    a_blocked_remove x ;;
    a_make_ready x result ;;
    mret (u32 (n + 1))
  else mret n.

Definition a_unblock_all (reason : block_reason_t) (object : ptr) (result : Z)
    : M asched Z :=
  irq_state ← zoom critical_enter;
  bl ← gets a_blocked;
  unblocked ← foreach (a_wake_waiter reason object result) bl 0;
  when (0 <? unblocked) a_trigger ;;
  zoom (critical_exit irq_state) ;;
  mret unblocked.

Definition a_get_next : M asched ptr := gets (λ a,
  hd NULL (default [] (a_ready a !! Z.to_nat (first_nonempty (a_ready a))))).

Definition a_select_next_task : M asched ptr :=
  n ← a_get_next;
  modify (set_field a_next_task n) ;;
  modify (set_field a_selected n) ;;
  gets a_next_task.

Definition a_start : M asched (ptr * ptr) :=
  first ← a_get_next;
  if first =? NULL then spin else
  modify (set_field a_current_task first) ;;
  modify (set_field a_selected first) ;;
  a_upd first (set_field state TASK_STATE_RUNNING) ;;
  a_upd first (set_field time_slice CONFIG_TIME_SLICE) ;;
  a_upd first (λ t, t <| sp := stack_top t |>) ;;
  t ← a_deref first;
  mret (entry t, arg t).

Definition a_lock_op : M asched () :=
  irq_state ← zoom critical_enter;
  modify (λ a, a <| a_lock := u32 (a_lock a + 1) |>) ;;
  zoom (critical_exit irq_state).

Definition a_unlock_op : M asched () :=
  irq_state ← zoom critical_enter;
  lock ← gets a_lock;
  when (0 <? lock) (modify (λ a, a <| a_lock := a_lock a - 1 |>)) ;;
  lock ← gets a_lock;
  pending ← gets a_resched;
  when ((lock =? 0) && pending)
    (modify (set_field a_resched false) ;;
     a_trigger) ;;
  zoom (critical_exit irq_state).

Lemma first_nonempty_spec ls :
  0 ≤ first_nonempty ls ≤ Z.of_nat (length ls) ∧
  (∀ i, Z.of_nat i < first_nonempty ls → ls !! i = Some []) ∧
  (first_nonempty ls < Z.of_nat (length ls) →
    ∃ x l, ls !! Z.to_nat (first_nonempty ls) = Some (x :: l)).
Proof.
  induction ls as [|[|x l] ls (IHr & IHl & IHh)].
  - simpl. split_and!; [lia..| |lia]. intros i. lia.
  - cbn [first_nonempty length]. split_and!; [lia..| |].
    + intros [|i] Hi; [done|]. apply IHl. lia.
    + intros Hlt. destruct IHh as (x & l & Hx); [lia|]. exists x, l.
      rewrite Z2Nat.inj_add, Nat.add_1_l by lia. done.
  - cbn [first_nonempty length]. split_and!; [lia..| |].
    + intros i. lia.
    + intros _. by exists x, l.
Qed.

(** The state after [scheduler_init]. *)
Definition a_init (tasks : gmap Z task_tcb) (c : cpu_t) : asched :=
  mkASched tasks (replicate (Z.to_nat CONFIG_MAX_PRIORITY) []) [] 0 NULL NULL NULL 0 false c.

Lemma require_true P `{!∀ a, Decision (P a)} a : P a → require P a = Ret () a.
Proof. intros HP. unfold require. by rewrite decide_True. Qed.
