(* ===== verification/SchedRefine.v ===== *)
(** * The scheduler implements its specification

    [abstracts s a] relates the memory of [Scheduler.v] to a state of
    [SchedSpec.v]: the chains spell the abstract queues, the head pointers and
    the bitmap agree with them, and tasks on no queue have no links.  Every
    routine refines its specification: whenever the specification accepts the
    call, the routine runs to completion (no wild access, no endless list walk)
    with the same result and ends in a related state. *)
From S2P Require Import Prelude Config Task Critical Bitmap TcbList Scheduler SchedSpec.

Definition nonempty (l : list ptr) : bool := match l with [] => false | _ => true end.

Record abstracts (s : sched) (a : asched) : Prop := {
  abs_linked : linked (tcbs s) (a_queues a);
  abs_tasks : a_tasks a = unlink <$> tcbs s;
  abs_len : length (a_ready a) = Z.to_nat CONFIG_MAX_PRIORITY;
  abs_heads : ready_list (g_sched s) = hd NULL <$> a_ready a;
  abs_blocked : g_blocked_head s = hd NULL (a_blocked a);
  abs_bitmap_range : 0 ≤ priority_bitmap (g_sched s) < 2 ^ 32;
  abs_bitmap i l : a_ready a !! i = Some l →
    Z.testbit (priority_bitmap (g_sched s)) (Z.of_nat i) = nonempty l;
  abs_tick : g_tick_count s = a_tick a;
  abs_current : current_task s = a_current_task a;
  abs_next : next_task s = a_next_task a;
  abs_selected : current (g_sched s) = a_selected a;
  abs_lock : lock_count (g_sched s) = a_lock a;
  abs_resched : reschedule_pending (g_sched s) = a_resched a;
  abs_cpu : cpu s = a_cpu a;
}.

(** Splits a state relation and keeps the components that do not change. *)
Ltac same_abs H := destruct H; split; simpl in *; try done.

Lemma abs_lookup s a x : abstracts s a → a_tasks a !! x = unlink <$> tcbs s !! x.
Proof. intros H. by rewrite (abs_tasks _ _ H), lookup_fmap. Qed.

(** ** Memory accesses *)

Lemma refines_deref {X} x (k : task_tcb → M sched X) (ak : task_tcb → M asched X) :
  (∀ t, refines abstracts (k t) (ak (unlink t))) →
  refines abstracts (deref x ≫= k) (a_deref x ≫= ak).
Proof.
  intros Hk s a HR. unfold mbind, M_bind, deref, a_deref.
  rewrite (abs_lookup _ _ _ HR). destruct (tcbs s !! x) as [t|]; simpl; [|done].
  by apply Hk.
Qed.

Lemma refines_upd x f : link_free f → refines abstracts (upd x f) (a_upd x f).
Proof.
  intros Hf s a HR. unfold upd, a_upd. rewrite (abs_lookup _ _ _ HR).
  destruct (tcbs s !! x) as [t|] eqn:Ht; simpl; [|done].
  eexists; split; [done|]. same_abs HR.
  - eapply linked_links_eq; [|symmetry; by apply links_link_free|done].
    destruct (decide (x = NULL)) as [->|].
    + by rewrite (linked_null _ _ abs_linked0) in Ht.
    + rewrite lookup_alter_ne by done. by apply linked_null in abs_linked0.
  - rewrite abs_tasks0. by rewrite unlink_alter_free.
Qed.

Lemma refines_cpu {X} (m : M cpu_t X) : refines abstracts (zoom m) (zoom m).
Proof.
  intros s a HR. unfold zoom. simpl. rewrite <- (abs_cpu _ _ HR).
  destruct (m (cpu s)) as [x c|c| |]; try done; (eexists; split; [done|]); same_abs HR.
Qed.

#[export] Hint Resolve refines_cpu : refine.
#[export] Hint Extern 4 (refines abstracts (upd _ _) (a_upd _ _)) =>
  apply refines_upd; solve_link_free : refine.
#[export] Hint Extern 4 (refines abstracts trigger_switch a_trigger) =>
  apply refines_cpu : refine.
#[export] Hint Extern 5 (refines abstracts (gets _) (gets _)) =>
  apply refines_gets; intros ?? []; done : refine.
#[export] Hint Extern 5 (refines abstracts (modify _) (modify _)) =>
  apply refines_modify; intros ?? HR; same_abs HR; congruence : refine.

(** The fields of an unlinked TCB, other than the links, are the TCB's. *)
Ltac unlink_fields t :=
  repeat match goal with |- context [?p (unlink t)] => progress change (p (unlink t)) with (p t) end.

(** [refine_auto], reading TCBs on the way. *)
Ltac refine_sched := repeat first
  [ lazymatch goal with
    | |- refines _ (deref _ ≫= _) (a_deref _ ≫= _) => let t := fresh "t" in apply refines_deref; intros t; unlink_fields t
    end
  | refine_step ].

(** ** Queues *)

Lemma abs_ready_lookup s a i l :
  abstracts s a → a_ready a !! i = Some l → a_queues a !! Datatypes.S i = Some l.
Proof. done. Qed.

Lemma abs_head s a i l :
  abstracts s a → a_ready a !! i = Some l → ready_list (g_sched s) !! i = Some (hd NULL l).
Proof. intros HR Hl. by rewrite (abs_heads _ _ HR), list_lookup_fmap, Hl. Qed.

Lemma abs_index s a i l :
  abstracts s a → a_ready a !! i = Some l → (i < 32)%nat.
Proof. intros HR Hl. apply lookup_lt_Some in Hl. by rewrite (abs_len _ _ HR) in Hl. Qed.

(** The walk to the tail of a list. *)
Definition walk_body (head : ptr) : M sched (ptr + ptr) :=
  h ← deref head; mret (if next h =? NULL then inr head else inl (next h)).

Lemma walk_step s x n p : links (tcbs s) x = Some (n, p) →
  walk_body x s = Ret (if n =? NULL then inr x else inl n) s.
Proof.
  intros (t & Ht & Hn & _)%links_is_Some. unfold walk_body, deref, mbind, M_bind.
  by rewrite Ht, Hn.
Qed.

Lemma walk_tail s p l z fuel :
  dseg (tcbs s) p (l ++ [z]) NULL → (length l < fuel)%nat →
  loop fuel walk_body (hd z l) s = Ret z s.
Proof.
  revert p fuel. induction l as [|y l IH]; intros p [|fuel] Hl Hf; cbn [app dseg hd length] in *; try lia.
  - destruct Hl as (_ & Hlz & _). eapply loop_done. by rewrite (walk_step _ _ _ _ Hlz).
  - destruct Hl as (_ & Hly & Hl). rewrite hd_app in Hly. simpl in Hly.
    assert (hd z l ≠ NULL) as Hne by (destruct l; by destruct Hl).
    etrans; [eapply loop_next|apply (IH y); [done|lia]].
    by rewrite (walk_step _ _ _ _ Hly), (proj2 (Z.eqb_neq _ _) Hne).
Qed.

(** A duplicate-free list of TCBs is shorter than the store. *)
Lemma queue_length h lls i l : linked h lls → lls !! i = Some l → (length l ≤ size h)%nat.
Proof.
  intros Hlk Hi. apply nodup_length_size; [by eapply linked_nodup|].
  intros x Hx. eapply linked_is_Some; [done|]. apply listed_lookup; eauto.
Qed.

(** The variables no queue manipulation touches. *)
Definition same_globals (s s' : sched) : Prop :=
  g_tick_count s' = g_tick_count s ∧ current_task s' = current_task s ∧
  next_task s' = next_task s ∧ current (g_sched s') = current (g_sched s) ∧
  lock_count (g_sched s') = lock_count (g_sched s) ∧
  reschedule_pending (g_sched s') = reschedule_pending (g_sched s) ∧ cpu s' = cpu s.

(** Changing the ready list of one priority. *)
Lemma abs_update_ready s s' a i l l' :
  abstracts s a → a_ready a !! i = Some l → same_globals s s' →
  g_blocked_head s' = g_blocked_head s →
  linked (tcbs s') (<[Datatypes.S i := l']> (a_queues a)) →
  unlink <$> tcbs s' = unlink <$> tcbs s →
  ready_list (g_sched s') = <[i := hd NULL l']> (ready_list (g_sched s)) →
  0 ≤ priority_bitmap (g_sched s') < 2 ^ 32 →
  (∀ j, (j < 32)%nat → Z.testbit (priority_bitmap (g_sched s')) (Z.of_nat j) =
    if decide (j = i) then nonempty l' else Z.testbit (priority_bitmap (g_sched s)) (Z.of_nat j)) →
  abstracts s' (a <| a_ready := <[i := l']> (a_ready a) |>).
Proof.
  intros HR Hi (?&?&?&?&?&?&?) Hbh Hlk Hun Hrl Hr Hbm.
  pose proof (abs_index _ _ _ _ HR Hi) as Hlt.
  destruct HR. split; simpl; try congruence.
  - exact Hlk.
  - by rewrite length_insert.
  - by rewrite Hrl, abs_heads0, list_fmap_insert.
  - intros j m Hj. assert (j < 32)%nat as Hj32.
    { apply lookup_lt_Some in Hj. rewrite length_insert, abs_len0 in Hj. done. }
    rewrite Hbm by done. case_decide as Hd; [subst j|].
    + rewrite list_lookup_insert_eq in Hj by (by eapply lookup_lt_Some). by simplify_eq.
    + rewrite list_lookup_insert_ne in Hj by done. eauto.
Qed.

(** Changing the blocked list. *)
Lemma abs_update_blocked s s' a l' :
  abstracts s a → same_globals s s' →
  ready_list (g_sched s') = ready_list (g_sched s) →
  priority_bitmap (g_sched s') = priority_bitmap (g_sched s) →
  linked (tcbs s') (l' :: a_ready a) →
  unlink <$> tcbs s' = unlink <$> tcbs s →
  g_blocked_head s' = hd NULL l' →
  abstracts s' (a <| a_blocked := l' |>).
Proof.
  intros HR (?&?&?&?&?&?&?) Hrl Hbm Hlk Hun Hbh.
  destruct HR. split; simpl; try congruence.
  - exact Hlk.
  - intros i l Hi. rewrite Hbm. eauto.
Qed.

Lemma upd_ret s x f : is_Some (tcbs s !! x) → upd x f s = Ret () (s <| tcbs := alter f x (tcbs s) |>).
Proof. intros [t Ht]. unfold upd. by rewrite Ht. Qed.

Lemma deref_ret s x t : tcbs s !! x = Some t → deref x s = Ret t s.
Proof. intros Ht. unfold deref. by rewrite Ht. Qed.

Lemma ready_head_ret s prio p :
  ready_list (g_sched s) !! Z.to_nat prio = Some p → ready_head prio s = Ret p s.
Proof. intros H. unfold ready_head. by rewrite H. Qed.

Lemma set_ready_head_ret s prio q p :
  ready_list (g_sched s) !! Z.to_nat prio = Some q →
  set_ready_head prio p s = Ret () (s <| g_sched := g_sched s
      <| ready_list := <[Z.to_nat prio := p]> (ready_list (g_sched s)) |> |>).
Proof. intros H. unfold set_ready_head. by rewrite H. Qed.

(** A specification that requires [P] first need only be met where [P] holds. *)
Lemma refines_require {X} (m : M sched X) (P : asched → Prop) `{!∀ a, Decision (P a)}
    (am : M asched X) :
  (∀ s a, abstracts s a → P a →
    match am a with
    | Ret x a' => ∃ s', m s = Ret x s' ∧ abstracts s' a'
    | Spin a' => ∃ s', m s = Spin s' ∧ abstracts s' a'
    | Fault | Diverge => True
    end) →
  refines abstracts m (require P ;; am).
Proof.
  intros Hm s a HR. unfold mbind, M_bind, require. destruct (decide (P a)); [|done].
  by apply Hm.
Qed.

(** Conditional assignments, without splitting on the condition. *)
Lemma when_upd_ret s (b : bool) x f : (b = true → is_Some (tcbs s !! x)) →
  when b (upd x f) s = Ret () (s <| tcbs := if b then alter f x (tcbs s) else tcbs s |>).
Proof.
  intros Hx. destruct b; simpl; [by apply upd_ret, Hx|]. unfold mret, M_ret. by destruct s.
Qed.

Lemma when_set_bitmap_ret s (b : bool) f :
  when b (set_bitmap f) s = Ret () (s <| g_sched := g_sched s <| priority_bitmap :=
    if b then f (priority_bitmap (g_sched s)) else priority_bitmap (g_sched s) |> |>).
Proof. destruct b; [done|]. by destruct s as [[]]. Qed.

Lemma lookup_if_alter (b : bool) f y (h : tcb_store) x :
  (b = true → y ≠ x) → (if b then alter f y h else h) !! x = h !! x.
Proof. destruct b; [|done]. intros Hne. apply lookup_alter_ne. by apply Hne. Qed.

Lemma if_alter_is_Some (b : bool) f y (h : tcb_store) x :
  is_Some ((if b then alter f y h else h) !! x) ↔ is_Some (h !! x).
Proof. destruct b; [apply lookup_alter_is_Some|done]. Qed.

(** Side conditions of the form [is_Some] under updates of other fields. *)
Ltac alters := simpl; rewrite ?lookup_alter_is_Some, ?if_alter_is_Some; eauto.
Ltac norm := cbv beta; simpl; autorewrite with state_norm.
Ltac run_upd := erewrite bind_ret by (apply upd_ret; alters); norm.

Lemma bitmap_set_abs bm i j : (i < 32)%nat → (j < 32)%nat →
  Z.testbit (bitmap_set bm (Z.of_nat i)) (Z.of_nat j) =
  if decide (j = i) then true else Z.testbit bm (Z.of_nat j).
Proof.
  intros. rewrite testbit_set by lia. case_decide; [subst|].
  - by rewrite bool_decide_true, orb_true_r.
  - by rewrite bool_decide_false, orb_false_r by lia.
Qed.

Lemma bitmap_clear_abs bm i j : 0 ≤ bm < 2 ^ 32 → (i < 32)%nat → (j < 32)%nat →
  Z.testbit (bitmap_clear bm (Z.of_nat i)) (Z.of_nat j) =
  if decide (j = i) then false else Z.testbit bm (Z.of_nat j).
Proof.
  intros. rewrite testbit_clear by lia. case_decide; [subst|].
  - by rewrite bool_decide_true, andb_false_r.
  - by rewrite bool_decide_false, andb_true_r by lia.
Qed.

(** The bitmap word is unchanged while the list stays non-empty. *)
Lemma bitmap_same_abs s a i l l' j : abstracts s a → a_ready a !! i = Some l →
  nonempty l' = nonempty l →
  Z.testbit (priority_bitmap (g_sched s)) (Z.of_nat j) =
  if decide (j = i) then nonempty l' else Z.testbit (priority_bitmap (g_sched s)) (Z.of_nat j).
Proof. intros HR Hi Hne. case_decide; [subst|done]. by rewrite (abs_bitmap _ _ HR _ _ Hi). Qed.

(** Opens a specification that starts by reading a TCB and requiring [P]. *)
Lemma refines_deref_require {X} x (P : task_tcb → asched → Prop)
    `{!∀ t a, Decision (P t a)} (m : M sched X) (am : task_tcb → M asched X) :
  (∀ s a t, abstracts s a → tcbs s !! x = Some t → P t a →
    match am (unlink t) a with
    | Ret r a' => ∃ s', m s = Ret r s' ∧ abstracts s' a'
    | Spin a' => ∃ s', m s = Spin s' ∧ abstracts s' a'
    | Fault | Diverge => True
    end) →
  (∀ t a, P (unlink t) a → P t a) →
  refines abstracts m (t ← a_deref x; require (P t) ;; am t).
Proof.
  intros Hm HP s a HR. unfold mbind, M_bind, a_deref. rewrite (abs_lookup _ _ _ HR).
  destruct (tcbs s !! x) as [t|] eqn:Ht; simpl; [|done].
  unfold require. destruct (decide _) as [HPt|]; [|done]. by apply Hm, HP.
Qed.

Lemma refines_ready_insert_tail x :
  refines abstracts (ready_insert_tail x) (a_ready_insert_tail x).
Proof.
  apply refines_deref_require; [|done]. intros s a t HR Ht [Hnl [Hp Hlt]].
  destruct (lookup_lt_is_Some_2 _ _ Hlt) as [l Hl].
  pose proof (abs_index _ _ _ _ HR Hl) as Hi32.
  pose proof (abs_head _ _ _ _ HR Hl) as Hhd. pose proof (abs_linked _ _ HR) as Hlk.
  unfold modify. simpl priority. rewrite (list_alter_lookup _ _ _ _ Hl).
  assert (is_Some (tcbs s !! x)) as Hx by eauto.
  unfold ready_insert_tail. run (deref_ret _ _ _ Ht). run_upd. run_upd.
  erewrite bind_ret by (apply ready_head_ret; exact Hhd).
  destruct l as [|y l]; cbn [hd].
  - rewrite Z.eqb_refl. erewrite bind_ret by (by eapply set_ready_head_ret). norm.
    eexists; split; [done|]. norm.
    eapply abs_update_ready; [done..| | | | |]; simpl.
    + by apply (linked_append_nil _ (a_queues a) (Datatypes.S (Z.to_nat (priority t)))).
    + by rewrite !unlink_alter_links.
    + done.
    + apply bitmap_set_range, (abs_bitmap_range _ _ HR).
    + intros j Hj. rewrite <- (Z2Nat.id (priority t)) at 1 by done. by apply bitmap_set_abs.
  - pose proof (linked_dll _ _ Hlk (Datatypes.S (Z.to_nat (priority t))) _ Hl) as Hdll.
    destruct (exists_last (l := y :: l)) as (l0 & z & E); [done|].
    assert (y = hd z l0) as Hy by (by destruct l0; simplify_eq/=).
    rewrite E in *. clear l E.
    assert (x ∉ l0 ++ [z]) as Hxl.
    { intros ?. apply Hnl, listed_lookup.
      exists (Datatypes.S (Z.to_nat (priority t))), (l0 ++ [z]). done. }
    rewrite (proj2 (Z.eqb_neq y NULL)).
    2:{ subst y. destruct l0; by destruct Hdll. }
    unfold list_fuel. step. rewrite Hy. fold walk_body.
    erewrite bind_ret.
    2:{ apply walk_tail with NULL; simpl.
        - eapply dseg_ext; [|exact Hdll]. intros w Hw.
          by rewrite !links_alter_ne by congruence.
        - rewrite <- !size_dom, !dom_alter_L, size_dom.
          pose proof (queue_length _ _ _ _ Hlk (Hl : a_queues a !! Datatypes.S _ = Some _)) as Hq.
          rewrite length_app in Hq. simpl in Hq. lia. }
    assert (is_Some (tcbs s !! z)) as Hz.
    { eapply dseg_lookup; [exact Hdll|set_solver]. }
    run_upd. rewrite upd_ret by alters. norm.
    eexists; split; [done|].
    eapply abs_update_ready; [done..| | | | |]; simpl.
    + by apply (linked_append _ (a_queues a) (Datatypes.S (Z.to_nat (priority t)))).
    + by rewrite !unlink_alter_links.
    + rewrite list_insert_id; [done|]. rewrite Hhd. by destruct l0.
    + apply (abs_bitmap_range _ _ HR).
    + intros j Hj. eapply bitmap_same_abs; [done..|]. by destruct l0.
Qed.
#[export] Hint Resolve refines_ready_insert_tail : refine.

Lemma remove_ptr_id x l : x ∉ l → remove_ptr x l = l.
Proof.
  induction l as [|y l IH]; intros Hx; [done|]. unfold remove_ptr in *.
  rewrite filter_cons_True by set_solver. f_equal. apply IH. set_solver.
Qed.

Lemma remove_ptr_split x l1 l2 : NoDup (l1 ++ x :: l2) → remove_ptr x (l1 ++ x :: l2) = l1 ++ l2.
Proof.
  intros (_ & Hd & [Hx _]%NoDup_cons)%NoDup_app.
  assert (x ∉ l1) by (intros ?; eapply Hd; set_solver).
  unfold remove_ptr. rewrite filter_app, filter_cons_False by naive_solver.
  f_equal; by apply remove_ptr_id.
Qed.

(** The neighbours of a queued task, as its links give them. *)
Lemma neighbours h l1 x l2 t : dll h (l1 ++ x :: l2) → NoDup (l1 ++ x :: l2) → h !! x = Some t →
  (prev t = NULL ∧ l1 = [] ∨
   prev t ≠ NULL ∧ l1 ≠ [] ∧ prev t ≠ x ∧ is_Some (h !! prev t)) ∧
  (next t = NULL ∧ l2 = [] ∨
   next t ≠ NULL ∧ l2 ≠ [] ∧ next t ≠ x ∧ is_Some (h !! next t)) ∧
  next t = hd NULL l2.
Proof.
  intros Hdll Hnd Ht.
  assert (∀ y, y ∈ l1 ++ x :: l2 → y ≠ NULL ∧ is_Some (h !! y)) as Hin.
  { intros y Hy. split; [by eapply dseg_nonnull|by eapply dseg_lookup]. }
  apply dseg_app in Hdll as (_ & _ & Hx & _). rewrite (links_lookup _ _ _ Ht) in Hx.
  injection Hx as Hn Hp. apply NoDup_app in Hnd as (_ & Hd & [Hx2 _]%NoDup_cons).
  assert (x ∉ l1) by (intros ?; eapply Hd; set_solver).
  split_and!; [| |done].
  - destruct l1 as [|z l1 _] using rev_ind; [by left|]. rewrite last_ptr_snoc in Hp. right.
    destruct (Hin (prev t)); [set_solver|]. split_and!; [done|by destruct l1|set_solver|done].
  - destruct l2 as [|y l2]; [by left|]. simpl in Hn. right.
    destruct (Hin (next t)); [set_solver|]. split_and!; [done|done|set_solver|done].
Qed.

Lemma refines_blocked_insert x : refines abstracts (blocked_insert x) (a_blocked_insert x).
Proof.
  apply (refines_deref_require x (λ _ a, ¬ a_listed x a)); [|done]. intros s a t HR Ht Hnl.
  assert (is_Some (tcbs s !! x)) as Hx by eauto.
  pose proof (abs_linked _ _ HR) as Hlk.
  pose proof (linked_push _ _ 0 _ x Hlk eq_refl Hx Hnl) as Hpush.
  unfold blocked_insert. step. rewrite (abs_blocked _ _ HR). run_upd. run_upd.
  unfold modify. unfold push_store in Hpush.
  destruct (a_blocked a) as [|y l] eqn:Hbl; cbn [hd] in *.
  - rewrite Z.eqb_refl in *. simpl when. step. eexists; split; [done|].
    eapply abs_update_blocked; try done; simpl; by rewrite !unlink_alter_links.
  - assert (is_Some (tcbs s !! y)) as Hy.
    { eapply linked_is_Some; [done|]. unfold a_queues. rewrite Hbl. constructor. set_solver. }
    pose proof (linked_nonnull _ _ _ Hlk Hy) as Hyn.
    rewrite (proj2 (Z.eqb_neq y NULL)) in * by done. simpl when. run_upd.
    eexists; split; [done|].
    eapply abs_update_blocked; try done; simpl; by rewrite !unlink_alter_links.
Qed.

(** The two conditional assignments of an unlink, followed by the reset of the
    task's own links, lead to [drop_store]. *)
Lemma refines_blocked_remove x : refines abstracts (blocked_remove x) (a_blocked_remove x).
Proof.
  apply refines_require. intros s a HR Hx.
  pose proof (abs_linked _ _ HR) as Hlk.
  apply list_elem_of_split in Hx as (l1 & l2 & Hbl).
  assert (a_queues a !! 0%nat = Some (l1 ++ x :: l2)) as H0 by (by rewrite <- Hbl).
  pose proof (linked_nodup _ _ Hlk _ _ H0) as Hnd.
  pose proof (linked_dll _ _ Hlk _ _ H0) as Hdll.
  assert (is_Some (tcbs s !! x)) as [t Ht] by (eapply dseg_lookup; [done|set_solver]).
  unfold modify. rewrite Hbl, (remove_ptr_split _ _ _ Hnd).
  pose proof (linked_drop _ _ 0 l1 x l2 Hlk H0) as Hdrop. simpl in Hdrop.
  assert (is_Some (tcbs s !! x)) as Hx by eauto.
  pose proof (unlink_drop_store x (tcbs s)) as Hun.
  unfold drop_store in Hdrop, Hun. rewrite (links_lookup _ _ _ Ht) in Hdrop, Hun.
  unfold blocked_remove. run (deref_ret _ _ _ Ht). step. rewrite (abs_blocked _ _ HR), Hbl.
  destruct (neighbours _ _ _ _ _ Hdll Hnd Ht) as ([[Hp ->]|(Hp&?&?&?)] & [[Hn ->]|(Hn&?&?&?)] & Hhd);
    rewrite ?Hp, ?Hn, ?Z.eqb_refl, ?(proj2 (Z.eqb_neq (prev t) _) Hp),
      ?(proj2 (Z.eqb_neq (next t) _) Hn) in *; simpl in *; rewrite ?Z.eqb_refl.
  all: (* the assignment through [prev], or the one to [g_blocked_head] *)
    first [step | run_upd]; norm;
    erewrite bind_ret by (apply deref_ret; simpl; rewrite ?lookup_alter_ne by done; exact Ht);
    rewrite ?Hn, ?Z.eqb_refl, ?(proj2 (Z.eqb_neq (next t) _) Hn); simpl;
    first [step | run_upd]; norm; run_upd; rewrite upd_ret by alters; norm;
    (eexists; split; [done|]); eapply abs_update_blocked; try done;
    simpl; rewrite ?Hp; try done; rewrite (abs_blocked _ _ HR), Hbl; by destruct l1.
Qed.
#[export] Hint Resolve refines_blocked_insert refines_blocked_remove : refine.

Lemma hd_null_nonempty h l : dll h l → (hd NULL l =? NULL) = negb (nonempty l).
Proof.
  intros Hl%dseg_hd_null. destruct l; simpl in *; [done|]. apply Z.eqb_neq. naive_solver.
Qed.

(** Clearing the bit of an emptied list. *)
Lemma bitmap_drop_abs s a prio l l' j :
  abstracts s a → 0 ≤ prio → a_ready a !! Z.to_nat prio = Some l → (j < 32)%nat →
  (nonempty l' = true → nonempty l = true) →
  Z.testbit (if negb (nonempty l') then bitmap_clear (priority_bitmap (g_sched s)) prio
             else priority_bitmap (g_sched s)) (Z.of_nat j) =
  if decide (j = Z.to_nat prio) then nonempty l'
  else Z.testbit (priority_bitmap (g_sched s)) (Z.of_nat j).
Proof.
  intros HR Hp Hl Hj Hne. pose proof (abs_index _ _ _ _ HR Hl).
  destruct (nonempty l') eqn:El'; simpl.
  - rewrite <- El'. eapply bitmap_same_abs; [done..|]. by rewrite Hne, El'.
  - rewrite <- (Z2Nat.id prio) at 1 by done.
    apply bitmap_clear_abs; [apply (abs_bitmap_range _ _ HR)|done..].
Qed.

(** Taking [x] off a list through its head pointer: the head moves exactly when
    [x] is the first task. *)
Lemma when_set_ready_head_ret s prio x n l1 l2 :
  ready_list (g_sched s) !! Z.to_nat prio = Some (hd NULL (l1 ++ x :: l2)) →
  n = hd NULL l2 → NoDup (l1 ++ x :: l2) →
  when (hd NULL (l1 ++ x :: l2) =? x) (set_ready_head prio n) s =
  Ret () (s <| g_sched := g_sched s <| ready_list :=
    <[Z.to_nat prio := hd NULL (l1 ++ l2)]> (ready_list (g_sched s)) |> |>).
Proof.
  intros Hhd -> Hnd. destruct l1 as [|y l1]; simpl in *.
  - rewrite Z.eqb_refl. simpl. by erewrite set_ready_head_ret.
  - rewrite (proj2 (Z.eqb_neq y x)).
    + simpl. rewrite list_insert_id by done. by destruct s as [[]].
    + apply NoDup_cons in Hnd as [Hnd _]. set_solver.
Qed.

(** [scheduler_remove_task] with interrupts already masked. *)
Definition remove_task_body (x : ptr) (irq_state : Z) : M sched () :=
  t ← deref x;
  let prio := priority t in
  head ← ready_head prio;
  when (head =? x) (set_ready_head prio (next t)) ;;
  when (negb (prev t =? NULL)) (upd (prev t) (set_field next (next t))) ;;
  t ← deref x;
  when (negb (next t =? NULL)) (upd (next t) (set_field prev (prev t))) ;;
  head ← ready_head prio;
  when (head =? NULL) (set_bitmap (λ b, bitmap_clear b prio)) ;;
  upd x (set_field next NULL) ;;
  upd x (set_field prev NULL) ;;
  zoom (critical_exit irq_state).

(** A task on the ready list of its priority is unlinked from it. *)
Lemma remove_listed s a x t l1 l2 irq_state :
  abstracts s a → tcbs s !! x = Some t → 0 ≤ priority t →
  a_ready a !! Z.to_nat (priority t) = Some (l1 ++ x :: l2) →
  ∃ s', remove_task_body x irq_state s = zoom (critical_exit irq_state) s' ∧
    abstracts s' (a <| a_ready := <[Z.to_nat (priority t) := l1 ++ l2]> (a_ready a) |>).
Proof.
  intros HR Ht Hp0 Hl. pose proof (abs_index _ _ _ _ HR Hl) as Hi32.
  pose proof (abs_head _ _ _ _ HR Hl) as Hhd. pose proof (abs_linked _ _ HR) as Hlk.
  pose proof (linked_nodup _ _ Hlk (Datatypes.S _) _ Hl) as Hnd.
  pose proof (linked_dll _ _ Hlk (Datatypes.S _) _ Hl) as Hdll.
  pose proof (linked_drop _ (a_queues a) (Datatypes.S _) l1 x l2 Hlk Hl) as Hdrop.
  assert (is_Some (tcbs s !! x)) as Hx by eauto.
  pose proof (unlink_drop_store x (tcbs s)) as Hun.
  unfold drop_store in Hdrop, Hun. rewrite (links_lookup _ _ _ Ht) in Hdrop, Hun.
  destruct (neighbours _ _ _ _ _ Hdll Hnd Ht) as (Hp & Hn & Hnhd).
  unfold remove_task_body. run (deref_ret _ _ _ Ht).
  erewrite bind_ret by (apply ready_head_ret; exact Hhd).
  erewrite bind_ret by (eapply when_set_ready_head_ret; [exact Hhd|exact Hnhd|done]). norm.
  erewrite bind_ret by (apply when_upd_ret; intros ?%negb_true_iff%Z.eqb_neq; naive_solver). norm.
  erewrite bind_ret by (apply deref_ret; simpl; rewrite lookup_if_alter;
    [exact Ht|intros ?%negb_true_iff%Z.eqb_neq; naive_solver]).
  erewrite bind_ret by (apply when_upd_ret; intros ?%negb_true_iff%Z.eqb_neq; alters; naive_solver).
  norm.
  erewrite bind_ret.
  2:{ apply ready_head_ret. simpl. apply list_lookup_insert_eq. by eapply lookup_lt_Some. }
  rewrite (bind_ret _ _ _ _ _ (when_set_bitmap_ret _ _ _)). norm.
  run_upd. run_upd.
  assert (hd NULL (l1 ++ l2) =? NULL = negb (nonempty (l1 ++ l2))) as ->.
  { eapply hd_null_nonempty. by apply dll_drop. }
  eexists; split; [done|].
  eapply abs_update_ready; try done; simpl.
  - destruct (next t =? NULL), (prev t =? NULL); exact Hdrop.
  - destruct (next t =? NULL), (prev t =? NULL); exact Hun.
  - destruct (negb _); [apply bitmap_clear_range|]; apply (abs_bitmap_range _ _ HR).
  - intros j Hj. eapply bitmap_drop_abs; [done..|]. by destruct l1.
Qed.

(** On a task that is on no queue the routine has no effect. *)
Lemma remove_unlisted s a x t l irq_state :
  abstracts s a → tcbs s !! x = Some t → 0 ≤ priority t →
  a_ready a !! Z.to_nat (priority t) = Some l → ¬ a_listed x a →
  ∃ s', remove_task_body x irq_state s = zoom (critical_exit irq_state) s' ∧
    abstracts s' (a <| a_ready := <[Z.to_nat (priority t) := l]> (a_ready a) |>).
Proof.
  intros HR Ht Hp0 Hl Hnl.
  pose proof (abs_head _ _ _ _ HR Hl) as Hhd. pose proof (abs_linked _ _ HR) as Hlk.
  assert (is_Some (tcbs s !! x)) as Hx by eauto.
  pose proof (linked_dll _ _ Hlk (Datatypes.S _) _ Hl) as Hdll.
  destruct (linked_free _ _ Hlk x _ _ (links_lookup _ _ _ Ht) Hnl) as [Hn Hp].
  unfold remove_task_body. run (deref_ret _ _ _ Ht).
  erewrite bind_ret by (apply ready_head_ret; exact Hhd).
  rewrite (proj2 (Z.eqb_neq (hd NULL l) x)), Hp, Hn.
  2:{ intros E. destruct l as [|y l]; simpl in E.
      - by destruct (linked_nonnull _ _ _ Hlk Hx).
      - subst y. apply Hnl, listed_lookup. exists (Datatypes.S (Z.to_nat (priority t))), (x :: l).
        split; [done|]. set_solver. }
  rewrite !Z.eqb_refl. simpl. step. step. run (deref_ret _ _ _ Ht). rewrite Hn, Z.eqb_refl. step.
  erewrite bind_ret by (apply ready_head_ret; exact Hhd).
  rewrite (bind_ret _ _ _ _ _ (when_set_bitmap_ret _ _ _)). norm. run_upd. run_upd.
  rewrite (hd_null_nonempty _ _ Hdll).
  eexists; split; [done|].
  eapply abs_update_ready; try done; simpl.
  - rewrite (list_insert_id (a_ready a)) by done. eapply linked_links_eq; [| |exact Hlk].
    + rewrite !lookup_alter_ne; [by apply (linked_null _ _ Hlk)|..]; by eapply linked_nonnull.
    + intros y. rewrite !links_alter. destruct (decide (x = y)) as [<-|]; [|done].
      unfold links. rewrite lookup_alter_eq, Ht. simpl. by rewrite Hn, Hp.
  - by rewrite !unlink_alter_links.
  - by rewrite list_insert_id.
  - destruct (negb _); [apply bitmap_clear_range|]; apply (abs_bitmap_range _ _ HR).
  - intros j Hj. by eapply bitmap_drop_abs.
Qed.

Lemma refines_remove_task x : refines abstracts (scheduler_remove_task x) (a_remove_task x).
Proof.
  apply refines_bind; [apply refines_cpu|]. intros irq_state. apply refines_if; [apply refines_cpu|].
  apply (refines_deref_require x (λ t a, a_ready_or_free x (priority t) a)
    (remove_task_body x irq_state)); [|done].
  intros s a t HR Ht [[Hp Hlt] Hwhere]. simpl priority.
  destruct (lookup_lt_is_Some_2 _ _ Hlt) as [l Hl]. rewrite Hl in Hwhere. simpl in Hwhere.
  unfold modify, mbind at 1, M_bind at 1. rewrite (list_alter_lookup _ _ _ _ Hl).
  destruct (decide (x ∈ l)) as [(l1 & l2 & ->)%list_elem_of_split|Hxl].
  - pose proof (linked_nodup _ _ (abs_linked _ _ HR) (Datatypes.S _) _ Hl) as Hnd.
    rewrite (remove_ptr_split _ _ _ Hnd).
    destruct (remove_listed _ _ _ _ _ _ irq_state HR Ht Hp Hl) as (s' & -> & HR').
    apply (refines_cpu (critical_exit irq_state) _ _ HR').
  - rewrite (remove_ptr_id _ _ Hxl). destruct Hwhere as [|Hnl]; [done|].
    destruct (remove_unlisted _ _ _ _ _ irq_state HR Ht Hp Hl Hnl) as (s' & -> & HR').
    apply (refines_cpu (critical_exit irq_state) _ _ HR').
Qed.
#[export] Hint Resolve refines_remove_task : refine.

(** ** Operations on ready tasks *)

Lemma refines_preempts x : refines abstracts (preempts x) (a_preempts x).
Proof. unfold preempts, a_preempts. refine_sched. Qed.
#[export] Hint Resolve refines_preempts : refine.

Lemma refines_add_task x : refines abstracts (scheduler_add_task x) (a_add_task x).
Proof. unfold scheduler_add_task, a_add_task. refine_sched. Qed.
#[export] Hint Resolve refines_add_task : refine.

Lemma refines_set_priority x p :
  refines abstracts (scheduler_set_priority x p) (a_set_priority x p).
Proof. unfold scheduler_set_priority, a_set_priority. refine_sched. Qed.
#[export] Hint Resolve refines_set_priority : refine.

(** ** Yield *)

Lemma set_a_ready_id a i l : a_ready a !! i = Some l → a <| a_ready := <[i := l]> (a_ready a) |> = a.
Proof. intros Hl. rewrite list_insert_id by done. by destruct a. Qed.

(** Lines 206-214: the running task, when it heads a list with other tasks,
    moves to its tail. *)
Definition yield_rotate (cur : ptr) (prio : Z) : M sched () :=
  head ← ready_head prio;
  rotate ← (if head =? NULL then mret false else
            h ← deref head; mret (negb (next h =? NULL) && (head =? cur)));
  when rotate
    (h ← deref head;
     set_ready_head prio (next h) ;;
     new_head ← ready_head prio;
     upd new_head (set_field prev NULL) ;;
     upd head (set_field next NULL) ;;
     upd head (set_field prev NULL) ;;
     ready_insert_tail head).

Lemma yield_rotate_head s a cur z l t prio :
  abstracts s a → 0 ≤ prio → a_ready a !! Z.to_nat prio = Some (cur :: z :: l) →
  tcbs s !! cur = Some t → priority t = prio →
  ∃ s', yield_rotate cur prio s = Ret () s' ∧
    abstracts s' (a <| a_ready := <[Z.to_nat prio := z :: l ++ [cur]]> (a_ready a) |>).
Proof.
  intros HR Hp0 Hl Ht Hprio. pose proof (abs_head _ _ _ _ HR Hl) as Hhd.
  pose proof (abs_linked _ _ HR) as Hlk.
  pose proof (linked_dll _ _ Hlk (Datatypes.S _) _ Hl) as Hdll.
  pose proof (linked_nodup _ _ Hlk (Datatypes.S _) _ Hl) as Hnd.
  pose proof (linked_drop _ (a_queues a) (Datatypes.S _) [] cur (z :: l) Hlk Hl) as Hdrop.
  destruct (neighbours _ [] cur (z :: l) t Hdll Hnd Ht) as
    ([[Hp _]|(_ & ? & _)] & [[_ ?]|(Hn & _ & Hne & Hz)] & Hnz); try done. simpl in Hnz.
  rewrite Hnz in *. apply NoDup_cons in Hnd as [Hcur _].
  assert (cur ≠ NULL) as Hc0 by (by destruct Hdll).
  assert (is_Some (tcbs s !! cur)) as Hc by eauto.
  unfold yield_rotate. erewrite bind_ret by (apply ready_head_ret; exact Hhd). simpl hd.
  rewrite (proj2 (Z.eqb_neq _ _) Hc0), bind_assoc. run (deref_ret _ _ _ Ht).
  rewrite Hnz, (proj2 (Z.eqb_neq _ _) Hn), Z.eqb_refl. step. simpl when.
  run (deref_ret _ _ _ Ht). erewrite bind_ret by (eapply set_ready_head_ret; exact Hhd).
  rewrite Hnz. erewrite bind_ret.
  2:{ apply ready_head_ret. simpl. apply list_lookup_insert_eq. by eapply lookup_lt_Some. }
  norm. run_upd. run_upd. run_upd.
  match goal with |- ∃ s', ready_insert_tail cur ?s1 = _ ∧ _ =>
    assert (abstracts s1 (a <| a_ready := <[Z.to_nat prio := z :: l]> (a_ready a) |>)) as HR1 end.
  { pose proof (unlink_drop_store cur (tcbs s)) as Hun.
    unfold drop_store in Hdrop, Hun. rewrite (links_lookup _ _ _ Ht), Hnz, Hp in Hdrop, Hun.
    rewrite Z.eqb_refl, (proj2 (Z.eqb_neq _ _) Hn) in Hdrop, Hun.
    eapply abs_update_ready; try done; simpl.
    - apply (abs_bitmap_range _ _ HR).
    - intros j Hj. by apply (bitmap_same_abs s a _ (cur :: z :: l) (z :: l) j HR Hl). }
  assert (Z.to_nat prio < length (a_ready a))%nat as Hlt by (by eapply lookup_lt_Some).
  assert (∀ a', a_tasks a' = a_tasks a → a_deref cur a' = Ret (unlink t) a') as Hdt.
  { intros a' Ea. unfold a_deref. by rewrite Ea, (abs_lookup _ _ _ HR), Ht. }
  eapply (refines_apply _ _ _ _ _ _ _ (refines_ready_insert_tail cur) HR1).
  unfold a_ready_insert_tail. erewrite bind_ret by (by apply Hdt).
  erewrite bind_ret.
  2:{ apply require_true. split.
      - apply (linked_unlisted _ _ _ _ _ _ Hlk (abs_ready_lookup _ _ _ _ HR Hl)); set_solver.
      - split; [by simpl; rewrite Hprio|]. simpl. by rewrite length_insert, Hprio. }
  unfold modify. simpl. rewrite Hprio.
  erewrite list_alter_lookup by (by apply list_lookup_insert_eq).
  by rewrite list_insert_insert_eq.
Qed.

Lemma rotate_not_head cur l : hd NULL l ≠ cur → rotate cur l = l.
Proof. intros Hh. destruct l as [|y [|z l]]; [done..|]. simpl. by rewrite (proj2 (Z.eqb_neq y cur) Hh). Qed.

Lemma yield_rotate_spec s a cur t prio l :
  abstracts s a → 0 ≤ prio → a_ready a !! Z.to_nat prio = Some l →
  tcbs s !! cur = Some t → priority t = prio →
  ∃ s', yield_rotate cur prio s = Ret () s' ∧
    abstracts s' (a <| a_ready := <[Z.to_nat prio := rotate cur l]> (a_ready a) |>).
Proof.
  intros HR Hp0 Hl Ht Hprio. pose proof (abs_head _ _ _ _ HR Hl) as Hhd.
  pose proof (linked_dll _ _ (abs_linked _ _ HR) (Datatypes.S _) _ Hl) as Hdll.
  assert (∀ b : bool, b = false → rotate cur l = l →
    ∃ s', when b (h ← deref (hd NULL l); set_ready_head prio (next h) ;;
      new_head ← ready_head prio; upd new_head (set_field prev NULL) ;;
      upd (hd NULL l) (set_field next NULL) ;; upd (hd NULL l) (set_field prev NULL) ;;
      ready_insert_tail (hd NULL l)) s = Ret () s' ∧
    abstracts s' (a <| a_ready := <[Z.to_nat prio := rotate cur l]> (a_ready a) |>)) as Hno.
  { intros b -> ->. exists s. rewrite set_a_ready_id by done. done. }
  destruct l as [|y l].
  - unfold yield_rotate. erewrite bind_ret by (apply ready_head_ret; exact Hhd). simpl hd.
    rewrite Z.eqb_refl. step. by apply Hno.
  - destruct Hdll as (Hy & Hly & Hseg).
    apply links_is_Some in Hly as (ty & Hty & Hny & _).
    destruct (decide (y = cur)) as [->|Hne]; [destruct l as [|z l]|].
    + unfold yield_rotate. erewrite bind_ret by (apply ready_head_ret; exact Hhd). simpl hd.
      rewrite (proj2 (Z.eqb_neq _ _) Hy), bind_assoc. run (deref_ret _ _ _ Hty). step.
      rewrite Hny. simpl hd. by apply Hno.
    + unfold rotate. rewrite Z.eqb_refl. by apply (yield_rotate_head s a cur z l t prio).
    + unfold yield_rotate. erewrite bind_ret by (apply ready_head_ret; exact Hhd). simpl hd.
      rewrite (proj2 (Z.eqb_neq _ _) Hy), bind_assoc. run (deref_ret _ _ _ Hty). step.
      rewrite (proj2 (Z.eqb_neq _ _) Hne), andb_false_r.
      apply Hno; [done|]. by apply rotate_not_head.
Qed.

Lemma refines_yield : refines abstracts scheduler_yield a_yield.
Proof.
  unfold scheduler_yield, a_yield. repeat first [lazymatch goal with
    | |- refines _ (deref _ ≫= _) _ => fail | _ => refine_step end].
  apply (refines_deref_require _ (λ c a, valid_priority (priority c) a)); [|done].
  intros s a t HR Ht [Hp Hlt]. simpl priority.
  destruct (lookup_lt_is_Some_2 _ _ Hlt) as [l Hl].
  unfold modify, mbind at 1, M_bind at 1. rewrite (list_alter_lookup _ _ _ _ Hl).
  destruct (yield_rotate_spec _ _ _ _ _ _ HR Hp Hl Ht eq_refl) as (s' & Hy & HR').
  run (deref_ret _ _ _ Ht).
  pose proof (bind_ret _ (λ _, trigger_switch ;; zoom (critical_exit x)) _ _ _ Hy) as Hrun.
  unfold yield_rotate in Hrun. rewrite bind_assoc in Hrun. cbv beta in Hrun.
  match goal with |- context [(ready_head ?p ≫= ?k) s] =>
    assert ((ready_head p ≫= k) s = (trigger_switch ;; zoom (critical_exit x)) s') as -> end.
  { rewrite <- Hrun. apply bind_ext. intros h s1 _. symmetry. apply bind_assoc. }
  assert (refines abstracts (trigger_switch ;; zoom (critical_exit x))
                            (a_trigger ;; zoom (critical_exit x))) as Href by refine_sched.
  apply (Href _ _ HR').
Qed.
#[export] Hint Resolve refines_yield : refine.

(** ** Walks of the blocked list

    The loops read the next pointer before the current task may be unlinked;
    they visit what the specification's [foreach] visits. *)

Section blocked_walk.
Context {X B C : Type} (body : X → M sched (X + B)) (f : ptr → C → M asched C)
  (pack : ptr → C → X) (fin : C → B).
Context (Hnull : ∀ c, body (pack NULL c) = mret (inr (fin c))).
Context (Hnext : ∀ x c, x ≠ NULL → ∃ k ak,
  body (pack x c) = (deref x ≫= k) ∧ f x c = (a_deref x ≫= ak) ∧
  ∀ t, refines_via abstracts (λ c', inl (pack (next t) c')) (k t) (ak (unlink t))).
Context (Hkeep : ∀ x c a c' a', f x c a = Ret c' a' →
  a_blocked a' = a_blocked a ∨ a_blocked a' = remove_ptr x (a_blocked a)).

Lemma blocked_walk rest kept c s a fuel :
  abstracts s a → a_blocked a = kept ++ rest → (length rest < fuel)%nat →
  match foreach f rest c a with
  | Ret c' a' => ∃ s', loop fuel body (pack (hd NULL rest) c) s = Ret (fin c') s' ∧ abstracts s' a'
  | Spin a' => ∃ s', loop fuel body (pack (hd NULL rest) c) s = Spin s' ∧ abstracts s' a'
  | Fault | Diverge => True
  end.
Proof using Hnull Hnext Hkeep.
  revert kept c s a fuel. induction rest as [|x rest IH]; intros kept c s a fuel HR Hbl Hfuel.
  - destruct fuel as [|fuel]; [simpl in Hfuel; lia|]. simpl foreach. simpl hd. exists s.
    split; [|done]. apply loop_done. by rewrite Hnull.
  - destruct fuel as [|fuel]; [simpl in Hfuel; lia|].
    pose proof (linked_dll _ _ (abs_linked _ _ HR) 0 _ eq_refl) as Hdll.
    pose proof (linked_nodup _ _ (abs_linked _ _ HR) 0 _ eq_refl) as Hnd.
    rewrite Hbl in Hdll, Hnd.
    pose proof Hdll as (_ & Hx & Hlx & _)%dseg_app.
    apply links_is_Some in Hlx as (t & Ht & Hn & _).
    destruct (Hnext x c Hx) as (k & ak & Hk & Hak & Hstep).
    specialize (Hstep t s a HR).
    simpl foreach. unfold mbind at 1, M_bind at 1.
    assert (f x c a = ak (unlink t) a) as E.
    { rewrite Hak. apply bind_ret. unfold a_deref. by rewrite (abs_lookup _ _ _ HR), Ht. }
    pose proof (Hkeep x c a) as Hkp. rewrite E in *.
    destruct (ak (unlink t) a) as [c' a'|a'| |]; [|simpl in *|done..].
    + destruct Hstep as (s' & Hs' & HR').
      assert (∃ kept', a_blocked a' = kept' ++ rest) as (kept' & Hbl').
      { destruct (Hkp _ _ eq_refl) as [->| ->]; rewrite Hbl.
        - exists (kept ++ [x]). by rewrite <- app_assoc.
        - exists kept. by apply remove_ptr_split. }
      simpl hd. rewrite (loop_next fuel body (pack x c) s (pack (next t) c') s').
      * rewrite Hn. apply (IH kept'); [done..|]. simpl in Hfuel. lia.
      * by rewrite Hk, (bind_ret _ _ _ _ _ (deref_ret _ _ _ Ht)).
    + destruct Hstep as (s' & Hs' & HR'). exists s'. split; [|done].
      apply bind_spin. by rewrite Hk, (bind_ret _ _ _ _ _ (deref_ret _ _ _ Ht)).
Qed.

(** The walk in its context: from the head, with fuel for every TCB. *)
Lemma refines_blocked_walk {Y} c (k : B → M sched Y) (ak : C → M asched Y) :
  (∀ c, refines abstracts (k (fin c)) (ak c)) →
  refines abstracts
    (iter ← gets g_blocked_head; fuel ← list_fuel;
     r ← loop fuel body (pack iter c); k r)
    (bl ← gets a_blocked; r ← foreach f bl c; ak r).
Proof using Hnull Hnext Hkeep.
  intros Hk s a HR. unfold list_fuel.
  rewrite (bind_ret (gets a_blocked) _ a _ a eq_refl).
  erewrite (bind_ret (gets g_blocked_head)) by reflexivity.
  erewrite (bind_ret (gets _)) by reflexivity.
  rewrite (abs_blocked _ _ HR).
  assert (length (a_blocked a) < Datatypes.S (size (tcbs s)))%nat as Hlen.
  { pose proof (queue_length _ _ 0 _ (abs_linked _ _ HR) eq_refl). lia. }
  pose proof (blocked_walk (a_blocked a) [] c s a _ HR eq_refl Hlen) as Hw.
  unfold mbind, M_bind. destruct (foreach f (a_blocked a) c a) as [c' a'|a'| |]; [|..]; try done.
  - destruct Hw as (s' & -> & HR'). apply (Hk c' s' a' HR').
  - destruct Hw as (s' & -> & HR'). eauto.
Qed.
End blocked_walk.

#[export] Hint Extern 4 (keeps a_blocked (a_upd _ _)) =>
  intros ???; unfold a_upd; case_match; naive_solver : keeps.

Lemma keeps_a_blocked_deref x : keeps a_blocked (a_deref x).
Proof. intros ???. unfold a_deref. case_match; naive_solver. Qed.
Lemma keeps_a_blocked_require P `{!∀ a, Decision (P a)} : keeps a_blocked (require P).
Proof. intros ???. unfold require. case_match; naive_solver. Qed.
#[export] Hint Resolve keeps_a_blocked_deref keeps_a_blocked_require : keeps.

Lemma keeps_a_blocked_insert_tail x : keeps a_blocked (a_ready_insert_tail x).
Proof. unfold a_ready_insert_tail. keeps_auto. Qed.
#[export] Hint Resolve keeps_a_blocked_insert_tail : keeps.

Lemma keeps_a_blocked_make_ready x r : keeps a_blocked (a_make_ready x r).
Proof. unfold a_make_ready. keeps_auto. Qed.
#[export] Hint Resolve keeps_a_blocked_make_ready : keeps.

(** Taking one task off the blocked list, then work that keeps the list. *)
Lemma blocked_remove_keep {X} x (m : M asched X) a r a' : keeps a_blocked m →
  (a_blocked_remove x ;; m) a = Ret r a' → a_blocked a' = remove_ptr x (a_blocked a).
Proof.
  intros Hm (? & a1 & H1 & H2)%bind_ret_inv. rewrite (Hm _ _ _ H2).
  unfold a_blocked_remove in H1. apply bind_ret_inv in H1 as (? & a2 & H1 & [= _ <-]).
  unfold require in H1. case_match; naive_solver.
Qed.

Lemma refines_make_ready x r : refines abstracts (make_ready x r) (a_make_ready x r).
Proof. unfold make_ready, a_make_ready. refine_sched. Qed.
#[export] Hint Resolve refines_make_ready : refine.

Lemma refines_time_slice : refines abstracts tick_time_slice a_time_slice.
Proof. unfold tick_time_slice, a_time_slice. refine_sched. Qed.
#[export] Hint Resolve refines_time_slice : refine.

(** ** The tick handler *)

Lemma tick_wake_keep x c a c' a' : a_tick_wake x c a = Ret c' a' →
  a_blocked a' = a_blocked a ∨ a_blocked a' = remove_ptr x (a_blocked a).
Proof.
  intros (t & a1 & Ht & (tick & a2 & Hg & H)%bind_ret_inv)%bind_ret_inv.
  apply keeps_a_blocked_deref in Ht. injection Hg as <- <-. rewrite <- Ht.
  destruct (tick_expired _ _) as [wake timed_out].
  apply bind_ret_inv in H as (? & a2 & H1 & H2).
  assert (keeps a_blocked (when timed_out (a_upd x (set_field block_result KERNEL_ERR_TIMEOUT))))
    as Hk by keeps_auto.
  apply Hk in H1. rewrite <- H1. destruct wake; [right|left; by injection H2 as _ ->].
  eapply blocked_remove_keep; [|exact H2]. keeps_auto.
Qed.

(** The bitmap search finds the most urgent non-empty list. *)
Lemma find_highest_abs s a : abstracts s a →
  bitmap_find_highest (priority_bitmap (g_sched s)) = first_nonempty (a_ready a).
Proof.
  intros HR. pose proof (abs_len _ _ HR) as Hlen. pose proof (abs_bitmap_range _ _ HR) as Hr.
  change (Z.to_nat CONFIG_MAX_PRIORITY) with 32%nat in Hlen.
  destruct (first_nonempty_spec (a_ready a)) as (Hrange & Hlow & Hhit). rewrite Hlen in *.
  assert (∀ j, 0 ≤ j < first_nonempty (a_ready a) →
    Z.testbit (priority_bitmap (g_sched s)) j = false) as Hbits.
  { intros j Hj. rewrite <- (Z2Nat.id j) by lia.
    rewrite (abs_bitmap _ _ HR _ []); [done|]. apply Hlow. lia. }
  destruct (decide (first_nonempty (a_ready a) = 32)) as [E|].
  - assert (priority_bitmap (g_sched s) = 0) as ->; [|done].
    apply word_ext; [done..|]. intros j Hj. rewrite Z.bits_0. apply Hbits. lia.
  - destruct Hhit as (x & l & Hx); [lia|]. apply find_highest_eq; [done|lia| |done].
    rewrite <- (Z2Nat.id (first_nonempty (a_ready a))) by lia.
    by rewrite (abs_bitmap _ _ HR _ _ Hx).
Qed.

Lemma refines_highest : refines abstracts
  (gets (λ s, bitmap_find_highest (priority_bitmap (g_sched s))))
  (gets (λ a, first_nonempty (a_ready a))).
Proof. apply refines_gets. apply find_highest_abs. Qed.
#[export] Hint Resolve refines_highest : refine.

Lemma refines_tick : refines abstracts scheduler_tick a_tick_handler.
Proof.
  unfold scheduler_tick, a_tick_handler.
  apply refines_bind; [refine_sched|]. intros irq_state.
  apply refines_bind.
  { apply refines_modify. intros ?? HR. same_abs HR. congruence. }
  intros _. apply (refines_blocked_walk tick_wake_body a_tick_wake (λ x _, x) (λ r, r)).
  - by intros [].
  - intros x c Hx. unfold tick_wake_body. rewrite (proj2 (Z.eqb_neq _ _) Hx).
    do 2 eexists. split_and!; [done..|]. intros t. unlink_fields t. cbv zeta.
    apply refines_via_bind; [refine_sched|]. intros tick.
    replace (tick_expired tick (unlink t)) with (tick_expired tick t) by done.
    destruct (tick_expired tick t) as [wake timed_out].
    apply refines_via_bind; [refine_sched|]. intros _.
    apply (refines_via_tail _ (λ _, inl (next t))); [|done]. refine_sched.
  - apply tick_wake_keep.
  - intros _. refine_sched.
Qed.
#[export] Hint Resolve refines_tick : refine.

(** ** Blocking and waking *)

Lemma refines_block_task_enter reason object timeout :
  refines abstracts (block_task_enter reason object timeout)
    (a_block_task_enter reason object timeout).
Proof. unfold block_task_enter, a_block_task_enter. refine_sched. Qed.

Lemma refines_block_result self :
  refines abstracts (get_block_result self) (a_block_result self).
Proof. unfold get_block_result, a_block_result. refine_sched. Qed.

Lemma refines_unblock_task x result :
  refines abstracts (scheduler_unblock_task x result) (a_unblock_task x result).
Proof. unfold scheduler_unblock_task, a_unblock_task. refine_sched. Qed.
#[export] Hint Resolve refines_block_task_enter refines_block_result refines_unblock_task : refine.

Lemma keeps_better_waiter reason object x best :
  keeps a_blocked (a_better_waiter reason object x best).
Proof. unfold a_better_waiter. keeps_auto. Qed.

Lemma refines_unblock_one reason object result :
  refines abstracts (scheduler_unblock_one reason object result)
    (a_unblock_one reason object result).
Proof.
  unfold scheduler_unblock_one, a_unblock_one.
  apply refines_bind; [refine_sched|]. intros irq_state.
  apply (refines_blocked_walk (unblock_one_body reason object)
    (a_better_waiter reason object) pair (λ r, r)).
  - done.
  - intros x best Hx. unfold unblock_one_body. rewrite (proj2 (Z.eqb_neq _ _) Hx).
    do 2 eexists. split_and!; [done..|]. intros t. unlink_fields t.
    apply refines_via_bind; [refine_sched|]. intros better. by apply refines_via_ret.
  - left. by eapply keeps_better_waiter.
  - intros best. refine_sched.
Qed.

Lemma wake_waiter_keep reason object result x c a c' a' :
  a_wake_waiter reason object result x c a = Ret c' a' →
  a_blocked a' = a_blocked a ∨ a_blocked a' = remove_ptr x (a_blocked a).
Proof.
  intros (t & a1 & Ht & H)%bind_ret_inv. apply keeps_a_blocked_deref in Ht. rewrite <- Ht.
  destruct (waits_for reason object t); [right|left; by injection H as _ ->].
  eapply blocked_remove_keep; [|exact H]. keeps_auto.
Qed.

Lemma refines_unblock_all reason object result :
  refines abstracts (scheduler_unblock_all reason object result)
    (a_unblock_all reason object result).
Proof.
  unfold scheduler_unblock_all, a_unblock_all.
  apply refines_bind; [refine_sched|]. intros irq_state.
  apply (refines_blocked_walk (unblock_all_body reason object result)
    (a_wake_waiter reason object result) pair (λ r, r)).
  - done.
  - intros x n Hx. unfold unblock_all_body. rewrite (proj2 (Z.eqb_neq _ _) Hx).
    do 2 eexists. split_and!; [done..|]. intros t. cbv beta zeta.
    change (waits_for reason object (unlink t)) with (waits_for reason object t).
    destruct (waits_for reason object t).
    + apply refines_via_bind; [refine_sched|]. intros _.
      apply refines_via_bind; [refine_sched|]. intros _. by apply refines_via_ret.
    + by apply refines_via_ret.
  - apply wake_waiter_keep.
  - intros n. refine_sched.
Qed.
#[export] Hint Resolve refines_unblock_one refines_unblock_all : refine.

(** ** Selection, start and the preemption lock *)

Lemma refines_get_next : refines abstracts scheduler_get_next a_get_next.
Proof.
  intros s a HR. simpl. exists s. split; [|done]. unfold scheduler_get_next. step.
  rewrite (find_highest_abs _ _ HR).
  destruct (first_nonempty_spec (a_ready a)) as (Hr & _ & Hhit).
  pose proof (abs_len _ _ HR) as Hlen.
  change (Z.to_nat CONFIG_MAX_PRIORITY) with 32%nat in Hlen. rewrite Hlen in *.
  destruct (Z.leb_spec CONFIG_MAX_PRIORITY (first_nonempty (a_ready a))) as [Hge|Hlt];
    change CONFIG_MAX_PRIORITY with 32 in *.
  - rewrite (lookup_ge_None_2 (a_ready a)); [done|]. rewrite Hlen. lia.
  - destruct Hhit as (x & l & Hx); [lia|]. rewrite Hx. simpl.
    apply ready_head_ret. apply (abs_head _ _ _ _ HR Hx).
Qed.
#[export] Hint Resolve refines_get_next : refine.

Lemma refines_select_next_task : refines abstracts scheduler_select_next_task a_select_next_task.
Proof. unfold scheduler_select_next_task, a_select_next_task. refine_sched. Qed.

Lemma refines_start : refines abstracts scheduler_start a_start.
Proof. unfold scheduler_start, a_start. refine_sched. Qed.

Lemma refines_lock : refines abstracts scheduler_lock a_lock_op.
Proof. unfold scheduler_lock, a_lock_op. refine_sched. Qed.

Lemma refines_unlock : refines abstracts scheduler_unlock a_unlock_op.
Proof. unfold scheduler_unlock, a_unlock_op. refine_sched. Qed.
#[export] Hint Resolve refines_select_next_task refines_start refines_lock refines_unlock : refine.

(** [scheduler_init] establishes the relation on TCBs that are on no list. *)
Lemma init_abstracts s :
  tcbs s !! NULL = None → (∀ x t, tcbs s !! x = Some t → next t = NULL ∧ prev t = NULL) →
  ∃ s', scheduler_init s = Ret () s' ∧ abstracts s' (a_init (unlink <$> tcbs s) (cpu s)).
Proof.
  intros Hnull Hfree. eexists. split; [done|].
  assert (∀ i l, a_queues (a_init (unlink <$> tcbs s) (cpu s)) !! i = Some l → l = []) as Hq.
  { intros [|i] l Hl; [by injection Hl|]. by apply (lookup_replicate 32) in Hl as [-> _]. }
  split; simpl; try done.
  - split; [done|..].
    + intros i l ->%Hq. done.
    + intros i l ->%Hq. constructor.
    + intros i j l m x ->%Hq _ Hx. set_solver.
    + intros x n p (t & Ht & <- & <-)%links_is_Some _. by apply (Hfree x).
  - intros i l Hl. apply (lookup_replicate 32) in Hl as [-> _]. apply Z.bits_0.
Qed.
