(* ===== verification/SchedInv.v ===== *)
(** * Consistency of the scheduler

    [wf a]: a task's state says which queue it is on.  Runnable tasks are on
    the ready list of their priority, blocked tasks on the blocked list, all
    others on no list.  [wf_out (Some x) a] is the same with the task [x] in
    transit: on no list, whatever its state.  Every operation is a short
    sequence of steps between [wf] and [wf_out]. *)
From S2P Require Import Prelude Config Task Critical Bitmap TcbList Scheduler SchedSpec.

(** A task the scheduler may run. *)
Definition runnable (st : task_state_t) : bool :=
  bool_decide (st = TASK_STATE_READY ∨ st = TASK_STATE_RUNNING).

(** The kind of queue a state belongs on: ready ([Some true]), blocked
    ([Some false]) or none. *)
Definition queue_kind (st : task_state_t) : option bool :=
  match st with
  | TASK_STATE_READY | TASK_STATE_RUNNING => Some true
  | TASK_STATE_BLOCKED => Some false
  | _ => None
  end.

Lemma runnable_kind st : runnable st = true ↔ queue_kind st = Some true.
Proof. by destruct st. Qed.
Lemma blocked_kind st : st = TASK_STATE_BLOCKED ↔ queue_kind st = Some false.
Proof. by destruct st. Qed.

(** The ranges of a TCB's fields. *)
Definition task_ok (t : task_tcb) : Prop :=
  0 ≤ priority t < CONFIG_MAX_PRIORITY ∧ 0 ≤ base_priority t < CONFIG_MAX_PRIORITY ∧
  0 ≤ time_slice t ≤ CONFIG_TIME_SLICE.

(** [p] is [NULL] or a task. *)
Definition null_or_task (p : ptr) (a : asched) : Prop := p = NULL ∨ is_Some (a_tasks a !! p).

Record wf_out (o : option ptr) (a : asched) : Prop := {
  wf_len : length (a_ready a) = Z.to_nat CONFIG_MAX_PRIORITY;
  wf_null : a_tasks a !! NULL = None;
  wf_ready i l x : a_ready a !! i = Some l → x ∈ l ↔ Some x ≠ o ∧
    ∃ t, a_tasks a !! x = Some t ∧ runnable (state t) = true ∧ priority t = Z.of_nat i;
  wf_blocked x : x ∈ a_blocked a ↔ Some x ≠ o ∧
    ∃ t, a_tasks a !! x = Some t ∧ state t = TASK_STATE_BLOCKED;
  wf_ready_nodup i l : a_ready a !! i = Some l → NoDup l;
  wf_blocked_nodup : NoDup (a_blocked a);
  wf_task x t : a_tasks a !! x = Some t → task_ok t;
  wf_current : null_or_task (a_current_task a) a;
  wf_next : null_or_task (a_next_task a) a;
  wf_tick : 0 ≤ a_tick a < 2 ^ 32;
  wf_lock : 0 ≤ a_lock a < 2 ^ 32;
  wf_cpu_ok : cpu_wf (a_cpu a);
}.

Abbreviation wf := (wf_out None).

(** ** Elementary consequences *)

Lemma wf_deref o a x : wf_out o a → is_Some (a_tasks a !! x) → x ≠ NULL.
Proof. intros Hwf [t Ht] ->. by rewrite (wf_null _ _ Hwf) in Ht. Qed.

(** A task in transit is on no list. *)
Lemma wf_out_unlisted x a : wf_out (Some x) a → ¬ a_listed x a.
Proof.
  intros Hwf [Hx|(l & Hl & Hx)%Exists_exists]%Exists_cons.
  - apply (wf_blocked _ _ Hwf) in Hx as [[] _]. done.
  - apply list_elem_of_lookup in Hl as [i Hi].
    apply (wf_ready _ _ Hwf _ _ _ Hi) in Hx as [[] _]. done.
Qed.

(** The list of a valid priority. *)
Lemma wf_valid_priority o a x t : wf_out o a → a_tasks a !! x = Some t →
  valid_priority (priority t) a ∧ ∃ l, a_ready a !! Z.to_nat (priority t) = Some l.
Proof.
  intros Hwf Ht. destruct (wf_task _ _ Hwf _ _ Ht) as ([Hp Hlt] & _).
  assert (Z.to_nat (priority t) < length (a_ready a))%nat as Hl by (rewrite (wf_len _ _ Hwf); lia).
  split; [done|]. by apply lookup_lt_is_Some_2.
Qed.

(** Runnable tasks are queued at their priority, and only there. *)
Lemma wf_runnable_in a x t l : wf a → a_tasks a !! x = Some t → runnable (state t) = true →
  a_ready a !! Z.to_nat (priority t) = Some l → x ∈ l.
Proof.
  intros Hwf Ht Hr Hl. apply (wf_ready _ _ Hwf _ _ _ Hl). split; [done|].
  exists t. destruct (wf_task _ _ Hwf _ _ Ht) as ([Hp _] & _). by rewrite Z2Nat.id.
Qed.

(** A task that is not blocked satisfies the precondition of
    [scheduler_remove_task]. *)
Lemma wf_ready_or_free a x t : wf a → a_tasks a !! x = Some t →
  state t ≠ TASK_STATE_BLOCKED → a_ready_or_free x (priority t) a.
Proof.
  intros Hwf Ht Hb. destruct (wf_valid_priority _ _ _ _ Hwf Ht) as [Hv [l Hl]].
  split; [done|]. rewrite Hl. simpl.
  destruct (runnable (state t)) eqn:Er.
  - left. by eapply wf_runnable_in.
  - right. intros [Hx|(l' & Hl' & Hx)%Exists_exists]%Exists_cons.
    + apply (wf_blocked _ _ Hwf) in Hx as (_ & t' & ? & ?). by simplify_eq.
    + apply list_elem_of_lookup in Hl' as [i Hi].
      apply (wf_ready _ _ Hwf _ _ _ Hi) in Hx as (_ & t' & ? & ? & _). congruence.
Qed.

(** ** Elementary steps *)

Ltac same_wf H := destruct H; split; simpl in *; try done; eauto.

Lemma wf_cpu o a c : wf_out o a → cpu_wf c → wf_out o (a <| a_cpu := c |>).
Proof. intros H Hc. same_wf H. Qed.

Lemma remove_ptr_in x y l : y ∈ remove_ptr x l ↔ y ≠ x ∧ y ∈ l.
Proof. unfold remove_ptr. by rewrite list_elem_of_filter. Qed.

Lemma remove_ptr_nodup x l : NoDup l → NoDup (remove_ptr x l).
Proof. apply NoDup_filter. Qed.

(** Off the blocked list. *)
Lemma wf_unblock x a : wf a → wf_out (Some x) (a <| a_blocked := remove_ptr x (a_blocked a) |>) ∨
  x ∉ a_blocked a.
Proof.
  intros Hwf. destruct (decide (x ∈ a_blocked a)) as [Hx|]; [left|by right].
  apply (wf_blocked _ _ Hwf) in Hx as (_ & t & Ht & Hst).
  pose proof (wf_ready _ _ Hwf) as Hr. pose proof (wf_blocked _ _ Hwf) as Hb.
  same_wf Hwf.
  - intros i l y Hi. rewrite (Hr i l y Hi). split; [|naive_solver].
    intros (_ & u & Hu & Hru & Hp). split; [|naive_solver]. intros [= ->].
    simplify_eq. by rewrite Hst in Hru.
  - intros y. rewrite remove_ptr_in, Hb. naive_solver.
  - by apply remove_ptr_nodup.
Qed.

(** Off the ready lists. *)
Lemma wf_unready x a t : wf a → a_tasks a !! x = Some t → state t ≠ TASK_STATE_BLOCKED →
  wf_out (Some x)
    (a <| a_ready := alter (remove_ptr x) (Z.to_nat (priority t)) (a_ready a) |>).
Proof.
  intros Hwf Ht Hst. pose proof (wf_ready _ _ Hwf) as Hr. pose proof (wf_blocked _ _ Hwf) as Hb.
  destruct (wf_task _ _ Hwf _ _ Ht) as ([Hp _] & _).
  same_wf Hwf.
  - by rewrite length_alter.
  - intros i l y Hi. destruct (decide (Z.to_nat (priority t) = i)) as [<-|Hne].
    + rewrite list_lookup_alter_eq in Hi. apply fmap_Some in Hi as (m & Hm & ->).
      rewrite remove_ptr_in, (Hr _ _ _ Hm). naive_solver.
    + rewrite list_lookup_alter_ne in Hi by done. rewrite (Hr _ _ _ Hi).
      split; [|naive_solver]. intros (_ & u & Hu & Hru & Hpu). split; [|naive_solver].
      intros [= ->]. simplify_eq. lia.
  - intros y. rewrite Hb. naive_solver.
  - intros i l Hi. destruct (decide (Z.to_nat (priority t) = i)) as [<-|Hne].
    + rewrite list_lookup_alter_eq in Hi. apply fmap_Some in Hi as (m & Hm & ->).
      eapply remove_ptr_nodup; eauto.
    + rewrite list_lookup_alter_ne in Hi by done. eauto.
Qed.

Lemma null_or_task_alter f x p a :
  null_or_task p a → null_or_task p (a <| a_tasks := alter f x (a_tasks a) |>).
Proof. intros [->|Hp]; [by left|right]. simpl. by apply lookup_alter_is_Some. Qed.

(** Updates of a task in transit, and updates that leave its kind of queue
    and its priority. *)
Lemma wf_upd o x f a : wf_out o a →
  (∀ t, a_tasks a !! x = Some t → task_ok t →
    task_ok (f t) ∧ (o = Some x ∨ queue_kind (state (f t)) = queue_kind (state t) ∧ priority (f t) = priority t)) →
  wf_out o (a <| a_tasks := alter f x (a_tasks a) |>).
Proof.
  intros Hwf Hf.
  assert (∀ y u, alter f x (a_tasks a) !! y = Some u → ∃ t, a_tasks a !! y = Some t ∧ task_ok u ∧
    (o = Some y ∨ queue_kind (state u) = queue_kind (state t) ∧ priority u = priority t)) as Hold.
  { intros y u. destruct (decide (x = y)) as [<-|].
    - rewrite lookup_alter_eq. intros (t & Ht & ->)%fmap_Some. exists t. split; [done|].
      apply Hf; [done|]. by eapply wf_task.
    - rewrite lookup_alter_ne by done. intros Hu. exists u. eauto 6 using wf_task. }
  assert (∀ y t, a_tasks a !! y = Some t → Some y ≠ o →
    ∃ u, alter f x (a_tasks a) !! y = Some u ∧ queue_kind (state u) = queue_kind (state t) ∧ priority u = priority t) as Hnew.
  { intros y t Ht Ho. destruct (decide (x = y)) as [<-|].
    - rewrite lookup_alter_eq, Ht. eexists; split; [done|].
      destruct (Hf t) as (_ & [|]); eauto using wf_task; naive_solver.
    - rewrite lookup_alter_ne by done. eauto. }
  pose proof (λ p, null_or_task_alter f x p a) as Hnt. destruct Hwf.
  split; simpl; try done; try by apply Hnt.
  - by rewrite eq_None_not_Some, lookup_alter_is_Some, <- eq_None_not_Some.
  - intros i l y Hi. rewrite (wf_ready0 _ _ _ Hi). split; intros (Ho & t & Ht & Hr & Hp).
    + split; [done|]. destruct (Hnew _ _ Ht Ho) as (u & ? & Hs & Hq).
      exists u. by rewrite runnable_kind, Hs, <- runnable_kind, Hq.
    + split; [done|]. destruct (Hold _ _ Ht) as (u & ? & _ & [?|[Hs Hq]]); [by destruct Ho|].
      exists u. by rewrite runnable_kind, <- Hs, <- runnable_kind, <- Hq.
  - intros y. rewrite wf_blocked0. split; intros (Ho & t & Ht & Hst).
    + split; [done|]. destruct (Hnew _ _ Ht Ho) as (u & ? & Hs & _).
      exists u. by rewrite blocked_kind, Hs, <- blocked_kind.
    + split; [done|]. destruct (Hold _ _ Ht) as (u & ? & _ & [?|[Hs _]]); [by destruct Ho|].
      exists u. by rewrite blocked_kind, <- Hs, <- blocked_kind.
  - intros y t Ht. by destruct (Hold _ _ Ht) as (? & _ & ? & _).
Qed.

(** From transit onto the ready list of its priority. *)
Lemma wf_enqueue x t a : wf_out (Some x) a → a_tasks a !! x = Some t → runnable (state t) = true →
  wf (a <| a_ready := alter (λ l, l ++ [x]) (Z.to_nat (priority t)) (a_ready a) |>).
Proof.
  intros Hwf Ht Hr.
  assert (state t ≠ TASK_STATE_BLOCKED) as Hnb by (by destruct (state t)).
  pose proof (wf_ready _ _ Hwf) as Hrd. pose proof (wf_blocked _ _ Hwf) as Hb.
  destruct (wf_task _ _ Hwf _ _ Ht) as ([Hp _] & _).
  assert (∀ i m, a_ready a !! i = Some m → x ∉ m) as Hx.
  { intros i m Hm Hin. apply (Hrd _ _ _ Hm) in Hin. naive_solver. }
  same_wf Hwf.
  - by rewrite length_alter.
  - intros i l y Hi. destruct (decide (Z.to_nat (priority t) = i)) as [<-|Hne].
    + rewrite list_lookup_alter_eq in Hi. apply fmap_Some in Hi as (m & Hm & ->).
      rewrite elem_of_app, list_elem_of_singleton, (Hrd _ _ _ Hm).
      split; [|destruct (decide (y = x)); naive_solver].
      intros [[? ?]| ->]; [done|]. split; [done|]. exists t. split_and!; [done..|lia].
    + rewrite list_lookup_alter_ne in Hi by done. rewrite (Hrd _ _ _ Hi). split.
      * naive_solver.
      * intros (_ & u & Hu & Hru & Hpu). split; [|eauto]. intros [= ->]. simplify_eq. lia.
  - intros y. rewrite Hb. split; [naive_solver|]. intros (_ & u & Hu & Hsu).
    split; [|eauto]. intros [= ->]. by simplify_eq.
  - intros i l Hi. destruct (decide (Z.to_nat (priority t) = i)) as [<-|Hne].
    + rewrite list_lookup_alter_eq in Hi. apply fmap_Some in Hi as (m & Hm & ->).
      apply NoDup_app. split_and!; [eauto| |apply NoDup_singleton].
      intros y Hy ->%list_elem_of_singleton. by eapply Hx.
    + rewrite list_lookup_alter_ne in Hi by done. eauto.
Qed.

(** From transit onto the blocked list. *)
Lemma wf_block x t a : wf_out (Some x) a → a_tasks a !! x = Some t →
  state t = TASK_STATE_BLOCKED → wf (a <| a_blocked := x :: a_blocked a |>).
Proof.
  intros Hwf Ht Hst. pose proof (wf_ready _ _ Hwf) as Hrd. pose proof (wf_blocked _ _ Hwf) as Hb.
  same_wf Hwf.
  - intros i l y Hi. rewrite (Hrd _ _ _ Hi). split; [naive_solver|].
    intros (_ & u & Hu & Hru & Hpu). split; [|eauto]. intros [= ->]. simplify_eq.
    by rewrite Hst in Hru.
  - intros y. rewrite elem_of_cons, Hb. destruct (decide (y = x)); naive_solver.
  - constructor; [|done]. rewrite Hb. naive_solver.
Qed.

(** Out of transit, for a state that belongs on no list. *)
Lemma wf_settle x t a : wf_out (Some x) a → a_tasks a !! x = Some t →
  runnable (state t) = false → state t ≠ TASK_STATE_BLOCKED → wf a.
Proof.
  intros Hwf Ht Hr Hst. pose proof (wf_ready _ _ Hwf) as Hrd. pose proof (wf_blocked _ _ Hwf) as Hb.
  same_wf Hwf.
  - intros i l y Hi. rewrite (Hrd _ _ _ Hi). split; [naive_solver|].
    intros (_ & u & Hu & Hru & Hpu). split; [|eauto]. intros [= ->]. congruence.
  - intros y. rewrite Hb. split; [naive_solver|].
    intros (_ & u & Hu & Hru). split; [|eauto]. intros [= ->]. congruence.
Qed.

(** A permutation of a ready list. *)
Lemma wf_permute f i o a : (∀ l, f l ≡ₚ l) → wf_out o a →
  wf_out o (a <| a_ready := alter f i (a_ready a) |>).
Proof.
  intros Hf Hwf. pose proof (wf_ready _ _ Hwf) as Hrd. same_wf Hwf.
  - by rewrite length_alter.
  - intros j l y Hj. destruct (decide (i = j)) as [<-|Hne].
    + rewrite list_lookup_alter_eq in Hj. apply fmap_Some in Hj as (m & Hm & ->).
      rewrite Hf. by apply Hrd.
    + rewrite list_lookup_alter_ne in Hj by done. eauto.
  - intros j l Hj. destruct (decide (i = j)) as [<-|Hne].
    + rewrite list_lookup_alter_eq in Hj. apply fmap_Some in Hj as (m & Hm & ->).
      rewrite Hf. eauto.
    + rewrite list_lookup_alter_ne in Hj by done. eauto.
Qed.

Lemma rotate_perm x l : rotate x l ≡ₚ l.
Proof.
  destruct l as [|y [|z l]]; [done..|]. simpl. destruct (y =? x); [|done].
  change (z :: l ++ [y]) with ((z :: l) ++ [y]). by rewrite Permutation_app_comm.
Qed.
