(* ===== verification/SchedEffect.v ===== *)
(** * The effect of the scheduler operations

    On a consistent state every operation of [SchedSpec.v] succeeds, and its
    effect is a function of the state: interrupts are masked and restored on
    the way, no check fails, and what remains is written here as a function on
    [asched].  Each effect preserves [wf]. *)
From S2P Require Import Prelude Config Task Critical Bitmap TcbList Scheduler SchedSpec SchedInv.

(** ** Elementary effects *)

Definition set_task (x : ptr) (f : task_tcb → task_tcb) (a : asched) : asched :=
  a <| a_tasks := alter f x (a_tasks a) |>.
Definition enqueue (x : ptr) (prio : Z) (a : asched) : asched :=
  a <| a_ready := alter (λ l, l ++ [x]) (Z.to_nat prio) (a_ready a) |>.
Definition dequeue (x : ptr) (prio : Z) (a : asched) : asched :=
  a <| a_ready := alter (remove_ptr x) (Z.to_nat prio) (a_ready a) |>.
Definition pend (a : asched) : asched :=
  a <| a_cpu := a_cpu a <| icsr := Z.lor (icsr (a_cpu a)) (bit PENDSVSET) |> |>.
Definition pend_if (b : bool) (a : asched) : asched := if b then pend a else a.

(** The priority of a task, below all others for no task. *)
Definition prio_of (a : asched) (x : ptr) : Z :=
  match a_tasks a !! x with Some t => priority t | None => CONFIG_MAX_PRIORITY end.
Definition state_of (a : asched) (x : ptr) : option task_state_t := state <$> a_tasks a !! x.
Definition higher (a : asched) (x : ptr) : bool :=
  negb (a_current_task a =? NULL) && (prio_of a x <? prio_of a (a_current_task a)).

(** ** Execution of the primitives *)

Definition mask (a : asched) : asched := a <| a_cpu := a_cpu a <| primask := 1 |> |>.

Lemma enter_ret {X} (k : Z → M asched X) a :
  (zoom critical_enter ≫= k) a = k (primask (a_cpu a)) (mask a).
Proof. done. Qed.

Lemma exit_ret a a' p : cpu_wf (a_cpu a') → primask (a_cpu a') = p → a = mask a' →
  zoom (critical_exit p) a = Ret () a'.
Proof.
  intros (Hp & _) <- ->. destruct a' as [????????? [m b i c]]. simpl in *.
  by destruct Hp as [-> | ->].
Qed.

Lemma a_deref_ret a x t : a_tasks a !! x = Some t → a_deref x a = Ret t a.
Proof. intros Ht. unfold a_deref. by rewrite Ht. Qed.

Lemma a_upd_ret a x f : is_Some (a_tasks a !! x) → a_upd x f a = Ret () (set_task x f a).
Proof. intros [t Ht]. unfold a_upd. by rewrite Ht. Qed.

Lemma set_task_set_task x f g a : set_task x f (set_task x g a) = set_task x (f ∘ g) a.
Proof.
  unfold set_task, set_field, set_a_tasks. simpl. by rewrite alter_alter_eq.
Qed.

Lemma set_task_is_Some x y f a : is_Some (a_tasks (set_task x f a) !! y) ↔ is_Some (a_tasks a !! y).
Proof. apply lookup_alter_is_Some. Qed.

Lemma a_insert_tail_ret x t a : wf_out (Some x) a → a_tasks a !! x = Some t →
  a_ready_insert_tail x a = Ret () (enqueue x (priority t) a).
Proof.
  intros Hwf Ht. unfold a_ready_insert_tail. run (a_deref_ret _ _ _ Ht).
  erewrite bind_ret; [done|]. apply require_true.
  split; [by apply wf_out_unlisted|]. by eapply wf_valid_priority.
Qed.

(** ** Preservation by the elementary effects *)

Lemma wf_mask o a : wf_out o a → wf_out o (mask a).
Proof.
  intros Hwf. apply wf_cpu; [done|]. apply cpu_wf_primask; [apply (wf_cpu_ok _ _ Hwf)|by right].
Qed.

Lemma wf_pend o a : wf_out o a → wf_out o (pend a).
Proof. intros Hwf. apply wf_cpu; [done|]. apply cpu_wf_trigger, (wf_cpu_ok _ _ Hwf). Qed.

Lemma wf_pend_if o b a : wf_out o a → wf_out o (pend_if b a).
Proof. destruct b; [apply wf_pend|done]. Qed.

Lemma wf_set_task o x f a : wf_out o a →
  (∀ t, a_tasks a !! x = Some t → task_ok t →
    task_ok (f t) ∧ (o = Some x ∨
      queue_kind (state (f t)) = queue_kind (state t) ∧ priority (f t) = priority t)) →
  wf_out o (set_task x f a).
Proof. apply wf_upd. Qed.

Lemma a_preempts_ret o x a : wf_out o a → is_Some (a_tasks a !! x) →
  a_preempts x a = Ret (higher a x) a.
Proof.
  intros Hwf [t Ht]. unfold a_preempts, higher, prio_of. step.
  destruct (Z.eqb_spec (a_current_task a) NULL) as [E|E]; [done|]. simpl.
  destruct (wf_current _ _ Hwf) as [?|[c Hc]]; [done|].
  run (a_deref_ret _ _ _ Ht). run (a_deref_ret _ _ _ Hc). by rewrite Ht, Hc.
Qed.

Lemma when_trigger_ret b a : when b a_trigger a = Ret () (pend_if b a).
Proof. by destruct b. Qed.

(** ** Leaving the blocked list *)

Definition unblocked (x : ptr) (a : asched) : asched :=
  a <| a_blocked := remove_ptr x (a_blocked a) |>.

(** The TCB of a woken task. *)
Definition woken (result : Z) (t : task_tcb) : task_tcb :=
  t <| state := TASK_STATE_READY |> <| block_reason := BLOCK_NONE |>
    <| block_result := result |> <| block_object := NULL |> <| block_timeout := 0 |>.

Definition wake (x : ptr) (result : Z) (a : asched) : asched :=
  enqueue x (prio_of a x) (set_task x (woken result) (unblocked x a)).

Lemma a_blocked_remove_ret x a : x ∈ a_blocked a → a_blocked_remove x a = Ret () (unblocked x a).
Proof. intros Hx. unfold a_blocked_remove. by erewrite bind_ret by (by apply require_true). Qed.

Lemma wf_unblocked x a : wf a → x ∈ a_blocked a → wf_out (Some x) (unblocked x a).
Proof. intros Hwf Hx. by destruct (wf_unblock x a Hwf). Qed.

Lemma prio_of_set_task a x f y : (∀ t, priority (f t) = priority t) →
  prio_of (set_task x f a) y = prio_of a y.
Proof.
  intros Hf. unfold prio_of, set_task. simpl. destruct (decide (x = y)) as [<-|].
  - rewrite lookup_alter_eq. destruct (a_tasks a !! x); simpl; auto.
  - by rewrite lookup_alter_ne.
Qed.

(** Rewriting an in-transit task so that it belongs on the ready list of its
    priority, then putting it there. *)
Lemma enqueue_task x f a : wf_out (Some x) a → is_Some (a_tasks a !! x) →
  (∀ t, task_ok t → task_ok (f t)) → (∀ t, priority (f t) = priority t) →
  (∀ t, runnable (state (f t)) = true) →
  a_ready_insert_tail x (set_task x f a) = Ret () (enqueue x (prio_of a x) (set_task x f a)) ∧
  wf (enqueue x (prio_of a x) (set_task x f a)).
Proof.
  intros Hwf [t Ht] Hok Hp Hr.
  assert (wf_out (Some x) (set_task x f a)) as Hwf' by (apply wf_set_task; auto).
  assert (a_tasks (set_task x f a) !! x = Some (f t)) as Ht'.
  { simpl. by rewrite lookup_alter_eq, Ht. }
  assert (prio_of a x = priority (f t)) as -> by (unfold prio_of; by rewrite Ht).
  split; [by apply a_insert_tail_ret|]. by apply wf_enqueue.
Qed.

Lemma make_ready_ret x r a : wf_out (Some x) a → is_Some (a_tasks a !! x) →
  a_make_ready x r a = Ret () (enqueue x (prio_of a x) (set_task x (woken r) a)).
Proof.
  intros Hwf Hx. unfold a_make_ready.
  do 5 (erewrite bind_ret by (apply a_upd_ret; by rewrite ?set_task_is_Some)).
  rewrite !set_task_set_task. by apply (enqueue_task x (woken r)).
Qed.

Lemma blocked_is_Some o a x : wf_out o a → x ∈ a_blocked a → is_Some (a_tasks a !! x).
Proof. intros Hwf (_ & t & Ht & _)%(wf_blocked _ _ Hwf). eauto. Qed.

Lemma wf_wake x r a : wf a → x ∈ a_blocked a → wf (wake x r a).
Proof.
  intros Hwf Hx. apply (enqueue_task x (woken r) (unblocked x a)); [by apply wf_unblocked| | |done..].
  - by apply (blocked_is_Some None a).
  - intros t Ht. exact Ht.
Qed.

(** ** Operations on ready tasks *)

(** [scheduler_add_task]. *)
Definition fresh_slice (t : task_tcb) : task_tcb :=
  t <| state := TASK_STATE_READY |> <| time_slice := CONFIG_TIME_SLICE |>.
Definition eff_add (x : ptr) (a : asched) : asched :=
  let a' := enqueue x (prio_of a x) (set_task x fresh_slice a) in
  pend_if (higher a' x) a'.

Lemma task_ok_fresh_slice t : task_ok t → task_ok (fresh_slice t).
Proof. intros (?&?&_). split_and!; simpl; try done; unfold CONFIG_TIME_SLICE; lia. Qed.

(** Unmasking the state reached with interrupts masked. *)
Lemma exit_eff o a' p s : wf_out o a' → primask (a_cpu a') = p → s = mask a' →
  zoom (critical_exit p) s = Ret () a'.
Proof. intros Hwf. apply exit_ret, (wf_cpu_ok _ _ Hwf). Qed.

Lemma pend_if_mask b a : pend_if b (mask a) = mask (pend_if b a).
Proof. by destruct b. Qed.
Lemma pend_if_primask b a : primask (a_cpu (pend_if b a)) = primask (a_cpu a).
Proof. by destruct b. Qed.

Lemma add_eff x a : wf_out (Some x) a → is_Some (a_tasks a !! x) →
  a_add_task x a = Ret () (eff_add x a) ∧ wf (eff_add x a).
Proof.
  intros Hwf Hx.
  destruct (enqueue_task x fresh_slice (mask a)) as [Hins Hwf1];
    [by apply wf_mask|done|apply task_ok_fresh_slice|done|done|].
  destruct (enqueue_task x fresh_slice a) as [_ Hwf2];
    [done|done|apply task_ok_fresh_slice|done|done|].
  split; [|by apply wf_pend_if].
  unfold a_add_task. rewrite enter_ret.
  do 2 (erewrite bind_ret by (apply a_upd_ret; by rewrite ?set_task_is_Some)).
  rewrite !set_task_set_task. run Hins.
  erewrite bind_ret by (eapply a_preempts_ret; [exact Hwf1|]; by apply (set_task_is_Some x x)).
  run (when_trigger_ret (higher (enqueue x (prio_of (mask a) x) (set_task x fresh_slice (mask a))) x)
    (enqueue x (prio_of (mask a) x) (set_task x fresh_slice (mask a)))).
  apply (exit_eff None (eff_add x a)); [by eapply wf_pend_if|by unfold eff_add; rewrite pend_if_primask|].
  change (enqueue x (prio_of (mask a) x) (set_task x fresh_slice (mask a)))
    with (mask (enqueue x (prio_of a x) (set_task x fresh_slice a))).
  apply pend_if_mask.
Qed.

(** [scheduler_remove_task]: the task is in transit afterwards. *)
Definition eff_remove (x : ptr) (a : asched) : asched := dequeue x (prio_of a x) a.

Lemma remove_eff x t a : wf a → a_tasks a !! x = Some t → state t ≠ TASK_STATE_BLOCKED →
  a_remove_task x a = Ret () (eff_remove x a) ∧ wf_out (Some x) (eff_remove x a).
Proof.
  intros Hwf Ht Hst. unfold eff_remove, prio_of. rewrite Ht.
  assert (wf_out (Some x) (dequeue x (priority t) a)) as Hwf' by (by apply wf_unready).
  split; [|done]. unfold a_remove_task. rewrite enter_ret.
  rewrite (proj2 (Z.eqb_neq x NULL)) by (by eapply wf_deref). run (a_deref_ret (mask a) _ _ Ht).
  erewrite bind_ret by (apply require_true, wf_ready_or_free; [by apply wf_mask|done..]).
  step. by eapply exit_eff.
Qed.

(** [scheduler_set_priority]. *)
Definition eff_set_priority (x : ptr) (p : Z) (a : asched) : asched :=
  if (x =? NULL) || (CONFIG_MAX_PRIORITY <=? p) then a
  else if bool_decide (state_of a x = Some TASK_STATE_READY ∨ state_of a x = Some TASK_STATE_RUNNING)
  then eff_add x (set_task x (set_field priority p) (eff_remove x a))
  else set_task x (set_field priority p) a.

Lemma task_ok_priority p t : 0 ≤ p < CONFIG_MAX_PRIORITY → task_ok t → task_ok (t <| priority := p |>).
Proof. intros ? (?&?&?). done. Qed.

(** Any update of a task on no list keeps it there. *)
Lemma wf_set_offlist x f a : wf a → 
  (∀ t, a_tasks a !! x = Some t → task_ok t → task_ok (f t) ∧
    state (f t) = state t ∧ runnable (state t) = false) →
  wf (set_task x f a).
Proof.
  intros Hwf Hf.
  assert (∀ y u, a_tasks (set_task x f a) !! y = Some u → ∃ t, a_tasks a !! y = Some t ∧ task_ok u ∧
    state u = state t ∧ (runnable (state t) = true → u = t)) as Hold.
  { intros y u. unfold set_task. simpl. destruct (decide (x = y)) as [<-|].
    - rewrite lookup_alter_eq. intros (t & Ht & ->)%fmap_Some. exists t.
      destruct (Hf _ Ht) as (?&?&Hr); [by eapply wf_task|]. rewrite Hr. done.
    - rewrite lookup_alter_ne by done. intros Hu. exists u. eauto 6 using wf_task. }
  assert (∀ y t, a_tasks a !! y = Some t → ∃ u, a_tasks (set_task x f a) !! y = Some u ∧
    state u = state t ∧ (runnable (state t) = true → u = t)) as Hnew.
  { intros y t Ht. destruct (proj2 (set_task_is_Some x y f a)) as [u Hu]; [eauto|].
    exists u. destruct (Hold _ _ Hu) as (t' & ? & _ & ?). by simplify_eq. }
  pose proof (λ p, null_or_task_alter f x p a) as Hnt.
  pose proof (wf_ready _ _ Hwf) as Hrd. pose proof (wf_blocked _ _ Hwf) as Hb. destruct Hwf.
  split; simpl; try done; try by apply Hnt.
  - by rewrite eq_None_not_Some, lookup_alter_is_Some, <- eq_None_not_Some.
  - intros i l y Hi. rewrite (Hrd _ _ _ Hi). split; intros (Ho & t & Ht & Hr & Hp).
    + split; [done|]. destruct (Hnew _ _ Ht) as (u & ? & _ & Heq). rewrite Heq in * by done. eauto.
    + split; [done|]. destruct (Hold _ _ Ht) as (u & ? & _ & Hs & Heq). rewrite Hs in Hr.
      rewrite Heq in * by done. eauto.
  - intros y. rewrite Hb. split; intros (Ho & t & Ht & Hst).
    + split; [done|]. destruct (Hnew _ _ Ht) as (u & ? & Hs & _). exists u. by rewrite Hs.
    + split; [done|]. destruct (Hold _ _ Ht) as (u & ? & _ & Hs & _). exists u. by rewrite <- Hs.
  - intros y t Ht. by destruct (Hold _ _ Ht) as (? & _ & ? & _).
Qed.

Lemma set_priority_eff x p a : wf a → 0 ≤ p → (x ≠ NULL → is_Some (a_tasks a !! x)) →
  a_set_priority x p a = Ret () (eff_set_priority x p a) ∧ wf (eff_set_priority x p a).
Proof.
  intros Hwf Hp Hx. unfold a_set_priority, eff_set_priority.
  destruct (Z.eqb_spec x NULL); [done|]. destruct (Z.leb_spec CONFIG_MAX_PRIORITY p); [done|].
  destruct (Hx n) as [t Ht]. cbn [orb].
  run (a_deref_ret _ _ _ Ht).
  assert (bool_decide (state_of a x = Some TASK_STATE_READY ∨ state_of a x = Some TASK_STATE_RUNNING)
    = runnable (state t)) as ->.
  { unfold state_of, runnable. rewrite Ht. simpl. apply bool_decide_ext. split; (intros [E|E]; [left|right]; congruence). }
  fold (runnable (state t)). destruct (runnable (state t)) eqn:Er.
  - assert (state t ≠ TASK_STATE_BLOCKED) as Hst by (intros E; by rewrite E in Er).
    destruct (remove_eff _ _ _ Hwf Ht Hst) as [Hrem Hwf1]. run Hrem.
    erewrite bind_ret by (apply a_upd_ret; simpl; eauto).
    apply add_eff; [|by apply set_task_is_Some; simpl; eauto].
    apply wf_set_task; [done|]. intros u _ Hu. split; [|by left]. by apply task_ok_priority.
  - rewrite a_upd_ret by eauto. split; [done|]. apply wf_set_offlist; [done|].
    intros u Hu Hok. simplify_eq. split; [by apply task_ok_priority|done].
Qed.

(** [scheduler_yield]. *)
Definition eff_yield (a : asched) : asched :=
  if a_current_task a =? NULL then a
  else if 0 <? a_lock a then a <| a_resched := true |>
  else pend (a <| a_ready := alter (rotate (a_current_task a))
                    (Z.to_nat (prio_of a (a_current_task a))) (a_ready a) |>).

Lemma current_is_Some o a : wf_out o a → a_current_task a ≠ NULL →
  is_Some (a_tasks a !! a_current_task a).
Proof. intros Hwf Hc. by destruct (wf_current _ _ Hwf). Qed.

Lemma yield_eff a : wf a → a_yield a = Ret () (eff_yield a) ∧ wf (eff_yield a).
Proof.
  intros Hwf. unfold a_yield, eff_yield. rewrite enter_ret. step.
  change (a_current_task (mask a)) with (a_current_task a).
  destruct (Z.eqb_spec (a_current_task a) NULL) as [|Hc]; [by split; [eapply exit_eff|]|].
  step. change (a_lock (mask a)) with (a_lock a).
  destruct (0 <? a_lock a).
  - step. assert (wf (a <| a_resched := true |>)) by (by destruct Hwf).
    by split; [eapply exit_eff|].
  - destruct (current_is_Some _ _ Hwf Hc) as [c Hc']. run (a_deref_ret (mask a) _ _ Hc').
    unfold prio_of. rewrite Hc'.
    erewrite bind_ret.
    2:{ apply require_true. by eapply (wf_valid_priority _ _ _ _ (wf_mask _ _ Hwf)). }
    step. step.
    assert (wf (pend (a <| a_ready := alter (rotate (a_current_task a))
      (Z.to_nat (priority c)) (a_ready a) |>))).
    { apply wf_pend, wf_permute; [apply rotate_perm|done]. }
    by split; [eapply exit_eff|].
Qed.

(** ** Selection, start, preemption lock *)

Definition top (a : asched) : ptr :=
  hd NULL (default [] (a_ready a !! Z.to_nat (first_nonempty (a_ready a)))).

Definition eff_select (a : asched) : asched :=
  a <| a_next_task := top a |> <| a_selected := top a |>.

(** The first non-empty level is as urgent as any runnable task. *)
Lemma first_nonempty_min a y u : wf a → a_tasks a !! y = Some u → runnable (state u) = true →
  first_nonempty (a_ready a) ≤ priority u.
Proof.
  intros Hwf Hu Hru. destruct (first_nonempty_spec (a_ready a)) as (_ & Hlow & _).
  destruct (Z.le_gt_cases (first_nonempty (a_ready a)) (priority u)); [done|].
  destruct (wf_valid_priority _ _ _ _ Hwf Hu) as [[Hp _] [l Hl]].
  pose proof (wf_runnable_in _ _ _ _ Hwf Hu Hru Hl) as Hy.
  rewrite Hlow in Hl by lia. simplify_eq. set_solver.
Qed.

(** The task to run next is the first of the most urgent non-empty list; it is
    runnable, and no runnable task is more urgent. *)
Lemma top_spec a : wf a → (top a = NULL ∧ (∀ x t, a_tasks a !! x = Some t → runnable (state t) = false)) ∨
  (∃ t, a_tasks a !! top a = Some t ∧ runnable (state t) = true ∧ top a ≠ NULL ∧
    ∀ y u, a_tasks a !! y = Some u → runnable (state u) = true → priority t ≤ priority u).
Proof.
  intros Hwf. unfold top. destruct (first_nonempty_spec (a_ready a)) as (Hr & Hlow & Hhit).
  pose proof (wf_len _ _ Hwf) as Hlen. change (Z.to_nat CONFIG_MAX_PRIORITY) with 32%nat in Hlen.
  pose proof (λ y u, first_nonempty_min a y u Hwf) as Hmin.
  destruct (Z.lt_ge_cases (first_nonempty (a_ready a)) (Z.of_nat (length (a_ready a)))) as [Hlt|Hge].
  - right. destruct (Hhit Hlt) as (x & l & Hx). rewrite Hx. simpl.
    assert (x ∈ x :: l) as Hin by set_solver.
    apply (wf_ready _ _ Hwf _ _ _ Hx) in Hin as (_ & t & Ht & Hrt & Hpt).
    exists t. split_and!; [done..| |].
    + by eapply wf_deref.
    + intros y u Hu Hru. specialize (Hmin _ _ Hu Hru). lia.
  - left. rewrite (lookup_ge_None_2 (a_ready a)) by lia. split; [done|].
    intros x t Ht. destruct (runnable (state t)) eqn:E; [|done].
    pose proof (Hmin _ _ Ht E). destruct (wf_task _ _ Hwf _ _ Ht) as ([_ ?] & _).
    change CONFIG_MAX_PRIORITY with 32 in *. lia.
Qed.

Lemma top_null_or_task a : wf a → null_or_task (top a) a.
Proof. intros Hwf. destruct (top_spec a Hwf) as [[-> _]|(t & Ht & _)]; [by left|right; eauto]. Qed.

Lemma select_eff a : wf a → a_select_next_task a = Ret (top a) (eff_select a) ∧ wf (eff_select a).
Proof.
  intros Hwf. split; [done|]. pose proof (top_null_or_task _ Hwf) as Ht.
  unfold eff_select. by destruct Hwf.
Qed.

(** [scheduler_start]. *)
Definition first_run (t : task_tcb) : task_tcb :=
  t <| state := TASK_STATE_RUNNING |> <| time_slice := CONFIG_TIME_SLICE |> <| sp := stack_top t |>.
Definition eff_start (a : asched) : asched :=
  set_task (top a) first_run (a <| a_current_task := top a |> <| a_selected := top a |>).

Lemma start_eff a t : wf a → a_tasks a !! top a = Some t →
  a_start a = Ret (entry t, arg t) (eff_start a) ∧ wf (eff_start a).
Proof.
  intros Hwf Ht.
  assert (runnable (state t) = true) as Hr.
  { destruct (top_spec a Hwf) as [[E _]|(u & Hu & ? & _)]; [|congruence].
    rewrite E, (wf_null _ _ Hwf) in Ht. done. }
  split.
  - unfold a_start. erewrite bind_ret by reflexivity.
    change (hd NULL _) with (top a).
    rewrite (proj2 (Z.eqb_neq (top a) NULL)) by (eapply wf_deref; eauto).
    step. step. do 3 (erewrite bind_ret by (apply a_upd_ret; rewrite ?set_task_is_Some; simpl; eauto)).
    rewrite !set_task_set_task. erewrite bind_ret.
    2:{ apply a_deref_ret. simpl. by rewrite lookup_alter_eq, Ht. }
    done.
  - apply wf_set_task.
    + assert (null_or_task (top a) a) by (right; eauto). by destruct Hwf.
    + intros u Hu (?&?&_). simpl in Hu. simplify_eq. split.
      * split_and!; simpl; try done; unfold CONFIG_TIME_SLICE; lia.
      * right. simpl. by apply runnable_kind in Hr as ->.
Qed.

Definition eff_lock (a : asched) : asched := a <| a_lock := u32 (a_lock a + 1) |>.

Definition eff_unlock (a : asched) : asched :=
  if (a_lock a <=? 1) && a_resched a
  then pend (a <| a_lock := 0 |> <| a_resched := false |>)
  else a <| a_lock := Z.max 0 (a_lock a - 1) |>.

Lemma lock_eff a : wf a → a_lock_op a = Ret () (eff_lock a) ∧ wf (eff_lock a).
Proof.
  intros Hwf. assert (wf (eff_lock a)) by (destruct Hwf; split; try done; apply u32_range).
  split; [|done]. unfold a_lock_op. rewrite enter_ret. step. by eapply exit_eff.
Qed.

Lemma unlock_eff a : wf a → a_unlock_op a = Ret () (eff_unlock a) ∧ wf (eff_unlock a).
Proof.
  intros Hwf. pose proof (wf_lock _ _ Hwf) as Hl.
  assert (∀ l, 0 ≤ l < 2 ^ 32 → wf (a <| a_lock := l |>)) as Hset by (intros; by destruct Hwf).
  assert (∀ l b, 0 ≤ l < 2 ^ 32 → wf (a <| a_lock := l |> <| a_resched := b |>)) as Hset2
    by (intros; by destruct Hwf).
  assert (wf (eff_unlock a)) as Hwf'.
  { unfold eff_unlock. destruct (_ && _); [apply wf_pend, Hset2|apply Hset]; lia. }
  split; [|done]. unfold a_unlock_op. rewrite enter_ret. step.
  change (a_lock (mask a)) with (a_lock a).
  assert (when (0 <? a_lock a) (modify (λ a, a <| a_lock := a_lock a - 1 |>)) (mask a) =
    Ret () (mask (a <| a_lock := Z.max 0 (a_lock a - 1) |>))) as E.
  { destruct (Z.ltb_spec 0 (a_lock a)).
    - rewrite Z.max_r by lia. done.
    - assert (Z.max 0 (a_lock a - 1) = a_lock a) as -> by lia. by destruct a. }
  run E. step. step. unfold eff_unlock in *. simpl a_lock. simpl a_resched.
  assert ((Z.max 0 (a_lock a - 1) =? 0) = (a_lock a <=? 1)) as E0.
  { destruct (Z.eqb_spec (Z.max 0 (a_lock a - 1)) 0), (Z.leb_spec (a_lock a) 1); lia. }
  rewrite E0. destruct (Z.leb_spec (a_lock a) 1); destruct (a_resched a); cbn [andb when] in *;
    try (step; by eapply exit_eff).
  rewrite Z.max_l in * by lia. rewrite bind_assoc. step. step. by eapply exit_eff.
Qed.

(** ** Blocking *)

(** The TCB of a task that starts to wait. *)
Definition waiting (now : Z) (reason : block_reason_t) (object : ptr) (timeout : Z)
    (t : task_tcb) : task_tcb :=
  t <| state := TASK_STATE_BLOCKED |> <| block_reason := reason |> <| block_object := object |>
    <| block_timeout := timeout |> <| block_result := KERNEL_OK |>
    <| wake_tick := block_wake_tick now timeout |>.

Definition eff_block (reason : block_reason_t) (object : ptr) (timeout : Z) (a : asched) : asched :=
  let self := a_current_task a in
  let a' := set_task self (waiting (a_tick a) reason object timeout) (eff_remove self a) in
  pend (a' <| a_blocked := self :: a_blocked a' |>).

Lemma block_eff reason object timeout a t : wf a →
  a_tasks a !! a_current_task a = Some t → state t ≠ TASK_STATE_BLOCKED →
  a_block_task_enter reason object timeout a =
    Ret (inr (a_current_task a)) (eff_block reason object timeout a) ∧
  wf (eff_block reason object timeout a).
Proof.
  intros Hwf Ht Hst.
  assert (∀ a, wf a → a_tasks a !! a_current_task a = Some t →
    wf_out (Some (a_current_task a)) (set_task (a_current_task a)
      (waiting (a_tick a) reason object timeout) (eff_remove (a_current_task a) a)) ∧
    wf (eff_block reason object timeout a)) as Heff.
  { clear a Hwf Ht. intros a Hwf Ht. destruct (remove_eff _ _ _ Hwf Ht Hst) as [_ Hwf1].
    assert (wf_out (Some (a_current_task a)) (set_task (a_current_task a)
      (waiting (a_tick a) reason object timeout) (eff_remove (a_current_task a) a))) as Hwf2.
    { apply wf_set_task; [done|]. intros u _ Hu. split; [exact Hu|by left]. }
    split; [done|]. apply wf_pend. eapply wf_block; [done| |].
    - simpl. by rewrite lookup_alter_eq, Ht.
    - done. }
  destruct (Heff a Hwf Ht) as [_ Hwf']. split; [|done].
  destruct (Heff (mask a) (wf_mask _ _ Hwf) Ht) as [Hout _].
  destruct (remove_eff (a_current_task a) t (mask a) (wf_mask _ _ Hwf) Ht Hst) as [Hrem _].
  unfold a_block_task_enter. rewrite enter_ret. step.
  change (a_current_task (mask a)) with (a_current_task a) in *.
  rewrite (proj2 (Z.eqb_neq (a_current_task a) NULL)) by (apply (wf_deref None a); [exact Hwf|by exists t]).
  run Hrem. assert (is_Some (a_tasks (eff_remove (a_current_task a) (mask a)) !! a_current_task a)) by eauto.
  do 5 (erewrite bind_ret by (apply a_upd_ret; by rewrite ?set_task_is_Some)). step.
  erewrite bind_ret by (apply a_upd_ret; by rewrite ?set_task_is_Some).
  rewrite !set_task_set_task. unfold a_blocked_insert. rewrite bind_assoc.
  destruct (proj2 (set_task_is_Some (a_current_task a) (a_current_task a)
    (waiting (a_tick a) reason object timeout) (eff_remove (a_current_task a) (mask a)))) as [u Hu]; [done|].
  erewrite bind_ret by (by apply (a_deref_ret _ _ u)). rewrite bind_assoc.
  erewrite bind_ret by (by apply require_true, wf_out_unlisted). step. step.
  erewrite bind_ret; [done|]. by eapply exit_eff.
Qed.

(** ** Waking by an event *)

Definition eff_unblock (x : ptr) (result : Z) (a : asched) : asched :=
  let a' := wake x result a in pend_if (higher a' x) a'.

Lemma unblock_body_eff x result a :
  wf a → x ∈ a_blocked a →
  (a_blocked_remove x ;; a_make_ready x result ;;
   higher ← a_preempts x; when higher a_trigger) a = Ret () (eff_unblock x result a).
Proof.
  intros Hwf Hx. run (a_blocked_remove_ret _ _ Hx).
  erewrite bind_ret.
  2:{ apply make_ready_ret; [by apply wf_unblocked|]. by apply (blocked_is_Some None a). }
  change (enqueue x (prio_of (unblocked x a) x) (set_task x (woken result) (unblocked x a)))
    with (wake x result a).
  erewrite bind_ret.
  2:{ eapply a_preempts_ret; [by apply wf_wake|]. apply (set_task_is_Some x x).
      by apply (blocked_is_Some None a). }
  apply when_trigger_ret.
Qed.

Lemma wf_eff_unblock x result a : wf a → x ∈ a_blocked a → wf (eff_unblock x result a).
Proof. intros. by apply wf_pend_if, wf_wake. Qed.

Lemma eff_unblock_mask x result a : eff_unblock x result (mask a) = mask (eff_unblock x result a).
Proof. apply (pend_if_mask _ (wake x result a)). Qed.

Lemma eff_unblock_primask x result a : primask (a_cpu (eff_unblock x result a)) = primask (a_cpu a).
Proof. apply (pend_if_primask _ (wake x result a)). Qed.

(** The tail of [scheduler_unblock_one] and [scheduler_unblock_task]. *)
Lemma unblock_tail_eff {X} x result a (r : X) (m : M asched X) :
  wf a → x ∈ a_blocked a →
  m (mask (eff_unblock x result a)) = Ret r (eff_unblock x result a) →
  (a_blocked_remove x ;; a_make_ready x result ;;
   higher ← a_preempts x; when higher a_trigger ;; m) (mask a) =
  Ret r (eff_unblock x result a).
Proof.
  intros Hwf Hx Hm.
  pose proof (unblock_body_eff x result _ (wf_mask _ _ Hwf) Hx) as E.
  apply bind_ret_inv in E as (? & a1 & E1 & E). rewrite (bind_ret _ _ _ _ _ E1).
  apply bind_ret_inv in E as (? & a2 & E2 & E). rewrite (bind_ret _ _ _ _ _ E2).
  apply bind_ret_inv in E as (h & a3 & E3 & E). rewrite (bind_ret _ _ _ _ _ E3).
  rewrite (bind_ret _ _ _ _ _ E). by rewrite eff_unblock_mask.
Qed.

Lemma exit_eff_unblock x result a : wf a → x ∈ a_blocked a →
  zoom (critical_exit (primask (a_cpu a))) (mask (eff_unblock x result a)) =
  Ret () (eff_unblock x result a).
Proof. intros. eapply exit_eff; [by eapply wf_eff_unblock|apply eff_unblock_primask|done]. Qed.

Lemma unblock_task_eff x result a : wf a → (x ≠ NULL → is_Some (a_tasks a !! x)) →
  a_unblock_task x result a =
    Ret () (if bool_decide (x ∈ a_blocked a) then eff_unblock x result a else a).
Proof.
  intros Hwf Hx. unfold a_unblock_task. rewrite enter_ret.
  assert ((if x =? NULL then mret false
    else t ← a_deref x; mret (bool_decide (state t = TASK_STATE_BLOCKED))) (mask a) =
    Ret (bool_decide (x ∈ a_blocked a)) (mask a)) as E.
  { destruct (Z.eqb_spec x NULL) as [->|Hn].
    - rewrite bool_decide_false; [done|]. intros Hb%(blocked_is_Some _ _ _ Hwf).
      by destruct (wf_deref _ _ _ Hwf Hb).
    - destruct (Hx Hn) as [t Ht]. run (a_deref_ret (mask a) _ _ Ht). unfold mret, M_ret. f_equal.
      apply bool_decide_ext. rewrite (wf_blocked _ _ Hwf). naive_solver. }
  run E. case_bool_decide as Hb; cbn [negb].
  - apply unblock_tail_eff; [done..|]. by apply exit_eff_unblock.
  - by eapply exit_eff.
Qed.

(** ** Waking a selection of the blocked tasks

    The loops of [scheduler_tick] and [scheduler_unblock_all]: of the tasks
    [l], those selected by [p] are updated by [f] and made ready, in order. *)

(** What remains to visit is still blocked. *)
Definition to_visit (l : list ptr) (a : asched) : Prop :=
  wf a ∧ NoDup l ∧ (∀ x, x ∈ l → x ∈ a_blocked a).

(** Everything but the tasks and the queues. *)
Definition same_rest (a a' : asched) : Prop :=
  a_tick a' = a_tick a ∧ a_current_task a' = a_current_task a ∧ a_next_task a' = a_next_task a ∧
  a_selected a' = a_selected a ∧ a_lock a' = a_lock a ∧ a_resched a' = a_resched a ∧
  a_cpu a' = a_cpu a.

Section wake_many.
Context (p : ptr → bool) (f : ptr → task_tcb → task_tcb).
Context (Hok : ∀ x t, task_ok t → task_ok (f x t)).
Context (Hprio : ∀ x t, priority (f x t) = priority t).
Context (Hready : ∀ x t, state (f x t) = TASK_STATE_READY).

Definition wake_one (x : ptr) (a : asched) : asched :=
  enqueue x (prio_of a x) (set_task x (f x) (unblocked x a)).
Definition wake_many (l : list ptr) (a : asched) : asched :=
  fold_left (λ a x, if p x then wake_one x a else a) l a.

Lemma wf_wake_one x a : wf a → x ∈ a_blocked a →
  a_ready_insert_tail x (set_task x (f x) (unblocked x a)) = Ret () (wake_one x a) ∧
  wf (wake_one x a).
Proof using Hok Hprio Hready.
  intros Hwf Hx. apply (enqueue_task x (f x) (unblocked x a)).
  - by apply wf_unblocked.
  - by apply (blocked_is_Some None a).
  - apply Hok.
  - apply Hprio.
  - intros. by rewrite Hready.
Qed.

Lemma to_visit_step x l a : to_visit (x :: l) a →
  to_visit l (if p x then wake_one x a else a).
Proof using Hok Hprio Hready.
  intros (Hwf&[Hx ?]%NoDup_cons&Hin). destruct (p x).
  - split_and!; [apply wf_wake_one; [done|apply Hin; set_solver]|done|].
    intros y Hy. simpl. rewrite remove_ptr_in. split; [by intros ->|apply Hin; set_solver].
  - split_and!; [done..|]. intros y Hy. apply Hin. set_solver.
Qed.

Lemma wf_wake_many l a : to_visit l a → wf (wake_many l a).
Proof using Hok Hprio Hready.
  revert a. induction l as [|x l IH]; intros a Hv; [by destruct Hv|].
  simpl. by apply IH, to_visit_step.
Qed.

Lemma wake_many_rest l a : same_rest a (wake_many l a).
Proof using Type.
  revert a. induction l as [|x l IH]; intros a; [done|]. simpl.
  specialize (IH (if p x then wake_one x a else a)). by destruct (p x).
Qed.

Lemma wake_many_mask l a : wake_many l (mask a) = mask (wake_many l a).
Proof using Type.
  revert a. induction l as [|x l IH]; intros a; [done|]. simpl.
  rewrite <- IH. by destruct (p x).
Qed.

Lemma wake_one_other x y a : x ≠ y → a_tasks (wake_one x a) !! y = a_tasks a !! y.
Proof using Type. apply lookup_alter_ne. Qed.

(** Who remains blocked, who became what, and who is queued where. *)
Lemma wake_many_blocked l a :
  a_blocked (wake_many l a) = filter (λ x, ¬ (x ∈ l ∧ p x = true)) (a_blocked a).
Proof using Type.
  clear Hok Hprio Hready. revert a. induction l as [|x l IH]; intros a; simpl.
  - symmetry. apply filter_all. set_solver.
  - rewrite IH. destruct (p x) eqn:Hpx; simpl.
    + unfold remove_ptr. rewrite list_filter_filter. apply list_filter_iff. intros y.
      destruct (decide (y = x)); set_solver.
    + apply list_filter_iff. intros y. destruct (decide (y = x)) as [->|]; [|set_solver].
      rewrite Hpx. naive_solver.
Qed.

Lemma wake_many_tasks l a x : NoDup l →
  a_tasks (wake_many l a) !! x =
  if decide (x ∈ l ∧ p x = true) then f x <$> a_tasks a !! x else a_tasks a !! x.
Proof using Type.
  clear Hok Hprio Hready. intros Hnd. revert a. induction Hnd as [|y l Hy Hnd IH]; intros a; simpl.
  - done.
  - rewrite IH. destruct (decide (x = y)) as [->|Hne].
    + rewrite decide_False by naive_solver. destruct (p y) eqn:Hpy.
      * rewrite decide_True by set_solver. apply lookup_alter_eq.
      * rewrite decide_False; [done|]. naive_solver.
    + assert (a_tasks (if p y then wake_one y a else a) !! x = a_tasks a !! x) as ->.
      { destruct (p y); [by apply wake_one_other|done]. }
      repeat case_decide; try done; set_solver.
Qed.

Lemma wake_many_ready l a i : NoDup l →
  (∀ x, x ∈ l → ∃ t, a_tasks a !! x = Some t ∧ 0 ≤ priority t) →
  a_ready (wake_many l a) !! i =
  (λ m, m ++ filter (λ x, p x = true ∧ prio_of a x = Z.of_nat i) l) <$> a_ready a !! i.
Proof using Type.
  clear Hok Hprio Hready. intros Hnd. revert a. induction Hnd as [|y l Hy Hnd IH]; intros a Hl; simpl.
  - destruct (a_ready a !! i); simpl; by rewrite ?app_nil_r.
  - assert (∀ x, x ∈ l → x ≠ y) as Hne by (intros x Hx ->; done).
    assert (∀ x, x ∈ l → prio_of (if p y then wake_one y a else a) x = prio_of a x) as Hsame.
    { intros x Hx. unfold prio_of. destruct (p y); [|done].
      rewrite wake_one_other; [done|]. by apply not_eq_sym, Hne. }
    rewrite IH.
    2:{ intros x Hx. destruct (Hl x) as (t&?&?); [set_solver|]. exists t.
        destruct (p y); [|done]. rewrite wake_one_other; [done|]. by apply not_eq_sym, Hne. }
    rewrite (filter_ext_in _ (λ x, p x = true ∧ prio_of a x = Z.of_nat i) l)
      by (intros x Hx; by rewrite Hsame).
    destruct (Hl y) as (t & Ht & Hp); [set_solver|].
    assert (prio_of a y = priority t) as Hpy by (unfold prio_of; by rewrite Ht).
    rewrite filter_cons. destruct (p y) eqn:Epy.
    + simpl. rewrite Hpy. destruct (decide (Z.to_nat (priority t) = i)) as [Ei|Ei].
      * rewrite Ei, list_lookup_alter_eq, decide_True by (split; [done|lia]).
        destruct (a_ready a !! i); simpl; [|done]. by rewrite <- app_assoc.
      * rewrite list_lookup_alter_ne, decide_False by (done || lia). done.
    + rewrite decide_False by naive_solver. done.
Qed.

(** A loop whose body does [wake_one] on the selected tasks, the body looking
    only at the task it visits and at the time. *)
Lemma foreach_wake {C} (h : ptr → C → M asched C) (g : ptr → C → C)
    (a0 : asched) l c a :
  (∀ x c a, x ∈ l → wf a → x ∈ a_blocked a → a_tasks a !! x = a_tasks a0 !! x → a_tick a = a_tick a0 →
    h x c a = Ret (g x c) (if p x then wake_one x a else a)) →
  to_visit l a → (∀ x, x ∈ l → a_tasks a !! x = a_tasks a0 !! x) → a_tick a = a_tick a0 →
  foreach h l c a = Ret (fold_left (λ c x, g x c) l c) (wake_many l a).
Proof using Hok Hprio Hready.
  revert c a. induction l as [|x l IH]; intros c a Hh Hv Hsame Htick; [done|]. simpl.
  pose proof (to_visit_step _ _ _ Hv) as Hv'. destruct Hv as (Hwf&[Hx _]%NoDup_cons&Hin).
  erewrite bind_ret by (apply Hh; [by left|done|apply Hin; by left|apply Hsame; by left|done]).
  apply IH; [|done| |by destruct (p x)].
  - intros y ???. apply Hh. by right.
  - intros y Hy. rewrite <- (Hsame y) by (by right). destruct (p x); [|done].
    apply wake_one_other. by intros ->.
Qed.
End wake_many.

(** ** Time *)

(** One task of [scheduler_tick]'s loop. *)
Definition expired (timed_out : bool) (t : task_tcb) : task_tcb :=
  let t' := if timed_out then t <| block_result := KERNEL_ERR_TIMEOUT |> else t in
  t' <| block_reason := BLOCK_NONE |> <| block_object := NULL |> <| block_timeout := 0 |>
     <| state := TASK_STATE_READY |>.

Lemma expired_ok b t : task_ok t → task_ok (expired b t).
Proof. unfold expired. by destruct b. Qed.
Lemma expired_priority b t : priority (expired b t) = priority t.
Proof. unfold expired. by destruct b. Qed.
Lemma expired_state b t : state (expired b t) = TASK_STATE_READY.
Proof. done. Qed.

Lemma tick_expired_no_wake tick t b : tick_expired tick t = (false, b) → b = false.
Proof. unfold tick_expired. repeat case_match; naive_solver. Qed.

(** Which tasks the tick wakes, and whether as a timeout. *)
Definition expires (a : asched) (x : ptr) : bool :=
  match a_tasks a !! x with Some t => fst (tick_expired (a_tick a) t) | None => false end.
Definition times_out (a : asched) (x : ptr) : bool :=
  match a_tasks a !! x with Some t => snd (tick_expired (a_tick a) t) | None => false end.

Definition eff_wake_expired (a : asched) : asched :=
  wake_many (expires a) (λ x, expired (times_out a x)) (a_blocked a) a.

Lemma to_visit_blocked a : wf a → to_visit (a_blocked a) a.
Proof. intros Hwf. split_and!; [done|apply (wf_blocked_nodup _ _ Hwf)|done]. Qed.

Lemma tick_wake_eff a0 x a : wf a → x ∈ a_blocked a →
  a_tasks a !! x = a_tasks a0 !! x → a_tick a = a_tick a0 →
  a_tick_wake x () a =
  Ret () (if expires a0 x then wake_one (λ x, expired (times_out a0 x)) x a else a).
Proof.
  intros Hwf Hx Hsame Htick. destruct (blocked_is_Some _ _ _ Hwf Hx) as [t Ht].
  unfold a_tick_wake. run (a_deref_ret _ _ _ Ht). step.
  change (wake_one (λ x, expired (times_out a0 x)) x a)
    with (wake_one (λ _, expired (times_out a0 x)) x a).
  unfold expires, times_out. rewrite <- Hsame, <- Htick, Ht.
  destruct (tick_expired (a_tick a) t) as [w timed_out] eqn:E. simpl fst.
  destruct w; [|by rewrite (tick_expired_no_wake _ _ _ E)].
  destruct (wf_wake_one (λ _, expired timed_out) (λ _, expired_ok _) (λ _, expired_priority _)
    (λ _, expired_state _) x a Hwf Hx) as [Hins _].
  simpl snd.
  assert (∀ a, is_Some (a_tasks a !! x) → x ∈ a_blocked a →
    (a_blocked_remove x ;; a_upd x (set_field block_reason BLOCK_NONE) ;;
     a_upd x (set_field block_object NULL) ;; a_upd x (set_field block_timeout 0) ;;
     a_upd x (set_field state TASK_STATE_READY) ;; a_ready_insert_tail x) a =
    a_ready_insert_tail x (set_task x (expired false) (unblocked x a))) as Hrest.
  { clear. intros a Hx Hb. run (a_blocked_remove_ret _ _ Hb).
    do 4 (erewrite bind_ret by (apply a_upd_ret; by rewrite ?set_task_is_Some)).
    by rewrite !set_task_set_task. }
  destruct timed_out; cbn [when].
  - erewrite bind_ret by (apply a_upd_ret; eauto).
    rewrite Hrest; [|by apply (set_task_is_Some x x); eauto|done].
    rewrite <- Hins. f_equal.
    exact (set_task_set_task x (expired false) (set_field block_result KERNEL_ERR_TIMEOUT) (unblocked x a)).
  - step. rewrite Hrest by eauto. exact Hins.
Qed.

Lemma wake_expired_eff a : wf a →
  foreach a_tick_wake (a_blocked a) () a = Ret () (eff_wake_expired a) ∧ wf (eff_wake_expired a).
Proof.
  intros Hwf. pose proof (to_visit_blocked _ Hwf) as Hv. split.
  - unfold eff_wake_expired.
    rewrite (foreach_wake (expires a) (λ x, expired (times_out a x)) (λ x, expired_ok _)
      (λ x, expired_priority _) (λ x, expired_state _) a_tick_wake (λ _ c, c) a); try done.
    + by destruct (fold_left _ _ _).
    + intros x [] a' Hx Hwf' Hx' ??. by apply tick_wake_eff.
  - apply wf_wake_many; [intros; by apply expired_ok|intros; apply expired_priority|done|done].
Qed.

(** The running task's time slice. *)
Definition dec_slice (t : task_tcb) : task_tcb :=
  if 0 <? time_slice t then t <| time_slice := time_slice t - 1 |> else t.
Definition slice_over (a : asched) : bool :=
  match a_tasks a !! a_current_task a with Some t => time_slice t <=? 1 | None => false end.

Definition eff_slice (a : asched) : asched :=
  if a_current_task a =? NULL then a
  else if slice_over a
  then eff_yield (set_task (a_current_task a) (set_field time_slice CONFIG_TIME_SLICE) a)
  else set_task (a_current_task a) (λ t, t <| time_slice := time_slice t - 1 |>) a.

Lemma set_task_ext x f g a : (∀ t, a_tasks a !! x = Some t → f t = g t) → set_task x f a = set_task x g a.
Proof. intros H. unfold set_task. by rewrite (alter_ext f g (a_tasks a) x). Qed.

Lemma slice_eff a : wf a → a_time_slice a = Ret () (eff_slice a) ∧ wf (eff_slice a).
Proof.
  intros Hwf. unfold a_time_slice, eff_slice, slice_over. step.
  destruct (Z.eqb_spec (a_current_task a) NULL) as [|Hc]; [done|].
  destruct (current_is_Some _ _ Hwf Hc) as [t Ht]. run (a_deref_ret _ _ _ Ht). rewrite Ht.
  destruct (wf_task _ _ Hwf _ _ Ht) as (Hp1 & Hp2 & Hts).
  set (cur := a_current_task a) in *.
  assert (when (0 <? time_slice t) (a_upd cur (λ t, t <| time_slice := time_slice t - 1 |>)) a =
    Ret () (set_task cur dec_slice a)) as E.
  { destruct (0 <? time_slice t) eqn:E0; simpl when.
    - rewrite a_upd_ret by eauto. f_equal. apply set_task_ext. intros u Hu. simplify_eq.
      unfold dec_slice. by rewrite E0.
    - unfold mret, M_ret. f_equal. unfold set_task. 
      rewrite alter_id; [by destruct a|]. intros u Hu. simplify_eq. unfold dec_slice. by rewrite E0. }
  run E.
  assert (a_tasks (set_task cur dec_slice a) !! cur = Some (dec_slice t)) as Ht'.
  { simpl. by rewrite lookup_alter_eq, Ht. }
  run (a_deref_ret _ _ _ Ht'). unfold CONFIG_ROUND_ROBIN. cbn [andb].
  assert ((time_slice (dec_slice t) =? 0) = (time_slice t <=? 1)) as ->.
  { unfold dec_slice. destruct (Z.ltb_spec 0 (time_slice t)); simpl;
      destruct (Z.leb_spec (time_slice t) 1); rewrite ?Z.eqb_eq, ?Z.eqb_neq; lia. }
  destruct (Z.leb_spec (time_slice t) 1); cbn [when].
  - erewrite bind_ret by (apply a_upd_ret; eauto). rewrite set_task_set_task.
    rewrite (set_task_ext _ _ (set_field time_slice CONFIG_TIME_SLICE)).
    2:{ intros u _. unfold dec_slice. simpl. by destruct (0 <? time_slice u). }
    apply yield_eff. apply wf_set_task; [done|]. intros u _ (?&?&_).
    split; [|by right]. split_and!; simpl; try done; unfold CONFIG_TIME_SLICE; lia.
  - assert (set_task cur dec_slice a =
      set_task cur (λ t, t <| time_slice := time_slice t - 1 |>) a) as ->.
    { apply set_task_ext. intros u Hu. simplify_eq. unfold dec_slice.
      by rewrite (proj2 (Z.ltb_lt _ _)) by lia. }
    split; [done|]. apply wf_set_task; [done|]. intros u Hu (?&?&?). simplify_eq.
    split; [|by right]. split_and!; simpl; try done; lia.
Qed.

(** A more urgent task than the running one is ready. *)
Definition urgent (a : asched) : bool :=
  negb (a_current_task a =? NULL) && (first_nonempty (a_ready a) <? prio_of a (a_current_task a)).

(** [scheduler_tick]. *)
Definition advance (a : asched) : asched := a <| a_tick := u32 (a_tick a + 1) |>.
Definition eff_tick (a : asched) : asched :=
  let a' := eff_slice (eff_wake_expired (advance a)) in
  pend_if (urgent a') a'.

Lemma wf_advance a : wf a → wf (advance a).
Proof. intros Hwf. destruct Hwf; split; try done. apply u32_range. Qed.

Lemma slice_over_mask a : slice_over (mask a) = slice_over a.
Proof. done. Qed.

Lemma eff_yield_mask a : eff_yield (mask a) = mask (eff_yield a).
Proof.
  unfold eff_yield. change (a_current_task (mask a)) with (a_current_task a).
  change (a_lock (mask a)) with (a_lock a). repeat case_match; done.
Qed.

Lemma eff_slice_mask a : eff_slice (mask a) = mask (eff_slice a).
Proof.
  unfold eff_slice. rewrite slice_over_mask. change (a_current_task (mask a)) with (a_current_task a).
  destruct (a_current_task a =? NULL); [done|]. destruct (slice_over a); [|done].
  apply (eff_yield_mask (set_task (a_current_task a) (λ t, t <| time_slice := CONFIG_TIME_SLICE |>) a)).

Qed.

Lemma eff_wake_expired_mask a : eff_wake_expired (mask a) = mask (eff_wake_expired a).
Proof. apply (wake_many_mask (expires a) (λ x, expired (times_out a x))). Qed.

Lemma eff_slice_primask a : primask (a_cpu (eff_slice a)) = primask (a_cpu a).
Proof.
  unfold eff_slice, eff_yield. destruct (a_current_task a =? NULL); [done|]. destruct (slice_over a); [|done].
  repeat case_match; done.
Qed.

Lemma eff_wake_expired_primask a : primask (a_cpu (eff_wake_expired a)) = primask (a_cpu a).
Proof.
  destruct (wake_many_rest (expires a) (λ x, expired (times_out a x)) (a_blocked a) a)
    as (_&_&_&_&_&_&E). unfold eff_wake_expired. by rewrite E.
Qed.

Lemma tick_eff a : wf a → a_tick_handler a = Ret () (eff_tick a) ∧ wf (eff_tick a).
Proof.
  intros Hwf. pose proof (wf_advance _ Hwf) as Hwf0.
  destruct (wake_expired_eff _ Hwf0) as [_ Hwf1]. destruct (slice_eff _ Hwf1) as [_ Hwf2].
  assert (wf (eff_tick a)) as Hwf3 by (by apply wf_pend_if). split; [|done].
  unfold a_tick_handler. rewrite enter_ret. step. step.
  change (mask a <| a_tick := u32 (a_tick (mask a) + 1) |>) with (mask (advance a)).
  pose proof (wf_mask _ _ Hwf0) as Hm0. destruct (wake_expired_eff _ Hm0) as [E1 Hm1]. run E1.
  destruct (slice_eff _ Hm1) as [E2 Hm2]. run E2. step. step.
  rewrite eff_wake_expired_mask, eff_slice_mask in *.
  set (a2 := eff_slice (eff_wake_expired (advance a))) in *.
  assert ((if a_current_task (mask a2) =? NULL then mret ()
    else c ← a_deref (a_current_task (mask a2));
         when (first_nonempty (a_ready (mask a2)) <? priority c) a_trigger) (mask a2) =
    Ret () (mask (pend_if (urgent a2) a2))) as E3.
  { rewrite <- pend_if_mask. unfold urgent, prio_of.
    change (a_current_task (mask a2)) with (a_current_task a2).
    destruct (Z.eqb_spec (a_current_task a2) NULL) as [|Hc]; [done|].
    destruct (current_is_Some _ _ Hwf2 Hc) as [t Ht]. run (a_deref_ret (mask a2) _ _ Ht).
    rewrite Ht. apply when_trigger_ret. }
  run E3. apply (exit_eff None (eff_tick a)); [done| |done].
  unfold eff_tick. rewrite pend_if_primask, eff_slice_primask, eff_wake_expired_primask. done.
Qed.

(** ** Waking the waiters of an object *)

Definition waits (a : asched) (reason : block_reason_t) (object : ptr) (x : ptr) : bool :=
  match a_tasks a !! x with Some t => waits_for reason object t | None => false end.

(** The waiter [scheduler_unblock_one] picks: the first of the most urgent. *)
Definition best_of (a : asched) (reason : block_reason_t) (object : ptr) (best x : ptr) : ptr :=
  if waits a reason object x && ((best =? NULL) || (prio_of a x <? prio_of a best)) then x else best.
Definition best_waiter (a : asched) (reason : block_reason_t) (object : ptr) : ptr :=
  fold_left (best_of a reason object) (a_blocked a) NULL.

Definition eff_unblock_one (reason : block_reason_t) (object : ptr) (result : Z) (a : asched) : asched :=
  let best := best_waiter a reason object in
  if best =? NULL then a else eff_unblock best result a.

Lemma better_waiter_eff a reason object x best :
  is_Some (a_tasks a !! x) → null_or_task best a →
  a_better_waiter reason object x best a = Ret (best_of a reason object best x) a.
Proof.
  intros [t Ht] Hb. unfold a_better_waiter, best_of, waits, prio_of.
  run (a_deref_ret _ _ _ Ht). rewrite Ht. destruct (waits_for reason object t); [|done].
  destruct (Z.eqb_spec best NULL) as [|Hne]; [done|]. destruct Hb as [|[b Hb]]; [done|].
  rewrite bind_assoc. run (a_deref_ret _ _ _ Hb). by rewrite Hb.
Qed.

Lemma best_of_null_or_task a reason object best x :
  is_Some (a_tasks a !! x) → null_or_task best a → null_or_task (best_of a reason object best x) a.
Proof. intros ??. unfold best_of. destruct (_ && _); [by right|done]. Qed.

Lemma best_waiter_eff a reason object l best :
  (∀ x, x ∈ l → is_Some (a_tasks a !! x)) → null_or_task best a →
  foreach (a_better_waiter reason object) l best a = Ret (fold_left (best_of a reason object) l best) a.
Proof.
  revert best. induction l as [|x l IH]; intros best Hl Hb; [done|]. simpl.
  erewrite bind_ret by (apply better_waiter_eff; [apply Hl; by left|done]).
  apply IH; [intros; apply Hl; by right|]. apply best_of_null_or_task; [apply Hl; by left|done].
Qed.

(** What the selection means. *)
Lemma best_waiter_fold a reason object l best :
  (∀ x, x ∈ l → x ≠ NULL) →
  let b := fold_left (best_of a reason object) l best in
  (b = best ∨ b ∈ l ∧ waits a reason object b = true) ∧
  (∀ x, x ∈ l → waits a reason object x = true → b ≠ NULL ∧ prio_of a b ≤ prio_of a x) ∧
  (best ≠ NULL → b ≠ NULL ∧ prio_of a b ≤ prio_of a best).
Proof.
  revert best. induction l as [|x l IH]; intros best Hl; simpl; [split_and!; [by left|set_solver|done]|].
  destruct (IH (best_of a reason object best x)) as (IH1 & IH2 & IH3); [intros; apply Hl; by right|].
  set (b := fold_left _ l _) in *. unfold best_of in IH1, IH3.
  assert (x ≠ NULL) as Hx by (apply Hl; by left).
  destruct (waits a reason object x) eqn:Ew; cbn [andb] in *.
  - destruct (Z.eqb_spec best NULL) as [->|Hb]; cbn [orb] in *.
    + destruct (IH3 Hx) as [??]. split_and!; [|intros y [->|Hy]%elem_of_cons ?; [done|by apply IH2]|done].
      right. destruct IH1 as [->|[??]]; [split; [by left|done]|split; [by right|done]].
    + destruct (Z.ltb_spec (prio_of a x) (prio_of a best)).
      * destruct (IH3 Hx) as [??]. split_and!; [|intros y [->|Hy]%elem_of_cons ?; [done|by apply IH2]|].
        -- right. destruct IH1 as [->|[??]]; [split; [by left|done]|split; [by right|done]].
        -- intros _. split; [done|lia].
      * destruct (IH3 Hb) as [??]. split_and!; [|intros y [->|Hy]%elem_of_cons ?; [split; [done|lia]|by apply IH2]|done].
        destruct IH1 as [->|[??]]; [by left|right; split; [by right|done]].
  - split_and!; [|intros y [->|Hy]%elem_of_cons ?; [congruence|by apply IH2]|done].
    destruct IH1 as [->|[??]]; [by left|right; split; [by right|done]].
Qed.

Lemma best_waiter_spec a reason object : wf a →
  let b := best_waiter a reason object in
  (b = NULL ∧ ∀ x, x ∈ a_blocked a → waits a reason object x = false) ∨
  (b ∈ a_blocked a ∧ b ≠ NULL ∧ waits a reason object b = true ∧
   ∀ x, x ∈ a_blocked a → waits a reason object x = true → prio_of a b ≤ prio_of a x).
Proof.
  intros Hwf. assert (∀ x, x ∈ a_blocked a → x ≠ NULL) as Hn.
  { intros x Hx. eapply wf_deref; [done|]. by eapply blocked_is_Some. }
  destruct (best_waiter_fold a reason object (a_blocked a) NULL Hn) as (H1 & H2 & _).
  fold (best_waiter a reason object) in H1, H2. destruct H1 as [H1|[Hin Hw]].
  - left. split; [done|]. intros x Hx. destruct (waits a reason object x) eqn:E; [|done].
    by destruct (H2 x Hx E).
  - right. split_and!; [done|by apply Hn|done|]. intros x Hx E. by apply H2.
Qed.

Lemma unblock_one_eff reason object result a : wf a →
  a_unblock_one reason object result a =
    Ret (negb (best_waiter a reason object =? NULL)) (eff_unblock_one reason object result a) ∧
  wf (eff_unblock_one reason object result a).
Proof.
  intros Hwf. unfold eff_unblock_one. pose proof (best_waiter_spec a reason object Hwf) as Hb.
  split.
  - unfold a_unblock_one. rewrite enter_ret. step.
    erewrite bind_ret.
    2:{ apply best_waiter_eff; [|by left]. intros x Hx. by apply (blocked_is_Some None a). }
    change (fold_left (best_of (mask a) reason object) (a_blocked (mask a)) NULL)
      with (best_waiter a reason object).
    destruct (Z.eqb_spec (best_waiter a reason object) NULL) as [|Hn]; cbn [negb].
    + erewrite bind_ret; [done|]. by eapply exit_eff.
    + destruct Hb as [[? _]|(Hin&_)]; [done|].
      apply unblock_tail_eff; [done..|]. erewrite bind_ret; [done|]. by apply exit_eff_unblock.
  - destruct (Z.eqb_spec (best_waiter a reason object) NULL) as [|Hn]; [done|].
    destruct Hb as [[? _]|(Hin&_)]; [done|]. by apply wf_eff_unblock.
Qed.

(** [scheduler_unblock_all]. *)
Definition wake_waiters (reason : block_reason_t) (object : ptr) (result : Z) (a : asched) : asched :=
  wake_many (waits a reason object) (λ _, woken result) (a_blocked a) a.
Definition count_waiters (reason : block_reason_t) (object : ptr) (a : asched) : Z :=
  u32 (Z.of_nat (length (filter (λ x, waits a reason object x = true) (a_blocked a)))).
Definition eff_unblock_all (reason : block_reason_t) (object : ptr) (result : Z) (a : asched) : asched :=
  pend_if (0 <? count_waiters reason object a) (wake_waiters reason object result a).

Lemma count_fold (p : ptr → bool) l (c : Z) :
  fold_left (λ c x, if p x then u32 (c + 1) else c) l (u32 c) =
  u32 (c + Z.of_nat (length (filter (λ x, p x = true) l))).
Proof.
  revert c. induction l as [|x l IH]; intros c; simpl; [by rewrite Z.add_0_r|].
  rewrite filter_cons. destruct (p x) eqn:E.
  - rewrite decide_True by done.
    assert (u32 (u32 c + 1) = u32 (c + 1)) as -> by apply Zplus_mod_idemp_l.
    rewrite IH. simpl length. f_equal. lia.
  - rewrite decide_False by done. apply IH.
Qed.

Lemma wake_waiter_eff a0 reason object result x n a : wf a → x ∈ a_blocked a →
  a_tasks a !! x = a_tasks a0 !! x →
  a_wake_waiter reason object result x n a =
  Ret (if waits a0 reason object x then u32 (n + 1) else n)
      (if waits a0 reason object x then wake_one (λ _, woken result) x a else a).
Proof.
  intros Hwf Hx Hsame. destruct (blocked_is_Some _ _ _ Hwf Hx) as [t Ht].
  unfold a_wake_waiter, waits. rewrite <- Hsame, Ht. run (a_deref_ret _ _ _ Ht).
  destruct (waits_for reason object t); [|done].
  run (a_blocked_remove_ret _ _ Hx). erewrite bind_ret.
  2:{ apply make_ready_ret; [by apply wf_unblocked|]. by apply (blocked_is_Some None a). }
  done.
Qed.

Lemma unblock_all_eff reason object result a : wf a →
  a_unblock_all reason object result a =
    Ret (count_waiters reason object a) (eff_unblock_all reason object result a) ∧
  wf (eff_unblock_all reason object result a).
Proof.
  intros Hwf. pose proof (to_visit_blocked _ Hwf) as Hv.
  assert (wf (eff_unblock_all reason object result a)) as Hwf'.
  { apply wf_pend_if, wf_wake_many; [|done..|exact Hv]. intros x t Ht. exact Ht. }
  split; [|done]. unfold a_unblock_all. rewrite enter_ret. step.
  pose proof (to_visit_blocked _ (wf_mask _ _ Hwf)) as Hvm.
  erewrite bind_ret.
  2:{ apply (foreach_wake (waits a reason object) (λ _, woken result)) with
        (g := λ x n, if waits a reason object x then u32 (n + 1) else n) (a0 := mask a); try done.
      - intros x n a' Hx Hwf1 Hx' Hs _. by apply (wake_waiter_eff (mask a)). }
  rewrite (count_fold (waits a reason object) _ 0). simpl.
  change (u32 (Z.of_nat _)) with (count_waiters reason object a).
  rewrite wake_many_mask. change (wake_many _ _ _ _) with (wake_waiters reason object result a).
  run (when_trigger_ret (0 <? count_waiters reason object a) (mask (wake_waiters reason object result a))).
  rewrite pend_if_mask.
  erewrite bind_ret; [done|]. eapply exit_eff; [exact Hwf'| |done].
  unfold eff_unblock_all. rewrite pend_if_primask.
  destruct (wake_many_rest (waits a reason object) (λ _, woken result) (a_blocked a) a)
    as (_&_&_&_&_&_&E). unfold wake_waiters. by rewrite E.
Qed.

(** ** Priority changes and the interrupt mask *)

Lemma eff_add_mask x a : eff_add x (mask a) = mask (eff_add x a).
Proof. apply (pend_if_mask _ (enqueue x (prio_of a x) (set_task x fresh_slice a))). Qed.

Lemma eff_set_priority_mask x p a : eff_set_priority x p (mask a) = mask (eff_set_priority x p a).
Proof.
  unfold eff_set_priority. change (state_of (mask a) x) with (state_of a x).
  destruct (_ || _); [done|]. case_bool_decide; [|done].
  apply (eff_add_mask x (set_task x (set_field priority p) (eff_remove x a))).
Qed.

(** What a priority change leaves alone, and what it changes. *)
Lemma eff_set_priority_cpu x p a :
  a_current_task (eff_set_priority x p a) = a_current_task a ∧
  ipsr (a_cpu (eff_set_priority x p a)) = ipsr (a_cpu a) ∧
  primask (a_cpu (eff_set_priority x p a)) = primask (a_cpu a).
Proof.
  unfold eff_set_priority, eff_add, pend_if. destruct (_ || _); [done|].
  case_bool_decide; [|done]. by destruct (higher _ _).
Qed.

Lemma eff_set_priority_task x p a t : x ≠ NULL → 0 ≤ p < CONFIG_MAX_PRIORITY →
  a_tasks a !! x = Some t →
  ∃ t', a_tasks (eff_set_priority x p a) !! x = Some t' ∧ priority t' = p ∧
    base_priority t' = base_priority t ∧ queue_kind (state t') = queue_kind (state t).
Proof.
  intros Hx Hp Ht. unfold eff_set_priority.
  rewrite (proj2 (Z.eqb_neq x NULL)), (proj2 (Z.leb_gt CONFIG_MAX_PRIORITY p)) by (done || lia).
  cbn [orb]. case_bool_decide as Hst.
  - exists (fresh_slice (t <| priority := p |>)). split_and!; try done.
    + unfold eff_add, pend_if. destruct (higher _ _); simpl;
        by rewrite lookup_alter_eq, lookup_alter_eq, Ht.
    + unfold state_of in Hst. rewrite Ht in Hst. simpl in Hst.
      by destruct Hst as [[= ->]|[= ->]].
  - exists (t <| priority := p |>). split_and!; try done. simpl. by rewrite lookup_alter_eq, Ht.
Qed.

Lemma eff_set_priority_other x p a y : x ≠ y →
  a_tasks (eff_set_priority x p a) !! y = a_tasks a !! y.
Proof.
  intros Hxy. unfold eff_set_priority, eff_add, pend_if. destruct (_ || _); [done|].
  case_bool_decide; [|simpl; by rewrite lookup_alter_ne].
  destruct (higher _ _); simpl; by rewrite !lookup_alter_ne.
Qed.

Lemma eff_set_priority_blocked x p a : a_blocked (eff_set_priority x p a) = a_blocked a.
Proof.
  unfold eff_set_priority, eff_add, pend_if. destruct (_ || _); [done|].
  case_bool_decide; [|done]. by destruct (higher _ _).
Qed.

(** ** After waking everybody *)

(** [scheduler_unblock_all] leaves no waiter of the object. *)
Lemma unblock_all_no_waiter reason object result a x : wf a →
  x ∈ a_blocked (eff_unblock_all reason object result a) →
  waits (eff_unblock_all reason object result a) reason object x = false.
Proof.
  intros Hwf Hx. unfold eff_unblock_all in *.
  assert (∀ b a', a_blocked (pend_if b a') = a_blocked a') as Hb by (by intros []).
  assert (∀ b a', waits (pend_if b a') reason object x = waits a' reason object x) as Hw by (by intros []).
  rewrite Hb in Hx. rewrite Hw. unfold wake_waiters in *. rewrite wake_many_blocked in Hx.
  apply list_elem_of_filter in Hx as [Hn Hx]. unfold waits at 1.
  rewrite wake_many_tasks by exact (wf_blocked_nodup _ _ Hwf). rewrite decide_False by done.
  fold (waits a reason object x). destruct (waits a reason object x); [by destruct Hn|done].
Qed.

(** Every waiter is ready afterwards, with the given result. *)
Lemma unblock_all_woken reason object result a x t : wf a → x ∈ a_blocked a →
  waits a reason object x = true → a_tasks a !! x = Some t →
  a_tasks (eff_unblock_all reason object result a) !! x = Some (woken result t).
Proof.
  intros Hwf Hx Hw Ht. unfold eff_unblock_all.
  assert (∀ b a', a_tasks (pend_if b a') = a_tasks a') as -> by (by intros []).
  unfold wake_waiters. rewrite wake_many_tasks by exact (wf_blocked_nodup _ _ Hwf).
  by rewrite decide_True, Ht.
Qed.

(** Nobody else is touched. *)
Lemma unblock_all_others reason object result a x : wf a → waits a reason object x = false →
  a_tasks (eff_unblock_all reason object result a) !! x = a_tasks a !! x.
Proof.
  intros Hwf Hw. unfold eff_unblock_all.
  assert (∀ b a', a_tasks (pend_if b a') = a_tasks a') as -> by (by intros []).
  unfold wake_waiters. rewrite wake_many_tasks by exact (wf_blocked_nodup _ _ Hwf).
  rewrite decide_False; [done|]. rewrite Hw. naive_solver.
Qed.
