(* ===== verification/SchedFrame.v ===== *)
(** * What the scheduler leaves alone

    No operation of the scheduler creates or destroys a task or changes the
    fields only [task_create] writes, and only the operations that say so stop
    a task from being runnable: [evolves o a a'], a preorder that every effect
    of [SchedEffect.v] satisfies.  [o] is the task an operation may stop. *)
From S2P Require Import Prelude Config Task Critical Bitmap TcbList Scheduler SchedSpec.
From S2P Require Import SchedInv SchedEffect.

(** The identity of a task. *)
Definition ident (t : task_tcb) : Z * list Z * ptr * ptr * Z * (ptr * ptr * Z) :=
  (Task.id t, name t, entry t, arg t, base_priority t, (stack_base t, stack_top t, stack_size t)).

(** One task, before and after; [stop]: it may have been stopped. *)
Definition task_evolves (stop : bool) (o o' : option task_tcb) : Prop :=
  match o, o' with
  | Some t, Some t' => ident t' = ident t ∧ (stop = false → runnable (state t) = true → runnable (state t') = true)
  | None, None => True
  | _, _ => False
  end.

Definition evolves (o : option ptr) (a a' : asched) : Prop := ∀ x,
  task_evolves (bool_decide (o = Some x)) (a_tasks a !! x) (a_tasks a' !! x).

#[export] Instance task_evolves_preorder stop : PreOrder (task_evolves stop).
Proof.
  split; [by intros [t|]|]. intros [t|] [u|] [v|]; simpl; try done.
  intros [E1 H1] [E2 H2]. split; [congruence|auto].
Qed.

#[export] Instance evolves_preorder o : PreOrder (evolves o).
Proof.
  split; [by intros a x|]. intros a b c H1 H2 x. by transitivity (a_tasks b !! x).
Qed.

(** An operation that stops no task may be seen as one that stops [x]. *)
Lemma evolves_weaken o a a' : evolves None a a' → evolves o a a'.
Proof.
  intros H x. specialize (H x). rewrite bool_decide_false in H by done. unfold task_evolves in *.
  destruct (a_tasks a !! x), (a_tasks a' !! x); try done. destruct H as [? Hr]. by auto.
Qed.

(** Operations that only move tasks between queues. *)
Lemma evolves_tasks o a a' : a_tasks a' = a_tasks a → evolves o a a'.
Proof. intros E x. by rewrite E. Qed.

Lemma evolves_set_task o x f a : (∀ t, ident (f t) = ident t) →
  (o = Some x ∨ ∀ t, runnable (state t) = true → runnable (state (f t)) = true) →
  evolves o a (set_task x f a).
Proof.
  intros Hf Hr y. simpl. destruct (decide (x = y)) as [<-|Hne].
  - rewrite lookup_alter_eq. destruct (a_tasks a !! x) as [t|]; [|done]. simpl. split; [done|].
    intros Ho. apply bool_decide_eq_false in Ho. by destruct Hr as [|Hr]; [|apply Hr].
  - by rewrite lookup_alter_ne by done.
Qed.

Lemma evolves_wake_many o p f l a : (∀ x t, ident (f x t) = ident t) →
  (∀ x t, state (f x t) = TASK_STATE_READY) → evolves o a (wake_many p f l a).
Proof.
  intros Hf Hs. revert a. induction l as [|x l IH]; intros a; [done|]. simpl.
  etransitivity; [|apply IH]. destruct (p x); [|done].
  transitivity (set_task x (f x) (unblocked x a)); [|by apply evolves_tasks].
  transitivity (unblocked x a); [by apply evolves_tasks|].
  apply evolves_set_task; [done|]. right. intros t _. by rewrite Hs.
Qed.

Lemma evolves_pend o a a' : evolves o a a' → evolves o a (pend a').
Proof. done. Qed.
Lemma evolves_pend_if o b a a' : evolves o a a' → evolves o a (pend_if b a').
Proof. by destruct b. Qed.

Lemma evolves_add o x a : evolves o a (eff_add x a).
Proof.
  apply evolves_pend_if. transitivity (set_task x fresh_slice a); [|by apply evolves_tasks].
  apply evolves_set_task; [done|by right].
Qed.

Lemma evolves_set_priority o x p a : evolves o a (eff_set_priority x p a).
Proof.
  assert (∀ a, evolves o a (set_task x (set_field priority p) a)) as Hp.
  { intros b. apply evolves_set_task; [done|by right]. }
  unfold eff_set_priority. destruct (_ || _); [done|]. case_bool_decide; [|done].
  etransitivity; [|apply evolves_add]. transitivity (eff_remove x a); [by apply evolves_tasks|done].
Qed.

Lemma evolves_yield o a : evolves o a (eff_yield a).
Proof. unfold eff_yield. destruct (_ =? _); [done|]. by destruct (0 <? _); apply evolves_tasks. Qed.

Lemma evolves_select o a : evolves o a (eff_select a).
Proof. by apply evolves_tasks. Qed.

Lemma evolves_lock o a : evolves o a (eff_lock a).
Proof. by apply evolves_tasks. Qed.

Lemma evolves_unlock o a : evolves o a (eff_unlock a).
Proof. unfold eff_unlock. destruct (_ && _); by apply evolves_tasks. Qed.

Lemma evolves_start o a : evolves o a (eff_start a).
Proof.
  unfold eff_start. etransitivity; [|apply evolves_set_task; [done|by right]]. by apply evolves_tasks.
Qed.

(** Blocking stops the running task, and only it. *)
Lemma evolves_block reason object timeout a :
  evolves (Some (a_current_task a)) a (eff_block reason object timeout a).
Proof.
  unfold eff_block. apply evolves_pend.
  transitivity (set_task (a_current_task a) (waiting (a_tick a) reason object timeout)
    (eff_remove (a_current_task a) a)); [|by apply evolves_tasks].
  transitivity (eff_remove (a_current_task a) a); [by apply evolves_tasks|].
  apply evolves_set_task; [done|by left].
Qed.

Lemma evolves_unblock o x r a : evolves o a (eff_unblock x r a).
Proof.
  apply evolves_pend_if. transitivity (set_task x (woken r) (unblocked x a)); [|by apply evolves_tasks].
  transitivity (unblocked x a); [by apply evolves_tasks|]. apply evolves_set_task; [done|by right].
Qed.

Lemma evolves_unblock_one o reason object r a : evolves o a (eff_unblock_one reason object r a).
Proof. unfold eff_unblock_one. destruct (_ =? _); [done|apply evolves_unblock]. Qed.

Lemma evolves_unblock_all o reason object r a : evolves o a (eff_unblock_all reason object r a).
Proof. apply evolves_pend_if. by apply evolves_wake_many. Qed.

Lemma evolves_tick o a : evolves o a (eff_tick a).
Proof.
  apply evolves_pend_if. transitivity (eff_wake_expired (advance a)).
  - transitivity (advance a); [by apply evolves_tasks|]. apply evolves_wake_many; [|done].
    intros x t. by unfold expired; destruct (times_out _ x).
  - unfold eff_slice. destruct (_ =? NULL); [done|]. destruct (slice_over _).
    + etransitivity; [|apply evolves_yield]. apply evolves_set_task; [done|by right].
    + apply evolves_set_task; [done|by right].
Qed.

Create HintDb evolves discriminated.
#[export] Hint Resolve evolves_add evolves_set_priority evolves_yield evolves_select evolves_lock
  evolves_unlock evolves_start evolves_block evolves_unblock evolves_unblock_one evolves_unblock_all
  evolves_tick : evolves.
