(* ===== verification/SchedIface.v ===== *)
(** * The scheduler as the other components see it

    [SchedulerOps] lists the routines the synchronisation objects and the
    kernel call; [SchedulerSpec] is what the scheduler promises: each routine
    acts on a state of the specification as the effect of [SchedEffect.v] says.
    The clients are verified against the promise.  The instance at the end
    discharges it for the routines of [Scheduler.v]. *)
From S2P Require Import Prelude Config Task Critical Bitmap TcbList Scheduler SchedSpec.
From S2P Require Import SchedRefine SchedInv SchedEffect.

Class SchedulerOps (K : Type) := {
  op_enter : M K Z;
  op_exit : Z → M K ();
  op_is_isr : M K bool;
  op_switch_due : M K bool;
  op_current : M K ptr;
  op_priority : ptr → M K Z;
  op_base_priority : ptr → M K Z;
  op_state : ptr → M K task_state_t;
  op_event_wait : ptr → Z → Z → M K ();
  op_set_state : ptr → task_state_t → M K ();
  op_block_enter : block_reason_t → ptr → Z → M K (Z + ptr);
  op_block_result : ptr → M K Z;
  op_yield : M K ();
  op_unblock_one : block_reason_t → ptr → Z → M K bool;
  op_unblock_all : block_reason_t → ptr → Z → M K Z;
  op_set_priority : ptr → Z → M K ();
  op_add_task : ptr → M K ();
  op_remove_task : ptr → M K ();
}.

(** [m] turns a state that stands for [a] into one that stands for [a']. *)
Definition implements {K X} (rep : K → asched → Prop) (m : M K X) (a : asched) (r : X)
    (a' : asched) : Prop := ∀ k, rep k a → ∃ k', m k = Ret r k' ∧ rep k' a'.

(** The mask register, as the critical sections see it. *)
Definition set_mask (p : Z) (a : asched) : asched := a <| a_cpu := a_cpu a <| primask := p |> |>.
Definition irq_mask (a : asched) : Z := primask (a_cpu a).

(** Which specification state an implementation state stands for. *)
Class SchedulerRep (K : Type) := rep : K → asched → Prop.

Class SchedulerSpec (K : Type) `{!SchedulerOps K, !SchedulerRep K} : Prop := {
  spec_enter a : implements rep op_enter a (irq_mask a) (mask a);
  spec_exit a p : implements rep (op_exit p) a () (set_mask (Z.land p 1) a);
  spec_is_isr a : implements rep op_is_isr a (bool_decide (ipsr (a_cpu a) ≠ 0)) a;
  spec_switch_due a : implements rep op_switch_due a (pendsv_taken (a_cpu a)) a;
  spec_current a : implements rep op_current a (a_current_task a) a;
  spec_priority a x t : a_tasks a !! x = Some t → implements rep (op_priority x) a (priority t) a;
  spec_base_priority a x t : a_tasks a !! x = Some t →
    implements rep (op_base_priority x) a (base_priority t) a;
  spec_state a x t : a_tasks a !! x = Some t → implements rep (op_state x) a (state t) a;
  spec_event_wait a x bits all : is_Some (a_tasks a !! x) →
    implements rep (op_event_wait x bits all) a ()
      (set_task x (λ t, t <| event_wait_bits := bits |> <| event_wait_all := all |>) a);
  spec_set_state a x st : is_Some (a_tasks a !! x) →
    implements rep (op_set_state x st) a () (set_task x (set_field state st) a);
  spec_block_enter a reason object timeout t : wf a →
    a_tasks a !! a_current_task a = Some t → state t ≠ TASK_STATE_BLOCKED →
    implements rep (op_block_enter reason object timeout) a (inr (a_current_task a))
      (eff_block reason object timeout a);
  spec_block_result a x t : a_tasks a !! x = Some t →
    implements rep (op_block_result x) a (block_result t) a;
  spec_yield a : wf a → implements rep op_yield a () (eff_yield a);
  spec_unblock_one a reason object result : wf a →
    implements rep (op_unblock_one reason object result) a
      (negb (best_waiter a reason object =? NULL)) (eff_unblock_one reason object result a);
  spec_unblock_all a reason object result : wf a →
    implements rep (op_unblock_all reason object result) a
      (count_waiters reason object a) (eff_unblock_all reason object result a);
  spec_set_priority a x p : wf a → 0 ≤ p → (x ≠ NULL → is_Some (a_tasks a !! x)) →
    implements rep (op_set_priority x p) a () (eff_set_priority x p a);
  spec_add_task a x : wf_out (Some x) a → is_Some (a_tasks a !! x) →
    implements rep (op_add_task x) a () (eff_add x a);
  spec_remove_task a x t : wf a → a_tasks a !! x = Some t → state t ≠ TASK_STATE_BLOCKED →
    implements rep (op_remove_task x) a () (eff_remove x a);
}.

(** ** The scheduler provides the interface *)

#[export] Instance scheduler_ops : SchedulerOps sched := {|
  op_enter := zoom critical_enter;
  op_exit p := zoom (critical_exit p);
  op_is_isr := zoom is_isr_context;
  op_switch_due := gets (λ s, pendsv_taken (cpu s));
  op_current := scheduler_get_current;
  op_priority x := t ← deref x; mret (priority t);
  op_base_priority x := t ← deref x; mret (base_priority t);
  op_state x := t ← deref x; mret (state t);
  op_event_wait x bits all :=
    upd x (set_field event_wait_bits bits) ;; upd x (set_field event_wait_all all);
  op_set_state x st := upd x (set_field state st);
  op_block_enter := block_task_enter;
  op_block_result := get_block_result;
  op_yield := scheduler_yield;
  op_unblock_one := scheduler_unblock_one;
  op_unblock_all := scheduler_unblock_all;
  op_set_priority := scheduler_set_priority;
  op_add_task := scheduler_add_task;
  op_remove_task := scheduler_remove_task;
|}.

Lemma refines_implements {X} (m : M sched X) (am : M asched X) a r a' :
  refines abstracts m am → am a = Ret r a' → implements abstracts m a r a'.
Proof. intros Hm Ha k Hk. by eapply refines_apply. Qed.

Lemma implements_gets_task {X} (f : task_tcb → X) a x t :
  (∀ t, f (unlink t) = f t) → a_tasks a !! x = Some t →
  implements abstracts (t ← deref x; mret (f t)) a (f t) a.
Proof.
  intros Hf Ht. eapply (refines_implements _ (t ← a_deref x; mret (f t))).
  - apply refines_deref. intros u. rewrite Hf. apply refines_ret.
  - by rewrite (bind_ret _ _ _ _ _ (a_deref_ret _ _ _ Ht)).
Qed.

#[export] Instance scheduler_rep : SchedulerRep sched := abstracts.

#[export] Instance scheduler_spec : SchedulerSpec sched.
Proof.
  split; intros a; intros; simpl.
  - apply (refines_implements _ (zoom critical_enter)); [apply refines_cpu|done].
  - apply (refines_implements _ (zoom (critical_exit p))); [apply refines_cpu|done].
  - apply (refines_implements _ (zoom is_isr_context)); [apply refines_cpu|].
    by destruct a.
  - apply (refines_implements _ (gets (λ a, pendsv_taken (a_cpu a)))); [|done].
    apply refines_gets. intros ?? HR. by rewrite (abs_cpu _ _ HR).
  - apply (refines_implements _ (gets a_current_task)); [|done].
    apply refines_gets. apply abs_current.
  - by apply implements_gets_task.
  - by apply implements_gets_task.
  - by apply implements_gets_task.
  - apply (refines_implements _ (a_upd x (set_field event_wait_bits bits) ;;
      a_upd x (set_field event_wait_all all))); [refine_sched|].
    erewrite bind_ret by (by apply a_upd_ret). rewrite a_upd_ret by (by apply set_task_is_Some).
    by rewrite set_task_set_task.
  - apply (refines_implements _ (a_upd x (set_field state st))); [refine_sched|].
    by apply a_upd_ret.
  - eapply refines_implements; [apply refines_block_task_enter|by eapply block_eff].
  - apply (refines_implements _ (a_block_result x)); [apply refines_block_result|].
    unfold a_block_result. by erewrite bind_ret by (by apply a_deref_ret).
  - eapply refines_implements; [apply refines_yield|by eapply yield_eff].
  - eapply refines_implements; [apply refines_unblock_one|by eapply unblock_one_eff].
  - eapply refines_implements; [apply refines_unblock_all|by eapply unblock_all_eff].
  - eapply refines_implements; [apply refines_set_priority|by eapply set_priority_eff].
  - eapply refines_implements; [apply refines_add_task|by eapply add_eff].
  - eapply refines_implements; [apply refines_remove_task|by eapply remove_eff].
Qed.
