(* ===== verification/Sync.v ===== *)
(** * Synchronisation objects: common ground

    A synchronisation object is a C structure at some address; the routines on
    it act on the scheduler and on the store of the objects of their kind.  A
    routine that blocks gives the processor away: what the other tasks and the
    interrupt handlers do until the caller runs again is a parameter, taken at
    the points where a pending PendSV is served.  So is what they do between two
    critical sections of the routine. *)
From S2P Require Import Prelude Config Task Critical Bitmap TcbList Scheduler SchedSpec SchedInv.
From S2P Require Import SchedEffect SchedIface.

Record world (K O : Type) : Type := mkWorld {
  kern : K;
  objs : gmap Z O;
}.
Arguments mkWorld {K O} kern objs.
Arguments kern {K O} w.
Arguments objs {K O} w.

#[export] Program Instance kern_lens K O : Lens K (world K O) := {|
  view := kern; over k w := mkWorld k (objs w);
|}.
Solve Obligations with by intros; repeat destruct select (world _ _).

(** ** Switch points *)

Section switch.
Context {K W : Type} `{!Lens K W, !SchedulerOps K}.

(** A pending context switch is taken when interrupts are enabled in thread
    mode; [switch] runs until the caller is resumed. *)
Definition switch_point (switch : M W ()) : M W () :=
  due ← zoom op_switch_due;
  when due switch.

(** [scheduler_block_task]. *)
Definition scheduler_block_task (switch : M W ()) (reason : block_reason_t)
    (object : ptr) (timeout : Z) : M W Z :=
  r ← zoom (op_block_enter reason object timeout);
  match r with
  | inl e => mret e
  | inr self =>
      switch_point switch ;;
      zoom op_yield ;;
      switch_point switch ;;
      zoom (op_block_result self)
  end.
End switch.

(** The other tasks and the interrupt handlers, as a task on the processor sees
    them: [between] is what they do between two of its critical sections, when
    it may be interrupted or preempted; [away] is what they do from a switch
    point until it runs again. *)
Record others (W : Type) : Type := mkOthers {
  between : M W ();
  away : M W ();
}.
Arguments mkOthers {W} between away.
Arguments between {W} o.
Arguments away {W} o.

(** ** Objects *)

Section objects.
Context {K O : Type}.
Implicit Types (w : world K O) (o : gmap Z O).

(** [*p], assignments through [p], and the initialisation of a whole object. *)
Definition obj_deref (p : ptr) : M (world K O) O := λ w,
  match objs w !! p with Some x => Ret x w | None => Fault end.
Definition obj_upd (p : ptr) (f : O → O) : M (world K O) () := λ w,
  match objs w !! p with
  | Some _ => Ret () (mkWorld (kern w) (alter f p (objs w)))
  | None => Fault
  end.

Definition obj_store (p : ptr) (x : O) : M (world K O) () :=
  modify (λ w, mkWorld (kern w) (<[p := x]> (objs w))).

End objects.

(** ** Execution on represented states *)

Section runs.
Context {K O : Type} `{SchedulerSpec K}.
Implicit Types (w : world K O) (o : gmap Z O) (a : asched).

(** From any world that stands for [a] and [o], [m] returns [r] in a world
    that stands for [a'] and [o']. *)
Definition runs {X} (m : M (world K O) X) a o (r : X) a' o' : Prop :=
  ∀ w, rep (kern w) a → objs w = o →
    ∃ w', m w = Ret r w' ∧ rep (kern w') a' ∧ objs w' = o'.

Lemma runs_ret {X} (r : X) a o : runs (mret r) a o r a o.
Proof. intros w Hr Ho. by exists w. Qed.

Lemma runs_bind {X Y} (m : M (world K O) X) (k : X → M (world K O) Y) a o r a1 o1 r' a' o' :
  runs m a o r a1 o1 → runs (k r) a1 o1 r' a' o' → runs (m ≫= k) a o r' a' o'.
Proof.
  intros Hm Hk w Hr Ho. destruct (Hm w Hr Ho) as (w1 & E & Hr1 & Ho1).
  unfold mbind, M_bind. rewrite E. by apply Hk.
Qed.

Lemma runs_kern {X} (m : M K X) a o r a' : implements rep m a r a' → runs (zoom m) a o r a' o.
Proof.
  intros Hm w Hr Ho. destruct (Hm (kern w) Hr) as (k' & E & Hr').
  exists (mkWorld k' (objs w)). unfold zoom. simpl. by rewrite E.
Qed.

Lemma runs_deref p x a o : o !! p = Some x → runs (obj_deref p) a o x a o.
Proof. intros Hx w Hr <-. exists w. unfold obj_deref. by rewrite Hx. Qed.

Lemma runs_upd p f x a o : o !! p = Some x → runs (obj_upd p f) a o () a (<[p := f x]> o).
Proof.
  intros Hx w Hr <-. unfold obj_upd. rewrite Hx. eexists. split; [done|]. split; [done|].
  simpl. apply map_eq. intros q. destruct (decide (p = q)) as [<-|].
  - by rewrite lookup_alter_eq, Hx, lookup_insert_eq.
  - by rewrite lookup_alter_ne, lookup_insert_ne.
Qed.

Lemma runs_store p x a o : runs (obj_store p x) a o () a (<[p := x]> o).
Proof. intros w Hr <-. by eexists. Qed.

Lemma runs_when (b : bool) m a o a' o' : runs m a o () a' o' →
  runs (when b m) a o () (if b then a' else a) (if b then o' else o).
Proof. intros Hm. destruct b; [done|apply runs_ret]. Qed.

Lemma runs_eq {X} (m : M (world K O) X) a o r a1 o1 a' o' :
  runs m a o r a1 o1 → a1 = a' → o1 = o' → runs m a o r a' o'.
Proof. by intros ? <- <-. Qed.
End runs.

(** ** Critical sections around scheduler calls *)

Section critical_calls.
Context {K O : Type} `{SchedulerSpec K}.

Lemma eff_unblock_one_mask reason object result a :
  eff_unblock_one reason object result (mask a) = mask (eff_unblock_one reason object result a).
Proof.
  unfold eff_unblock_one. change (best_waiter (mask a) reason object) with (best_waiter a reason object).
  destruct (_ =? _); [done|]. apply eff_unblock_mask.
Qed.

Lemma eff_unblock_one_irq reason object result a :
  irq_mask (eff_unblock_one reason object result a) = irq_mask a.
Proof. unfold eff_unblock_one. destruct (_ =? _); [done|]. apply eff_unblock_primask. Qed.

(** Restoring the mask after an operation that commutes with masking. *)
Lemma runs_exit (a : asched) o p : cpu_wf (a_cpu a) → p = irq_mask a →
  runs (K := K) (O := O) (zoom (op_exit p)) (mask a) o () a o.
Proof.
  intros (Hp & _) ->. eapply runs_eq; [by apply runs_kern, spec_exit| |done].
  unfold irq_mask. destruct a as [????????? [m b i c]]. simpl in *. by destruct Hp as [-> | ->].
Qed.

(** [scheduler_unblock_one] and [scheduler_unblock_all] inside a critical
    section. *)
Lemma runs_unblock_one reason object result a o : wf a →
  runs (K := K) (O := O) (zoom (op_unblock_one reason object result)) (mask a) o
    (negb (best_waiter a reason object =? NULL))
    (mask (eff_unblock_one reason object result a)) o.
Proof.
  intros Hwf. eapply runs_eq; [apply runs_kern, (spec_unblock_one (mask a)); by apply wf_mask| |done].
  apply eff_unblock_one_mask.
Qed.

Lemma eff_unblock_all_mask reason object result a :
  eff_unblock_all reason object result (mask a) = mask (eff_unblock_all reason object result a).
Proof.
  unfold eff_unblock_all, wake_waiters. rewrite <- pend_if_mask. f_equal.
  apply (wake_many_mask (waits a reason object)).
Qed.

Lemma eff_unblock_all_irq reason object result a :
  irq_mask (eff_unblock_all reason object result a) = irq_mask a.
Proof.
  unfold irq_mask, eff_unblock_all. rewrite pend_if_primask.
  destruct (wake_many_rest (waits a reason object) (λ _, woken result) (a_blocked a) a)
    as (_&_&_&_&_&_&E). unfold wake_waiters. by rewrite E.
Qed.

Lemma runs_unblock_all reason object result a o : wf a →
  runs (K := K) (O := O) (zoom (op_unblock_all reason object result)) (mask a) o
    (count_waiters reason object a) (mask (eff_unblock_all reason object result a)) o.
Proof.
  intros Hwf. eapply runs_eq; [apply runs_kern, (spec_unblock_all (mask a)); by apply wf_mask| |done].
  apply eff_unblock_all_mask.
Qed.
End critical_calls.

(** Executes the next call, by the rule for it. *)
Ltac runs_step := eapply runs_bind; [first
  [ apply runs_ret
  | eapply runs_kern; first [apply spec_enter | apply spec_is_isr | apply spec_current
      | apply spec_switch_due | apply spec_exit]
  | eapply runs_deref; eassumption ] |].

(** ** Tasks and their environment *)

(** [self] is the running task, in thread mode with interrupts enabled. *)
Record thread (self : ptr) (a : asched) : Prop := {
  thread_wf : wf a;
  thread_current : a_current_task a = self;
  thread_mode : ipsr (a_cpu a) = 0;
  thread_unmasked : irq_mask a = 0;
  thread_runnable : ∃ t, a_tasks a !! self = Some t ∧ runnable (state t) = true;
}.

(** [self] still owns the processor but may have put itself to sleep. *)
Record parked (self : ptr) (a : asched) : Prop := {
  parked_wf : wf a;
  parked_current : a_current_task a = self;
  parked_mode : ipsr (a_cpu a) = 0;
  parked_unmasked : irq_mask a = 0;
  parked_state : ∃ t, a_tasks a !! self = Some t ∧
    (runnable (state t) = true ∨ state t = TASK_STATE_BLOCKED);
}.

Lemma thread_not_isr self a : thread self a → bool_decide (ipsr (a_cpu a) ≠ 0) = false.
Proof. intros Ht. apply bool_decide_false. intros Hi. by apply Hi, (thread_mode _ _ Ht). Qed.

(** TCBs are static memory: none disappears. *)
Definition tasks_kept (a a' : asched) : Prop :=
  ∀ x, is_Some (a_tasks a !! x) → is_Some (a_tasks a' !! x).

#[export] Instance tasks_kept_preorder : PreOrder tasks_kept.
Proof. split; [by intros a x Hx|]. intros a1 a2 a3 H1 H2 x Hx. by apply H2, H1. Qed.

(** The contract of the others: they give the processor back to [self] once it
    is runnable, and change the objects only as the reflexive and transitive
    relation [E] allows. *)
Class Environment {K O} `{!SchedulerOps K, !SchedulerRep K} (self : ptr)
    (E : gmap Z O → gmap Z O → Prop) (env : others (world K O)) : Prop := {
  env_order : PreOrder E;
  env_between w a : rep (kern w) a → thread self a →
    ∃ w' a', between env w = Ret () w' ∧ rep (kern w') a' ∧ thread self a' ∧
      E (objs w) (objs w') ∧ tasks_kept a a';
  env_resume w a : rep (kern w) a → parked self a →
    ∃ w' a', away env w = Ret () w' ∧ rep (kern w') a' ∧ thread self a' ∧
      E (objs w) (objs w') ∧ tasks_kept a a';
}.

(** A weaker promise about the objects. *)
Lemma environment_weaken {K O} `{!SchedulerOps K, !SchedulerRep K} self
    (E E' : gmap Z O → gmap Z O → Prop) `{!PreOrder E'} (env : others (world K O)) :
  (∀ o o', E o o' → E' o o') → Environment self E env → Environment self E' env.
Proof.
  intros HEE [HO Hb Hr]. split; [done|..]; intros w a Hw Ht.
  - destruct (Hb w a Hw Ht) as (w' & a' & ? & ? & ? & ? & ?). exists w', a'. split_and!; auto.
  - destruct (Hr w a Hw Ht) as (w' & a' & ? & ? & ? & ? & ?). exists w', a'. split_and!; auto.
Qed.

Section blocking.
Context {K O : Type} `{SchedulerSpec K}.
Context (self : ptr) (E : gmap Z O → gmap Z O → Prop) (env : others (world K O)).
Context `{HE : !Environment self E env}.
Implicit Types (w : world K O) (o : gmap Z O) (a : asched).

Lemma thread_parked a : thread self a → parked self a.
Proof. intros []. split; try done. destruct thread_runnable0 as (t & ? & ?). eauto. Qed.

(** What [m], run by the others, does to the objects. *)
Definition acts (m : M (world K O) ()) o o' : Prop :=
  E o o' ∧ ∃ v v', m v = Ret () v' ∧ objs v = o ∧ objs v' = o'.

(** What happens to the objects from the moment the caller gives the processor
    away to the moment it has it back. *)
Definition resumes : gmap Z O → gmap Z O → Prop := acts (away env).

(** What happens to them from a test in one critical section to the end of the
    wait in another. *)
Definition waits_out o o' : Prop := ∃ o1, rtc (acts (between env)) o o1 ∧ tc resumes o1 o'.

(** A runnable or freshly blocked task passes a switch point. *)
Lemma switch_point_spec w a : rep (kern w) a → parked self a →
  (pendsv_taken (a_cpu a) = false → thread self a) →
  ∃ w' a', switch_point (away env) w = Ret () w' ∧ rep (kern w') a' ∧ thread self a' ∧
    E (objs w) (objs w') ∧ tasks_kept a a' ∧
    if pendsv_taken (a_cpu a) then resumes (objs w) (objs w') else objs w' = objs w.
Proof using Type*.
  intros Hr Hp Ht. pose proof (env_order (Environment := HE)) as HO.
  unfold switch_point.
  destruct (runs_kern (O := O) _ _ (objs w) _ _ (spec_switch_due a) w Hr eq_refl) as (w1 & E1 & Hr1 & Ho1).
  run E1. rewrite <- Ho1. destruct (pendsv_taken (a_cpu a)); simpl.
  - destruct (env_resume w1 a Hr1 Hp) as (w' & a' & E' & Hr' & Ht' & HE' & Hk').
    exists w', a'. split_and!; [done..|]. split; [done|by exists w1, w'].
  - exists w1, a. split_and!; [done|done|by apply Ht|done|done|done].
Qed.

Lemma pend_taken a : ipsr (a_cpu a) = 0 → irq_mask a = 0 → pendsv_taken (a_cpu (pend a)) = true.
Proof.
  intros Hi Hp. unfold pendsv_taken, irq_mask in *. simpl.
  rewrite trigger_switch_pends. unfold andb. by rewrite Hi, Hp.
Qed.

(** The running task may yield. *)
Lemma eff_yield_kept a : tasks_kept a (eff_yield a).
Proof. intros x. unfold eff_yield. destruct (_ =? _); [done|]. by destruct (0 <? _). Qed.

Lemma eff_block_kept reason object timeout a : tasks_kept a (eff_block reason object timeout a).
Proof. intros x Hx. simpl. by apply lookup_alter_is_Some. Qed.

Lemma thread_yield a : thread self a → parked self (eff_yield a) ∧
  (pendsv_taken (a_cpu (eff_yield a)) = false → thread self (eff_yield a)).
Proof.
  intros Ht. destruct (yield_eff a (thread_wf _ _ Ht)) as [_ Hwf].
  assert (thread self (eff_yield a)) as Ht'; [|split; [by apply thread_parked|done]].
  destruct Ht as [_ Hc Hm Hu Hr]. revert Hwf. unfold eff_yield.
  destruct (_ =? NULL); [done|]. destruct (0 <? _); done.
Qed.

(** [scheduler_block_task] returns a result to a running task. *)
Lemma block_task_spec reason object timeout w a : rep (kern w) a → thread self a →
  ∃ r w' a', scheduler_block_task (away env) reason object timeout w = Ret r w' ∧
    rep (kern w') a' ∧ thread self a' ∧ E (objs w) (objs w') ∧ tasks_kept a a' ∧
    tc resumes (objs w) (objs w').
Proof using Type*.
  intros Hr Ht. pose proof (env_order (Environment := HE)) as HO.
  destruct Ht as [Hwf Hc Hm Hu (t & Ht & Hrt)].
  assert (state t ≠ TASK_STATE_BLOCKED) as Hnb by (intros Eb; by rewrite Eb in Hrt).
  rewrite <- Hc in Ht.
  destruct (block_eff reason object timeout a t Hwf Ht Hnb) as [_ Hwf1].
  destruct (runs_kern (O := O) _ _ (objs w) _ _
    (spec_block_enter a reason object timeout t Hwf Ht Hnb) w Hr eq_refl) as (w1 & E1 & Hr1 & Ho1).
  unfold scheduler_block_task. run E1. rewrite <- Ho1. rewrite Hc in *.
  assert (pendsv_taken (a_cpu (eff_block reason object timeout a)) = true) as Hdue
    by (unfold eff_block; by apply pend_taken).
  destruct (switch_point_spec w1 _ Hr1) as (w2 & a2 & E2 & Hr2 & Ht2 & HE2 & Hk2 & Hs2).
  { split; try done. exists (waiting (a_tick a) reason object timeout t). split; [|by right].
    simpl. by rewrite Hc, lookup_alter_eq, Ht. }
  { by rewrite Hdue. }
  rewrite Hdue in Hs2. run E2.
  destruct (runs_kern (O := O) _ _ (objs w2) _ _ (spec_yield a2 (thread_wf _ _ Ht2)) w2 Hr2 eq_refl)
    as (w3 & E3 & Hr3 & Ho3). run E3.
  destruct (thread_yield a2 Ht2) as [Hp3 Hn3].
  destruct (switch_point_spec w3 _ Hr3 Hp3 Hn3) as (w4 & a4 & E4 & Hr4 & Ht4 & HE4 & Hk4 & Hs4). run E4.
  destruct (thread_runnable _ _ Ht4) as (t4 & Ht4' & _).
  destruct (runs_kern (O := O) _ _ (objs w4) _ _ (spec_block_result a4 self t4 Ht4') w4 Hr4 eq_refl)
    as (w5 & E5 & Hr5 & Ho5).
  exists (block_result t4), w5, a4. split_and!; [done..| | |].
  - rewrite Ho5. etrans; [exact HE2|]. by rewrite <- Ho3.
  - etrans; [apply (eff_block_kept reason object timeout)|]. etrans; [exact Hk2|].
    etrans; [apply eff_yield_kept|exact Hk4].
  - rewrite Ho3 in Hs4. rewrite Ho5. destruct (pendsv_taken (a_cpu (eff_yield a2))); [|rewrite Hs4; by apply tc_once].
    eapply tc_l; [exact Hs2|by apply tc_once].
Qed.

(** The others act between two critical sections of the caller. *)
Lemma between_spec w a : rep (kern w) a → thread self a →
  ∃ w' a', between env w = Ret () w' ∧ rep (kern w') a' ∧ thread self a' ∧ E (objs w) (objs w') ∧
    tasks_kept a a' ∧ acts (between env) (objs w) (objs w').
Proof using Type*.
  intros Hr Ht. destruct (env_between w a Hr Ht) as (w' & a' & E' & Hr' & Ht' & HE' & Hk').
  exists w', a'. split_and!; [done..|]. split; [done|by exists w, w'].
Qed.

(** The way to sleep of most routines: the object is tested, the caller blocks. *)
Lemma between_block_spec reason object timeout w a : rep (kern w) a → thread self a →
  ∃ w1 r w' a', between env w = Ret () w1 ∧
    scheduler_block_task (away env) reason object timeout w1 = Ret r w' ∧
    rep (kern w') a' ∧ thread self a' ∧ E (objs w) (objs w') ∧ tasks_kept a a' ∧
    waits_out (objs w) (objs w').
Proof using Type*.
  intros Hr Ht. pose proof (env_order (Environment := HE)) as HO.
  destruct (between_spec w a Hr Ht) as (w1 & a1 & E1 & Hr1 & Ht1 & HE1 & Hk1 & Ha1).
  destruct (block_task_spec reason object timeout w1 a1 Hr1 Ht1) as (r & w2 & a2 & E2 & Hr2 & Ht2 & HE2 & Hk2 & Hs2).
  exists w1, r, w2, a2. split_and!; [done..|by etrans|by etrans|]. exists (objs w1). split; [by apply rtc_once|done].
Qed.

(** The waits come to an end: each time the caller gets the processor back, what
    it waits for is there ([good]), or one of a bounded number of wake-ups in
    vain is used up ([rank]). *)
Definition fruitful (good : gmap Z O → Prop) (rank : gmap Z O → nat) o0 : Prop := ∀ o o', E o0 o →
  (acts (between env) o o' → (rank o' ≤ rank o)%nat) ∧
  (resumes o o' → (rank o' ≤ rank o)%nat ∧ (good o' ∨ (rank o' < rank o)%nat)).

Lemma fruitful_waits good rank o0 o o' : fruitful good rank o0 → E o0 o → waits_out o o' →
  (rank o' ≤ rank o)%nat ∧ (good o' ∨ (rank o' < rank o)%nat).
Proof using Type*.
  intros Hf H0 (o1 & Hrtc & Htc). pose proof (env_order (Environment := HE)) as HO.
  revert H0. induction Hrtc as [o|o o2 o1 Ha _ IH]; intros H0.
  - revert H0. induction Htc as [o o' Hs|o o1 o' Hs _ IH]; intros H0; [by apply (Hf o o')|].
    destruct (proj2 (Hf o o1 H0) Hs) as [Hle _]. destruct Hs as [HE1 _].
    destruct IH as [IH1 IH2]; [by etrans|]. split; [lia|]. destruct IH2; [by left|right; lia].
  - pose proof (proj1 (Hf o o2 H0) Ha) as Hle. destruct Ha as [HE1 _].
    destruct IH as [IH1 IH2]; [done|by etrans|]. split; [lia|]. destruct IH2; [by left|right; lia].
Qed.

(** The retry loop of the blocking calls: each round either leaves with a
    result for which [Q] holds, or finds that only the environment acted.  When
    the waits come to an end and a round that finds what it waits for leaves,
    the loop returns. *)
Lemma retry_spec {R} (body : () → M (world K O) (() + R)) (G : gmap Z O → Prop) (Q : R → gmap Z O → Prop) fuel w a :
  (∀ w1 a1, rep (kern w1) a1 → thread self a1 → E (objs w) (objs w1) → tasks_kept a a1 →
    ∃ x w' a', body () w1 = Ret x w' ∧ rep (kern w') a' ∧ thread self a' ∧
      match x with
      | inl _ => E (objs w1) (objs w') ∧ tasks_kept a1 a' ∧ waits_out (objs w1) (objs w') ∧ ¬ G (objs w1)
      | inr r => Q r (objs w')
      end) →
  rep (kern w) a → thread self a →
  safe (loop fuel body ()) (λ r w', (∃ a', rep (kern w') a' ∧ thread self a') ∧ Q r (objs w')) w ∧
  ∀ rank, fruitful G rank (objs w) → (rank (objs w) + 1 < fuel)%nat → ∃ r w', loop fuel body () w = Ret r w'.
Proof using Type*.
  intros Hb Hr Ht. pose proof (env_order (Environment := HE)) as HO. split.
  { apply (safe_loop (λ _ w1, (∃ a1, rep (kern w1) a1 ∧ thread self a1 ∧ tasks_kept a a1) ∧
    E (objs w) (objs w1))); [|split; [by exists a|done]].
  intros [] w1 [(a1 & Hr1 & Ht1 & Hk1) HE1].
  destruct (Hb w1 a1 Hr1 Ht1 HE1 Hk1) as (x & w' & a' & Eb & Hr' & Ht' & HQ).
  unfold safe. rewrite Eb. destruct x as [[]|r]; [|by split; eauto].
  destruct HQ as (? & ? & _). split; [exists a'; split_and!; [done..|]|]; by etrans. }
  intros rank Hf Hfuel.
  assert (∀ n w1 a1, rep (kern w1) a1 → thread self a1 → E (objs w) (objs w1) → tasks_kept a a1 →
    G (objs w1) ∨ (rank (objs w1) < n)%nat → ∀ m, (n < m)%nat → ∃ r w', loop m body () w1 = Ret r w') as Hn.
  { induction n as [|n IH]; intros w1 a1 Hr1 Ht1 HE1 Hk1 Hg [|m] Hm; try lia;
      destruct (Hb w1 a1 Hr1 Ht1 HE1 Hk1) as (x & w' & a' & Eb & Hr' & Ht' & HQ);
      (destruct x as [[]|r]; [|exists r, w'; by apply loop_done]); destruct HQ as (HE' & Hk' & Hs & Hng);
      (destruct Hg as [|Hg]; [done|]); [lia|]. rewrite (loop_next _ _ _ _ _ _ Eb).
    destruct (fruitful_waits _ _ _ _ _ Hf HE1 Hs) as [Hle Hor].
    apply (IH w' a'); [done|done|by etrans|by etrans| |lia]. destruct Hor; [by left|right; lia]. }
  apply (Hn (Datatypes.S (rank (objs w))) w a); try done; [right|]; lia.
Qed.

(** Masking and unmasking interrupts around a look at the objects. *)
Lemma unmask_mask a : irq_mask a = 0 → set_mask (Z.land (irq_mask a) 1) (mask a) = a.
Proof. unfold irq_mask. destruct a as [????????? [m b i c]]. simpl. by intros ->. Qed.
End blocking.

(** Waking a waiter leaves the running task running. *)
Lemma thread_unblock_one self reason object result a : thread self a →
  thread self (eff_unblock_one reason object result a) ∧
  tasks_kept a (eff_unblock_one reason object result a).
Proof.
  intros Hth. pose proof Hth as [Hwf Hc Hm Hu (t & Ht & Hr)].
  destruct (unblock_one_eff reason object result a Hwf) as [_ Hwf'].
  unfold eff_unblock_one in *. destruct (best_waiter_spec a reason object Hwf) as [[E _]|(Hin & Hn & _)].
  - rewrite E, Z.eqb_refl. split; [done|]. by intros x.
  - rewrite (proj2 (Z.eqb_neq _ _) Hn) in *. set (b := best_waiter a reason object) in *.
    assert (b ≠ self) as Hb.
    { intros ->. apply (wf_blocked _ _ Hwf) in Hin as (_ & u & Hu' & Hs). simplify_eq.
      by rewrite Hs in Hr. }
    split.
    + split; try done; try (unfold eff_unblock, pend_if; by destruct (higher _ _)).
      exists t. split; [|done]. unfold eff_unblock, pend_if.
      destruct (higher _ _); simpl; by rewrite lookup_alter_ne.
    + intros x Hx. unfold eff_unblock, pend_if.
      destruct (higher _ _); simpl; by apply lookup_alter_is_Some.
Qed.
