(* ===== verification/Trace.v ===== *)
(** * Interleavings

    Traces of a labelled step relation, invariants along them, and what a
    blocking call contributes to the trace of all the calls of all the tasks:
    its rounds in vain contribute nothing, its last round one step. *)
From S2P Require Import Prelude Config Task Critical Bitmap TcbList Scheduler SchedSpec.
From S2P Require Import SchedInv SchedEffect SchedIface Sync.

Section traces.
Context {L S : Type} (step : L → S → S → Prop).

(** [trace ls s s']: the steps labelled [ls], in this order, lead from [s] to
    [s']. *)
Inductive trace : list L → S → S → Prop :=
| trace_nil s : trace [] s s
| trace_snoc ls l s s1 s' : trace ls s s1 → step l s1 s' → trace (ls ++ [l]) s s'.

Lemma trace_one l s s' : step l s s' → trace [l] s s'.
Proof. intros H. by apply (trace_snoc [] l s s s' (trace_nil s)). Qed.

Lemma trace_app ls1 ls2 s s1 s' : trace ls1 s s1 → trace ls2 s1 s' → trace (ls1 ++ ls2) s s'.
Proof.
  intros H1 H2. revert s H1. induction H2 as [s1|ls l s1 s2 s' H2 IH Hl]; intros s H1.
  - by rewrite app_nil_r.
  - rewrite app_assoc. eapply trace_snoc; [by apply IH|done].
Qed.

Lemma trace_snoc_inv ls l s s' : trace (ls ++ [l]) s s' → ∃ s1, trace ls s s1 ∧ step l s1 s'.
Proof.
  intros Ht. remember (ls ++ [l]) as ls' eqn:E. destruct Ht as [s|ls1 l1 s s1 s' Ht Hl].
  - by destruct ls.
  - apply app_inj_tail in E as [-> ->]. by exists s1.
Qed.

Lemma trace_one_inv l s s' : trace [l] s s' → step l s s'.
Proof.
  intros (s1 & Ht & Hl)%(trace_snoc_inv []). remember [] as ls eqn:E. destruct Ht as [|ls]; [done|].
  by destruct ls.
Qed.

Lemma trace_app_inv ls1 ls2 s s' : trace (ls1 ++ ls2) s s' → ∃ s1, trace ls1 s s1 ∧ trace ls2 s1 s'.
Proof.
  revert s'. induction ls2 as [|l ls2 IH] using rev_ind; intros s' Ht.
  - rewrite app_nil_r in Ht. exists s'. split; [done|apply trace_nil].
  - rewrite app_assoc in Ht. apply trace_snoc_inv in Ht as (s1 & (s2 & ? & ?)%IH & Hl).
    exists s2. split; [done|by eapply trace_snoc].
Qed.

(** Rule induction: [I ls s] says what the history [ls] and the state [s] have
    to do with each other; a step may count on a property [P] of histories that
    shorter ones inherit. *)
Lemma trace_invariant (P : list L → Prop) (I : list L → S → Prop) s0 :
  (∀ ls l, P (ls ++ [l]) → P ls) → I [] s0 →
  (∀ ls l s s', P (ls ++ [l]) → I ls s → step l s s' → I (ls ++ [l]) s') →
  ∀ ls s, trace ls s0 s → P ls → I ls s.
Proof.
  intros HP H0 Hstep ls s Ht. remember s0 as s1 eqn:E. revert E.
  induction Ht as [s|ls l s s1 s' Ht IH Hl]; intros -> HPl; [done|].
  eapply Hstep; [done| |exact Hl]. apply IH; [done..|]. by eapply HP.
Qed.

(** The states the steps that satisfy [P] lead to. *)
Definition reaches (P : L → Prop) (s s' : S) : Prop := ∃ ls, trace ls s s' ∧ Forall P ls.

#[export] Instance reaches_preorder P : PreOrder (reaches P).
Proof.
  split; [intros s; by exists []; split; [apply trace_nil|]|].
  intros s1 s2 s3 (l1 & H1 & F1) (l2 & H2 & F2). exists (l1 ++ l2). split; [by eapply trace_app|].
  by apply Forall_app.
Qed.
End traces.

(** ** The last round of a blocking call *)

Section last_round.
Context {K O : Type} `{SchedulerSpec K}.
Context (self : ptr) (E : gmap Z O → gmap Z O → Prop) (env : others (world K O)).
Context `{HE : !Environment self E env}.
Implicit Types (w : world K O) (a : asched).

(** A round that goes on only lets the others act. *)
Definition patient {R} (body : () → M (world K O) (() + R)) w0 a0 : Prop :=
  ∀ w a, rep (kern w) a → thread self a → E (objs w0) (objs w) → tasks_kept a0 a →
  ∃ x w' a', body () w = Ret x w' ∧ rep (kern w') a' ∧ thread self a' ∧
    (x = inl () → E (objs w) (objs w') ∧ tasks_kept a a').

(** The loop of a blocking call ends with a round that leaves it, begun by the
    caller in a state the others have led to. *)
Lemma loop_last {R} (body : () → M (world K O) (() + R)) fuel w a : patient body w a →
  rep (kern w) a → thread self a →
  safe (loop fuel body ()) (λ r w', ∃ w1 a1, rep (kern w1) a1 ∧ thread self a1 ∧
    E (objs w) (objs w1) ∧ tasks_kept a a1 ∧ body () w1 = Ret (inr r) w') w.
Proof using Type*.
  intros Hb Hr Ht. pose proof (env_order (Environment := HE)) as HO.
  apply (safe_loop (λ _ w1, ∃ a1, rep (kern w1) a1 ∧ thread self a1 ∧ tasks_kept a a1 ∧ E (objs w) (objs w1)));
    [|by exists a].
  intros [] w1 (a1 & Hr1 & Ht1 & Hk1 & HE1). destruct (Hb w1 a1 Hr1 Ht1 HE1 Hk1) as (x & w' & a' & Eb & Hr' & Ht' & Hx).
  unfold safe. rewrite Eb. destruct x as [[]|r]; [|by exists w1, a1].
  destruct (Hx eq_refl) as [HE' Hk']. exists a'. split_and!; [done|done|by etrans|by etrans].
Qed.
End last_round.

(** Two facts about one run. *)
Lemma safe_and {S A} (m : M S A) P Q s : safe m P s → safe m Q s → safe m (λ x s', P x s' ∧ Q x s') s.
Proof. unfold safe. by destruct (m s). Qed.

(** None of the steps is one of those looked for. *)
Lemma filter_none {A} (P : A → Prop) `{!∀ x, Decision (P x)} ls : Forall (λ x, ¬ P x) ls → filter P ls = [].
Proof. induction 1 as [|x ls Hx _ IH]; [done|]. by rewrite filter_cons_False. Qed.
