(* ===== verification/Checker.v ===== *)
(** * Checking concrete states

    The state relation [abstracts] and the invariant [wf] quantify over
    addresses and indices; on a concrete state they follow from conditions that
    evaluate.  The example states of the development are checked this way. *)
From S2P Require Import Prelude Config Task Critical Bitmap TcbList Scheduler SchedSpec.
From S2P Require Import SchedRefine SchedInv SchedEffect.

#[export] Instance dseg_dec h p l n : Decision (dseg h p l n).
Proof.
  revert p. induction l as [|x l IH]; intros p; simpl; [apply _|].
  assert (Decision (dseg h x l n)) by apply IH. apply _.
Defined.

#[export] Instance task_ok_dec t : Decision (task_ok t).
Proof. unfold task_ok. apply _. Defined.

#[export] Instance null_or_task_dec p a : Decision (null_or_task p a).
Proof. unfold null_or_task. apply _. Defined.

#[export] Instance cpu_wf_dec c : Decision (cpu_wf c).
Proof. unfold cpu_wf. apply _. Defined.

(** ** The queues *)

Definition linked_check (h : tcb_store) (lls : list (list ptr)) : Prop :=
  h !! NULL = None ∧ Forall (λ l, dll h l) lls ∧ NoDup (concat lls) ∧
  map_Forall (λ x t, listed x lls ∨ next t = NULL ∧ prev t = NULL) h.

#[export] Instance linked_check_dec h lls : Decision (linked_check h lls).
Proof. unfold linked_check, dll. apply _. Defined.

Lemma concat_nodup_disj (lls : list (list ptr)) : NoDup (concat lls) →
  (∀ i l, lls !! i = Some l → NoDup l) ∧
  (∀ i j l m x, lls !! i = Some l → lls !! j = Some m → x ∈ l → x ∈ m → i = j).
Proof.
  induction lls as [|l0 lls IH]; simpl; [by split|].
  intros (Hl & Hd & [IH1 IH2]%IH)%NoDup_app.
  assert (∀ j m x, lls !! j = Some m → x ∈ l0 → x ∉ m) as Hd'.
  { intros j m x Hm Hx Hxm. apply (Hd x Hx). apply list_elem_of_In, in_concat.
    exists m. split; apply list_elem_of_In; [by eapply list_elem_of_lookup_2|done]. }
  split.
  - intros [|i] l; simpl; [by intros [= <-]|eauto].
  - intros [|i] [|j] l m x; simpl; [done| | |].
    + intros [= <-] Hm Hx Hxm. by destruct (Hd' _ _ _ Hm Hx).
    + intros Hm [= <-] Hxm Hx. by destruct (Hd' _ _ _ Hm Hx).
    + intros. f_equal. by eapply IH2.
Qed.

Lemma linked_checked h lls : linked_check h lls → linked h lls.
Proof.
  intros (Hn & Hd & (Hnd & Hdj)%concat_nodup_disj & Hf). split; [done| |done|done|].
  - intros i l Hi. by eapply Forall_lookup_1.
  - intros x n p (t & Ht & <- & <-)%links_is_Some Hx. by destruct (Hf x t Ht).
Qed.

(** ** The state relation *)

Definition abstracts_check (s : sched) (a : asched) : Prop :=
  linked_check (tcbs s) (a_queues a) ∧
  a_tasks a = unlink <$> tcbs s ∧
  length (a_ready a) = Z.to_nat CONFIG_MAX_PRIORITY ∧
  ready_list (g_sched s) = hd NULL <$> a_ready a ∧
  g_blocked_head s = hd NULL (a_blocked a) ∧
  0 ≤ priority_bitmap (g_sched s) < 2 ^ 32 ∧
  Forall (λ i : nat, Z.testbit (priority_bitmap (g_sched s)) (Z.of_nat i) =
    nonempty (default [] (a_ready a !! i))) (seq 0 32) ∧
  (g_tick_count s = a_tick a ∧ current_task s = a_current_task a ∧ next_task s = a_next_task a ∧
   current (g_sched s) = a_selected a ∧ lock_count (g_sched s) = a_lock a ∧
   reschedule_pending (g_sched s) = a_resched a ∧ cpu s = a_cpu a).

#[export] Instance cpu_eq_dec : EqDecision cpu_t.
Proof. solve_decision. Defined.
#[export] Instance abstracts_check_dec s a : Decision (abstracts_check s a).
Proof. unfold abstracts_check. apply _. Defined.

Lemma abstracts_checked s a : abstracts_check s a → abstracts s a.
Proof.
  intros (Hl & Ht & Hlen & Hh & Hb & Hr & Hbm & ? & ? & ? & ? & ? & ? & ?).
  split; try done; [by apply linked_checked|].
  intros i l Hi. rewrite Forall_forall in Hbm. rewrite Hbm; [by rewrite Hi|].
  apply elem_of_seq. apply lookup_lt_Some in Hi. rewrite Hlen in Hi.
  change (Z.to_nat CONFIG_MAX_PRIORITY) with 32%nat in Hi. lia.
Qed.

(** ** The invariant *)

Definition wf_check (a : asched) : Prop :=
  length (a_ready a) = Z.to_nat CONFIG_MAX_PRIORITY ∧
  a_tasks a !! NULL = None ∧
  Forall (λ i : nat, NoDup (default [] (a_ready a !! i)) ∧
    Forall (λ x, match a_tasks a !! x with
      | Some t => runnable (state t) = true ∧ priority t = Z.of_nat i | None => False end)
      (default [] (a_ready a !! i))) (seq 0 32) ∧
  NoDup (a_blocked a) ∧
  Forall (λ x, match a_tasks a !! x with
      | Some t => state t = TASK_STATE_BLOCKED | None => False end) (a_blocked a) ∧
  map_Forall (λ x t, task_ok t ∧
    (runnable (state t) = false ∨ x ∈ default [] (a_ready a !! Z.to_nat (priority t))) ∧
    (state t ≠ TASK_STATE_BLOCKED ∨ x ∈ a_blocked a)) (a_tasks a) ∧
  (null_or_task (a_current_task a) a ∧ null_or_task (a_next_task a) a ∧
   0 ≤ a_tick a < 2 ^ 32 ∧ 0 ≤ a_lock a < 2 ^ 32 ∧ cpu_wf (a_cpu a)).

#[export] Instance wf_check_dec a : Decision (wf_check a).
Proof. unfold wf_check. repeat apply and_dec; try apply _.
  - apply Forall_dec. intros i. apply and_dec; [apply _|]. apply Forall_dec. intros x.
    destruct (a_tasks a !! x); apply _.
  - apply Forall_dec. intros x. destruct (a_tasks a !! x); apply _.
Defined.

Lemma wf_checked a : wf_check a → wf a.
Proof.
  intros (Hlen & Hn & Hrd & Hnd & Hbl & Ht & ? & ? & ? & ? & ?).
  rewrite Forall_forall in Hrd. rewrite Forall_forall in Hbl.
  assert (∀ i l, a_ready a !! i = Some l → NoDup l ∧ Forall (λ x, match a_tasks a !! x with
      | Some t => runnable (state t) = true ∧ priority t = Z.of_nat i | None => False end) l) as Hr.
  { intros i l Hi. specialize (Hrd i). rewrite Hi in Hrd. apply Hrd, elem_of_seq.
    apply lookup_lt_Some in Hi. rewrite Hlen in Hi.
    change (Z.to_nat CONFIG_MAX_PRIORITY) with 32%nat in Hi. lia. }
  split; try done.
  - intros i l x Hi. destruct (Hr _ _ Hi) as [_ Hf]. rewrite Forall_forall in Hf. split.
    + intros Hx. split; [done|]. specialize (Hf x Hx). destruct (a_tasks a !! x); [eauto|done].
    + intros (_ & t & Hx & Hru & Hp). destruct (Ht x t Hx) as (_ & [?|Hin] & _); [congruence|].
      by rewrite Hp, Nat2Z.id, Hi in Hin.
  - intros x. split.
    + intros Hx. split; [done|]. specialize (Hbl x Hx). destruct (a_tasks a !! x); [eauto|done].
    + intros (_ & t & Hx & Hs). by destruct (Ht x t Hx) as (_ & _ & [?|?]).
  - intros i l Hi. by destruct (Hr _ _ Hi).
  - intros x t Hx. by destruct (Ht x t Hx).
Qed.

(** The specification state a concrete scheduler state stands for, given its
    ready and blocked lists. *)
Definition abstraction (ready : list (list ptr)) (blocked : list ptr) (s : sched) : asched :=
  mkASched (unlink <$> tcbs s) ready blocked (g_tick_count s) (current_task s) (next_task s)
    (current (g_sched s)) (lock_count (g_sched s)) (reschedule_pending (g_sched s)) (cpu s).
