(* ===== verification/Example.v ===== *)
(** * An example system

    Three tasks brought up by the scheduler's own routines: [IDLE] at the
    lowest priority, [LOW] and [HIGH].  The theorems of the other files are
    instantiated on its states. *)
From S2P Require Import Prelude Config Task Critical Bitmap TcbList Scheduler SchedSpec.
From S2P Require Import SchedRefine SchedInv SchedEffect SchedIface Sync Checker.

Definition IDLE : ptr := 0x300.
Definition LOW : ptr := 0x100.
Definition HIGH : ptr := 0x200.
Definition OBJ : ptr := 0x900.

Definition example_tcb (prio : Z) : task_tcb :=
  mkTcb 0 NULL NULL 1 [] 0x8001 0 prio prio TASK_STATE_SUSPENDED 0 0 0x2000 256 0 CONFIG_TIME_SLICE 0
    BLOCK_NONE NULL 0 0 0 0 0 0 0.

Definition example_raw : sched :=
  mkSched (mkScheduler 0 [] NULL 0 false) 0 NULL NULL NULL
    (<[IDLE := example_tcb 31]> (<[LOW := example_tcb 3]> (<[HIGH := example_tcb 1]> ∅))) cpu_reset.

(** The state a routine ends in. *)
Definition final {S A} (m : M S A) (s : S) : S :=
  match m s with Ret _ s' => s' | Spin s' => s' | _ => s end.

(** All three tasks ready, [HIGH] running. *)
Definition example_boot : sched :=
  final (scheduler_init ;; scheduler_add_task IDLE ;; scheduler_add_task LOW ;;
         scheduler_add_task HIGH ;; scheduler_start) example_raw.

(** A context switch: PendSV is served, the selected task becomes current. *)
Definition example_switch : M sched () :=
  n ← scheduler_select_next_task;
  modify (λ s, s <| current_task := n |> <| cpu := cpu s <| icsr := 0 |> |>).

(** [HIGH] waits for [OBJ] for up to 5 ticks, [LOW] runs. *)
Definition example_blocked (reason : block_reason_t) : sched :=
  final (block_task_enter reason OBJ 5 ;; example_switch) example_boot.

(** [ready_lists i l] is a table of ready lists with [l] at the levels given. *)
Definition ready_lists (ls : list (nat * list ptr)) : list (list ptr) :=
  foldr (λ '(i, l) t, <[i := l]> t) (replicate 32 []) ls.

Definition example_boot_abs : asched :=
  abstraction (ready_lists [(1%nat, [HIGH]); (3%nat, [LOW]); (31%nat, [IDLE])]) [] example_boot.
Definition example_blocked_abs (reason : block_reason_t) : asched :=
  abstraction (ready_lists [(3%nat, [LOW]); (31%nat, [IDLE])]) [HIGH] (example_blocked reason).

Lemma example_boot_rep : abstracts example_boot example_boot_abs.
Proof. apply abstracts_checked, (bool_decide_unpack _). vm_compute. exact I. Qed.
Lemma example_boot_wf : wf example_boot_abs.
Proof. apply wf_checked, (bool_decide_unpack _). vm_compute. exact I. Qed.
Lemma example_blocked_rep reason :
  abstracts (example_blocked reason) (example_blocked_abs reason).
Proof.
  apply abstracts_checked, (bool_decide_unpack _). destruct reason; vm_compute; exact I.
Qed.
Lemma example_blocked_wf reason : wf (example_blocked_abs reason).
Proof. apply wf_checked, (bool_decide_unpack _). destruct reason; vm_compute; exact I. Qed.

(** ** An environment

    While the caller is away the other side wakes it with [result], applies
    [f] to the objects, and the switch back is served.  Nothing happens while
    the caller runs. *)

Definition serve_switch (s : sched) : sched := s <| cpu := cpu s <| icsr := 0 |> |>.

Definition example_away {O} (self : ptr) (result : Z) (f : gmap Z O → gmap Z O)
    : M (world sched O) () :=
  zoom (scheduler_unblock_task self result) ;;
  modify (λ w, mkWorld (serve_switch (kern w)) (f (objs w))).
Definition example_env {O} (self : ptr) (result : Z) (f : gmap Z O → gmap Z O)
    : others (world sched O) := mkOthers (mret ()) (example_away self result f).

Definition repeated {O} (f : gmap Z O → gmap Z O) (o o' : gmap Z O) : Prop :=
  ∃ n, o' = Nat.iter n f o.

Lemma repeated_preorder {O} (f : gmap Z O → gmap Z O) : PreOrder (repeated f).
Proof.
  split; [by exists 0%nat|]. intros o1 o2 o3 [n ->] [m ->]. exists (m + n)%nat.
  by rewrite Nat.iter_add.
Qed.

Lemma serve_switch_abstracts s a : abstracts s a →
  abstracts (serve_switch s) (a <| a_cpu := a_cpu a <| icsr := 0 |> |>).
Proof. intros HR. pose proof (abs_cpu _ _ HR) as Ec. same_abs HR. by rewrite Ec. Qed.

Lemma wf_serve_switch a : wf a → wf (a <| a_cpu := a_cpu a <| icsr := 0 |> |>).
Proof.
  intros Hwf. apply wf_cpu; [done|]. destruct (wf_cpu_ok _ _ Hwf) as (?&?&?&_). done.
Qed.

#[export] Instance example_environment {O} self result (f : gmap Z O → gmap Z O) :
  Environment self (repeated f) (example_env self result f).
Proof.
  split; [apply repeated_preorder|intros w a Hr Ht; exists w, a; split_and!; [done..|by exists 0%nat|by intros x]|].
  intros w a Hr [Hwf Hc Hm Hu (t & Ht & Hst)].
  assert (self ≠ NULL → is_Some (a_tasks a !! self)) as Hs by eauto.
  pose proof (unblock_task_eff self result a Hwf Hs) as Eu.
  destruct (refines_apply _ _ _ _ _ _ _ (refines_unblock_task self result) Hr Eu)
    as (k & Ek & Hk). set (a1 := if bool_decide _ then _ else a) in *.
  assert (wf a1 ∧ a_current_task a1 = self ∧ ipsr (a_cpu a1) = 0 ∧ irq_mask a1 = 0 ∧
    (∃ t, a_tasks a1 !! self = Some t ∧ runnable (state t) = true) ∧ tasks_kept a a1)
    as (?&?&?&?&?&?).
  { unfold a1. case_bool_decide as Hin.
    - split_and!; [by apply wf_eff_unblock|unfold eff_unblock, pend_if; by destruct (higher _ _)..| |].
      + exists (woken result t). split; [|done].
        unfold eff_unblock, pend_if. by destruct (higher _ _); simpl; rewrite lookup_alter_eq, Ht.
      + intros y Hy. unfold eff_unblock, pend_if.
        by destruct (higher _ _); simpl; apply lookup_alter_is_Some.
    - split_and!; [done..| |done]. exists t. split; [done|]. destruct Hst as [|Hst]; [done|].
      destruct Hin. apply (wf_blocked _ _ Hwf). eauto. }
  do 2 eexists. split_and!.
  - unfold example_env, example_away. simpl. erewrite bind_ret; [done|]. unfold zoom. simpl. by rewrite Ek.
  - by apply serve_switch_abstracts.
  - split; [by apply wf_serve_switch|done..].
  - by exists 1%nat.
  - done.
Qed.

Lemma example_thread_high : thread HIGH example_boot_abs.
Proof.
  split; [apply example_boot_wf|vm_compute; reflexivity..|].
  eexists. split; vm_compute; reflexivity.
Qed.

Lemma example_thread_low reason : thread LOW (example_blocked_abs reason).
Proof.
  split; [apply example_blocked_wf|by destruct reason; vm_compute..|].
  destruct reason; eexists; split; vm_compute; reflexivity.
Qed.

Lemma repeated_alter_is_Some {O} (f : O → O) p o o' :
  repeated (alter f p) o o' → is_Some (o !! p) → is_Some (o' !! p).
Proof.
  intros [n ->]. induction n as [|n IH]; simpl; [done|]. intros. by apply lookup_alter_is_Some, IH.
Qed.

Lemma repeated_alter_lookup {O} (f : O → O) p o o' x :
  repeated (alter f p) o o' → o !! p = Some x → ∃ n, o' !! p = Some (Nat.iter n f x).
Proof.
  intros [n ->] Hx. exists n. induction n as [|n IH]; simpl; [done|]. by rewrite lookup_alter_eq, IH.
Qed.

Lemma example_away_objs {O} self result (f : gmap Z O → gmap Z O) v v' :
  example_away self result f v = Ret () v' → objs v' = f (objs v).
Proof.
  unfold example_away, zoom, modify, mbind, M_bind. simpl.
  destruct (scheduler_unblock_task self result (kern v)); by intros [= <-].
Qed.

(** Every wake-up in the example finds what it waits for, if one step of the
    others is enough to provide it. *)
Lemma example_fruitful {O} self result (f : O → O) p x (good : gmap Z O → Prop) o :
  o !! p = Some x → (∀ n o', o' !! p = Some (Nat.iter (Datatypes.S n) f x) → good o') →
  fruitful (repeated (alter f p)) (example_env self result (alter f p)) good (λ _, 0%nat) o.
Proof.
  intros Hx Hg o1 o2 H0. split; [done|]. intros (_ & v & v' & Hv & <- & <-). split; [done|]. left.
  apply example_away_objs in Hv. destruct (repeated_alter_lookup _ _ _ _ _ H0 Hx) as [n Hn]. apply (Hg n).
  by rewrite Hv, lookup_alter_eq, Hn.
Qed.
