(* ===== verification/Semaphore.v ===== *)
(** * Counting semaphores

    [kernel/sync/semaphore.c].  A waiter is a task on the scheduler's blocked
    list with reason [BLOCK_SEMAPHORE]; the wait-list fields are unused. *)
From S2P Require Import Prelude Config Task Critical Bitmap TcbList Scheduler SchedSpec.
From S2P Require Import SchedRefine SchedInv SchedEffect SchedIface Sync Checker Example.

Record semaphore_t : Set := mkSemaphore {
  count : Z;
  max_count : Z;
  wait_list_head : ptr;
  wait_list_tail : ptr;
}.

Definition eta_semaphore (s : semaphore_t) : semaphore_t :=
  mkSemaphore (count s) (max_count s) (wait_list_head s) (wait_list_tail s).
#[export] Instance set_count : Setter count := ltac:(derive_setter eta_semaphore count).

(** ** Operations *)

Section operations.
Context {K : Type} `{!SchedulerOps K}.
Notation W := (world K semaphore_t).
Context (env : others W).

Definition sem_init (sem : ptr) (initial max_cnt : Z) : M W Z :=
  if (sem =? NULL) || (initial <? 0) || ((0 <? max_cnt) && (max_cnt <? initial))
  then mret KERNEL_ERR_PARAM else
  obj_store sem (mkSemaphore initial max_cnt NULL NULL) ;;
  mret KERNEL_OK.

(** The end of a round that found no token: give up or sleep.  Interrupts are
    enabled again. *)
Definition sem_take_wait (sem : ptr) (timeout : Z) : M W (() + Z) :=
  if timeout =? TIMEOUT_NONE then mret (inr KERNEL_ERR_TIMEOUT) else
  isr ← zoom op_is_isr;
  if isr : bool then mret (inr KERNEL_ERR_ISR) else
  between env ;;
  res ← scheduler_block_task (away env) BLOCK_SEMAPHORE sem timeout;
  mret (if res =? KERNEL_OK then inl () else inr res).

(** One round of the loop of [sem_take]. *)
Definition sem_take_round (sem : ptr) (timeout : Z) (_ : ()) : M W (() + Z) :=
  irq_state ← zoom op_enter;
  s ← obj_deref sem;
  if 0 <? count s then
    obj_upd sem (λ s, s <| count := count s - 1 |>) ;;
    zoom (op_exit irq_state) ;;
    mret (inr KERNEL_OK)
  else
  zoom (op_exit irq_state) ;;
  sem_take_wait sem timeout.

Definition sem_take (fuel : nat) (sem : ptr) (timeout : Z) : M W Z :=
  if sem =? NULL then mret KERNEL_ERR_PARAM else
  loop fuel (sem_take_round sem timeout) ().

(** [sem->count++] on an [int32_t]: undefined at [INT32_MAX]. *)
Definition sem_increment (sem : ptr) : M W () :=
  s ← obj_deref sem;
  if count s =? INT32_MAX then fault else
  obj_upd sem (λ s, s <| count := count s + 1 |>).

Definition sem_give (sem : ptr) : M W Z :=
  if sem =? NULL then mret KERNEL_ERR_PARAM else
  irq_state ← zoom op_enter;
  woken ← zoom (op_unblock_one BLOCK_SEMAPHORE sem KERNEL_OK);
  if negb woken then
    s ← obj_deref sem;
    if (0 <? max_count s) && (max_count s <=? count s) then
      zoom (op_exit irq_state) ;;
      mret KERNEL_ERR_OVERFLOW
    else
      sem_increment sem ;;
      zoom (op_exit irq_state) ;;
      mret KERNEL_OK
  else
    zoom (op_exit irq_state) ;;
    mret KERNEL_OK.

(** [sem->count++] with interrupts enabled: a read, then a write. *)
Definition sem_increment_unmasked (sem : ptr) : M W () :=
  s ← obj_deref sem;
  if count s =? INT32_MAX then fault else
  between env ;;
  obj_upd sem (set_field count (count s + 1)).

(** There is no critical section here: a more urgent handler may run between
    the wake-up, the test, the read and the write. *)
Definition sem_give_isr (sem : ptr) : M W Z :=
  if sem =? NULL then mret KERNEL_ERR_PARAM else
  woken ← zoom (op_unblock_one BLOCK_SEMAPHORE sem KERNEL_OK);
  if negb woken then
    between env ;;
    s ← obj_deref sem;
    if (0 <? max_count s) && (max_count s <=? count s) then
      mret KERNEL_ERR_OVERFLOW
    else
      between env ;;
      sem_increment_unmasked sem ;;
      mret KERNEL_OK
  else mret KERNEL_OK.

Definition sem_get_count (sem : ptr) : M W Z :=
  if sem =? NULL then mret 0 else
  s ← obj_deref sem; mret (count s).

Definition sem_reset (sem : ptr) (new_count : Z) : M W Z :=
  if (sem =? NULL) || (new_count <? 0) then mret KERNEL_ERR_PARAM else
  s ← obj_deref sem;
  if (0 <? max_count s) && (max_count s <? new_count) then mret KERNEL_ERR_PARAM else
  obj_upd sem (set_field count new_count) ;;
  between env ;;
  zoom (op_unblock_all BLOCK_SEMAPHORE sem KERNEL_ERR_STATE) ;;
  mret KERNEL_OK.

Definition sem_init_binary (sem : ptr) (initial : Z) : M W Z :=
  sem_init sem (if negb (initial =? 0) then 1 else 0) 1.

(** The initialisers of static semaphores. *)
Definition SEMAPHORE_STATIC_DEFINE (initial max : Z) : semaphore_t := mkSemaphore initial max NULL NULL.
Definition SEMAPHORE_BINARY_DEFINE (initial : Z) : semaphore_t :=
  SEMAPHORE_STATIC_DEFINE (if negb (initial =? 0) then 1 else 0) 1.

(** A static semaphore is as [sem_init] would leave it; a binary one needs no
    check, whatever its initial value. *)
Lemma sem_init_static sem initial max w : sem ≠ NULL → 0 ≤ initial → (0 < max → initial ≤ max) →
  sem_init sem initial max w = (obj_store sem (SEMAPHORE_STATIC_DEFINE initial max) ;; mret KERNEL_OK) w.
Proof using Type.
  intros Hs Hi Hm. unfold sem_init. rewrite (proj2 (Z.eqb_neq _ _) Hs), (proj2 (Z.ltb_ge _ _) Hi).
  destruct (Z.ltb_spec 0 max); simpl; [|done]. by rewrite (proj2 (Z.ltb_ge _ _)) by auto.
Qed.

Lemma sem_init_binary_static sem initial w : sem ≠ NULL →
  sem_init_binary sem initial w = (obj_store sem (SEMAPHORE_BINARY_DEFINE initial) ;; mret KERNEL_OK) w.
Proof using Type. intros Hs. apply sem_init_static; [done|by destruct (initial =? 0)..]. Qed.
End operations.

(** ** Correctness *)

(** The values a semaphore can have. *)
Definition sem_ok (s : semaphore_t) : Prop :=
  0 ≤ count s ≤ INT32_MAX ∧ (0 < max_count s → count s ≤ max_count s).

Section correctness.
Context {K : Type} `{SchedulerSpec K}.
Notation W := (world K semaphore_t).
Implicit Types (w : W) (o : gmap Z semaphore_t) (a : asched).

(** What [sem_give] does to the store when nobody waits. *)
Definition given (s : semaphore_t) : Z * semaphore_t :=
  if (0 <? max_count s) && (max_count s <=? count s) then (KERNEL_ERR_OVERFLOW, s)
  else (KERNEL_OK, s <| count := count s + 1 |>).

Definition eff_give (sem : ptr) (s : semaphore_t) (a : asched) (o : gmap Z semaphore_t)
    : Z * asched * gmap Z semaphore_t :=
  if best_waiter a BLOCK_SEMAPHORE sem =? NULL
  then (fst (given s), a, <[sem := snd (given s)]> o)
  else (KERNEL_OK, eff_unblock_one BLOCK_SEMAPHORE sem KERNEL_OK a, o).

Lemma eff_give_wf sem s a o r a' o' : wf a → eff_give sem s a o = (r, a', o') → wf a'.
Proof.
  intros Hwf. unfold eff_give. destruct (_ =? _); intros [= <- <- <-]; [done|].
  by apply unblock_one_eff.
Qed.

Lemma sem_increment_runs sem s a o : o !! sem = Some s → sem_ok s →
  (0 < max_count s → count s < max_count s) → max_count s ≤ INT32_MAX → count s < INT32_MAX →
  runs (K := K) (sem_increment sem) a o () a (<[sem := s <| count := count s + 1 |>]> o).
Proof.
  intros Hs Hok Hm Hmax Hlt. unfold sem_increment. runs_step.
  rewrite (proj2 (Z.eqb_neq (count s) INT32_MAX)) by lia. by apply (runs_upd sem (λ s, s <| count := count s + 1 |>)).
Qed.

(** Whoever waits is woken and the count stays; otherwise the count is
    incremented, or an overflow reported. *)
Lemma sem_give_runs sem s a o : wf a → sem ≠ NULL → o !! sem = Some s → sem_ok s →
  max_count s ≤ INT32_MAX → (max_count s ≤ 0 → count s < INT32_MAX) →
  let '(r, a', o') := eff_give sem s a o in runs (K := K) (sem_give sem) a o r a' o'.
Proof.
  intros Hwf Hn Hs Hok Hmax Hov. destruct (eff_give sem s a o) as [[r a'] o'] eqn:Eg.
  pose proof (eff_give_wf _ _ _ _ _ _ _ Hwf Eg) as Hwf'. unfold eff_give in Eg.
  unfold sem_give. rewrite (proj2 (Z.eqb_neq sem NULL)) by done. runs_step.
  eapply runs_bind; [by apply runs_unblock_one|].
  unfold eff_unblock_one in *. destruct (Z.eqb_spec (best_waiter a BLOCK_SEMAPHORE sem) NULL); cbn [negb].
  - injection Eg as <- <- <-. runs_step. unfold given.
    destruct ((0 <? max_count s) && (max_count s <=? count s)) eqn:E; simpl.
    + rewrite insert_id by done.
      eapply runs_bind; [apply runs_exit; [apply (wf_cpu_ok _ _ Hwf)|done]|]. apply runs_ret.
    + apply andb_false_iff in E. rewrite Z.ltb_ge, Z.leb_gt in E.
      destruct Hok as [Hc Hcm].
      eapply runs_bind; [apply (sem_increment_runs sem s); try done; lia|].
      eapply runs_bind; [apply runs_exit; [apply (wf_cpu_ok _ _ Hwf)|done]|]. apply runs_ret.
  - injection Eg as <- <- <-.
    eapply runs_bind; [apply runs_exit; [apply (wf_cpu_ok _ _ Hwf')|]|apply runs_ret].
    symmetry. apply eff_unblock_primask.
Qed.

(** More urgent handlers may run in the middle of a routine, but leave the
    semaphore alone. *)
Definition undisturbed (env : others W) (sem : ptr) : Prop := ∀ w a, rep (kern w) a → wf a →
  ∃ w1 a1, between env w = Ret () w1 ∧ rep (kern w1) a1 ∧ wf a1 ∧ objs w1 !! sem = objs w !! sem.

Lemma quiet_undisturbed env sem : between env = mret () → undisturbed env sem.
Proof using Type. intros Henv w a Hr Hwf. exists w, a. by rewrite Henv. Qed.

Lemma obj_deref_ret (sem : ptr) s w : objs w !! sem = Some s → obj_deref sem w = Ret s w.
Proof using Type. intros Hs. unfold obj_deref. by rewrite Hs. Qed.

Lemma obj_upd_at (sem : ptr) f s w : objs w !! sem = Some s →
  ∃ w', obj_upd sem f w = Ret () w' ∧ kern w' = kern w ∧ objs w' = <[sem := f s]> (objs w).
Proof using Type.
  intros Hs. eexists. unfold obj_upd. rewrite Hs. split_and!; [done..|]. simpl. apply map_eq. intros q.
  destruct (decide (sem = q)) as [<-|]; [by rewrite lookup_alter_eq, Hs, lookup_insert_eq|].
  by rewrite lookup_alter_ne, lookup_insert_ne.
Qed.

(** A give from a handler whom nobody disturbs does the same. *)
Lemma sem_give_isr_at env sem s w a : undisturbed env sem → rep (kern w) a → wf a → sem ≠ NULL →
  objs w !! sem = Some s → sem_ok s → max_count s ≤ INT32_MAX → (max_count s ≤ 0 → count s < INT32_MAX) →
  ∃ r w' a', sem_give_isr env sem w = Ret r w' ∧ rep (kern w') a' ∧ wf a' ∧
    if best_waiter a BLOCK_SEMAPHORE sem =? NULL
    then r = fst (given s) ∧ objs w' !! sem = Some (snd (given s))
    else r = KERNEL_OK ∧ a' = eff_unblock_one BLOCK_SEMAPHORE sem KERNEL_OK a ∧ objs w' = objs w.
Proof.
  intros Henv Hr Hwf Hn Hs [Hc Hcm] Hmax Hov. unfold sem_give_isr. rewrite (proj2 (Z.eqb_neq sem NULL)) by done.
  destruct (runs_kern (O := semaphore_t) _ _ _ _ _ (spec_unblock_one a BLOCK_SEMAPHORE sem KERNEL_OK Hwf) w Hr eq_refl)
    as (w1 & E1 & Hr1 & Ho1). run E1.
  pose proof (proj2 (unblock_one_eff BLOCK_SEMAPHORE sem KERNEL_OK a Hwf)) as Hwf1.
  destruct (best_waiter a BLOCK_SEMAPHORE sem =? NULL) eqn:Eb; cbn [negb].
  2: { by exists KERNEL_OK, w1, (eff_unblock_one BLOCK_SEMAPHORE sem KERNEL_OK a). }
  destruct (Henv w1 _ Hr1 Hwf1) as (w2 & a2 & E2 & Hr2 & Hwf2 & Hs2). run E2. rewrite Ho1 in Hs2.
  assert (objs w2 !! sem = Some s) as Hs2' by (by rewrite Hs2). run (obj_deref_ret sem s w2 Hs2'). unfold given.
  destruct ((0 <? max_count s) && (max_count s <=? count s)) eqn:Ef.
  { by exists KERNEL_ERR_OVERFLOW, w2, a2. }
  apply andb_false_iff in Ef. rewrite Z.ltb_ge, Z.leb_gt in Ef.
  destruct (Henv w2 _ Hr2 Hwf2) as (w3 & a3 & E3 & Hr3 & Hwf3 & Hs3). run E3.
  assert (objs w3 !! sem = Some s) as Hs3' by (by rewrite Hs3).
  unfold sem_increment_unmasked. rewrite bind_assoc. run (obj_deref_ret sem s w3 Hs3').
  rewrite (proj2 (Z.eqb_neq (count s) INT32_MAX)) by lia. rewrite bind_assoc.
  destruct (Henv w3 _ Hr3 Hwf3) as (w4 & a4 & E4 & Hr4 & Hwf4 & Hs4). run E4. rewrite Hs3' in Hs4.
  destruct (obj_upd_at sem (set_field count (count s + 1)) s w4 Hs4) as (w5 & E5 & Hk5 & Ho5). run E5.
  exists KERNEL_OK, w5, a4. split_and!; [done|by rewrite Hk5|done|done|]. by rewrite Ho5, lookup_insert_eq.
Qed.

Lemma sem_give_isr_runs env sem s a o : between env = mret () → wf a → sem ≠ NULL → o !! sem = Some s → sem_ok s →
  max_count s ≤ INT32_MAX → (max_count s ≤ 0 → count s < INT32_MAX) →
  let '(r, a', o') := eff_give sem s a o in runs (K := K) (sem_give_isr env sem) a o r a' o'.
Proof.
  intros Henv Hwf Hn Hs Hok Hmax Hov. destruct (eff_give sem s a o) as [[r a'] o'] eqn:Eg. unfold eff_give in Eg.
  unfold sem_give_isr, sem_increment_unmasked. rewrite (proj2 (Z.eqb_neq sem NULL)), Henv by done.
  eapply runs_bind; [by apply runs_kern, spec_unblock_one|].
  unfold eff_unblock_one in *. destruct (Z.eqb_spec (best_waiter a BLOCK_SEMAPHORE sem) NULL); cbn [negb].
  - injection Eg as <- <- <-. eapply runs_bind; [apply runs_ret|]. runs_step. unfold given.
    destruct ((0 <? max_count s) && (max_count s <=? count s)) eqn:E; simpl.
    + rewrite insert_id by done. apply runs_ret.
    + apply andb_false_iff in E. rewrite Z.ltb_ge, Z.leb_gt in E. destruct Hok as [Hc Hcm].
      eapply runs_bind; [apply runs_ret|]. eapply runs_bind; [|apply runs_ret]. runs_step.
      rewrite (proj2 (Z.eqb_neq (count s) INT32_MAX)) by lia. eapply runs_bind; [apply runs_ret|].
      by apply (runs_upd sem (set_field count (count s + 1))).
  - injection Eg as <- <- <-. apply runs_ret.
Qed.

(** A round that finds a token takes it; one that does not has changed nothing
    when it gives up or goes to sleep, and does not succeed. *)
Lemma take_token env sem timeout w a s : rep (kern w) a → wf a → objs w !! sem = Some s → 0 < count s →
  ∃ w', sem_take_round env sem timeout () w = Ret (inr KERNEL_OK) w' ∧ rep (kern w') a ∧
    objs w' = <[sem := s <| count := count s - 1 |>]> (objs w).
Proof.
  intros Hr Hwf Hs Hc. pose proof (wf_cpu_ok _ _ Hwf) as Hcpu.
  assert (runs (K := K) (sem_take_round env sem timeout ()) a (objs w) (inr KERNEL_OK) a
    (<[sem := s <| count := count s - 1 |>]> (objs w))) as Hrun; [|exact (Hrun w Hr eq_refl)].
  unfold sem_take_round. runs_step. runs_step. rewrite (proj2 (Z.ltb_lt _ _)) by done.
  eapply runs_bind; [by apply (runs_upd sem (λ s, s <| count := count s - 1 |>))|].
  eapply runs_bind; [by apply runs_exit|]. apply runs_ret.
Qed.

Lemma take_no_token env sem timeout w a s : rep (kern w) a → wf a → objs w !! sem = Some s → ¬ 0 < count s →
  ∃ w', sem_take_round env sem timeout () w = sem_take_wait env sem timeout w' ∧ rep (kern w') a ∧
    objs w' = objs w.
Proof.
  intros Hr Hwf Hs Hc. unfold sem_take_round.
  destruct (runs_kern (O := semaphore_t) _ _ (objs w) _ _ (spec_enter a) w Hr eq_refl)
    as (w1 & E1 & Hr1 & Ho1). run E1.
  destruct (runs_deref (K := K) sem s (mask a) (objs w) Hs w1 Hr1 Ho1) as (w2 & E2 & Hr2 & Ho2).
  run E2. rewrite (proj2 (Z.ltb_ge _ _)) by lia.
  destruct (runs_exit (O := semaphore_t) a _ _ (wf_cpu_ok _ _ Hwf) eq_refl w2 Hr2 Ho2) as (w3 & E3 & Hr3 & Ho3).
  run E3. by exists w3.
Qed.

Lemma sem_take_wait_not_ok env sem timeout w w' : sem_take_wait env sem timeout w ≠ Ret (inr KERNEL_OK) w'.
Proof using Type.
  unfold sem_take_wait. destruct (timeout =? TIMEOUT_NONE); [done|].
  intros (isr & w1 & _ & E)%bind_ret_inv. destruct isr; [done|].
  apply bind_ret_inv in E as ([] & w2 & _ & E). apply bind_ret_inv in E as (r & w3 & _ & E).
  destruct (Z.eqb_spec r KERNEL_OK); by injection E.
Qed.
End correctness.

Section taking.
Context {K : Type} `{SchedulerSpec K}.
Notation W := (world K semaphore_t).
Context (self : ptr) (E : gmap Z semaphore_t → gmap Z semaphore_t → Prop) (env : others W).
Context `{HE : !Environment self E env}.
Implicit Types (w : W) (o : gmap Z semaphore_t) (a : asched).

(** A token was taken: some state the environment led to had a positive count,
    and the caller decremented it. *)
Definition taken (sem : ptr) o o' : Prop := ∃ o1 s, E o o1 ∧ o1 !! sem = Some s ∧ 0 < count s ∧
  o' = <[sem := s <| count := count s - 1 |>]> o1.

(** One round takes a token, reports an error, or retries after a wake-up. *)
Lemma sem_take_round_spec sem timeout w a s : rep (kern w) a → thread self a →
  objs w !! sem = Some s →
  ∃ x w' a', sem_take_round env sem timeout () w = Ret x w' ∧ rep (kern w') a' ∧
    thread self a' ∧
    match x with
    | inl _ => timeout ≠ TIMEOUT_NONE ∧ count s ≤ 0 ∧ E (objs w) (objs w') ∧ tasks_kept a a' ∧
        waits_out E env (objs w) (objs w')
    | inr r =>
        if 0 <? count s then r = KERNEL_OK ∧ a' = a ∧
          objs w' = <[sem := s <| count := count s - 1 |>]> (objs w)
        else r ≠ KERNEL_OK ∧ E (objs w) (objs w') ∧
          (timeout = TIMEOUT_NONE → r = KERNEL_ERR_TIMEOUT ∧ a' = a ∧ objs w' = objs w)
    end.
Proof using Type*.
  intros Hr Ht Hs. pose proof (env_order (Environment := HE)) as HO.
  destruct (Z.ltb_spec 0 (count s)) as [Hc|Hc].
  - destruct (take_token env sem timeout w a s Hr (thread_wf _ _ Ht) Hs Hc) as (w' & E' & Hr' & Ho').
    exists (inr KERNEL_OK), w', a. done.
  - destruct (take_no_token env sem timeout w a s Hr (thread_wf _ _ Ht) Hs ltac:(lia)) as (w3 & -> & Hr3 & Ho3).
    unfold sem_take_wait. destruct (Z.eqb_spec timeout TIMEOUT_NONE) as [->|Hto].
    + exists (inr KERNEL_ERR_TIMEOUT), w3, a. split_and!; try done. by rewrite Ho3.
    + destruct (runs_kern (O := semaphore_t) _ _ _ _ _ (spec_is_isr a) w3 Hr3 Ho3)
        as (w4 & E4 & Hr4 & Ho4). run E4.
      rewrite (thread_not_isr self a Ht).
      destruct (between_block_spec self E env BLOCK_SEMAPHORE sem timeout w4 a Hr4 Ht)
        as (wb & r & w5 & a5 & Eb & E5 & Hr5 & Ht5 & HE5 & Hk5 & Hs5). run Eb. run E5. rewrite Ho4 in HE5, Hs5.
      destruct (Z.eqb_spec r KERNEL_OK).
      * exists (inl ()), w5, a5. done.
      * exists (inr r), w5, a5. done.
Qed.

(** There is a token. *)
Definition token (sem : ptr) o : Prop := ∃ s, o !! sem = Some s ∧ 0 < count s.

(** Linearisability of [sem_take]. *)
Lemma sem_take_linearizable fuel sem timeout w a : sem ≠ NULL → rep (kern w) a → thread self a →
  (∀ o', E (objs w) o' → is_Some (o' !! sem)) →
  safe (sem_take env fuel sem timeout) (λ r w', (∃ a', rep (kern w') a' ∧ thread self a') ∧
    (r = KERNEL_OK ∧ taken sem (objs w) (objs w') ∨ r ≠ KERNEL_OK ∧ E (objs w) (objs w'))) w ∧
  ∀ rank, fruitful E env (token sem) rank (objs w) → (rank (objs w) + 1 < fuel)%nat →
    ∃ r w', sem_take env fuel sem timeout w = Ret r w'.
Proof using Type*.
  intros Hn Hr Ht Hsem. pose proof (env_order (Environment := HE)) as HO.
  unfold sem_take. rewrite (proj2 (Z.eqb_neq sem NULL)) by done.
  apply (retry_spec self E env _ (token sem) (λ r o', r = KERNEL_OK ∧ taken sem (objs w) o' ∨
    r ≠ KERNEL_OK ∧ E (objs w) o') fuel w a); [|done..].
  intros w1 a1 Hr1 Ht1 HE1 _. destruct (Hsem _ HE1) as [s Hs].
  destruct (sem_take_round_spec sem timeout w1 a1 s Hr1 Ht1 Hs) as (x & w' & a' & Ex & Hr' & Ht' & HQ).
  exists x, w', a'. split_and!; [done..|]. destruct x as [[]|r].
  { destruct HQ as (_ & Hc & HE' & Hk & Hrs). split_and!; [done..|]. intros (s' & Hs' & ?). simplify_eq. lia. }
  destruct (Z.ltb_spec 0 (count s)).
  - left. destruct HQ as (-> & _ & Ho). split; [done|]. exists (objs w1), s. done.
  - right. destruct HQ as (? & ? & _). split; [done|]. by etrans.
Qed.
End taking.

(** ** Properties *)

Section properties.
Context {K : Type} `{SchedulerSpec K}.
Notation W := (world K semaphore_t).
Implicit Types (w : W) (o : gmap Z semaphore_t) (a : asched).

(** [sem_give] hands the semaphore over: if a task waits for it, the most
    urgent waiter is made ready and the count stays; if nobody waits the count
    grows by one, except at [max_count], where the call reports
    [KERNEL_ERR_OVERFLOW] and changes nothing.  The scheduler stays consistent,
    the interrupt mask is restored and the semaphore stays within its bounds. *)
Theorem sem_give_spec sem s w a : rep (kern w) a → wf a → sem ≠ NULL →
  objs w !! sem = Some s → sem_ok s → max_count s ≤ INT32_MAX →
  (max_count s ≤ 0 → count s < INT32_MAX) →
  ∃ r w' a' s', sem_give sem w = Ret r w' ∧ rep (kern w') a' ∧ wf a' ∧
    irq_mask a' = irq_mask a ∧ objs w' = <[sem := s']> (objs w) ∧ sem_ok s' ∧
    if decide (best_waiter a BLOCK_SEMAPHORE sem = NULL) then
      a' = a ∧ (if (0 <? max_count s) && (max_count s <=? count s)
                then r = KERNEL_ERR_OVERFLOW ∧ s' = s
                else r = KERNEL_OK ∧ s' = s <| count := count s + 1 |>)
    else r = KERNEL_OK ∧ s' = s ∧
      a' = eff_unblock_one BLOCK_SEMAPHORE sem KERNEL_OK a.
Proof.
  intros Hr Hwf Hn Hs Hok Hmax Hov.
  pose proof (sem_give_runs sem s a (objs w) Hwf Hn Hs Hok Hmax Hov) as Hrun.
  destruct (eff_give sem s a (objs w)) as [[r a'] o'] eqn:Eg.
  destruct (Hrun w Hr eq_refl) as (w' & E & Hr' & <-).
  pose proof (eff_give_wf _ _ _ _ _ _ _ Hwf Eg) as Hwf'.
  exists r, w', a'. unfold eff_give in Eg. case_decide as Hb.
  - rewrite (proj2 (Z.eqb_eq _ _) Hb) in Eg. injection Eg as <- <- <-.
    exists (given s).2. split_and!; try done; unfold given;
      destruct ((0 <? max_count s) && (max_count s <=? count s)) eqn:Ec; try done.
    apply andb_false_iff in Ec. rewrite Z.ltb_ge, Z.leb_gt in Ec. destruct Hok.
    split; simpl; lia.
  - rewrite (proj2 (Z.eqb_neq _ _) Hb) in Eg. injection Eg as <- <- Ho. rewrite <- Ho.
    exists s. split_and!; try done; [apply eff_unblock_one_irq|by rewrite insert_id].
Qed.

(** C18: [sem_take] is linearisable: whatever the environment does while the
    caller sleeps or is interrupted, a call that returns [KERNEL_OK] has decremented the count
    exactly once, at a moment when it was positive, and a call that returns an
    error has not touched the semaphore.  The call returns if the caller is
    woken in vain, without a token to take, only a bounded number of times. *)
Theorem sem_take_takes_once self E env `{!Environment self E env} fuel sem timeout w a :
  sem ≠ NULL → rep (kern w) a → thread self a → (∀ o', E (objs w) o' → is_Some (o' !! sem)) →
  safe (sem_take env fuel sem timeout) (λ r w', (∃ a', rep (kern w') a' ∧ thread self a') ∧
    (r = KERNEL_OK ∧ taken E sem (objs w) (objs w') ∨ r ≠ KERNEL_OK ∧ E (objs w) (objs w'))) w ∧
  ∀ rank, fruitful E env (token sem) rank (objs w) → (rank (objs w) + 1 < fuel)%nat →
    ∃ r w', sem_take env fuel sem timeout w = Ret r w'.
Proof. intros. by apply (sem_take_linearizable self E env fuel sem timeout w a). Qed.

(** Without waiting ([TIMEOUT_NONE]) [sem_take] returns after one round: it
    takes a token if there is one and otherwise reports [KERNEL_ERR_TIMEOUT],
    leaving scheduler and semaphore as they were. *)
Theorem sem_take_poll self E env `{!Environment self E env} fuel sem w a s :
  sem ≠ NULL → (0 < fuel)%nat → rep (kern w) a → thread self a → objs w !! sem = Some s →
  ∃ w', rep (kern w') a ∧
    if 0 <? count s
    then sem_take env fuel sem TIMEOUT_NONE w = Ret KERNEL_OK w' ∧
         objs w' = <[sem := s <| count := count s - 1 |>]> (objs w)
    else sem_take env fuel sem TIMEOUT_NONE w = Ret KERNEL_ERR_TIMEOUT w' ∧ objs w' = objs w.
Proof.
  intros Hn Hf Hr Ht Hs. destruct fuel as [|fuel]; [lia|].
  destruct (sem_take_round_spec self E env sem TIMEOUT_NONE w a s Hr Ht Hs)
    as (x & w' & a' & Ex & Hr' & _ & HQ).
  unfold sem_take. rewrite (proj2 (Z.eqb_neq sem NULL)) by done.
  destruct x as [[]|r]; [by destruct HQ as (? & _)|].
  exists w'. rewrite (loop_done _ _ _ _ _ _ Ex).
  destruct (0 <? count s); [by destruct HQ as (-> & -> & ->)|].
  by destruct HQ as (_ & _ & (-> & -> & ->)).
Qed.

(** A wake-up by [sem_give] carries no token: the count a waiter finds when
    it runs again is the one it went to sleep on.  With the count at 0 the
    woken [sem_take] cannot succeed in its next round, and without a further
    [sem_give] it goes back to sleep: the signal is lost. *)
Theorem sem_give_wakeup_lost self E env `{!Environment self E env} sem s w a timeout :
  rep (kern w) a → wf a → sem ≠ NULL → objs w !! sem = Some s → sem_ok s → count s = 0 →
  max_count s ≤ INT32_MAX → best_waiter a BLOCK_SEMAPHORE sem ≠ NULL →
  ∃ w', sem_give sem w = Ret KERNEL_OK w' ∧ objs w' !! sem = Some s ∧
    ∀ w1 a1 x w2, rep (kern w1) a1 → thread self a1 → objs w1 = objs w' →
      sem_take_round env sem timeout () w1 = Ret x w2 → x ≠ inr KERNEL_OK.
Proof.
  intros Hr Hwf Hn Hs Hok Hc Hmax Hb.
  pose proof (sem_give_runs sem s a (objs w) Hwf Hn Hs Hok Hmax) as Hrun.
  unfold eff_give in Hrun. rewrite (proj2 (Z.eqb_neq _ _) Hb) in Hrun.
  destruct Hrun with w as (w' & Ew & _ & Ho); [rewrite Hc; intros; reflexivity|done|done|].
  exists w'. rewrite Ho. split_and!; [done..|].
  intros w1 a1 x w2 Hr1 Ht1 Ho1 Ex. rewrite <- Ho1 in Hs.
  destruct (sem_take_round_spec self E env sem timeout w1 a1 s Hr1 Ht1 Hs)
    as (x' & w2' & a' & Ex' & _ & _ & HQ).
  rewrite Ex in Ex'. injection Ex' as <- _. destruct x as [[]|r]; [done|].
  rewrite Hc in HQ. destruct HQ as (? & _). congruence.
Qed.
End properties.

(** ** The theorems on the example system *)

Notation sem_world := (world sched semaphore_t).

(** [HIGH] waits for the semaphore at [OBJ], [LOW] runs. *)
Definition sem_example (n : Z) : sem_world :=
  mkWorld (example_blocked BLOCK_SEMAPHORE) {[OBJ := mkSemaphore n 3 NULL NULL]}.
(** [HIGH] runs. *)
Definition sem_example_boot (n : Z) : sem_world :=
  mkWorld example_boot {[OBJ := mkSemaphore n 3 NULL NULL]}.

(** Somebody gives a token while the caller sleeps. *)
Definition sem_env : others sem_world :=
  example_env HIGH KERNEL_OK (alter (λ s, s <| count := count s + 1 |>) OBJ).

Lemma example_sem_ok : sem_ok (mkSemaphore 0 3 NULL NULL).
Proof. split; vm_compute; [split|]; intros; congruence. Qed.

Lemma sem_give_spec_witness :
  ∃ r w' a' s', sem_give OBJ (sem_example 0) = Ret r w' ∧ rep (kern w') a' ∧ wf a' ∧
    irq_mask a' = irq_mask (example_blocked_abs BLOCK_SEMAPHORE) ∧
    objs w' = <[OBJ := s']> (objs (sem_example 0)) ∧ sem_ok s' ∧
    if decide (best_waiter (example_blocked_abs BLOCK_SEMAPHORE) BLOCK_SEMAPHORE OBJ = NULL) then
      a' = example_blocked_abs BLOCK_SEMAPHORE ∧
      (if (0 <? 3) && (3 <=? 0) then r = KERNEL_ERR_OVERFLOW ∧ s' = mkSemaphore 0 3 NULL NULL
       else r = KERNEL_OK ∧ s' = mkSemaphore 1 3 NULL NULL)
    else r = KERNEL_OK ∧ s' = mkSemaphore 0 3 NULL NULL ∧
      a' = eff_unblock_one BLOCK_SEMAPHORE OBJ KERNEL_OK (example_blocked_abs BLOCK_SEMAPHORE).
Proof.
  apply (sem_give_spec OBJ (mkSemaphore 0 3 NULL NULL) (sem_example 0)
    (example_blocked_abs BLOCK_SEMAPHORE)).
  - apply example_blocked_rep.
  - apply example_blocked_wf.
  - done.
  - reflexivity.
  - apply example_sem_ok.
  - by vm_compute.
  - intros _. by vm_compute.
Defined.

Lemma counts_up n : 0 < count (Nat.iter n (λ s, s <| count := count s + 1 |>) (mkSemaphore 0 3 NULL NULL)) + 1.
Proof. induction n as [|n IH]; simpl in *; lia. Qed.

Lemma sem_take_takes_once_witness :
  safe (sem_take sem_env 5 OBJ 10) (λ r w',
    (∃ a', rep (kern w') a' ∧ thread HIGH a') ∧
    (r = KERNEL_OK ∧ taken (repeated (alter (λ s, s <| count := count s + 1 |>) OBJ)) OBJ
        (objs (sem_example_boot 0)) (objs w') ∨
     r ≠ KERNEL_OK ∧ repeated (alter (λ s, s <| count := count s + 1 |>) OBJ)
        (objs (sem_example_boot 0)) (objs w'))) (sem_example_boot 0) ∧
  ∃ r w', sem_take sem_env 5 OBJ 10 (sem_example_boot 0) = Ret r w'.
Proof.
  destruct (sem_take_takes_once HIGH (repeated (alter (λ s, s <| count := count s + 1 |>) OBJ))
    sem_env 5 OBJ 10 (sem_example_boot 0) example_boot_abs) as [Hs Hr].
  - done.
  - apply example_boot_rep.
  - apply example_thread_high.
  - intros o' Ho. eapply repeated_alter_is_Some; [exact Ho|]. by eexists.
  - split; [exact Hs|]. apply (Hr (λ _, 0%nat)); [|simpl; lia].
    apply (example_fruitful HIGH KERNEL_OK _ _ (mkSemaphore 0 3 NULL NULL)); [done|].
    intros n o' Ho'. eexists. split; [exact Ho'|]. simpl. apply counts_up.
Defined.

Lemma sem_take_poll_witness :
  ∃ w', rep (kern w') example_boot_abs ∧
    if 0 <? 2
    then sem_take sem_env 1 OBJ TIMEOUT_NONE (sem_example_boot 2) = Ret KERNEL_OK w' ∧
         objs w' = <[OBJ := mkSemaphore 1 3 NULL NULL]> (objs (sem_example_boot 2))
    else sem_take sem_env 1 OBJ TIMEOUT_NONE (sem_example_boot 2) = Ret KERNEL_ERR_TIMEOUT w' ∧
         objs w' = objs (sem_example_boot 2).
Proof.
  apply (sem_take_poll HIGH (repeated (alter (λ s, s <| count := count s + 1 |>) OBJ)) sem_env 1 OBJ
    (sem_example_boot 2) example_boot_abs (mkSemaphore 2 3 NULL NULL)).
  - done.
  - lia.
  - apply example_boot_rep.
  - apply example_thread_high.
  - reflexivity.
Defined.

Lemma sem_give_wakeup_lost_witness :
  ∃ w', sem_give OBJ (sem_example 0) = Ret KERNEL_OK w' ∧
    objs w' !! OBJ = Some (mkSemaphore 0 3 NULL NULL) ∧
    ∀ w1 a1 x w2, rep (kern w1) a1 → thread HIGH a1 → objs w1 = objs w' →
      sem_take_round sem_env OBJ 10 () w1 = Ret x w2 → x ≠ inr KERNEL_OK.
Proof.
  apply (sem_give_wakeup_lost HIGH (repeated (alter (λ s, s <| count := count s + 1 |>) OBJ)) sem_env OBJ
    (mkSemaphore 0 3 NULL NULL) (sem_example 0) (example_blocked_abs BLOCK_SEMAPHORE) 10).
  - apply example_blocked_rep.
  - apply example_blocked_wf.
  - done.
  - reflexivity.
  - apply example_sem_ok.
  - reflexivity.
  - by vm_compute.
  - vm_compute. discriminate.
Defined.

(** Nobody interrupts. *)
Definition quiet : others sem_world := mkOthers (mret ()) (mret ()).

(** [sem_take] looks at the count in one critical section and goes to sleep in
    another.  A token that an interrupt gives in between finds nobody waiting
    and is counted, and the caller goes to sleep beside it, here for ever. *)
Example sem_take_sleeps_beside_token :
  let env := mkOthers (sem_give_isr quiet OBJ ;; mret ()) spin in
  match sem_take env 1 OBJ TIMEOUT_FOREVER (sem_example_boot 0) with
  | Spin w => count <$> objs w !! OBJ = Some 1 ∧
      state <$> tcbs (kern w) !! HIGH = Some TASK_STATE_BLOCKED ∧
      block_timeout <$> tcbs (kern w) !! HIGH = Some TIMEOUT_FOREVER
  | _ => False
  end.
Proof. vm_compute. intuition reflexivity. Qed.

(** [sem_give_isr] is not atomic.  A more urgent handler that gives at each of
    the three points where it may interrupt: four gives, all reported as
    successful, and three tokens. *)
Example sem_give_isr_loses_token :
  let env := mkOthers (sem_give_isr quiet OBJ ;; mret ()) (mret ()) in
  let w := mkWorld example_boot {[OBJ := mkSemaphore 0 0 NULL NULL]} in
  match sem_give_isr env OBJ w with
  | Ret r w' => r = KERNEL_OK ∧ count <$> objs w' !! OBJ = Some 3
  | _ => False
  end.
Proof. vm_compute. by split. Qed.

(** A handler that takes a token from a full semaphore and gives one
    otherwise makes the count exceed its maximum. *)
Definition take_or_give : M sem_world () :=
  s ← obj_deref OBJ;
  if count s =? max_count s then sem_take quiet 1 OBJ TIMEOUT_NONE ;; mret () else sem_give_isr quiet OBJ ;; mret ().
Example sem_give_isr_exceeds_maximum :
  match sem_give_isr (mkOthers take_or_give (mret ())) OBJ (sem_example_boot 3) with
  | Ret r w' => r = KERNEL_OK ∧ (λ s, (count s, max_count s)) <$> objs w' !! OBJ = Some (4, 3)
  | _ => False
  end.
Proof. vm_compute. by split. Qed.
