(* ===== verification/Mutex.v ===== *)
(** * Mutexes with priority inheritance

    [kernel/sync/mutex.c].  The wait-list fields and [owner_base_priority] are
    written but never read; waiters are on the scheduler's blocked list with
    reason [BLOCK_MUTEX]. *)
From S2P Require Import Prelude Config Task Critical Bitmap TcbList Scheduler SchedSpec.
From S2P Require Import SchedRefine SchedInv SchedEffect SchedIface Sync Checker Example.

Record mutex_t : Set := mkMutex {
  locked : Z;
  owner : ptr;
  owner_base_priority : Z;
  recursive_count : Z;
  mtx_flags : Z;
  wait_list_head : ptr;
  wait_list_tail : ptr;
}.

Definition eta_mutex (m : mutex_t) : mutex_t :=
  mkMutex (locked m) (owner m) (owner_base_priority m) (recursive_count m) (mtx_flags m)
    (wait_list_head m) (wait_list_tail m).
#[export] Instance set_locked : Setter locked := ltac:(derive_setter eta_mutex locked).
#[export] Instance set_owner : Setter owner := ltac:(derive_setter eta_mutex owner).
#[export] Instance set_owner_base_priority : Setter owner_base_priority := ltac:(derive_setter eta_mutex owner_base_priority).
#[export] Instance set_recursive_count : Setter recursive_count := ltac:(derive_setter eta_mutex recursive_count).

Definition MUTEX_FLAG_RECURSIVE : Z := Z.shiftl 1 0.

(** ** Operations *)

Section operations.
Context {K : Type} `{!SchedulerOps K}.
Notation W := (world K mutex_t).
Context (env : others W).

Definition mutex_init (mtx : ptr) (flags : Z) : M W Z :=
  if mtx =? NULL then mret KERNEL_ERR_PARAM else
  obj_store mtx (mkMutex 0 NULL 0 0 flags NULL NULL) ;;
  mret KERNEL_OK.

Definition mutex_trylock (mtx : ptr) : M W Z :=
  if mtx =? NULL then mret KERNEL_ERR_PARAM else
  isr ← zoom op_is_isr;
  if isr : bool then mret KERNEL_ERR_ISR else
  self ← zoom op_current;
  if self =? NULL then mret KERNEL_ERR_STATE else
  irq_state ← zoom op_enter;
  m ← obj_deref mtx;
  if locked m =? 0 then
    prio ← zoom (op_priority self);
    obj_upd mtx (λ m, m <| locked := 1 |> <| owner := self |>
      <| owner_base_priority := prio |> <| recursive_count := 1 |>) ;;
    zoom (op_exit irq_state) ;;
    mret KERNEL_OK
  else if (owner m =? self) && negb (Z.land (mtx_flags m) MUTEX_FLAG_RECURSIVE =? 0) then
    when (recursive_count m <? 0xFF)
      (obj_upd mtx (λ m, m <| recursive_count := u8 (recursive_count m + 1) |>)) ;;
    zoom (op_exit irq_state) ;;
    mret KERNEL_OK
  else
    zoom (op_exit irq_state) ;;
    mret KERNEL_ERR_TIMEOUT.

(** [#if CONFIG_PRIORITY_INHERITANCE] in [mutex_lock]: lend the caller's
    priority to the owner.  Interrupts are enabled, and between the comparison
    and the critical sections of [scheduler_set_priority] the mutex may change
    hands.  [owner] is not [volatile]: this is the code when the compiler reads
    it once, as it may; [mutex_inherit_rereading] is the other case. *)
Definition mutex_inherit (mtx self : ptr) : M W () :=
  m ← obj_deref mtx;
  if owner m =? NULL then mret () else
  owner_prio ← zoom (op_priority (owner m));
  self_prio ← zoom (op_priority self);
  when (self_prio <? owner_prio) (between env ;; zoom (op_set_priority (owner m) self_prio)).

(** The same lines when the compiler reads [mtx->owner] each time it is named. *)
Definition mutex_inherit_rereading (mtx self : ptr) : M W () :=
  m ← obj_deref mtx;
  if owner m =? NULL then mret () else
  between env ;;
  m ← obj_deref mtx;
  owner_prio ← zoom (op_priority (owner m));
  self_prio ← zoom (op_priority self);
  when (self_prio <? owner_prio)
    (between env ;; m ← obj_deref mtx; zoom (op_set_priority (owner m) self_prio)).

(** One round of the loop of [mutex_lock]; interrupts are enabled after
    [mutex_trylock] and again before [scheduler_block_task]. *)
Definition mutex_lock_round (mtx self : ptr) (timeout : Z) (_ : ()) : M W (() + Z) :=
  res ← mutex_trylock mtx;
  if res =? KERNEL_OK then mret (inr KERNEL_OK) else
  if timeout =? TIMEOUT_NONE then mret (inr KERNEL_ERR_TIMEOUT) else
  between env ;;
  when CONFIG_PRIORITY_INHERITANCE (mutex_inherit mtx self) ;;
  between env ;;
  res ← scheduler_block_task (away env) BLOCK_MUTEX mtx timeout;
  mret (if res =? KERNEL_OK then inl () else inr res).

Definition mutex_lock (fuel : nat) (mtx : ptr) (timeout : Z) : M W Z :=
  if mtx =? NULL then mret KERNEL_ERR_PARAM else
  isr ← zoom op_is_isr;
  if isr : bool then mret KERNEL_ERR_ISR else
  self ← zoom op_current;
  if self =? NULL then mret KERNEL_ERR_STATE else
  loop fuel (mutex_lock_round mtx self timeout) ().

Definition mutex_unlock (mtx : ptr) : M W Z :=
  if mtx =? NULL then mret KERNEL_ERR_PARAM else
  isr ← zoom op_is_isr;
  if isr : bool then mret KERNEL_ERR_ISR else
  self ← zoom op_current;
  if self =? NULL then mret KERNEL_ERR_STATE else
  m ← obj_deref mtx;
  if negb (owner m =? self) then mret KERNEL_ERR_STATE else
  irq_state ← zoom op_enter;
  m ← obj_deref mtx;
  if 1 <? recursive_count m then
    obj_upd mtx (λ m, m <| recursive_count := recursive_count m - 1 |>) ;;
    zoom (op_exit irq_state) ;;
    mret KERNEL_OK
  else
  prio ← zoom (op_priority self);
  base ← zoom (op_base_priority self);
  when (CONFIG_PRIORITY_INHERITANCE && negb (prio =? base)) (zoom (op_set_priority self base)) ;;
  obj_upd mtx (λ m, m <| locked := 0 |> <| owner := NULL |> <| recursive_count := 0 |>) ;;
  zoom (op_unblock_one BLOCK_MUTEX mtx KERNEL_OK) ;;
  zoom (op_exit irq_state) ;;
  mret KERNEL_OK.

Definition mutex_get_owner (mtx : ptr) : M W ptr :=
  if mtx =? NULL then mret NULL else
  m ← obj_deref mtx; mret (owner m).

(** No check for [NULL] here. *)
Definition mutex_is_locked (mtx : ptr) : M W Z := m ← obj_deref mtx; mret (locked m).

(** The initialisers of static mutexes, as [mutex_init] would leave them. *)
Definition MUTEX_STATIC_DEFINE : mutex_t := mkMutex 0 NULL 0 0 0 NULL NULL.
Definition MUTEX_RECURSIVE_DEFINE : mutex_t := mkMutex 0 NULL 0 0 MUTEX_FLAG_RECURSIVE NULL NULL.

Lemma mutex_init_static mtx w : mtx ≠ NULL →
  mutex_init mtx 0 w = (obj_store mtx MUTEX_STATIC_DEFINE ;; mret KERNEL_OK) w ∧
  mutex_init mtx MUTEX_FLAG_RECURSIVE w = (obj_store mtx MUTEX_RECURSIVE_DEFINE ;; mret KERNEL_OK) w.
Proof using Type. intros Hm. unfold mutex_init. by rewrite (proj2 (Z.eqb_neq _ _) Hm). Qed.
End operations.

(** ** Effects *)

(** The states a mutex goes through. *)
Definition mutex_ok (m : mutex_t) : Prop :=
  0 ≤ recursive_count m ≤ 255 ∧
  ((locked m = 0 ∧ owner m = NULL ∧ recursive_count m = 0) ∨
   (locked m = 1 ∧ owner m ≠ NULL ∧ 1 ≤ recursive_count m)).

Definition recursive (m : mutex_t) : bool := negb (Z.land (mtx_flags m) MUTEX_FLAG_RECURSIVE =? 0).

(** The caller may have the mutex. *)
Definition lockable (self : ptr) (m : mutex_t) : bool :=
  (locked m =? 0) || (owner m =? self) && recursive m.

(** The mutex after [self], at priority [prio], locked it. *)
Definition acquired (self : ptr) (prio : Z) (m : mutex_t) : mutex_t :=
  if locked m =? 0
  then m <| locked := 1 |> <| owner := self |> <| owner_base_priority := prio |>
         <| recursive_count := 1 |>
  else if recursive_count m <? 0xFF then m <| recursive_count := u8 (recursive_count m + 1) |> else m.

Definition released (m : mutex_t) : mutex_t :=
  if 1 <? recursive_count m then m <| recursive_count := recursive_count m - 1 |>
  else m <| locked := 0 |> <| owner := NULL |> <| recursive_count := 0 |>.

Lemma acquired_ok self prio m : self ≠ NULL → mutex_ok m → lockable self m = true →
  mutex_ok (acquired self prio m) ∧ owner (acquired self prio m) = self.
Proof.
  intros Hs [Hr Hm] Hl. unfold lockable, acquired in *.
  destruct (Z.eqb_spec (locked m) 0) as [E|E]; cbn [orb] in *.
  - split; [|done]. split; simpl; [lia|]. right. done.
  - apply andb_true_iff in Hl as [Ho%Z.eqb_eq _].
    destruct Hm as [(?&_&_)|(?&?&?)]; [done|].
    destruct (Z.ltb_spec (recursive_count m) 0xFF); [|by split; [split; [done|right]|]].
    unfold mutex_ok. simpl. rewrite u8_small by lia. split; [|done]. split; [lia|right].
    split_and!; [done..|lia].
Qed.

Lemma released_ok m : mutex_ok m → mutex_ok (released m).
Proof.
  intros [Hr Hm]. unfold released. destruct (Z.ltb_spec 1 (recursive_count m)).
  - split; simpl; [lia|]. destruct Hm as [(?&?&?)|(?&?&?)]; [lia|right]. split_and!; [done..|lia].
  - split; simpl; [lia|by left].
Qed.

Section correctness.
Context {K : Type} `{SchedulerSpec K}.
Notation W := (world K mutex_t).
Implicit Types (w : W) (o : gmap Z mutex_t) (a : asched).

(** [mutex_trylock] in thread mode: the mutex is acquired if it may be, and
    nothing else happens. *)
Lemma mutex_trylock_runs mtx self a o m t : wf a → ipsr (a_cpu a) = 0 →
  a_current_task a = self → a_tasks a !! self = Some t → mtx ≠ NULL → o !! mtx = Some m →
  runs (K := K) (mutex_trylock mtx) a o
    (if lockable self m then KERNEL_OK else KERNEL_ERR_TIMEOUT) a
    (if lockable self m then <[mtx := acquired self (priority t) m]> o else o).
Proof.
  intros Hwf Hi <- Ht Hn Hm. pose proof (wf_cpu_ok _ _ Hwf) as Hcpu.
  unfold mutex_trylock. rewrite (proj2 (Z.eqb_neq mtx NULL)) by done. runs_step.
  rewrite bool_decide_false by (rewrite Hi; by intros []). runs_step.
  rewrite (proj2 (Z.eqb_neq (a_current_task a) NULL)) by (eapply wf_deref; eauto).
  runs_step. runs_step. unfold lockable, acquired.
  destruct (locked m =? 0); cbn [orb].
  - eapply runs_bind; [apply runs_kern, spec_priority; exact Ht|].
    eapply runs_bind; [by apply runs_upd|].
    eapply runs_bind; [by apply runs_exit|]. apply runs_ret.
  - fold (recursive m). destruct ((owner m =? a_current_task a) && recursive m).
    + eapply runs_bind; [apply (runs_when _ _ _ _ (mask a)); by apply runs_upd|].
      destruct (recursive_count m <? 255).
      * eapply runs_bind; [by apply runs_exit|]. apply runs_ret.
      * rewrite insert_id by done. eapply runs_bind; [by apply runs_exit|]. apply runs_ret.
    + eapply runs_bind; [by apply runs_exit|]. apply runs_ret.
Qed.

(** The scheduler's part of an unlock that releases the mutex: the owner gets
    its base priority back, and the most urgent waiter is made ready. *)
Definition eff_restore (self : ptr) (a : asched) : asched :=
  match a_tasks a !! self with
  | Some t => if priority t =? base_priority t then a
              else eff_set_priority self (base_priority t) a
  | None => a
  end.
Definition eff_release (mtx self : ptr) (a : asched) : asched :=
  eff_unblock_one BLOCK_MUTEX mtx KERNEL_OK (eff_restore self a).

Lemma eff_restore_wf self a t : wf a → a_tasks a !! self = Some t → wf (eff_restore self a).
Proof.
  intros Hwf Ht. unfold eff_restore. rewrite Ht. destruct (_ =? _); [done|].
  apply set_priority_eff; eauto. destruct (wf_task _ _ Hwf _ _ Ht) as (_&[]&_). lia.
Qed.

Lemma eff_restore_mask self a : eff_restore self (mask a) = mask (eff_restore self a).
Proof.
  unfold eff_restore. change (a_tasks (mask a)) with (a_tasks a).
  destruct (a_tasks a !! self); [|done]. destruct (_ =? _); [done|]. apply eff_set_priority_mask.
Qed.

Lemma eff_restore_irq self a : irq_mask (eff_restore self a) = irq_mask a.
Proof.
  unfold eff_restore. destruct (a_tasks a !! self); [|done]. destruct (_ =? _); [done|].
  apply eff_set_priority_cpu.
Qed.

Lemma mutex_unlock_runs mtx self a o m t : wf a → ipsr (a_cpu a) = 0 →
  a_current_task a = self → a_tasks a !! self = Some t → mtx ≠ NULL → o !! mtx = Some m →
  owner m = self →
  runs (K := K) (mutex_unlock mtx) a o KERNEL_OK
    (if 1 <? recursive_count m then a else eff_release mtx self a) (<[mtx := released m]> o).
Proof.
  intros Hwf Hi <- Ht Hn Hm Ho. pose proof (wf_cpu_ok _ _ Hwf) as Hcpu.
  unfold mutex_unlock. rewrite (proj2 (Z.eqb_neq mtx NULL)) by done. runs_step.
  rewrite bool_decide_false by (rewrite Hi; by intros []). runs_step.
  rewrite (proj2 (Z.eqb_neq (a_current_task a) NULL)) by (eapply wf_deref; eauto).
  runs_step. rewrite Ho, Z.eqb_refl. cbn [negb]. runs_step. runs_step.
  unfold released. destruct (1 <? recursive_count m).
  - eapply runs_bind; [by apply runs_upd|].
    eapply runs_bind; [by apply runs_exit|]. apply runs_ret.
  - eapply runs_bind; [apply runs_kern, spec_priority; exact Ht|].
    eapply runs_bind; [apply runs_kern, spec_base_priority; exact Ht|].
    pose proof (eff_restore_wf _ _ _ Hwf Ht) as Hwf1.
    eapply (runs_bind _ _ _ _ () (mask (eff_restore (a_current_task a) a)) o).
    { rewrite <- eff_restore_mask. unfold eff_restore. simpl a_tasks. rewrite Ht.
      destruct (priority t =? base_priority t); simpl; [apply runs_ret|].
      apply runs_kern, spec_set_priority; [by apply wf_mask| |by eauto].
      destruct (wf_task _ _ Hwf _ _ Ht) as (_&[]&_). lia. }
    eapply runs_bind; [by apply runs_upd|].
    eapply runs_bind; [by apply runs_unblock_one|].
    eapply runs_bind; [apply runs_exit|apply runs_ret].
    + apply wf_cpu_ok with None. by apply unblock_one_eff.
    + by rewrite eff_unblock_one_irq, eff_restore_irq.
Qed.

(** Whoever does not own the mutex cannot unlock it. *)
Lemma mutex_unlock_not_owner mtx a o m t : wf a → ipsr (a_cpu a) = 0 →
  a_tasks a !! a_current_task a = Some t → mtx ≠ NULL → o !! mtx = Some m →
  owner m ≠ a_current_task a →
  runs (K := K) (mutex_unlock mtx) a o KERNEL_ERR_STATE a o.
Proof.
  intros Hwf Hi Ht Hn Hm Ho.
  unfold mutex_unlock. rewrite (proj2 (Z.eqb_neq mtx NULL)) by done. runs_step.
  rewrite bool_decide_false by (rewrite Hi; by intros []). runs_step.
  rewrite (proj2 (Z.eqb_neq (a_current_task a) NULL)) by (eapply wf_deref; eauto).
  runs_step. rewrite (proj2 (Z.eqb_neq _ _) Ho). apply runs_ret.
Qed.
End correctness.

(** ** Locking *)

(** The scheduler's part of the inheritance step. *)
Definition eff_inherit (self : ptr) (m : mutex_t) (a : asched) : asched :=
  if negb (owner m =? NULL) && (prio_of a self <? prio_of a (owner m))
  then eff_set_priority (owner m) (prio_of a self) a else a.

Section locking.
Context {K : Type} `{SchedulerSpec K}.
Notation W := (world K mutex_t).
Context (self : ptr) (E : gmap Z mutex_t → gmap Z mutex_t → Prop) (env : others W).
Context `{HE : !Environment self E env}.
Implicit Types (w : W) (o : gmap Z mutex_t) (a : asched).

(** The owner is a task. *)
Definition owner_known (m : mutex_t) a : Prop := owner m = NULL ∨ is_Some (a_tasks a !! owner m).

(** Undisturbed. *)
Lemma mutex_inherit_runs mtx a o m : between env = mret () → thread self a → mtx ≠ NULL →
  o !! mtx = Some m → owner_known m a →
  runs (K := K) (mutex_inherit env mtx self) a o () (eff_inherit self m a) o.
Proof using H.
  intros Henv [Hwf Hc Hm Hu (t & Ht & Hr)] Hn Ho Hk.
  unfold mutex_inherit, eff_inherit. rewrite Henv. runs_step.
  destruct (Z.eqb_spec (owner m) NULL) as [|Hon]; [apply runs_ret|].
  destruct Hk as [|[u Hu']]; [done|]. cbn [negb andb].
  eapply runs_bind; [apply runs_kern, spec_priority; exact Hu'|].
  eapply runs_bind; [apply runs_kern, spec_priority; exact Ht|].
  assert (prio_of a self = priority t) as -> by (unfold prio_of; by rewrite Ht).
  assert (prio_of a (owner m) = priority u) as -> by (unfold prio_of; by rewrite Hu').
  destruct (priority t <? priority u); cbn [when]; [|apply runs_ret].
  eapply runs_bind; [apply runs_ret|].
  apply runs_kern, spec_set_priority; [done| |by eauto].
  destruct (wf_task _ _ Hwf _ _ Ht) as ([]&_). lia.
Qed.

(** Changing another task's priority keeps the caller running. *)
Lemma set_priority_thread x p a : thread self a → x ≠ self → is_Some (a_tasks a !! x) → 0 ≤ p →
  thread self (eff_set_priority x p a).
Proof using Type.
  intros [Hwf Hc Hm Hu (t & Ht & Hr)] Hx Hk Hp. destruct (eff_set_priority_cpu x p a) as (E1 & E2 & E3).
  split.
  - by apply set_priority_eff.
  - by rewrite E1.
  - by rewrite E2.
  - unfold irq_mask. by rewrite E3.
  - exists t. by rewrite eff_set_priority_other.
Qed.

Lemma thread_priority a : thread self a → 0 ≤ prio_of a self < CONFIG_MAX_PRIORITY.
Proof using Type.
  intros [Hwf _ _ _ (t & Ht & _)]. unfold prio_of. rewrite Ht. apply (wf_task _ _ Hwf _ _ Ht).
Qed.

(** Lending keeps the caller running. *)
Lemma inherit_thread m a : thread self a → owner_known m a → thread self (eff_inherit self m a).
Proof using Type.
  intros Hth Hk. unfold eff_inherit. destruct (_ && _) eqn:Ec; [|done].
  apply andb_true_iff in Ec as [Hn%negb_true_iff%Z.eqb_neq Hlt%Z.ltb_lt].
  destruct Hk as [|Hk]; [done|]. apply set_priority_thread; [done| |done|by apply thread_priority].
  intros Eo. rewrite Eo in Hlt. lia.
Qed.

Lemma eff_set_priority_kept x p a : tasks_kept a (eff_set_priority x p a).
Proof.
  intros y Hy. destruct (decide (x = y)) as [<-|]; [|by rewrite eff_set_priority_other].
  unfold eff_set_priority, eff_add, pend_if. destruct (_ || _); [done|].
  case_bool_decide; [destruct (higher _ _)|]; simpl; by rewrite ?lookup_alter_is_Some.
Qed.

(** Whatever the others do in the middle of it, the step does no harm. *)
Lemma mutex_inherit_safe mtx w a m : rep (kern w) a → thread self a → objs w !! mtx = Some m →
  owner_known m a →
  ∃ w' a', mutex_inherit env mtx self w = Ret () w' ∧ rep (kern w') a' ∧ thread self a' ∧
    E (objs w) (objs w') ∧ tasks_kept a a' ∧ rtc (acts E (between env)) (objs w) (objs w').
Proof using Type*.
  intros Hr Hth Hm Hk. pose proof (env_order (Environment := HE)) as HO.
  pose proof Hth as [Hwf Hc _ _ (t & Ht & _)]. unfold mutex_inherit.
  destruct (runs_deref (K := K) mtx m a _ Hm w Hr eq_refl) as (w1 & E1 & Hr1 & Ho1). run E1.
  destruct (Z.eqb_spec (owner m) NULL) as [|Hon]; [exists w1, a; by rewrite Ho1|].
  destruct Hk as [|[u Hu]]; [done|].
  destruct (runs_kern (O := mutex_t) _ _ _ _ _ (spec_priority a (owner m) u Hu) w1 Hr1 eq_refl)
    as (w2 & E2 & Hr2 & Ho2). run E2.
  destruct (runs_kern (O := mutex_t) _ _ _ _ _ (spec_priority a self t Ht) w2 Hr2 eq_refl)
    as (w3 & E3 & Hr3 & Ho3). run E3.
  assert (objs w3 = objs w) as Eo by congruence.
  destruct (Z.ltb_spec (priority t) (priority u)) as [Hlt|]; cbn [when]; [|exists w3, a; by rewrite Eo].
  destruct (between_spec self E env w3 a Hr3 Hth) as (w4 & a4 & E4 & Hr4 & Hth4 & HE4 & Hk4 & Ha4). run E4.
  rewrite Eo in HE4, Ha4. destruct (wf_task _ _ Hwf _ _ Ht) as ([Hp _]&_).
  destruct (runs_kern (O := mutex_t) _ _ _ _ _ (spec_set_priority a4 (owner m) (priority t)
    (thread_wf _ _ Hth4) Hp (λ _, Hk4 _ (mk_is_Some _ _ Hu))) w4 Hr4 eq_refl) as (w5 & E5 & Hr5 & Ho5).
  exists w5, (eff_set_priority (owner m) (priority t) a4). rewrite Ho5. split_and!; [done..| |done| |by apply rtc_once].
  - apply set_priority_thread; [done| |by apply Hk4|done]. intros Es. rewrite Es in Hu.
    assert (u = t) by congruence. subst u. lia.
  - etrans; [done|apply eff_set_priority_kept].
Qed.

Lemma owner_kept m a a' : tasks_kept a a' → owner_known m a → owner_known m a'.
Proof using Type. intros Hk [|Hm]; [by left|right; by apply Hk]. Qed.

(** The call acquired the mutex at a moment when it was free, or again while
    the caller had it. *)
Definition locked_at (mtx : ptr) o o' : Prop := ∃ o1 m prio, E o o1 ∧ o1 !! mtx = Some m ∧
  lockable self m = true ∧ o' = <[mtx := acquired self prio m]> o1.

Lemma mutex_lock_round_spec mtx timeout w a m : rep (kern w) a → thread self a → mtx ≠ NULL →
  objs w !! mtx = Some m → (∀ o', E (objs w) o' → ∃ m, o' !! mtx = Some m ∧ owner_known m a) →
  ∃ x w' a', mutex_lock_round env mtx self timeout () w = Ret x w' ∧ rep (kern w') a' ∧
    thread self a' ∧
    match x with
    | inl _ => (timeout ≠ TIMEOUT_NONE ∧ lockable self m = false) ∧ E (objs w) (objs w') ∧
        tasks_kept a a' ∧ waits_out E env (objs w) (objs w')
    | inr r =>
        if lockable self m
        then r = KERNEL_OK ∧ a' = a ∧ ∃ prio, objs w' = <[mtx := acquired self prio m]> (objs w)
        else r ≠ KERNEL_OK ∧ E (objs w) (objs w')
    end.
Proof using Type*.
  intros Hr Hth Hn Hm Hk. pose proof (env_order (Environment := HE)) as HO.
  pose proof Hth as [Hwf Hc Hi Hu (t & Ht & Hrt)].
  unfold mutex_lock_round.
  destruct (mutex_trylock_runs mtx self a (objs w) m t Hwf Hi Hc Ht Hn Hm w Hr eq_refl)
    as (w1 & E1 & Hr1 & Ho1). run E1.
  destruct (lockable self m).
  { exists (inr KERNEL_OK), w1, a. split_and!; [done..|]. eauto. }
  change (KERNEL_ERR_TIMEOUT =? KERNEL_OK) with false. cbn iota.
  destruct (Z.eqb_spec timeout TIMEOUT_NONE) as [|Hto].
  { exists (inr KERNEL_ERR_TIMEOUT), w1, a. split_and!; [done..|]. by rewrite Ho1. }
  destruct (between_spec self E env w1 a Hr1 Hth) as (wb & ab & Eb & Hrb & Htb & HEb & Hkb & Hab). run Eb.
  rewrite Ho1 in HEb, Hab. destruct (Hk _ HEb) as (mb & Hmb & Hkmb%(owner_kept mb a ab Hkb)).
  destruct (mutex_inherit_safe mtx wb ab mb Hrb Htb Hmb Hkmb) as (w2 & a2 & E2 & Hr2 & Ht2 & HE2 & Hk2 & Hrtc2).
  unfold CONFIG_PRIORITY_INHERITANCE. cbn [when]. run E2.
  destruct (between_block_spec self E env BLOCK_MUTEX mtx timeout w2 a2 Hr2 Ht2)
    as (wc & r & w3 & a3 & Ec & E3 & Hr3 & Ht3 & HE3 & Hk3 & (o3 & Hrtc & Hs3)). run Ec. run E3.
  assert (tasks_kept a a3) by (etrans; [exact Hkb|]; by etrans).
  assert (E (objs w) (objs w3)) by (etrans; [exact HEb|]; by etrans).
  destruct (Z.eqb_spec r KERNEL_OK); [|by exists (inr r), w3, a3].
  exists (inl ()), w3, a3. split_and!; [done..|]. exists o3. split; [|done]. eapply rtc_l; [done|]. by etrans.
Qed.

(** The mutex is there for the caller to lock. *)
Definition available (mtx : ptr) o : Prop := ∃ m, o !! mtx = Some m ∧ lockable self m = true.

(** From a task the call comes to its loop. *)
Lemma mutex_lock_loop fuel mtx timeout w a : mtx ≠ NULL → rep (kern w) a → thread self a →
  ∃ w', mutex_lock env fuel mtx timeout w = loop fuel (mutex_lock_round env mtx self timeout) () w' ∧
    rep (kern w') a ∧ objs w' = objs w.
Proof using H.
  intros Hn Hr Hth. unfold mutex_lock. rewrite (proj2 (Z.eqb_neq mtx NULL)) by done.
  pose proof Hth as [Hwf Hc Hi Hu (t & Ht & Hrt)].
  destruct (runs_kern (O := mutex_t) _ _ _ _ _ (spec_is_isr a) w Hr eq_refl) as (w1 & E1 & Hr1 & Ho1).
  destruct (runs_kern (O := mutex_t) _ _ _ _ _ (spec_current a) w1 Hr1 eq_refl) as (w2 & E2 & Hr2 & Ho2).
  exists w2. split; [|by rewrite Ho2, Ho1].
  rewrite (bind_ret _ _ _ _ _ E1), (thread_not_isr self a Hth), (bind_ret _ _ _ _ _ E2), Hc.
  by rewrite (proj2 (Z.eqb_neq self NULL)) by (eapply wf_deref; eauto).
Qed.

Lemma mutex_lock_linearizable fuel mtx timeout w a : mtx ≠ NULL → rep (kern w) a → thread self a →
  (∀ o', E (objs w) o' → ∃ m, o' !! mtx = Some m ∧ owner_known m a) →
  safe (mutex_lock env fuel mtx timeout) (λ r w', (∃ a', rep (kern w') a' ∧ thread self a') ∧
    (r = KERNEL_OK ∧ locked_at mtx (objs w) (objs w') ∨ r ≠ KERNEL_OK ∧ E (objs w) (objs w'))) w ∧
  ∀ rank, fruitful E env (available mtx) rank (objs w) → (rank (objs w) + 1 < fuel)%nat →
    ∃ r w', mutex_lock env fuel mtx timeout w = Ret r w'.
Proof using Type*.
  intros Hn Hr Hth Hmtx. pose proof (env_order (Environment := HE)) as HO.
  destruct (mutex_lock_loop fuel mtx timeout w a Hn Hr Hth) as (w2 & E2 & Hr2 & Ho2).
  unfold safe. rewrite E2. rewrite <- Ho2 in *.
  apply (retry_spec self E env _ (available mtx) (λ r o', r = KERNEL_OK ∧ locked_at mtx (objs w2) o' ∨
    r ≠ KERNEL_OK ∧ E (objs w2) o') fuel w2 a); [|done..].
  intros w3 a3 Hr3 Ht3 HE3 Hk3. destruct (Hmtx _ HE3) as (m & Hm & Hkm).
  destruct (mutex_lock_round_spec mtx timeout w3 a3 m Hr3 Ht3 Hn Hm)
    as (x & w' & a' & Ex & Hr' & Ht' & HQ).
  { intros o' HE'. destruct (Hmtx o') as (m' & ? & ?); [by etrans|]. exists m'. by split; [|eapply owner_kept]. }
  exists x, w', a'. split_and!; [done..|]. destruct x as [[]|r].
  { destruct HQ as ((_ & El) & ? & ? & ?). split_and!; [done..|]. intros (m' & ? & ?). congruence. }
  destruct (lockable self m) eqn:El.
  - left. destruct HQ as (-> & _ & prio & Ho). split; [done|]. exists (objs w3), m, prio. done.
  - right. destruct HQ as (? & ?). split; [done|]. by etrans.
Qed.
End locking.

(** ** Recursion depth *)

Fixpoint repeat_call {S A} (n : nat) (m : M S A) : M S () :=
  match n with
  | O => mret ()
  | Datatypes.S n' => m ;; repeat_call n' m
  end.

(** A mutex locked [n] times by [self]: the counter stops at 255. *)
Definition held (self : ptr) (prio : Z) (n : nat) (m : mutex_t) : mutex_t :=
  m <| locked := 1 |> <| owner := self |> <| owner_base_priority := prio |>
    <| recursive_count := Z.min (Z.of_nat n) 255 |>.

Lemma acquired_free self prio m : locked m = 0 → acquired self prio m = held self prio 1 m.
Proof. intros Hm. unfold acquired. by rewrite Hm. Qed.

Lemma acquired_held self prio n m : acquired self prio (held self prio n m) = held self prio (Datatypes.S n) m.
Proof.
  unfold acquired, held. simpl. destruct (Z.ltb_spec (Z.min (Z.of_nat n) 255) 255); destruct m; simpl.
  - unfold set_field, set_recursive_count, set_locked, set_owner, set_owner_base_priority. simpl.
    rewrite u8_small by lia. f_equal. lia.
  - unfold set_field, set_recursive_count, set_locked, set_owner, set_owner_base_priority. simpl.
    f_equal. lia.
Qed.

Section recursion.
Context {K : Type} `{SchedulerSpec K}.
Notation W := (world K mutex_t).
Context (mtx self : ptr) (a : asched) (t : task_tcb).
Context (Hwf : wf a) (Hi : ipsr (a_cpu a) = 0) (Hc : a_current_task a = self).
Context (Ht : a_tasks a !! self = Some t) (Hn : mtx ≠ NULL).

Lemma relock_runs n k m o : recursive m = true → (1 ≤ n)%nat →
  o !! mtx = Some (held self (priority t) n m) →
  runs (K := K) (repeat_call k (mutex_trylock mtx)) a o () a
    (<[mtx := held self (priority t) (n + k) m]> o).
Proof using Type*.
  revert n o. induction k as [|k IH]; intros n o Hr Hn1 Ho; simpl.
  - rewrite Nat.add_0_r, insert_id by done. apply runs_ret.
  - eapply runs_bind; [by eapply mutex_trylock_runs|].
    assert (lockable self (held self (priority t) n m) = true) as ->.
    { unfold lockable. simpl. rewrite Z.eqb_refl. exact Hr. }
    rewrite acquired_held, <- Nat.add_succ_comm. eapply runs_eq;
      [apply (IH (Datatypes.S n)); [done|lia|by rewrite lookup_insert_eq]|done|].
    by rewrite insert_insert_eq.
Qed.

Lemma unlock_runs_many k n m o : (1 ≤ n ≤ 255)%nat → (k ≤ n)%nat →
  priority t = base_priority t → best_waiter a BLOCK_MUTEX mtx = NULL →
  o !! mtx = Some (held self (priority t) n m) →
  runs (K := K) (repeat_call k (mutex_unlock mtx)) a o () a
    (<[mtx := if decide (k < n)%nat then held self (priority t) (n - k) m
              else released (held self (priority t) 1 m)]> o).
Proof using Type*.
  intros Hn1 Hk Hp Hb. revert n o Hn1 Hk. induction k as [|k IH]; intros n o Hn1 Hk Ho; simpl.
  - rewrite decide_True, Nat.sub_0_r, insert_id by (done || lia). apply runs_ret.
  - eapply runs_bind; [by eapply mutex_unlock_runs|].
    assert (eff_release mtx self a = a) as Hrel.
    { unfold eff_release, eff_restore. rewrite Ht, Hp, Z.eqb_refl. unfold eff_unblock_one.
      by rewrite Hb. }
    rewrite Hrel. match goal with |- context [if ?b then a else a] =>
      replace (if b then a else a) with a by (by destruct b) end.
    destruct (decide (n = 1%nat)) as [->|Hn2].
    + assert (k = 0%nat) as -> by lia. apply runs_ret.
    + assert (released (held self (priority t) n m) = held self (priority t) (n - 1) m) as ->.
      { unfold released, held. simpl. rewrite (proj2 (Z.ltb_lt 1 _)) by lia.
        unfold set_field, set_recursive_count, set_locked, set_owner, set_owner_base_priority.
        simpl. f_equal. lia. }
      eapply runs_eq; [apply (IH (n - 1)%nat); [lia|lia|by rewrite lookup_insert_eq]|done|].
      rewrite insert_insert_eq. f_equal. destruct (decide (Datatypes.S k < n)%nat).
      * rewrite decide_True by lia. f_equal. lia.
      * by rewrite decide_False by lia.
Qed.
End recursion.

(** ** Properties *)

Section properties.
Context {K : Type} `{SchedulerSpec K}.
Notation W := (world K mutex_t).
Implicit Types (w : W) (o : gmap Z mutex_t) (a : asched).

(** C17: Mutual exclusion: whatever the environment does while the caller
    sleeps or is interrupted, [mutex_lock] returns [KERNEL_OK] only by taking
    the mutex at a moment when no other task owned it, and then the caller owns it; an error
    leaves the mutex alone.  The record of the mutex stays well formed.  The
    call returns if the caller is woken in vain, while another task has the
    mutex, only a bounded number of times. *)
Theorem mutex_lock_exclusive self E env `{!Environment self E env} fuel mtx timeout w a :
  mtx ≠ NULL → rep (kern w) a → thread self a →
  (∀ o', E (objs w) o' → ∃ m, o' !! mtx = Some m ∧ mutex_ok m ∧ owner_known m a) →
  safe (mutex_lock env fuel mtx timeout) (λ r w',
    (∃ a', rep (kern w') a' ∧ thread self a') ∧
    (r ≠ KERNEL_OK ∧ E (objs w) (objs w') ∨
     r = KERNEL_OK ∧ ∃ o1 m m', E (objs w) o1 ∧ o1 !! mtx = Some m ∧
       (owner m = NULL ∨ owner m = self ∧ recursive m = true) ∧
       objs w' = <[mtx := m']> o1 ∧ owner m' = self ∧ mutex_ok m')) w ∧
  ∀ rank, fruitful E env (available self mtx) rank (objs w) → (rank (objs w) + 1 < fuel)%nat →
    ∃ r w', mutex_lock env fuel mtx timeout w = Ret r w'.
Proof.
  intros Hn Hr Hth HE.
  destruct (mutex_lock_linearizable self E env fuel mtx timeout w a Hn Hr Hth) as [Hs Hret].
  { intros o' Ho'. destruct (HE o' Ho') as (m & ? & _ & ?). eauto. }
  split; [|exact Hret]. eapply safe_mono; [exact Hs|].
  intros r w' [Hx [(-> & o1 & m & prio & HE1 & Hm & Hl & Ho)|?]]; (split; [done|]); [right|by left].
  split; [done|]. destruct (HE o1 HE1) as (m' & Hm' & Hok & _). simplify_eq.
  assert (self ≠ NULL) as Hself.
  { destruct Hth as [Hwf _ _ _ (t & Ht & _)]. eapply wf_deref; eauto. }
  destruct (acquired_ok self prio m Hself Hok Hl) as [??].
  exists o1, m, (acquired self prio m). split_and!; try done.
  unfold lockable in Hl. apply orb_true_iff in Hl as [Hl%Z.eqb_eq|[Hl%Z.eqb_eq ?]%andb_true_iff];
    [|by right]. left. destruct Hok as [_ [(_&?&_)|(?&_&_)]]; [done|congruence].
Qed.

(** C28: Only the owner unlocks.  For the owner each call undoes one lock; the
    last one frees the mutex, gives the caller its base priority back and makes
    the most urgent waiter ready.  For anybody else the call reports
    [KERNEL_ERR_STATE] and changes nothing. *)
Theorem mutex_unlock_spec mtx w a m t : rep (kern w) a → wf a → ipsr (a_cpu a) = 0 →
  a_tasks a !! a_current_task a = Some t → mtx ≠ NULL → objs w !! mtx = Some m → mutex_ok m →
  ∃ w', if decide (owner m = a_current_task a) then
      mutex_unlock mtx w = Ret KERNEL_OK w' ∧ objs w' = <[mtx := released m]> (objs w) ∧
      mutex_ok (released m) ∧
      (if 1 <? recursive_count m then owner (released m) = a_current_task a ∧ rep (kern w') a
       else owner (released m) = NULL ∧ locked (released m) = 0 ∧
         rep (kern w') (eff_release mtx (a_current_task a) a))
    else mutex_unlock mtx w = Ret KERNEL_ERR_STATE w' ∧ objs w' = objs w ∧ rep (kern w') a.
Proof.
  intros Hr Hwf Hi Ht Hn Hm Hok. case_decide as Ho.
  - destruct (mutex_unlock_runs mtx _ a _ m t Hwf Hi eq_refl Ht Hn Hm Ho w Hr eq_refl)
      as (w' & Ew & Hr' & Ho'). exists w'.
    split_and!; [done|done|by apply released_ok|]. unfold released.
    by destruct (1 <? recursive_count m).
  - destruct (mutex_unlock_not_owner mtx a _ m t Hwf Hi Ht Hn Hm Ho w Hr eq_refl)
      as (w' & Ew & Hr' & Ho'). by exists w'.
Qed.

(** Priority inheritance bounds the inversion: the step [mutex_lock] takes
    before it blocks, undisturbed, leaves the owner at least as urgent as the caller, touches
    no other task, never makes the owner less urgent, and leaves every base
    priority alone. *)
Theorem mutex_inherit_bounds env self mtx w a m : between env = mret () → rep (kern w) a → thread self a → mtx ≠ NULL →
  objs w !! mtx = Some m → owner m ≠ NULL → is_Some (a_tasks a !! owner m) →
  ∃ w' a', mutex_inherit env mtx self w = Ret () w' ∧ rep (kern w') a' ∧ wf a' ∧ objs w' = objs w ∧
    prio_of a' (owner m) = Z.min (prio_of a (owner m)) (prio_of a self) ∧
    (∀ x, x ≠ owner m → a_tasks a' !! x = a_tasks a !! x) ∧
    (base_priority <$> a_tasks a' !! owner m) = (base_priority <$> a_tasks a !! owner m).
Proof.
  intros Henv Hr Hth Hn Hm Ho Hx.
  assert (owner_known m a) as Hk by (by right).
  destruct (mutex_inherit_runs self env mtx a _ m Henv Hth Hn Hm Hk w Hr eq_refl) as (w' & Ew & Hr' & Ho').
  exists w', (eff_inherit self m a). split_and!; try done; [apply (inherit_thread self m a Hth Hk)|..];
    destruct Hth as [Hwf _ _ _ (t & Ht & _)]; destruct Hx as [u Hu];
    assert (prio_of a self = priority t) as Ep by (unfold prio_of; by rewrite Ht);
    destruct (wf_task _ _ Hwf _ _ Ht) as (Hp & _);
    unfold eff_inherit; rewrite (proj2 (Z.eqb_neq _ _) Ho), Ep; cbn [negb andb];
    destruct (Z.ltb_spec (priority t) (prio_of a (owner m))) as [Hlt|Hge]; try done.
  - destruct (eff_set_priority_task _ _ a u Ho Hp Hu) as (u' & Hu' & Hpu & _).
    unfold prio_of at 1. rewrite Hu'. lia.
  - lia.
  - intros x Hxo. by apply eff_set_priority_other.
  - destruct (eff_set_priority_task _ _ a u Ho Hp Hu) as (u' & Hu' & _ & Hb & _).
    rewrite Hu', Hu. simpl. by rewrite Hb.
Qed.

(** Recursive locking counts up to 255: after [n] locks of a free recursive
    mutex and [k] unlocks the caller still owns it exactly if
    [k < min n 255].  Up to depth 255 locks and unlocks balance; beyond it the
    counter saturates and the mutex is free while locks are outstanding. *)
Theorem mutex_recursion_depth mtx a t o m n k : wf a → ipsr (a_cpu a) = 0 →
  a_tasks a !! a_current_task a = Some t → mtx ≠ NULL → o !! mtx = Some m →
  locked m = 0 → recursive m = true → (1 ≤ n)%nat → (k ≤ Nat.min n 255)%nat →
  priority t = base_priority t → best_waiter a BLOCK_MUTEX mtx = NULL →
  ∃ m', owner m' = (if decide (k < Nat.min n 255)%nat then a_current_task a else NULL) ∧
    runs (K := K) (repeat_call n (mutex_trylock mtx) ;; repeat_call k (mutex_unlock mtx))
      a o () a (<[mtx := m']> o).
Proof.
  intros Hwf Hi Ht Hn Hm Hl Hrec Hn1 Hk Hp Hb. set (self := a_current_task a) in *.
  destruct n as [|n]; [lia|]. set (d := Nat.min (Datatypes.S n) 255) in *.
  assert (held self (priority t) (1 + n) m = held self (priority t) d m) as Hd.
  { unfold held. f_equal. unfold d. lia. }
  exists (if decide (k < d)%nat then held self (priority t) (d - k) m
    else released (held self (priority t) 1 m)). split; [by case_decide|].
  eapply (runs_bind _ _ _ _ () a (<[mtx := held self (priority t) d m]> o)).
  - simpl repeat_call.
    eapply runs_bind; [by apply (mutex_trylock_runs mtx self a o m t)|].
    assert (lockable self m = true) as -> by (unfold lockable; by rewrite Hl).
    rewrite acquired_free by done.
    eapply runs_eq; [apply (relock_runs mtx self a t Hwf Hi eq_refl Ht Hn 1 n m); try done|done|].
    + by rewrite lookup_insert_eq.
    + by rewrite insert_insert_eq, Hd.
  - eapply runs_eq; [apply (unlock_runs_many mtx self a t Hwf Hi eq_refl Ht Hn k d m
      (<[mtx := held self (priority t) d m]> o)); try done; [lia|by rewrite lookup_insert_eq]|done|].
    by rewrite insert_insert_eq.
Qed.
End properties.

(** ** The theorems on the example system *)

Definition mutex_example (own : ptr) : mutex_t :=
  mkMutex (if own =? NULL then 0 else 1) own 3 (if own =? NULL then 0 else 1) MUTEX_FLAG_RECURSIVE NULL NULL.

(** [HIGH] runs, [LOW] owns the mutex at [OBJ]. *)
Definition mutex_contended : world sched mutex_t :=
  mkWorld example_boot {[OBJ := mutex_example LOW]}.
(** [HIGH] waits for the mutex, its owner [LOW] runs. *)
Definition mutex_waited : world sched mutex_t :=
  mkWorld (example_blocked BLOCK_MUTEX) {[OBJ := mutex_example LOW]}.

Lemma mutex_example_ok own : mutex_ok (mutex_example own).
Proof.
  unfold mutex_example. destruct (Z.eqb_spec own NULL) as [->|]; split; simpl; lia.
Qed.

(** The owner releases the mutex while the caller sleeps. *)
Definition free_mutex : gmap Z mutex_t → gmap Z mutex_t := alter (λ _, mutex_example NULL) OBJ.
Definition mutex_env : others (world sched mutex_t) := example_env HIGH KERNEL_OK free_mutex.

Lemma free_mutex_reachable o' : repeated free_mutex {[OBJ := mutex_example LOW]} o' →
  ∃ own, o' !! OBJ = Some (mutex_example own) ∧ (own = NULL ∨ own = LOW).
Proof.
  intros [n ->]. induction n as [|n (own & E & _)].
  - exists LOW. split; [done|by right].
  - exists NULL. split; [|by left]. simpl. unfold free_mutex at 1. by rewrite lookup_alter_eq, E.
Qed.

Lemma mutex_lock_exclusive_witness :
  safe (mutex_lock mutex_env 5 OBJ 10) (λ r w',
    (∃ a', rep (kern w') a' ∧ thread HIGH a') ∧
    (r ≠ KERNEL_OK ∧ repeated free_mutex (objs mutex_contended) (objs w') ∨
     r = KERNEL_OK ∧ ∃ o1 m m', repeated free_mutex (objs mutex_contended) o1 ∧ o1 !! OBJ = Some m ∧
       (owner m = NULL ∨ owner m = HIGH ∧ recursive m = true) ∧
       objs w' = <[OBJ := m']> o1 ∧ owner m' = HIGH ∧ mutex_ok m')) mutex_contended ∧
  ∃ r w', mutex_lock mutex_env 5 OBJ 10 mutex_contended = Ret r w'.
Proof.
  destruct (mutex_lock_exclusive HIGH (repeated free_mutex) mutex_env 5 OBJ 10 mutex_contended
    example_boot_abs) as [Hs Hr].
  - done.
  - apply example_boot_rep.
  - apply example_thread_high.
  - intros o' (own & E & Hown)%free_mutex_reachable. exists (mutex_example own).
    split_and!; [done|apply mutex_example_ok|].
    destruct Hown as [->| ->]; [by left|right]. by eexists.
  - split; [exact Hs|]. apply (Hr (λ _, 0%nat)); [|simpl; lia].
    apply (example_fruitful HIGH KERNEL_OK _ _ (mutex_example LOW)); [done|].
    intros n o' Ho'. exists (mutex_example NULL). split; [exact Ho'|reflexivity].
Defined.

Lemma mutex_unlock_spec_witness :
  let a := example_blocked_abs BLOCK_MUTEX in let m := mutex_example LOW in
  ∃ w', if decide (owner m = a_current_task a) then
      mutex_unlock OBJ mutex_waited = Ret KERNEL_OK w' ∧
      objs w' = <[OBJ := released m]> (objs mutex_waited) ∧ mutex_ok (released m) ∧
      (if 1 <? recursive_count m then owner (released m) = a_current_task a ∧ rep (kern w') a
       else owner (released m) = NULL ∧ locked (released m) = 0 ∧
         rep (kern w') (eff_release OBJ (a_current_task a) a))
    else mutex_unlock OBJ mutex_waited = Ret KERNEL_ERR_STATE w' ∧
      objs w' = objs mutex_waited ∧ rep (kern w') a.
Proof.
  eapply (mutex_unlock_spec OBJ mutex_waited (example_blocked_abs BLOCK_MUTEX) (mutex_example LOW)).
  - apply example_blocked_rep.
  - apply example_blocked_wf.
  - vm_compute. reflexivity.
  - vm_compute. reflexivity.
  - done.
  - reflexivity.
  - apply mutex_example_ok.
Defined.

Lemma mutex_inherit_bounds_witness :
  ∃ w' a', mutex_inherit mutex_env OBJ HIGH mutex_contended = Ret () w' ∧ rep (kern w') a' ∧ wf a' ∧
    objs w' = objs mutex_contended ∧
    prio_of a' LOW = Z.min (prio_of example_boot_abs LOW) (prio_of example_boot_abs HIGH) ∧
    (∀ x, x ≠ LOW → a_tasks a' !! x = a_tasks example_boot_abs !! x) ∧
    (base_priority <$> a_tasks a' !! LOW) = (base_priority <$> a_tasks example_boot_abs !! LOW).
Proof.
  apply (mutex_inherit_bounds mutex_env HIGH OBJ mutex_contended example_boot_abs (mutex_example LOW)).
  - reflexivity.
  - apply example_boot_rep.
  - apply example_thread_high.
  - done.
  - reflexivity.
  - done.
  - eexists. vm_compute. reflexivity.
Defined.

(** 300 locks and 255 unlocks. *)
Lemma mutex_recursion_depth_witness :
  ∃ m', owner m' = (if decide (255 < Nat.min 300 255)%nat then a_current_task example_boot_abs else NULL) ∧
    runs (K := sched) (repeat_call 300 (mutex_trylock OBJ) ;; repeat_call 255 (mutex_unlock OBJ))
      example_boot_abs {[OBJ := mutex_example NULL]} () example_boot_abs
      (<[OBJ := m']> {[OBJ := mutex_example NULL]}).
Proof.
  eapply (mutex_recursion_depth OBJ example_boot_abs).
  - apply example_boot_wf.
  - vm_compute. reflexivity.
  - vm_compute. reflexivity.
  - done.
  - reflexivity.
  - reflexivity.
  - reflexivity.
  - lia.
  - lia.
  - vm_compute. reflexivity.
  - vm_compute. reflexivity.
Defined.
