(* ===== verification/Event.v ===== *)
(** * Event groups

    [kernel/sync/event.c]: a word of event flags.  A task waits for any or for
    all of a set of bits; bit 31 of the request asks to clear the bits it
    matched. *)
From S2P Require Import Prelude Config Task Critical Bitmap TcbList Scheduler SchedSpec.
From S2P Require Import SchedRefine SchedInv SchedEffect SchedIface Sync Checker Example.

Record event_group_t : Set := mkEvent { flags : Z }.

Definition eta_event (e : event_group_t) : event_group_t := mkEvent (flags e).
#[export] Instance set_flags : Setter flags := ltac:(derive_setter eta_event flags).

Definition EVENT_WAIT_ANY : Z := 0.
Definition EVENT_WAIT_ALL : Z := 1.
Definition EVENT_CLEAR_ON_EXIT : Z := bit 31.

Definition event_match (current bits wait_all : Z) : bool :=
  if negb (wait_all =? 0) then Z.land current bits =? bits
  else negb (Z.land current bits =? 0).

(** ** Operations *)

Section operations.
Context {K : Type} `{!SchedulerOps K}.
Notation W := (world K event_group_t).
Context (env : others W).

Definition event_init (eg : ptr) : M W Z :=
  if eg =? NULL then mret KERNEL_ERR_PARAM else
  obj_store eg (mkEvent 0) ;;
  mret KERNEL_OK.

Definition event_set (eg : ptr) (bits : Z) : M W Z :=
  if eg =? NULL then mret KERNEL_ERR_PARAM else
  irq_state ← zoom op_enter;
  obj_upd eg (λ e, e <| flags := Z.lor (flags e) bits |>) ;;
  zoom (op_unblock_all BLOCK_EVENT eg KERNEL_OK) ;;
  zoom (op_exit irq_state) ;;
  mret KERNEL_OK.

(** [flags] is read and written back with interrupts enabled. *)
Definition event_clear (eg : ptr) (bits : Z) : M W Z :=
  if eg =? NULL then mret KERNEL_ERR_PARAM else
  e ← obj_deref eg;
  between env ;;
  obj_upd eg (set_field flags (Z.land (flags e) (not32 bits))) ;;
  mret KERNEL_OK.

Definition event_get (eg : ptr) : M W Z :=
  if eg =? NULL then mret 0 else
  e ← obj_deref eg; mret (flags e).

(** One round of the loop of [event_wait], for the stripped [bits]; interrupts
    are enabled between the test and [scheduler_block_task]. *)
Definition event_wait_round (eg : ptr) (bits wait_all clear_on_exit timeout : Z) (_ : ())
    : M W (() + Z) :=
  irq_state ← zoom op_enter;
  e ← obj_deref eg;
  let matched := Z.land (flags e) bits in
  if event_match (flags e) bits wait_all then
    when (negb (clear_on_exit =? 0))
      (obj_upd eg (λ e, e <| flags := Z.land (flags e) (not32 matched) |>)) ;;
    zoom (op_exit irq_state) ;;
    mret (inr matched)
  else
  zoom (op_exit irq_state) ;;
  if timeout =? TIMEOUT_NONE then mret (inr 0) else
  between env ;;
  res ← scheduler_block_task (away env) BLOCK_EVENT eg timeout;
  mret (if res =? KERNEL_OK then inl () else inr 0).

Definition event_wait (fuel : nat) (eg : ptr) (bits wait_all timeout : Z) : M W Z :=
  if (eg =? NULL) || (bits =? 0) then mret 0 else
  isr ← zoom op_is_isr;
  if isr : bool then mret 0 else
  let clear_on_exit := Z.land bits EVENT_CLEAR_ON_EXIT in
  let bits := Z.land bits (not32 EVENT_CLEAR_ON_EXIT) in
  self ← zoom op_current;
  if self =? NULL then mret 0 else
  zoom (op_event_wait self bits (if negb (wait_all =? 0) then 1 else 0)) ;;
  loop fuel (event_wait_round eg bits wait_all clear_on_exit timeout) ().
End operations.

(** ** Correctness *)

(** The group after a successful wait. *)
Definition consume (clear_on_exit bits : Z) (e : event_group_t) : event_group_t :=
  if negb (clear_on_exit =? 0)
  then e <| flags := Z.land (flags e) (not32 (Z.land (flags e) bits)) |> else e.

(** ** One round of the wait *)

Section rounds.
Context {K : Type} `{SchedulerSpec K}.
Notation W := (world K event_group_t).
Context (env : others W).
Implicit Types (w : W) (o : gmap Z event_group_t) (a : asched).

(** What a round does when the flags do not match. *)
Definition event_wait_sleep (eg timeout : Z) : M W (() + Z) :=
  if timeout =? TIMEOUT_NONE then mret (inr 0) else
  between env ;;
  res ← scheduler_block_task (away env) BLOCK_EVENT eg timeout;
  mret (if res =? KERNEL_OK then inl () else inr 0).

(** Either the flags match and the round consumes them, or it sleeps. *)
Lemma event_wait_round_cases eg bits wait_all clear timeout w a e :
  rep (kern w) a → wf a → objs w !! eg = Some e →
  ∃ w1, rep (kern w1) a ∧
    if event_match (flags e) bits wait_all
    then event_wait_round env eg bits wait_all clear timeout () w = Ret (inr (Z.land (flags e) bits)) w1 ∧
      objs w1 = <[eg := consume clear bits e]> (objs w)
    else event_wait_round env eg bits wait_all clear timeout () w = event_wait_sleep eg timeout w1 ∧
      objs w1 = objs w.
Proof using H.
  intros Hr Hwf He. pose proof (wf_cpu_ok _ _ Hwf) as Hcpu. unfold event_wait_round.
  destruct (runs_kern (O := event_group_t) _ _ (objs w) _ _ (spec_enter a) w Hr eq_refl)
    as (w1 & E1 & Hr1 & Ho1). run E1.
  destruct (runs_deref (K := K) eg e (mask a) (objs w) He w1 Hr1 Ho1) as (w2 & E2 & Hr2 & Ho2).
  run E2. unfold consume. destruct (event_match (flags e) bits wait_all).
  - destruct (runs_when (negb (clear =? 0)) _ (mask a) (objs w) (mask a) _
      (runs_upd (K := K) eg (λ e', e' <| flags := Z.land (flags e') (not32 (Z.land (flags e) bits)) |>)
        e (mask a) (objs w) He) w2 Hr2 Ho2) as (w3 & E3 & Hr3 & Ho3). run E3.
    assert (rep (kern w3) (mask a)) as Hr3' by (by destruct (negb (clear =? 0))).
    destruct (runs_exit (O := event_group_t) a _ _ Hcpu eq_refl w3 Hr3' Ho3) as (w4 & E4 & Hr4 & Ho4).
    run E4. exists w4. split_and!; [done..|].
    rewrite Ho4. destruct (negb (clear =? 0)); [done|]. by rewrite insert_id.
  - destruct (runs_exit (O := event_group_t) a _ _ Hcpu eq_refl w2 Hr2 Ho2) as (w3 & E3 & Hr3 & Ho3).
    run E3. by exists w3.
Qed.

(** A round that sleeps and then ends the call reports nothing. *)
Lemma event_wait_sleep_result eg timeout w w' r : event_wait_sleep eg timeout w = Ret (inr r) w' → r = 0.
Proof using Type.
  unfold event_wait_sleep. destruct (_ =? _); [by intros [= <-]|]. unfold mbind, M_bind.
  destruct (between env w) as [[] w1| | |]; [|done..].
  destruct (scheduler_block_task _ _ _ _ w1) as [res w2| | |]; [|done..].
  destruct (res =? KERNEL_OK); [done|by intros [= <-]].
Qed.

(** Before the loop [event_wait] records the request in the caller's TCB. *)
Lemma event_wait_enters self fuel eg bits wait_all timeout w a : eg ≠ NULL → bits ≠ 0 →
  rep (kern w) a → thread self a →
  ∃ w1 a1, event_wait env fuel eg bits wait_all timeout w =
      loop fuel (event_wait_round env eg (Z.land bits (not32 EVENT_CLEAR_ON_EXIT)) wait_all
        (Z.land bits EVENT_CLEAR_ON_EXIT) timeout) () w1 ∧
    rep (kern w1) a1 ∧ thread self a1 ∧ objs w1 = objs w.
Proof using H.
  intros Hn Hb Hr Ht.
  unfold event_wait. rewrite (proj2 (Z.eqb_neq eg NULL)), (proj2 (Z.eqb_neq bits 0)) by done.
  cbn [orb].
  pose proof Ht as [Hwf Hc Hi Hu (t & Ht' & Hrt)].
  destruct (runs_kern (O := event_group_t) _ _ _ _ _ (spec_is_isr a) w Hr eq_refl) as (w1 & E1 & Hr1 & Ho1).
  destruct (runs_kern (O := event_group_t) _ _ _ _ _ (spec_current a) w1 Hr1 eq_refl) as (w2 & E2 & Hr2 & Ho2).
  destruct (runs_kern (O := event_group_t) _ _ _ _ _ (spec_event_wait a self
    (Z.land bits (not32 EVENT_CLEAR_ON_EXIT)) (if negb (wait_all =? 0) then 1 else 0)
    ltac:(eauto)) w2 Hr2 eq_refl) as (w3 & E3 & Hr3 & Ho3).
  rewrite (bind_ret _ _ _ _ _ E1), (thread_not_isr self a Ht). cbv zeta.
  rewrite (bind_ret _ _ _ _ _ E2), Hc.
  rewrite (proj2 (Z.eqb_neq self NULL)) by (eapply wf_deref; eauto).
  rewrite (bind_ret _ _ _ _ _ E3).
  exists w3. eexists. split_and!; [done|exact Hr3| |congruence]. split; try done.
  - apply wf_set_task; [done|]. intros u _ Hu'. split; [exact Hu'|by right].
  - eexists. split; [simpl; rewrite lookup_alter_eq, Ht'; reflexivity|exact Hrt].
Qed.
End rounds.

Section waiting.
Context {K : Type} `{SchedulerSpec K}.
Notation W := (world K event_group_t).
Context (self : ptr) (E : gmap Z event_group_t → gmap Z event_group_t → Prop) (env : others W).
Context `{HE : !Environment self E env}.
Implicit Types (w : W) (o : gmap Z event_group_t) (a : asched).

(** The condition held at some moment, and the wait consumed it there. *)
Definition satisfied (eg bits wait_all clear_on_exit r : Z) o o' : Prop := ∃ o1 e,
  E o o1 ∧ o1 !! eg = Some e ∧ event_match (flags e) bits wait_all = true ∧
  r = Z.land (flags e) bits ∧ o' = <[eg := consume clear_on_exit bits e]> o1.

Lemma event_wait_round_spec eg bits wait_all clear timeout w a e :
  rep (kern w) a → thread self a → objs w !! eg = Some e →
  ∃ x w' a', event_wait_round env eg bits wait_all clear timeout () w = Ret x w' ∧
    rep (kern w') a' ∧ thread self a' ∧
    match x with
    | inl _ => event_match (flags e) bits wait_all = false ∧ E (objs w) (objs w') ∧ tasks_kept a a' ∧
        waits_out E env (objs w) (objs w')
    | inr r => if event_match (flags e) bits wait_all
        then r = Z.land (flags e) bits ∧ objs w' = <[eg := consume clear bits e]> (objs w)
        else r = 0 ∧ E (objs w) (objs w')
    end.
Proof using Type*.
  intros Hr Ht He. pose proof (env_order (Environment := HE)) as HO.
  destruct (event_wait_round_cases env eg bits wait_all clear timeout w a e Hr (thread_wf _ _ Ht) He)
    as (w3 & Hr3 & Hcase).
  destruct (event_match (flags e) bits wait_all); destruct Hcase as [-> Ho3].
  - by exists (inr (Z.land (flags e) bits)), w3, a.
  - unfold event_wait_sleep. destruct (Z.eqb_spec timeout TIMEOUT_NONE) as [->|Hto].
    + exists (inr 0), w3, a. split_and!; try done. by rewrite Ho3.
    + destruct (between_block_spec self E env BLOCK_EVENT eg timeout w3 a Hr3 Ht)
        as (wb & r & w5 & a5 & Eb & E5 & Hr5 & Ht5 & HE5 & Hk5 & Hs5). run Eb. run E5. rewrite Ho3 in HE5, Hs5.
      destruct (Z.eqb_spec r KERNEL_OK).
      * exists (inl ()), w5, a5. done.
      * exists (inr 0), w5, a5. done.
Qed.

(** The flags satisfy the request. *)
Definition raised (eg bits wait_all : Z) o : Prop :=
  ∃ e, o !! eg = Some e ∧ event_match (flags e) bits wait_all = true.

Lemma event_wait_linearizable fuel eg bits wait_all timeout w a :
  eg ≠ NULL → bits ≠ 0 → rep (kern w) a → thread self a →
  (∀ o', E (objs w) o' → is_Some (o' !! eg)) →
  safe (event_wait env fuel eg bits wait_all timeout) (λ r w',
    (∃ a', rep (kern w') a' ∧ thread self a') ∧
    (satisfied eg (Z.land bits (not32 EVENT_CLEAR_ON_EXIT)) wait_all
       (Z.land bits EVENT_CLEAR_ON_EXIT) r (objs w) (objs w') ∨
     r = 0 ∧ E (objs w) (objs w'))) w ∧
  ∀ rank, fruitful E env (raised eg (Z.land bits (not32 EVENT_CLEAR_ON_EXIT)) wait_all) rank (objs w) →
    (rank (objs w) + 1 < fuel)%nat → ∃ r w', event_wait env fuel eg bits wait_all timeout w = Ret r w'.
Proof using Type*.
  intros Hn Hb Hr Ht Heg. pose proof (env_order (Environment := HE)) as HO.
  destruct (event_wait_enters env self fuel eg bits wait_all timeout w a Hn Hb Hr Ht)
    as (w3 & a3 & Ew & Hr3 & Ht3 & Ho3). unfold safe. rewrite Ew. rewrite <- Ho3 in *.
  apply (retry_spec self E env _ (raised eg (Z.land bits (not32 EVENT_CLEAR_ON_EXIT)) wait_all)
    (λ r o', satisfied eg (Z.land bits (not32 EVENT_CLEAR_ON_EXIT))
    wait_all (Z.land bits EVENT_CLEAR_ON_EXIT) r (objs w3) o' ∨ r = 0 ∧ E (objs w3) o') fuel w3 a3);
    [|done..].
  intros w4 a4 Hr4 Ht4 HE4 _. destruct (Heg _ HE4) as [e He].
  destruct (event_wait_round_spec eg (Z.land bits (not32 EVENT_CLEAR_ON_EXIT)) wait_all
    (Z.land bits EVENT_CLEAR_ON_EXIT) timeout w4 a4 e Hr4 Ht4 He) as (x & w' & a' & Ex & Hr' & Ht'' & HQ).
  exists x, w', a'. split_and!; [done..|]. destruct x as [[]|r].
  { destruct HQ as (Em & ? & ? & ?). split_and!; [done..|]. intros (e' & ? & ?). congruence. }
  destruct (event_match _ _ _) eqn:Em.
  - left. destruct HQ as (-> & Ho). exists (objs w4), e. done.
  - right. destruct HQ as (? & ?). split; [done|]. by etrans.
Qed.
End waiting.

(** ** Properties *)

Section properties.
Context {K : Type} `{SchedulerSpec K}.
Notation W := (world K event_group_t).
Implicit Types (w : W) (o : gmap Z event_group_t) (a : asched).

(** [event_set] sets the bits and wakes every waiter. *)
Lemma event_set_runs eg bits a o e : wf a → eg ≠ NULL → o !! eg = Some e →
  runs (K := K) (event_set eg bits) a o KERNEL_OK (eff_unblock_all BLOCK_EVENT eg KERNEL_OK a)
    (<[eg := e <| flags := Z.lor (flags e) bits |>]> o).
Proof.
  intros Hwf Hn He. unfold event_set. rewrite (proj2 (Z.eqb_neq eg NULL)) by done. runs_step.
  eapply runs_bind; [by apply runs_upd|].
  eapply runs_bind; [by apply runs_unblock_all|].
  eapply runs_bind; [apply runs_exit|apply runs_ret].
  - apply wf_cpu_ok with None. by apply unblock_all_eff.
  - by rewrite eff_unblock_all_irq.
Qed.

(** [event_clear] clears them, if nobody interrupts. *)
Lemma event_clear_runs env eg bits a o e : between env = mret () → eg ≠ NULL → o !! eg = Some e →
  runs (K := K) (event_clear env eg bits) a o KERNEL_OK a
    (<[eg := e <| flags := Z.land (flags e) (not32 bits) |>]> o).
Proof.
  intros Henv Hn He. unfold event_clear. rewrite (proj2 (Z.eqb_neq eg NULL)), Henv by done.
  eapply runs_bind; [by apply runs_deref|]. eapply runs_bind; [apply runs_ret|].
  eapply runs_bind; [by apply runs_upd|apply runs_ret].
Qed.

(** C31: [event_wait] is linearisable: a non-zero result (and any result that is
    not a time-out) was computed at one moment at which the flags satisfied the
    request; it is the set of requested bits then present: all of them for
    [EVENT_WAIT_ALL], at least one otherwise.  Exactly these bits are cleared
    at that moment if clearing was asked for, and nothing else is.  The call
    returns if the caller is woken in vain only a bounded number of times. *)
Theorem event_wait_spec self E env `{!Environment self E env} fuel eg bits wait_all timeout w a :
  eg ≠ NULL → bits ≠ 0 → rep (kern w) a → thread self a →
  (∀ o', E (objs w) o' → is_Some (o' !! eg)) →
  let req := Z.land bits (not32 EVENT_CLEAR_ON_EXIT) in
  safe (event_wait env fuel eg bits wait_all timeout) (λ r w',
    (∃ a', rep (kern w') a' ∧ thread self a') ∧
    (r = 0 ∧ E (objs w) (objs w') ∨
     ∃ o1 e, E (objs w) o1 ∧ o1 !! eg = Some e ∧ r = Z.land (flags e) req ∧
       (if decide (wait_all = 0) then r ≠ 0 else r = req) ∧
       objs w' = if decide (Z.land bits EVENT_CLEAR_ON_EXIT = 0) then o1
         else <[eg := e <| flags := Z.land (flags e) (not32 r) |>]> o1)) w ∧
  ∀ rank, fruitful E env (raised eg req wait_all) rank (objs w) → (rank (objs w) + 1 < fuel)%nat →
    ∃ r w', event_wait env fuel eg bits wait_all timeout w = Ret r w'.
Proof.
  intros Hn Hb Hr Ht Heg req.
  destruct (event_wait_linearizable self E env fuel eg bits wait_all timeout w a Hn Hb Hr Ht Heg)
    as [Hs Hret]. split; [|exact Hret]. eapply safe_mono.
  - exact Hs.
  - intros r w' [Hx [(o1 & e & HE & He & Hm & -> & Ho)|?]]; (split; [done|]); [right|by left].
    exists o1, e. split_and!; try done.
    + unfold event_match in Hm. destruct (Z.eqb_spec wait_all 0); cbn [negb] in Hm; case_decide; try done.
      * by apply negb_true_iff, Z.eqb_neq in Hm.
      * by apply Z.eqb_eq in Hm.
    + rewrite Ho. unfold consume. destruct (Z.eqb_spec (Z.land bits EVENT_CLEAR_ON_EXIT) 0);
        cbn [negb]; case_decide; try done. by rewrite insert_id.
Qed.

(** [event_set] never loses a waiter: all tasks waiting for the group become
    ready with result [KERNEL_OK], none is left on the blocked list, no other
    task is touched, and the bits are set before any of them can run. *)
Theorem event_set_wakes_all eg bits w a e : rep (kern w) a → wf a → eg ≠ NULL →
  objs w !! eg = Some e →
  ∃ w' a', event_set eg bits w = Ret KERNEL_OK w' ∧ rep (kern w') a' ∧ wf a' ∧
    objs w' = <[eg := e <| flags := Z.lor (flags e) bits |>]> (objs w) ∧
    (∀ x t, x ∈ a_blocked a → waits a BLOCK_EVENT eg x = true → a_tasks a !! x = Some t →
      a_tasks a' !! x = Some (woken KERNEL_OK t)) ∧
    (∀ x, x ∈ a_blocked a' → waits a' BLOCK_EVENT eg x = false) ∧
    (∀ x, waits a BLOCK_EVENT eg x = false → a_tasks a' !! x = a_tasks a !! x).
Proof.
  intros Hr Hwf Hn He.
  destruct (event_set_runs eg bits a (objs w) e Hwf Hn He w Hr eq_refl) as (w' & Ew & Hr' & Ho).
  exists w', (eff_unblock_all BLOCK_EVENT eg KERNEL_OK a). split_and!; try done.
  - by apply unblock_all_eff.
  - intros. by apply unblock_all_woken.
  - intros. by apply unblock_all_no_waiter.
  - intros. by apply unblock_all_others.
Qed.

(** The flags are a set of 32 bits: after setting [s] and then clearing [c]
    without being interrupted the word [event_get] returns has exactly the bits
    that were there or in [s], and not in [c]. *)
Theorem event_flags_are_a_set env eg s c w a e : between env = mret () → rep (kern w) a → wf a → eg ≠ NULL →
  objs w !! eg = Some e → 0 ≤ flags e < 2 ^ 32 → 0 ≤ s < 2 ^ 32 → 0 ≤ c < 2 ^ 32 →
  ∃ v w', (event_set eg s ;; event_clear env eg c ;; event_get eg) w = Ret v w' ∧ 0 ≤ v < 2 ^ 32 ∧
    ∀ i, 0 ≤ i < 32 →
      Z.testbit v i = (Z.testbit (flags e) i || Z.testbit s i) && negb (Z.testbit c i).
Proof.
  intros Henv Hr Hwf Hn He Hf Hs Hc.
  destruct (event_set_runs eg s a (objs w) e Hwf Hn He w Hr eq_refl) as (w' & Ew & Hr' & Ho).
  set (e1 := e <| flags := Z.lor (flags e) s |>) in *.
  assert (objs w' !! eg = Some e1) as He1 by (by rewrite Ho, lookup_insert_eq).
  run Ew. destruct (event_clear_runs env eg c _ (objs w') e1 Henv Hn He1 w' Hr' eq_refl) as (w2 & E2 & Hr2 & Ho2).
  run E2. unfold event_get. rewrite (proj2 (Z.eqb_neq eg NULL)) by done.
  set (e2 := e1 <| flags := Z.land (flags e1) (not32 c) |>) in *.
  assert (objs w2 !! eg = Some e2) as He2 by (by rewrite Ho2, lookup_insert_eq).
  destruct (runs_deref (K := K) eg e2 _ _ He2 w2 Hr2 eq_refl)
    as (w3 & E3 & _). run E3.
  exists (flags e2), w3. split_and!; [done| | |].
  - apply land_range, lor_range; done.
  - apply land_range, lor_range; done.
  - intros i Hi. unfold e2, e1. simpl. rewrite Z.land_spec, Z.lor_spec, testbit_not32 by lia.
    by rewrite bool_decide_true by lia.
Qed.
End properties.

(** ** The theorems on the example system *)

Definition event_example (v : Z) : world sched event_group_t :=
  mkWorld (example_blocked BLOCK_EVENT) {[OBJ := mkEvent v]}.
Definition event_example_boot (v : Z) : world sched event_group_t :=
  mkWorld example_boot {[OBJ := mkEvent v]}.

(** The environment sets bit 0. *)
Definition set_bit0 : gmap Z event_group_t → gmap Z event_group_t :=
  alter (λ e, e <| flags := Z.lor (flags e) 1 |>) OBJ.

Lemma bit0_raised v : event_match (Z.lor v 1) (Z.land 3 (not32 EVENT_CLEAR_ON_EXIT)) 0 = true.
Proof.
  unfold event_match. cbn [Z.eqb negb]. apply negb_true_iff, Z.eqb_neq. intros E.
  apply (f_equal (λ x, Z.testbit x 0)) in E. rewrite Z.land_spec, Z.lor_spec in E.
  by rewrite orb_true_r in E.
Qed.

Lemma event_wait_spec_witness :
  let req := Z.land 3 (not32 EVENT_CLEAR_ON_EXIT) in
  safe (event_wait (example_env HIGH KERNEL_OK set_bit0) 4 OBJ 3 0 10) (λ r w',
    (∃ a', rep (kern w') a' ∧ thread HIGH a') ∧
    (r = 0 ∧ repeated set_bit0 (objs (event_example_boot 4)) (objs w') ∨
     ∃ o1 e, repeated set_bit0 (objs (event_example_boot 4)) o1 ∧ o1 !! OBJ = Some e ∧
       r = Z.land (flags e) req ∧ (if decide (0 = 0) then r ≠ 0 else r = req) ∧
       objs w' = if decide (Z.land 3 EVENT_CLEAR_ON_EXIT = 0) then o1
         else <[OBJ := e <| flags := Z.land (flags e) (not32 r) |>]> o1)) (event_example_boot 4) ∧
  ∃ r w', event_wait (example_env HIGH KERNEL_OK set_bit0) 4 OBJ 3 0 10 (event_example_boot 4) = Ret r w'.
Proof.
  destruct (event_wait_spec HIGH (repeated set_bit0) (example_env HIGH KERNEL_OK set_bit0) 4 OBJ 3 0 10
    (event_example_boot 4) example_boot_abs) as [Hs Hr].
  - done.
  - done.
  - apply example_boot_rep.
  - apply example_thread_high.
  - intros o' Ho. eapply repeated_alter_is_Some; [exact Ho|]. by eexists.
  - split; [exact Hs|]. apply (Hr (λ _, 0%nat)); [|simpl; lia].
    apply (example_fruitful HIGH KERNEL_OK _ _ (mkEvent 4)); [done|].
    intros n o' Ho'. eexists. split; [exact Ho'|]. simpl. by apply bit0_raised.
Defined.

Lemma event_set_wakes_all_witness :
  ∃ w' a', event_set OBJ 1 (event_example 4) = Ret KERNEL_OK w' ∧ rep (kern w') a' ∧ wf a' ∧
    objs w' = <[OBJ := mkEvent 5]> (objs (event_example 4)) ∧
    (∀ x t, x ∈ a_blocked (example_blocked_abs BLOCK_EVENT) →
      waits (example_blocked_abs BLOCK_EVENT) BLOCK_EVENT OBJ x = true →
      a_tasks (example_blocked_abs BLOCK_EVENT) !! x = Some t →
      a_tasks a' !! x = Some (woken KERNEL_OK t)) ∧
    (∀ x, x ∈ a_blocked a' → waits a' BLOCK_EVENT OBJ x = false) ∧
    (∀ x, waits (example_blocked_abs BLOCK_EVENT) BLOCK_EVENT OBJ x = false →
      a_tasks a' !! x = a_tasks (example_blocked_abs BLOCK_EVENT) !! x).
Proof.
  apply (event_set_wakes_all OBJ 1 (event_example 4) (example_blocked_abs BLOCK_EVENT) (mkEvent 4)).
  - apply example_blocked_rep.
  - apply example_blocked_wf.
  - done.
  - reflexivity.
Defined.

(** Nobody interrupts. *)
Definition quiet_env : others (world sched event_group_t) := mkOthers (mret ()) (mret ()).

Lemma event_flags_are_a_set_witness :
  ∃ v w', (event_set OBJ 9 ;; event_clear quiet_env OBJ 5 ;; event_get OBJ) (event_example 4) = Ret v w' ∧
    0 ≤ v < 2 ^ 32 ∧
    ∀ i, 0 ≤ i < 32 → Z.testbit v i = (Z.testbit 4 i || Z.testbit 9 i) && negb (Z.testbit 5 i).
Proof.
  apply (event_flags_are_a_set quiet_env OBJ 9 5 (event_example 4) (example_blocked_abs BLOCK_EVENT) (mkEvent 4)).
  - reflexivity.
  - apply example_blocked_rep.
  - apply example_blocked_wf.
  - done.
  - reflexivity.
  - vm_compute; split; [discriminate|reflexivity].
  - lia.
  - lia.
Defined.

(** [event_clear] is no critical section: bits an interrupt handler sets while it
    works are lost, and whom they woke finds nothing. *)
Example event_clear_loses_set :
  let env := mkOthers (event_set OBJ 8 ;; mret ()) (mret ()) in
  let w := final (event_clear env OBJ 4) (event_example 4) in
  flags <$> objs (final (event_set OBJ 8) (event_example 4)) !! OBJ = Some 12 ∧ flags <$> objs w !! OBJ = Some 0 ∧
  state <$> tcbs (kern w) !! HIGH = Some TASK_STATE_READY.
Proof. vm_compute. intuition reflexivity. Qed.

(** Nor is that all: a bit a task consumes meanwhile is there again afterwards,
    and the next task that waits for it consumes the same event. *)
Example event_clear_revives :
  let consume_bit0 := event_wait_round quiet_env OBJ 1 EVENT_WAIT_ANY EVENT_CLEAR_ON_EXIT TIMEOUT_NONE () in
  let w := final (event_clear (mkOthers (consume_bit0 ;; mret ()) (mret ())) OBJ 2) (event_example_boot 3) in
  flags <$> objs (final consume_bit0 (event_example_boot 3)) !! OBJ = Some 2 ∧
  flags <$> objs w !! OBJ = Some 1 ∧ flags <$> objs (final consume_bit0 w) !! OBJ = Some 0.
Proof. vm_compute. intuition reflexivity. Qed.
