(* ===== verification/Queue.v ===== *)
(** * Message queues

    [kernel/sync/queue.c]: a ring buffer of [capacity] messages of [msg_size]
    bytes, copied in and out byte by byte.  Queue structures and bytes live in
    one memory, so that a message and the ring may be anywhere in it. *)
From S2P Require Import Prelude Config Task Critical Bitmap TcbList Scheduler SchedSpec.
From S2P Require Import SchedRefine SchedInv SchedEffect SchedIface Sync Checker Example.

Record msg_queue_t : Set := mkQueue {
  buffer : ptr;
  msg_size : Z;
  capacity : Z;
  head : Z;
  tail : Z;
  count : Z;
  send_wait_head : ptr;
  send_wait_tail : ptr;
  recv_wait_head : ptr;
  recv_wait_tail : ptr;
}.

Definition eta_queue (q : msg_queue_t) : msg_queue_t :=
  mkQueue (buffer q) (msg_size q) (capacity q) (head q) (tail q) (count q)
    (send_wait_head q) (send_wait_tail q) (recv_wait_head q) (recv_wait_tail q).
#[export] Instance set_head : Setter head := ltac:(derive_setter eta_queue head).
#[export] Instance set_tail : Setter tail := ltac:(derive_setter eta_queue tail).
#[export] Instance set_count : Setter count := ltac:(derive_setter eta_queue count).

(** A memory cell: a queue structure or a byte. *)
Inductive cell : Set :=
| Queue (q : msg_queue_t)
| Byte (b : Z).

(** ** Operations *)

Section operations.
Context {K : Type} `{!SchedulerOps K}.
Notation W := (world K cell).
Context (env : others W).

Definition load_queue (p : ptr) : M W msg_queue_t :=
  c ← obj_deref p;
  match c with Queue q => mret q | Byte _ => fault end.
Definition upd_queue (p : ptr) (f : msg_queue_t → msg_queue_t) : M W () :=
  q ← load_queue p;
  obj_store p (Queue (f q)).
Definition load_byte (p : ptr) : M W Z :=
  c ← obj_deref p;
  match c with Byte b => mret b | Queue _ => fault end.
Definition store_byte (p : ptr) (b : Z) : M W () :=
  load_byte p ;;
  obj_store p (Byte b).

(** [while (len-- > 0U) *dst++ = *src++;] *)
Fixpoint mem_copy (dst src : ptr) (len : nat) : M W () :=
  match len with
  | O => mret ()
  | Datatypes.S len' =>
      b ← load_byte src;
      store_byte dst b ;;
      mem_copy (dst + 1) (src + 1) len'
  end.

(** [&queue->buffer[idx * queue->msg_size]], the index an [uint32_t]. *)
Definition queue_slot_ptr (q : msg_queue_t) (idx : Z) : ptr := buffer q + u32 (idx * msg_size q).

Definition queue_push_back (queue msg : ptr) : M W () :=
  q ← load_queue queue;
  mem_copy (queue_slot_ptr q (head q)) msg (Z.to_nat (msg_size q)) ;;
  upd_queue queue (λ q, q <| head := u32 (head q + 1) mod capacity q |>) ;;
  upd_queue queue (λ q, q <| count := u32 (count q + 1) |>).

Definition queue_push_front (queue msg : ptr) : M W () :=
  upd_queue queue (λ q, if tail q =? 0 then q <| tail := u32 (capacity q - 1) |>
                        else q <| tail := tail q - 1 |>) ;;
  q ← load_queue queue;
  mem_copy (queue_slot_ptr q (tail q)) msg (Z.to_nat (msg_size q)) ;;
  upd_queue queue (λ q, q <| count := u32 (count q + 1) |>).

Definition queue_pop (queue msg : ptr) : M W () :=
  q ← load_queue queue;
  mem_copy msg (queue_slot_ptr q (tail q)) (Z.to_nat (msg_size q)) ;;
  upd_queue queue (λ q, q <| tail := u32 (tail q + 1) mod capacity q |>) ;;
  upd_queue queue (λ q, q <| count := u32 (count q - 1) |>).

Definition queue_init (queue buf : ptr) (size cap : Z) : M W Z :=
  if (queue =? NULL) || (buf =? NULL) || (size =? 0) || (cap =? 0) then mret KERNEL_ERR_PARAM else
  obj_store queue (Queue (mkQueue buf size cap 0 0 0 NULL NULL NULL NULL)) ;;
  mret KERNEL_OK.

(** The end of a round that found nothing to do: give up or sleep.  Interrupts
    are enabled again. *)
Definition queue_block (reason : block_reason_t) (queue : ptr) (timeout : Z) : M W (() + Z) :=
  if timeout =? TIMEOUT_NONE then mret (inr KERNEL_ERR_TIMEOUT) else
  isr ← zoom op_is_isr;
  if isr : bool then mret (inr KERNEL_ERR_ISR) else
  between env ;;
  res ← scheduler_block_task (away env) reason queue timeout;
  mret (if res =? KERNEL_OK then inl () else inr res).

(** One round of the loops of [queue_send] and [queue_send_front]. *)
Definition queue_send_round (push : ptr → ptr → M W ()) (queue msg : ptr) (timeout : Z) (_ : ())
    : M W (() + Z) :=
  irq_state ← zoom op_enter;
  q ← load_queue queue;
  if count q <? capacity q then
    push queue msg ;;
    zoom (op_unblock_one BLOCK_QUEUE_RECV queue KERNEL_OK) ;;
    zoom (op_exit irq_state) ;;
    mret (inr KERNEL_OK)
  else
  zoom (op_exit irq_state) ;;
  queue_block BLOCK_QUEUE_SEND queue timeout.

Definition queue_send (fuel : nat) (queue msg : ptr) (timeout : Z) : M W Z :=
  if (queue =? NULL) || (msg =? NULL) then mret KERNEL_ERR_PARAM else
  loop fuel (queue_send_round queue_push_back queue msg timeout) ().

Definition queue_send_front (fuel : nat) (queue msg : ptr) (timeout : Z) : M W Z :=
  if (queue =? NULL) || (msg =? NULL) then mret KERNEL_ERR_PARAM else
  loop fuel (queue_send_round queue_push_front queue msg timeout) ().

Definition queue_send_isr (queue msg : ptr) : M W Z :=
  if (queue =? NULL) || (msg =? NULL) then mret KERNEL_ERR_PARAM else
  irq_state ← zoom op_enter;
  q ← load_queue queue;
  if capacity q <=? count q then
    zoom (op_exit irq_state) ;;
    mret KERNEL_ERR_OVERFLOW
  else
  queue_push_back queue msg ;;
  zoom (op_unblock_one BLOCK_QUEUE_RECV queue KERNEL_OK) ;;
  zoom (op_exit irq_state) ;;
  mret KERNEL_OK.

(** One round of the loop of [queue_receive]. *)
Definition queue_receive_round (queue msg : ptr) (timeout : Z) (_ : ()) : M W (() + Z) :=
  irq_state ← zoom op_enter;
  q ← load_queue queue;
  if 0 <? count q then
    queue_pop queue msg ;;
    zoom (op_unblock_one BLOCK_QUEUE_SEND queue KERNEL_OK) ;;
    zoom (op_exit irq_state) ;;
    mret (inr KERNEL_OK)
  else
  zoom (op_exit irq_state) ;;
  queue_block BLOCK_QUEUE_RECV queue timeout.

Definition queue_receive (fuel : nat) (queue msg : ptr) (timeout : Z) : M W Z :=
  if (queue =? NULL) || (msg =? NULL) then mret KERNEL_ERR_PARAM else
  loop fuel (queue_receive_round queue msg timeout) ().

(** One round of the loop of [queue_peek]. *)
Definition queue_peek_round (queue msg : ptr) (timeout : Z) (_ : ()) : M W (() + Z) :=
  irq_state ← zoom op_enter;
  q ← load_queue queue;
  if 0 <? count q then
    mem_copy msg (queue_slot_ptr q (tail q)) (Z.to_nat (msg_size q)) ;;
    zoom (op_exit irq_state) ;;
    mret (inr KERNEL_OK)
  else
  zoom (op_exit irq_state) ;;
  queue_block BLOCK_QUEUE_RECV queue timeout.

Definition queue_peek (fuel : nat) (queue msg : ptr) (timeout : Z) : M W Z :=
  if (queue =? NULL) || (msg =? NULL) then mret KERNEL_ERR_PARAM else
  loop fuel (queue_peek_round queue msg timeout) ().

Definition queue_get_count (queue : ptr) : M W Z :=
  if queue =? NULL then mret 0 else
  q ← load_queue queue; mret (count q).

Definition queue_get_space (queue : ptr) : M W Z :=
  if queue =? NULL then mret 0 else
  q ← load_queue queue;
  mret (if capacity q <? count q then 0 else capacity q - count q).

Definition queue_is_empty (queue : ptr) : M W Z := q ← load_queue queue; mret (Z.b2z (count q =? 0)).
Definition queue_is_full (queue : ptr) : M W Z := q ← load_queue queue; mret (Z.b2z (capacity q <=? count q)).

(** The initialisers of a static queue for messages of [size] bytes and of a
    static mailbox. *)
Definition QUEUE_STATIC_DEFINE (buf size cap : Z) : msg_queue_t := mkQueue buf size cap 0 0 0 NULL NULL NULL NULL.
Definition MAILBOX_STATIC_DEFINE (buf size : Z) : msg_queue_t := QUEUE_STATIC_DEFINE buf size 1.

(** As [queue_init] would leave them. *)
Lemma queue_init_static queue buf size cap w : queue ≠ NULL → buf ≠ NULL → size ≠ 0 → cap ≠ 0 →
  queue_init queue buf size cap w = (obj_store queue (Queue (QUEUE_STATIC_DEFINE buf size cap)) ;; mret KERNEL_OK) w.
Proof using Type. intros Hq Hb Hs Hc. unfold queue_init. by rewrite !(proj2 (Z.eqb_neq _ _)). Qed.

(** The members are written one after the other with interrupts enabled. *)
Definition queue_reset (queue : ptr) : M W Z :=
  if queue =? NULL then mret KERNEL_ERR_PARAM else
  upd_queue queue (set_field head 0) ;;
  between env ;;
  upd_queue queue (set_field tail 0) ;;
  between env ;;
  upd_queue queue (set_field count 0) ;;
  between env ;;
  zoom (op_unblock_all BLOCK_QUEUE_SEND queue KERNEL_ERR_STATE) ;;
  between env ;;
  zoom (op_unblock_all BLOCK_QUEUE_RECV queue KERNEL_ERR_STATE) ;;
  mret KERNEL_OK.
End operations.

(** ** Memory *)

Definition byte_at (o : gmap Z cell) (p : ptr) : option Z :=
  match o !! p with Some (Byte b) => Some b | _ => None end.

Fixpoint read_bytes (o : gmap Z cell) (p : ptr) (n : nat) : option (list Z) :=
  match n with
  | O => Some []
  | Datatypes.S n' => b ← byte_at o p; bs ← read_bytes o (p + 1) n'; Some (b :: bs)
  end.

Fixpoint write_bytes (o : gmap Z cell) (p : ptr) (bs : list Z) : gmap Z cell :=
  match bs with
  | [] => o
  | b :: bs' => write_bytes (<[p := Byte b]> o) (p + 1) bs'
  end.

(** [n] bytes from [p] on are in memory. *)
Definition bytes (o : gmap Z cell) (p : ptr) (n : Z) : Prop :=
  ∀ i, 0 ≤ i < n → is_Some (byte_at o (p + i)).

Lemma bytes_read o p n : bytes o p (Z.of_nat n) → is_Some (read_bytes o p n).
Proof.
  revert p. induction n as [|n IH]; intros p Hb; simpl; [by eexists|].
  destruct (Hb 0 ltac:(lia)) as [b Eb]. rewrite Z.add_0_r in Eb. rewrite Eb. simpl.
  destruct (IH (p + 1)) as [bs Ebs]; [|by rewrite Ebs; eexists].
  intros i Hi. replace (p + 1 + i) with (p + (i + 1)) by lia. apply Hb. lia.
Qed.

(** The ranges do not overlap. *)
Definition apart (p n q m : Z) : Prop := p + n ≤ q ∨ q + m ≤ p.

Lemma read_bytes_length o p n bs : read_bytes o p n = Some bs → length bs = n.
Proof.
  revert p bs. induction n as [|n IH]; intros p bs; simpl; [by intros [= <-]|].
  destruct (byte_at o p); [|done]. simpl. destruct (read_bytes o (p + 1) n) eqn:E; [|done].
  intros [= <-]. simpl. f_equal. by eapply IH.
Qed.

Lemma read_bytes_ext o o' p n :
  (∀ i, 0 ≤ i < Z.of_nat n → o' !! (p + i) = o !! (p + i)) → read_bytes o' p n = read_bytes o p n.
Proof.
  revert p. induction n as [|n IH]; intros p Hext; simpl; [done|].
  assert (byte_at o' p = byte_at o p) as ->.
  { unfold byte_at. specialize (Hext 0). rewrite Z.add_0_r in Hext. rewrite Hext by lia. done. }
  rewrite IH; [done|]. intros i Hi. replace (p + 1 + i) with (p + (i + 1)) by lia. apply Hext. lia.
Qed.

Lemma read_bytes_is_byte o p n bs i : read_bytes o p n = Some bs → 0 ≤ i < Z.of_nat n →
  is_Some (byte_at o (p + i)).
Proof.
  revert p bs i. induction n as [|n IH]; intros p bs i; simpl; [lia|].
  destruct (byte_at o p) as [b|] eqn:Eb; [|done]. simpl.
  destruct (read_bytes o (p + 1) n) as [bs'|] eqn:Er; [|done]. intros _ Hi.
  destruct (decide (i = 0)) as [->|]; [rewrite Z.add_0_r; eauto|].
  replace (p + i) with (p + 1 + (i - 1)) by lia. eapply IH; [done|lia].
Qed.

Lemma write_bytes_other o p bs x :
  x < p ∨ p + Z.of_nat (length bs) ≤ x → write_bytes o p bs !! x = o !! x.
Proof.
  revert o p. induction bs as [|b bs IH]; intros o p Hx; simpl in *; [done|].
  rewrite IH by lia. apply lookup_insert_ne. lia.
Qed.

Lemma read_write_same o p bs : read_bytes (write_bytes o p bs) p (length bs) = Some bs.
Proof.
  revert o p. induction bs as [|b bs IH]; intros o p; simpl; [done|].
  assert (byte_at (write_bytes (<[p:=Byte b]> o) (p + 1) bs) p = Some b) as ->.
  { unfold byte_at. rewrite write_bytes_other by lia. by rewrite lookup_insert_eq. }
  simpl. by rewrite IH.
Qed.

Lemma read_write_apart o p bs q n : apart p (Z.of_nat (length bs)) q (Z.of_nat n) →
  read_bytes (write_bytes o p bs) q n = read_bytes o q n.
Proof. intros Ha. apply read_bytes_ext. intros i Hi. apply write_bytes_other. destruct Ha; lia. Qed.

Lemma write_bytes_bytes o p bs q n : bytes o q n → bytes (write_bytes o p bs) q n.
Proof.
  intros Hb i Hi. destruct (Hb i Hi) as [b E]. clear Hb Hi. revert o p b E.
  induction bs as [|c bs IH]; intros o p b E; simpl; [eauto|].
  destruct (decide (q + i = p)) as [Ep|].
  - apply IH with c. unfold byte_at. by rewrite Ep, lookup_insert_eq.
  - apply IH with b. unfold byte_at. by rewrite lookup_insert_ne.
Qed.

(** A queue structure is not a byte, so copying bytes does not touch it. *)
Lemma write_bytes_queue o p bs x q : bytes o p (Z.of_nat (length bs)) → o !! x = Some (Queue q) →
  write_bytes o p bs !! x = Some (Queue q).
Proof.
  intros Hb Hx. rewrite write_bytes_other; [done|].
  destruct (decide (p ≤ x)); [|lia]. destruct (decide (x < p + Z.of_nat (length bs))); [|lia].
  destruct (Hb (x - p)) as [b E]; [lia|]. unfold byte_at in E.
  replace (p + (x - p)) with x in E by lia. by rewrite Hx in E.
Qed.

Section copying.
Context {K : Type} `{SchedulerSpec K}.
Implicit Types (o : gmap Z cell) (a : asched).

Lemma byte_at_cell o p b : byte_at o p = Some b → o !! p = Some (Byte b).
Proof. unfold byte_at. destruct (o !! p) as [[]|]; naive_solver. Qed.

Lemma runs_load_byte p b a o : byte_at o p = Some b → runs (K := K) (load_byte p) a o b a o.
Proof.
  intros Hb%byte_at_cell. unfold load_byte. eapply runs_bind; [by apply runs_deref|]. apply runs_ret.
Qed.

Lemma runs_store_byte p b c a o : byte_at o p = Some c →
  runs (K := K) (store_byte p b) a o () a (<[p := Byte b]> o).
Proof.
  intros Hb. unfold store_byte. eapply runs_bind; [by apply runs_load_byte|]. apply runs_store.
Qed.

Lemma runs_load_queue p q a o : o !! p = Some (Queue q) → runs (K := K) (load_queue p) a o q a o.
Proof.
  intros Hq. unfold load_queue. eapply runs_bind; [by apply runs_deref|]. apply runs_ret.
Qed.

Lemma runs_upd_queue p f q a o : o !! p = Some (Queue q) →
  runs (K := K) (upd_queue p f) a o () a (<[p := Queue (f q)]> o).
Proof.
  intros Hq. unfold upd_queue. eapply runs_bind; [by apply runs_load_queue|]. apply runs_store.
Qed.

(** Between ranges that do not overlap the bytes are copied. *)
Lemma mem_copy_runs n dst src bs a o : read_bytes o src n = Some bs → bytes o dst (Z.of_nat n) →
  apart dst (Z.of_nat n) src (Z.of_nat n) →
  runs (K := K) (mem_copy dst src n) a o () a (write_bytes o dst bs).
Proof.
  revert dst src bs o. induction n as [|n IH]; intros dst src bs o; simpl.
  - intros [= <-] _ _. apply runs_ret.
  - destruct (byte_at o src) as [b|] eqn:Eb; [|done]. simpl.
    destruct (read_bytes o (src + 1) n) as [bs'|] eqn:Er; [|done]. intros [= <-] Hd Ha.
    eapply runs_bind; [by apply runs_load_byte|].
    destruct (Hd 0) as [c Hc]; [lia|]. rewrite Z.add_0_r in Hc.
    eapply runs_bind; [by eapply runs_store_byte|]. apply (IH (dst + 1) (src + 1) bs' (<[dst := Byte b]> o)).
    + rewrite <- Er. apply read_bytes_ext. intros i Hi. apply lookup_insert_ne. destruct Ha; lia.
    + intros i Hi. destruct (Hd (i + 1)) as [d E]; [lia|].
      exists d. unfold byte_at in *. rewrite lookup_insert_ne by lia.
      by replace (dst + 1 + i) with (dst + (i + 1)) by lia.
    + destruct Ha; [left|right]; lia.
Qed.
End copying.

(** ** The ring as a list of messages *)

(** The address of the [i]-th message from the front. *)
Definition slot (q : msg_queue_t) (i : Z) : ptr := buffer q + ((tail q + i) mod capacity q) * msg_size q.

Record queue_ok (o : gmap Z cell) (q : msg_queue_t) (msgs : list (list Z)) : Prop := {
  queue_size : 0 < msg_size q;
  queue_fits : msg_size q * capacity q < 2 ^ 32;
  queue_tail : 0 ≤ tail q < capacity q;
  queue_count : count q = Z.of_nat (length msgs);
  queue_bound : count q ≤ capacity q;
  queue_head : head q = (tail q + count q) mod capacity q;
  queue_bytes : bytes o (buffer q) (msg_size q * capacity q);
  queue_msgs i m : msgs !! i = Some m →
    read_bytes o (slot q (Z.of_nat i)) (Z.to_nat (msg_size q)) = Some m;
}.

(** The ring's memory. *)
Definition in_ring (q : msg_queue_t) (x : ptr) : Prop :=
  buffer q ≤ x < buffer q + msg_size q * capacity q.

Lemma slot_range q i : 0 < msg_size q → 0 < capacity q →
  buffer q ≤ slot q i ∧ slot q i + msg_size q ≤ buffer q + msg_size q * capacity q.
Proof.
  intros Hs Hc. unfold slot. pose proof (Z.mod_pos_bound (tail q + i) (capacity q) Hc). nia.
Qed.

(** The slots of a turn do not overlap. *)
Lemma slot_apart q i j : 0 < msg_size q → 0 < capacity q → i ≠ j →
  i < j + capacity q → j < i + capacity q →
  apart (slot q i) (msg_size q) (slot q j) (msg_size q).
Proof.
  intros Hs Hc Hij H1 H2. unfold slot, apart.
  assert ((tail q + i) mod capacity q ≠ (tail q + j) mod capacity q) as Hne.
  { intros E. pose proof (Z.div_mod (tail q + i) (capacity q) ltac:(lia)).
    pose proof (Z.div_mod (tail q + j) (capacity q) ltac:(lia)).
    assert ((tail q + i) / capacity q = (tail q + j) / capacity q) by nia. nia. }
  destruct (Z.lt_total ((tail q + i) mod capacity q) ((tail q + j) mod capacity q)) as [|[|]]; nia.
Qed.

Lemma slot_bytes o q msgs i : queue_ok o q msgs → bytes o (slot q i) (msg_size q).
Proof.
  intros Hq k Hk. pose proof (queue_tail _ _ _ Hq). pose proof (queue_size _ _ _ Hq).
  destruct (slot_range q i) as [H1 H2]; [lia..|].
  replace (slot q i + k) with (buffer q + (slot q i + k - buffer q)) by lia.
  apply (queue_bytes _ _ _ Hq). lia.
Qed.

(** The code's address arithmetic does not wrap. *)
Lemma queue_slot_ptr_slot q i : 0 < msg_size q → 0 < capacity q →
  msg_size q * capacity q < 2 ^ 32 → queue_slot_ptr q ((tail q + i) mod capacity q) = slot q i.
Proof.
  intros Hs Hc Hf. unfold queue_slot_ptr, slot. rewrite u32_small; [done|].
  pose proof (Z.mod_pos_bound (tail q + i) (capacity q) Hc). nia.
Qed.

(** Only the ring's memory matters. *)
Lemma queue_ok_ext o o' q msgs : queue_ok o q msgs →
  (∀ x, in_ring q x → o' !! x = o !! x) → queue_ok o' q msgs.
Proof.
  intros Hq Hext. pose proof Hq as [Hs Hf Ht Hc Hb Hh Hby Hm]. split; try done.
  - intros i Hi. unfold byte_at. rewrite Hext; [by apply Hby|]. unfold in_ring. lia.
  - intros i m Hi. rewrite <- (Hm i m Hi). apply read_bytes_ext. intros k Hk. apply Hext.
    destruct (slot_range q (Z.of_nat i)) as [H1 H2]; [lia..|]. unfold in_ring. lia.
Qed.

(** Queue structures lie outside every ring. *)
Lemma queue_outside o q msgs p q' : queue_ok o q msgs → o !! p = Some (Queue q') → ¬ in_ring q p.
Proof.
  intros Hq Hp Hr. unfold in_ring in Hr. destruct (queue_bytes _ _ _ Hq (p - buffer q)) as [b E]; [lia|].
  replace (buffer q + (p - buffer q)) with p in E by lia. unfold byte_at in E. by rewrite Hp in E.
Qed.

(** What an operation on the queue at [p] may touch. *)
Definition same_ring (q q' : msg_queue_t) : Prop :=
  buffer q' = buffer q ∧ msg_size q' = msg_size q ∧ capacity q' = capacity q.
Definition only_ring (p : ptr) (q : msg_queue_t) (o o' : gmap Z cell) : Prop :=
  ∀ x, x ≠ p → ¬ in_ring q x → o' !! x = o !! x.

(** Writing a message into the slot [k], one that holds none of [msgs]. *)
Lemma write_slot o q msgs k m : queue_ok o q msgs → length m = Z.to_nat (msg_size q) →
  count q ≤ k < capacity q →
  let o' := write_bytes o (slot q k) m in
  queue_ok o' q msgs ∧ read_bytes o' (slot q k) (Z.to_nat (msg_size q)) = Some m ∧
  (∀ x, ¬ in_ring q x → o' !! x = o !! x).
Proof.
  intros Hq Hl Hk o'. pose proof Hq as [Hs Hf Ht Hc Hb Hh Hby Hm].
  assert (0 < capacity q) as Hcap by lia.
  destruct (slot_range q k Hs Hcap) as [H1 H2]. split_and!.
  - split; try done.
    + by apply write_bytes_bytes.
    + intros i m' Hi. pose proof (lookup_lt_Some _ _ _ Hi) as Hlt. unfold o'.
      rewrite read_write_apart; [by apply Hm|]. rewrite Hl, Z2Nat.id by lia.
      apply slot_apart; lia.
  - unfold o'. rewrite <- Hl. apply read_write_same.
  - intros x Hx. apply write_bytes_other. unfold in_ring in Hx. rewrite Hl, Z2Nat.id by lia. lia.
Qed.

Section ring.
Context {K : Type} `{SchedulerSpec K}.
Implicit Types (o : gmap Z cell) (a : asched).

(** The message area is memory outside the ring. *)
Definition msg_area (q : msg_queue_t) (p : ptr) : Prop :=
  apart (buffer q) (msg_size q * capacity q) p (msg_size q).

Lemma msg_slot_apart q p k : 0 < msg_size q → 0 < capacity q → msg_area q p →
  apart (slot q k) (msg_size q) p (msg_size q).
Proof. intros Hs Hc. destruct (slot_range q k Hs Hc). unfold msg_area, apart. lia. Qed.

Lemma push_back_runs o q msgs p src m : queue_ok o q msgs → o !! p = Some (Queue q) →
  count q < capacity q → read_bytes o src (Z.to_nat (msg_size q)) = Some m → msg_area q src →
  ∃ o' q', (∀ a, runs (K := K) (queue_push_back p src) a o () a o') ∧ only_ring p q o o' ∧
    o' !! p = Some (Queue q') ∧ same_ring q q' ∧ queue_ok o' q' (msgs ++ [m]).
Proof.
  intros Hq Hp Hlt Hm Ha. pose proof Hq as [Hs Hf Ht Hc Hb Hh Hby Hms].
  assert (0 < capacity q) as Hcap by lia. assert (capacity q < 2 ^ 32) as Hcap32 by nia.
  pose proof (read_bytes_length _ _ _ _ Hm) as Hl.
  destruct (write_slot o q msgs (count q) m Hq Hl ltac:(lia)) as (Hq1 & Hr1 & Ho1).
  set (o1 := write_bytes o (slot q (count q)) m) in *.
  set (q' := q <| head := u32 (head q + 1) mod capacity q |> <| count := u32 (count q + 1) |>).
  pose proof (queue_outside _ _ _ _ _ Hq Hp) as Hout.
  assert (o1 !! p = Some (Queue q)) as Hp1 by (by rewrite Ho1).
  assert (queue_slot_ptr q (head q) = slot q (count q)) as Hslot
    by (rewrite Hh; by apply queue_slot_ptr_slot).
  exists (<[p := Queue q']> o1), q'. split_and!.
  - intros a. unfold queue_push_back. eapply runs_bind; [by apply runs_load_queue|].
    rewrite Hslot. eapply runs_bind.
    { apply mem_copy_runs; [done|..]; rewrite Z2Nat.id by lia; [by eapply slot_bytes|].
      by apply msg_slot_apart. }
    eapply runs_bind; [by apply runs_upd_queue|].
    eapply runs_eq; [apply runs_upd_queue; by rewrite lookup_insert_eq|done|].
    by rewrite insert_insert_eq.
  - intros x Hx Hxr. rewrite lookup_insert_ne by done. by apply Ho1.
  - by rewrite lookup_insert_eq.
  - done.
  - apply (queue_ok_ext o1); [|intros x Hx; apply lookup_insert_ne; by intros <-].
    destruct Hq1 as [_ _ _ _ _ _ Hby1 Hms1].
    assert (count q' = count q + 1) as Hcnt by (simpl; rewrite u32_small; lia).
    assert (0 ≤ head q < capacity q) as Hhr by (rewrite Hh; by apply Z.mod_pos_bound).
    split; try done.
    + rewrite Hcnt, length_app. simpl. lia.
    + rewrite Hcnt. simpl capacity. lia.
    + rewrite Hcnt. simpl. rewrite u32_small, Hh, Z.add_mod_idemp_l by lia. f_equal. lia.
    + intros i m' Hi. change (slot q' (Z.of_nat i)) with (slot q (Z.of_nat i)).
      change (msg_size q') with (msg_size q).
      apply lookup_app_Some in Hi as [Hi|[Hge Hi]]; [by apply Hms1|].
      apply list_lookup_singleton_Some in Hi as [Hi <-].
      assert (Z.of_nat i = count q) as -> by lia. exact Hr1.
Qed.

Lemma pop_runs o q m msgs p dst : queue_ok o q (m :: msgs) → o !! p = Some (Queue q) →
  bytes o dst (msg_size q) → msg_area q dst →
  ∃ o' q', (∀ a, runs (K := K) (queue_pop p dst) a o () a o') ∧
    (∀ x, x ≠ p → x < dst ∨ dst + msg_size q ≤ x → o' !! x = o !! x) ∧
    read_bytes o' dst (Z.to_nat (msg_size q)) = Some m ∧
    o' !! p = Some (Queue q') ∧ same_ring q q' ∧ queue_ok o' q' msgs.
Proof.
  intros Hq Hp Hd Ha. pose proof Hq as [Hs Hf Ht Hc Hb Hh Hby Hms].
  assert (0 < capacity q) as Hcap by lia. assert (capacity q < 2 ^ 32) as Hcap32 by nia.
  assert (read_bytes o (slot q 0) (Z.to_nat (msg_size q)) = Some m) as Hm0 by (by apply (Hms 0%nat)).
  pose proof (read_bytes_length _ _ _ _ Hm0) as Hl.
  set (o1 := write_bytes o dst m).
  set (q' := q <| tail := u32 (tail q + 1) mod capacity q |> <| count := u32 (count q - 1) |>).
  assert (∀ x, x < dst ∨ dst + msg_size q ≤ x → o1 !! x = o !! x) as Ho1.
  { intros x Hx. apply write_bytes_other. rewrite Hl, Z2Nat.id by lia. lia. }
  assert (bytes o dst (Z.of_nat (length m))) as Hd' by (by rewrite Hl, Z2Nat.id by lia).
  assert (o1 !! p = Some (Queue q)) as Hp1 by (by apply write_bytes_queue).
  pose proof (queue_outside _ _ _ _ _ Hq Hp) as Hout.
  assert (queue_slot_ptr q (tail q) = slot q 0) as Hslot.
  { rewrite <- (queue_slot_ptr_slot q 0), Z.add_0_r, (Z.mod_small (tail q)) by lia. done. }
  assert (p < dst ∨ dst + msg_size q ≤ p) as Hpd.
  { destruct (decide (p < dst)); [by left|]. destruct (decide (dst + msg_size q ≤ p)); [by right|].
    destruct (Hd (p - dst)) as [b E]; [lia|]. replace (dst + (p - dst)) with p in E by lia.
    unfold byte_at in E. by rewrite Hp in E. }
  assert (u32 (tail q + 1) = tail q + 1) as Ht1 by (apply u32_small; lia).
  exists (<[p := Queue q']> o1), q'. split_and!.
  - intros a. unfold queue_pop. eapply runs_bind; [by apply runs_load_queue|].
    rewrite Hslot. eapply runs_bind.
    { apply mem_copy_runs; [exact Hm0|..]; rewrite Z2Nat.id by lia; [done|].
      pose proof (msg_slot_apart q dst 0 Hs Hcap Ha) as Hap. unfold apart in *. lia. }
    eapply runs_bind; [by apply runs_upd_queue|].
    eapply runs_eq; [apply runs_upd_queue; by rewrite lookup_insert_eq|done|].
    by rewrite insert_insert_eq.
  - intros x Hx Hxd. rewrite lookup_insert_ne by done. by apply Ho1.
  - rewrite <- (read_write_same o dst m), Hl. fold o1. apply read_bytes_ext.
    intros i Hi. apply lookup_insert_ne. lia.
  - by rewrite lookup_insert_eq.
  - done.
  - apply (queue_ok_ext o).
    2:{ intros x Hx. rewrite lookup_insert_ne by (by intros <-). apply Ho1.
        unfold in_ring in Hx. simpl in Hx. unfold msg_area, apart in Ha. lia. }
    assert (count q' = count q - 1) as Hcnt.
    { simpl. rewrite u32_small; [done|]. simpl in Hc. lia. }
    split; try done.
    + simpl. by apply Z.mod_pos_bound.
    + rewrite Hcnt. simpl in Hc. lia.
    + rewrite Hcnt. simpl capacity. lia.
    + rewrite Hcnt. simpl. rewrite Hh, Ht1, Z.add_mod_idemp_l by lia. f_equal. lia.
    + intros i m' Hi. rewrite <- (Hms (Datatypes.S i) m' Hi).
      f_equal. unfold slot. simpl. rewrite Ht1, Z.add_mod_idemp_l by lia. do 3 f_equal. lia.
Qed.

(** The front index one step back, as the code computes it. *)
Definition front (q : msg_queue_t) : msg_queue_t :=
  if tail q =? 0 then q <| tail := u32 (capacity q - 1) |> else q <| tail := tail q - 1 |>.

Lemma front_tail q : 0 ≤ tail q < capacity q → capacity q < 2 ^ 32 →
  tail (front q) = (tail q - 1) mod capacity q ∧ same_ring q (front q) ∧ count (front q) = count q ∧
  head (front q) = head q.
Proof.
  intros Ht Hc. unfold front. destruct (Z.eqb_spec (tail q) 0) as [E|E]; split_and!; try done; simpl.
  - rewrite u32_small, E by lia. symmetry.
    replace (0 - 1) with (capacity q - 1 + (-1) * capacity q) by lia.
    rewrite Z.mod_add by lia. apply Z.mod_small. lia.
  - symmetry. apply Z.mod_small. lia.
Qed.

Lemma push_front_runs o q msgs p src m : queue_ok o q msgs → o !! p = Some (Queue q) →
  count q < capacity q → read_bytes o src (Z.to_nat (msg_size q)) = Some m → msg_area q src →
  ∃ o' q', (∀ a, runs (K := K) (queue_push_front p src) a o () a o') ∧ only_ring p q o o' ∧
    o' !! p = Some (Queue q') ∧ same_ring q q' ∧ queue_ok o' q' (m :: msgs).
Proof.
  intros Hq Hp Hlt Hm Ha. pose proof Hq as [Hs Hf Ht Hc Hb Hh Hby Hms].
  assert (0 < capacity q) as Hcap by lia. assert (capacity q < 2 ^ 32) as Hcap32 by nia.
  pose proof (read_bytes_length _ _ _ _ Hm) as Hl.
  destruct (front_tail q Ht Hcap32) as (Ht1 & (Eb & Es & Ec) & Ecount & Ehead).
  set (q1 := front q) in *.
  assert (∀ i, slot q1 i = slot q (i - 1)) as Hsl.
  { intros i. unfold slot. rewrite Eb, Es, Ec, Ht1, Z.add_mod_idemp_l by lia. do 3 f_equal. lia. }
  assert (slot q1 0 = slot q (capacity q - 1)) as Hs0.
  { rewrite Hsl. unfold slot. do 2 f_equal.
    replace (tail q + (capacity q - 1)) with (tail q + (0 - 1) + 1 * capacity q) by lia.
    by rewrite Z.mod_add by lia. }
  pose proof (queue_outside _ _ _ _ _ Hq Hp) as Hout.
  set (o2 := <[p := Queue q1]> o).
  assert (∀ x, x ≠ p → o2 !! x = o !! x) as Ho2 by (intros; by apply lookup_insert_ne).
  assert (queue_ok o2 q msgs) as Hq2.
  { apply (queue_ok_ext o); [done|]. intros x Hx. apply Ho2. by intros ->. }
  destruct (write_slot o2 q msgs (capacity q - 1) m Hq2 Hl ltac:(lia)) as (Hq1 & Hr1 & Ho1).
  rewrite <- Hs0 in *. set (o1 := write_bytes o2 (slot q1 0) m) in *.
  set (q' := q1 <| count := u32 (count q1 + 1) |>).
  assert (o2 !! p = Some (Queue q1)) as Hp2 by apply lookup_insert_eq.
  assert (o1 !! p = Some (Queue q1)) as Hp1 by (by rewrite Ho1).
  assert (queue_slot_ptr q1 (tail q1) = slot q1 0) as Hslot.
  { rewrite <- (queue_slot_ptr_slot q1 0) by (rewrite ?Es, ?Ec; done).
    rewrite Z.add_0_r, Z.mod_small; [done|]. rewrite Ht1, Ec. by apply Z.mod_pos_bound. }
  assert (read_bytes o2 src (Z.to_nat (msg_size q)) = Some m) as Hm2.
  { rewrite <- Hm. apply read_bytes_ext. intros i Hi. apply Ho2. intros E.
    assert (is_Some (byte_at o p)) as [b Eb']; [|by unfold byte_at in Eb'; rewrite Hp in Eb'].
    rewrite <- E. by eapply read_bytes_is_byte. }
  exists (<[p := Queue q']> o1), q'. split_and!.
  - intros a. unfold queue_push_front.
    eapply runs_bind; [by apply runs_upd_queue|]. fold (front q). fold q1. fold o2.
    eapply runs_bind; [by apply (runs_load_queue p q1)|]. rewrite Hslot, Es.
    eapply runs_bind.
    { apply mem_copy_runs; [done|..]; rewrite Z2Nat.id by lia.
      - rewrite Hs0. by eapply slot_bytes.
      - rewrite Hs0. by apply msg_slot_apart. }
    by apply (runs_upd_queue p (λ q, q <| count := u32 (count q + 1) |>) q1).
  - intros x Hx Hxr. rewrite lookup_insert_ne by done. rewrite Ho1 by done. by apply Ho2.
  - by rewrite lookup_insert_eq.
  - done.
  - apply (queue_ok_ext o1); [|intros x Hx; apply lookup_insert_ne; intros <-;
      apply Hout; unfold in_ring in *; simpl in Hx; by rewrite Eb, Es, Ec in Hx].
    destruct Hq1 as [_ _ _ _ _ _ Hby1 Hms1].
    assert (count q' = count q + 1) as Hcnt by (simpl; rewrite Ecount, u32_small; lia).
    split; rewrite ?Hcnt; simpl; rewrite ?Eb, ?Es, ?Ec; try done; try lia.
    + rewrite Ht1. by apply Z.mod_pos_bound.
    + rewrite Ehead, Hh, Ht1, Z.add_mod_idemp_l by lia. f_equal. lia.
    + intros [|i] m' Hi.
      * injection Hi as <-. exact Hr1.
      * rewrite <- (Hms1 i m' Hi). f_equal. unfold slot at 1. simpl.
        change (slot q1 (Z.of_nat (Datatypes.S i)) = slot q (Z.of_nat i)).
        rewrite Hsl. f_equal. lia.
Qed.
End ring.

(** ** Sending and receiving *)

Section transfer.
Context {K : Type} `{SchedulerSpec K}.
Notation W := (world K cell).
Implicit Types (w : W) (o : gmap Z cell) (a : asched).

(** [push] adds a message to the ring as [ins] does to the list. *)
Definition pushes (push : ptr → ptr → M W ()) (ins : list Z → list (list Z) → list (list Z)) : Prop :=
  ∀ o q msgs p src m, queue_ok o q msgs → o !! p = Some (Queue q) →
    count q < capacity q → read_bytes o src (Z.to_nat (msg_size q)) = Some m → msg_area q src →
    ∃ o' q', (∀ a, runs (K := K) (push p src) a o () a o') ∧ only_ring p q o o' ∧
      o' !! p = Some (Queue q') ∧ same_ring q q' ∧ queue_ok o' q' (ins m msgs).

Lemma pushes_back : pushes queue_push_back (λ m msgs, msgs ++ [m]).
Proof. intros o q msgs p src m ?????. by apply push_back_runs. Qed.
Lemma pushes_front : pushes queue_push_front (λ m msgs, m :: msgs).
Proof. intros o q msgs p src m ?????. by apply push_front_runs. Qed.

(** The queue at [p] holds [msgs]. *)
Definition holds o (p : ptr) (q : msg_queue_t) (msgs : list (list Z)) : Prop :=
  o !! p = Some (Queue q) ∧ queue_ok o q msgs.

(** A send that finds room: the message is in the queue, and the most urgent
    receiver is made ready. *)
Lemma send_room env push ins o q msgs p src m timeout a : pushes push ins → wf a →
  holds o p q msgs → (length msgs < Z.to_nat (capacity q))%nat →
  read_bytes o src (Z.to_nat (msg_size q)) = Some m → msg_area q src →
  ∃ o' q', runs (K := K) (queue_send_round env push p src timeout ()) a o (inr KERNEL_OK)
      (eff_unblock_one BLOCK_QUEUE_RECV p KERNEL_OK a) o' ∧
    only_ring p q o o' ∧ same_ring q q' ∧ holds o' p q' (ins m msgs).
Proof.
  intros Hpush Hwf [Hp Hq] Hlen Hm Ha. pose proof (queue_count _ _ _ Hq) as Hc.
  destruct (Hpush o q msgs p src m Hq Hp ltac:(lia) Hm Ha) as (o' & q' & Hrun & Hon & Hp' & Hr & Hq').
  exists o', q'. split_and!; [|done..].
  unfold queue_send_round. runs_step. eapply runs_bind; [by apply runs_load_queue|].
  rewrite (proj2 (Z.ltb_lt _ _)) by lia. eapply runs_bind; [apply Hrun|].
  eapply runs_bind; [by apply runs_unblock_one|].
  eapply runs_bind; [apply runs_exit|apply runs_ret].
  - apply wf_cpu_ok with None. by apply unblock_one_eff.
  - by rewrite eff_unblock_one_irq.
Qed.

(** A receive that finds a message: the oldest one is copied out. *)
Lemma receive_some env o q m msgs p dst timeout a : wf a → holds o p q (m :: msgs) →
  bytes o dst (msg_size q) → msg_area q dst →
  ∃ o' q', runs (K := K) (queue_receive_round env p dst timeout ()) a o (inr KERNEL_OK)
      (eff_unblock_one BLOCK_QUEUE_SEND p KERNEL_OK a) o' ∧
    read_bytes o' dst (Z.to_nat (msg_size q)) = Some m ∧
    (∀ x, x ≠ p → x < dst ∨ dst + msg_size q ≤ x → o' !! x = o !! x) ∧
    same_ring q q' ∧ holds o' p q' msgs.
Proof.
  intros Hwf [Hp Hq] Hd Ha. pose proof (queue_count _ _ _ Hq) as Hc. simpl in Hc.
  destruct (pop_runs o q m msgs p dst Hq Hp Hd Ha) as (o' & q' & Hrun & Hon & Hrd & Hp' & Hr & Hq').
  exists o', q'. split_and!; [|done..].
  unfold queue_receive_round. runs_step. eapply runs_bind; [by apply runs_load_queue|].
  rewrite (proj2 (Z.ltb_lt _ _)) by lia. eapply runs_bind; [apply Hrun|].
  eapply runs_bind; [by apply runs_unblock_one|].
  eapply runs_bind; [apply runs_exit|apply runs_ret].
  - apply wf_cpu_ok with None. by apply unblock_one_eff.
  - by rewrite eff_unblock_one_irq.
Qed.

(** Rounds that find nothing to do. *)
Lemma send_full env push w q msgs p src timeout a : wf a → rep (kern w) a →
  holds (objs w) p q msgs → length msgs = Z.to_nat (capacity q) →
  ∃ w1, queue_send_round env push p src timeout () w =
      queue_block env BLOCK_QUEUE_SEND p timeout w1 ∧ rep (kern w1) a ∧ objs w1 = objs w.
Proof.
  intros Hwf Hr [Hp Hq] Hlen. pose proof (queue_count _ _ _ Hq). pose proof (queue_tail _ _ _ Hq).
  unfold queue_send_round.
  destruct (runs_kern (O := cell) _ _ _ _ _ (spec_enter a) w Hr eq_refl) as (w1 & E1 & Hr1 & Ho1).
  run E1. destruct (runs_load_queue p q (mask a) (objs w) Hp w1 Hr1 Ho1) as (w2 & E2 & Hr2 & Ho2).
  run E2. rewrite (proj2 (Z.ltb_ge _ _)) by lia. cbn iota.
  destruct (runs_exit (O := cell) a (objs w) _ (wf_cpu_ok _ _ Hwf) eq_refl w2 Hr2 Ho2)
    as (w3 & E3 & Hr3 & Ho3). run E3. by exists w3.
Qed.

Lemma receive_empty env w q p dst timeout a : wf a → rep (kern w) a → holds (objs w) p q [] →
  ∃ w1, queue_receive_round env p dst timeout () w =
      queue_block env BLOCK_QUEUE_RECV p timeout w1 ∧ rep (kern w1) a ∧ objs w1 = objs w.
Proof.
  intros Hwf Hr [Hp Hq]. pose proof (queue_count _ _ _ Hq) as Hc. simpl in Hc.
  unfold queue_receive_round.
  destruct (runs_kern (O := cell) _ _ _ _ _ (spec_enter a) w Hr eq_refl) as (w1 & E1 & Hr1 & Ho1).
  run E1. destruct (runs_load_queue p q (mask a) (objs w) Hp w1 Hr1 Ho1) as (w2 & E2 & Hr2 & Ho2).
  run E2. rewrite Hc. change (0 <? Z.of_nat 0) with false. cbn iota.
  destruct (runs_exit (O := cell) a (objs w) _ (wf_cpu_ok _ _ Hwf) eq_refl w2 Hr2 Ho2)
    as (w3 & E3 & Hr3 & Ho3). run E3. by exists w3.
Qed.

(** The same from an interrupt handler. *)
Lemma send_isr_room o q msgs p src m a : p ≠ NULL → src ≠ NULL → wf a → holds o p q msgs →
  (length msgs < Z.to_nat (capacity q))%nat → read_bytes o src (Z.to_nat (msg_size q)) = Some m →
  msg_area q src →
  ∃ o' q', runs (K := K) (queue_send_isr p src) a o KERNEL_OK (eff_unblock_one BLOCK_QUEUE_RECV p KERNEL_OK a) o' ∧
    only_ring p q o o' ∧ same_ring q q' ∧ holds o' p q' (msgs ++ [m]).
Proof.
  intros Hp0 Hs0 Hwf [Hp Hq] Hlen Hm Ha. pose proof (queue_count _ _ _ Hq) as Hc.
  destruct (push_back_runs o q msgs p src m Hq Hp ltac:(lia) Hm Ha) as (o' & q' & Hrun & Hon & Hp' & Hr & Hq').
  exists o', q'. split_and!; [|done..]. unfold queue_send_isr.
  rewrite (proj2 (Z.eqb_neq p NULL)), (proj2 (Z.eqb_neq src NULL)) by done. cbn [orb].
  runs_step. eapply runs_bind; [by apply runs_load_queue|].
  rewrite (proj2 (Z.leb_gt _ _)) by lia. eapply runs_bind; [apply Hrun|].
  eapply runs_bind; [by apply runs_unblock_one|].
  eapply runs_bind; [apply runs_exit|apply runs_ret].
  - apply wf_cpu_ok with None. by apply unblock_one_eff.
  - by rewrite eff_unblock_one_irq.
Qed.

Lemma send_isr_full o q msgs p src a : p ≠ NULL → src ≠ NULL → wf a → holds o p q msgs →
  length msgs = Z.to_nat (capacity q) →
  runs (K := K) (queue_send_isr p src) a o KERNEL_ERR_OVERFLOW a o.
Proof.
  intros Hp0 Hs0 Hwf Hh Hlen. unfold queue_send_isr.
  rewrite (proj2 (Z.eqb_neq p NULL)), (proj2 (Z.eqb_neq src NULL)) by done. cbn [orb]. runs_step.
  eapply runs_bind; [apply runs_load_queue, Hh|].
  pose proof (queue_count _ _ _ (proj2 Hh)). pose proof (queue_tail _ _ _ (proj2 Hh)).
  rewrite (proj2 (Z.leb_le _ _)) by lia.
  eapply runs_bind; [apply runs_exit; [apply (wf_cpu_ok _ _ Hwf)|done]|]. apply runs_ret.
Qed.

(** Giving up or sleeping is no success. *)
Lemma queue_block_not_ok env reason p timeout w w' :
  queue_block env reason p timeout w ≠ Ret (inr KERNEL_OK) w'.
Proof using Type.
  unfold queue_block. destruct (timeout =? TIMEOUT_NONE); [done|].
  intros (isr & w1 & _ & E)%bind_ret_inv. destruct isr; [done|].
  apply bind_ret_inv in E as ([] & w2 & _ & E). apply bind_ret_inv in E as (r & w3 & _ & E).
  destruct (Z.eqb_spec r KERNEL_OK); by injection E.
Qed.

Lemma block_poll env reason p a o :
  runs (K := K) (queue_block env reason p TIMEOUT_NONE) a o (inr KERNEL_ERR_TIMEOUT) a o.
Proof. apply runs_ret. Qed.
End transfer.

Section blocking_transfer.
Context {K : Type} `{SchedulerSpec K}.
Notation W := (world K cell).
Context (self : ptr) (E : gmap Z cell → gmap Z cell → Prop) (env : others W).
Context `{HE : !Environment self E env}.
Implicit Types (w : W) (o : gmap Z cell) (a : asched).

Lemma queue_block_spec reason p timeout w a : rep (kern w) a → thread self a →
  ∃ x w' a', queue_block env reason p timeout w = Ret x w' ∧ rep (kern w') a' ∧ thread self a' ∧
    match x with
    | inl _ => E (objs w) (objs w') ∧ tasks_kept a a' ∧ waits_out E env (objs w) (objs w')
    | inr r => r ≠ KERNEL_OK ∧ E (objs w) (objs w')
    end.
Proof using Type*.
  intros Hr Ht. pose proof (env_order (Environment := HE)) as HO. unfold queue_block.
  destruct (Z.eqb_spec timeout TIMEOUT_NONE) as [->|Hto].
  - by exists (inr KERNEL_ERR_TIMEOUT), w, a.
  - destruct (runs_kern (O := cell) _ _ _ _ _ (spec_is_isr a) w Hr eq_refl) as (w1 & E1 & Hr1 & Ho1).
    run E1. rewrite (thread_not_isr self a Ht).
    destruct (between_block_spec self E env reason p timeout w1 a Hr1 Ht)
      as (wb & r & w2 & a2 & Eb & E2 & Hr2 & Ht2 & HE2 & Hk2 & Hs2). run Eb. run E2. rewrite Ho1 in HE2, Hs2.
    destruct (Z.eqb_spec r KERNEL_OK); [by exists (inl ()), w2, a2|by exists (inr r), w2, a2].
Qed.

(** The message [m] entered the queue at a moment when there was room. *)
Definition sent (ins : list Z → list (list Z) → list (list Z)) (p src : ptr) o o' : Prop :=
  ∃ o1 q q' msgs m, E o o1 ∧ holds o1 p q msgs ∧ (length msgs < Z.to_nat (capacity q))%nat ∧
    read_bytes o1 src (Z.to_nat (msg_size q)) = Some m ∧
    holds o' p q' (ins m msgs) ∧ same_ring q q' ∧ only_ring p q o1 o'.

(** The oldest message left the queue and is in the caller's buffer. *)
Definition received (p dst : ptr) o o' : Prop :=
  ∃ o1 q q' m msgs, E o o1 ∧ holds o1 p q (m :: msgs) ∧ holds o' p q' msgs ∧ same_ring q q' ∧
    read_bytes o' dst (Z.to_nat (msg_size q)) = Some m ∧
    (∀ x, x ≠ p → x < dst ∨ dst + msg_size q ≤ x → o' !! x = o1 !! x).

(** The queue and the message area stay in place. *)
Definition sendable (p src : ptr) o : Prop := ∃ q msgs, holds o p q msgs ∧ msg_area q src ∧
  is_Some (read_bytes o src (Z.to_nat (msg_size q))).
Definition receivable (p dst : ptr) o : Prop := ∃ q msgs, holds o p q msgs ∧ msg_area q dst ∧
  bytes o dst (msg_size q).

(** There is room, there is a message. *)
Definition has_room (p : ptr) o : Prop := ∃ q msgs, holds o p q msgs ∧
  (length msgs < Z.to_nat (capacity q))%nat.
Definition has_message (p : ptr) o : Prop := ∃ q m msgs, holds o p q (m :: msgs).

Lemma full_no_room o p q msgs : holds o p q msgs → ¬ (length msgs < Z.to_nat (capacity q))%nat →
  ¬ has_room p o.
Proof using Type.
  intros Hh Hge (q' & msgs' & Hh' & Hlt). assert (q' = q) as ->.
  { destruct Hh, Hh'. congruence. }
  pose proof (queue_count _ _ _ (proj2 Hh)). pose proof (queue_count _ _ _ (proj2 Hh')). lia.
Qed.

Lemma empty_no_message o p q : holds o p q [] → ¬ has_message p o.
Proof using Type.
  intros Hh (q' & m & msgs & Hh'). assert (q' = q) as ->.
  { destruct Hh, Hh'. congruence. }
  pose proof (queue_count _ _ _ (proj2 Hh)) as Hc. pose proof (queue_count _ _ _ (proj2 Hh')) as Hc'.
  simpl in *. lia.
Qed.

Lemma sent_after ins p src o o1 o' : E o o1 → sent ins p src o1 o' → sent ins p src o o'.
Proof using HE.
  intros HE1 (o2 & q & q' & msgs & m & HE2 & ?). pose proof (env_order (Environment := HE)) as HO.
  exists o2, q, q', msgs, m. split; [by etrans|done].
Qed.

Lemma received_after p dst o o1 o' : E o o1 → received p dst o1 o' → received p dst o o'.
Proof using HE.
  intros HE1 (o2 & q & q' & m & msgs & HE2 & ?). pose proof (env_order (Environment := HE)) as HO.
  exists o2, q, q', m, msgs. split; [by etrans|done].
Qed.

(** One round of a send. *)
Lemma send_round_spec push ins p src timeout w a : pushes push ins → rep (kern w) a → thread self a →
  sendable p src (objs w) →
  ∃ x w' a', queue_send_round env push p src timeout () w = Ret x w' ∧ rep (kern w') a' ∧ thread self a' ∧
    match x with
    | inl _ => E (objs w) (objs w') ∧ tasks_kept a a' ∧ waits_out E env (objs w) (objs w') ∧ ¬ has_room p (objs w)
    | inr r => r = KERNEL_OK ∧ sent ins p src (objs w) (objs w') ∨ r ≠ KERNEL_OK ∧ E (objs w) (objs w')
    end.
Proof using Type*.
  intros Hpush Hr Ht (q & msgs & Hh & Ha & [m Hm]). pose proof (env_order (Environment := HE)) as HO.
  destruct (decide (length msgs < Z.to_nat (capacity q))%nat) as [Hlt|Hge].
  - destruct (send_room env push ins (objs w) q msgs p src m timeout a Hpush
      (thread_wf _ _ Ht) Hh Hlt Hm Ha) as (o' & q' & Hrun & Hon & Hsr & Hh').
    destruct (Hrun w Hr eq_refl) as (w' & Ew & Hr' & Ho').
    exists (inr KERNEL_OK), w', (eff_unblock_one BLOCK_QUEUE_RECV p KERNEL_OK a).
    split_and!; [done|done|by apply thread_unblock_one|].
    left. split; [done|]. rewrite Ho'. exists (objs w), q, q', msgs, m. done.
  - pose proof (queue_bound _ _ _ (proj2 Hh)). pose proof (queue_count _ _ _ (proj2 Hh)).
    pose proof (queue_tail _ _ _ (proj2 Hh)).
    destruct (send_full env push w q msgs p src timeout a (thread_wf _ _ Ht) Hr Hh ltac:(lia))
      as (w2 & -> & Hr2 & Ho2).
    destruct (queue_block_spec BLOCK_QUEUE_SEND p timeout w2 a Hr2 Ht)
      as (x & w' & a' & Eb & Hr' & Ht' & HQ). rewrite Ho2 in HQ.
    exists x, w', a'. split_and!; [done..|]. destruct x as [[]|r]; [|by right].
    destruct HQ as (? & ? & ?). split_and!; [done..|]. by eapply full_no_room.
Qed.

(** One round of a receive. *)
Lemma receive_round_spec p dst timeout w a : rep (kern w) a → thread self a → receivable p dst (objs w) →
  ∃ x w' a', queue_receive_round env p dst timeout () w = Ret x w' ∧ rep (kern w') a' ∧ thread self a' ∧
    match x with
    | inl _ => E (objs w) (objs w') ∧ tasks_kept a a' ∧ waits_out E env (objs w) (objs w') ∧ ¬ has_message p (objs w)
    | inr r => r = KERNEL_OK ∧ received p dst (objs w) (objs w') ∨ r ≠ KERNEL_OK ∧ E (objs w) (objs w')
    end.
Proof using Type*.
  intros Hr Ht (q & msgs & Hh & Ha & Hd). pose proof (env_order (Environment := HE)) as HO.
  destruct msgs as [|m msgs].
  - destruct (receive_empty env w q p dst timeout a (thread_wf _ _ Ht) Hr Hh)
      as (w2 & -> & Hr2 & Ho2).
    destruct (queue_block_spec BLOCK_QUEUE_RECV p timeout w2 a Hr2 Ht)
      as (x & w' & a' & Eb & Hr' & Ht' & HQ). rewrite Ho2 in HQ.
    exists x, w', a'. split_and!; [done..|]. destruct x as [[]|r]; [|by right].
    destruct HQ as (? & ? & ?). split_and!; [done..|]. by eapply empty_no_message.
  - destruct (receive_some env (objs w) q m msgs p dst timeout a (thread_wf _ _ Ht) Hh Hd Ha)
      as (o' & q' & Hrun & Hrd & Hon & Hsr & Hh').
    destruct (Hrun w Hr eq_refl) as (w' & Ew & Hr' & Ho').
    exists (inr KERNEL_OK), w', (eff_unblock_one BLOCK_QUEUE_SEND p KERNEL_OK a).
    split_and!; [done|done|by apply thread_unblock_one|].
    left. split; [done|]. rewrite Ho'. exists (objs w), q, q', m, msgs. done.
Qed.

Lemma send_linearizable push ins fuel p src timeout w a : pushes push ins →
  rep (kern w) a → thread self a → (∀ o', E (objs w) o' → sendable p src o') →
  safe (loop fuel (queue_send_round env push p src timeout) ()) (λ r w',
    (∃ a', rep (kern w') a' ∧ thread self a') ∧
    (r = KERNEL_OK ∧ sent ins p src (objs w) (objs w') ∨ r ≠ KERNEL_OK ∧ E (objs w) (objs w'))) w ∧
  ∀ rank, fruitful E env (has_room p) rank (objs w) → (rank (objs w) + 1 < fuel)%nat →
    ∃ r w', loop fuel (queue_send_round env push p src timeout) () w = Ret r w'.
Proof using Type*.
  intros Hpush Hr Ht Hs. pose proof (env_order (Environment := HE)) as HO.
  apply (retry_spec self E env _ (has_room p) (λ r o', r = KERNEL_OK ∧ sent ins p src (objs w) o' ∨
    r ≠ KERNEL_OK ∧ E (objs w) o') fuel w a); [|done..].
  intros w1 a1 Hr1 Ht1 HE1 _.
  destruct (send_round_spec push ins p src timeout w1 a1 Hpush Hr1 Ht1 (Hs _ HE1)) as (x & w' & a' & Ex & Hr' & Ht' & HQ).
  exists x, w', a'. split_and!; [done..|]. destruct x as [[]|r]; [done|].
  destruct HQ as [[? HQ]|[? HQ]]; [left|right]; (split; [done|]); [by eapply sent_after|by etrans].
Qed.

Lemma receive_linearizable fuel p dst timeout w a :
  rep (kern w) a → thread self a → (∀ o', E (objs w) o' → receivable p dst o') →
  safe (loop fuel (queue_receive_round env p dst timeout) ()) (λ r w',
    (∃ a', rep (kern w') a' ∧ thread self a') ∧
    (r = KERNEL_OK ∧ received p dst (objs w) (objs w') ∨ r ≠ KERNEL_OK ∧ E (objs w) (objs w'))) w ∧
  ∀ rank, fruitful E env (has_message p) rank (objs w) → (rank (objs w) + 1 < fuel)%nat →
    ∃ r w', loop fuel (queue_receive_round env p dst timeout) () w = Ret r w'.
Proof using Type*.
  intros Hr Ht Hs. pose proof (env_order (Environment := HE)) as HO.
  apply (retry_spec self E env _ (has_message p) (λ r o', r = KERNEL_OK ∧ received p dst (objs w) o' ∨
    r ≠ KERNEL_OK ∧ E (objs w) o') fuel w a); [|done..].
  intros w1 a1 Hr1 Ht1 HE1 _.
  destruct (receive_round_spec p dst timeout w1 a1 Hr1 Ht1 (Hs _ HE1)) as (x & w' & a' & Ex & Hr' & Ht' & HQ).
  exists x, w', a'. split_and!; [done..|]. destruct x as [[]|r]; [done|].
  destruct HQ as [[? HQ]|[? HQ]]; [left|right]; (split; [done|]); [by eapply received_after|by etrans].
Qed.
End blocking_transfer.

(** ** Sequences of transfers *)

Section sequences.
Context {K : Type} `{SchedulerSpec K}.
Notation W := (world K cell).
Context (env : others W).
Implicit Types (w : W) (o : gmap Z cell) (a : asched).

Lemma runs_loop_once {R} (body : () → M W (() + R)) n a o r a' o' :
  runs (K := K) (body ()) a o (inr r) a' o' → runs (K := K) (loop (Datatypes.S n) body ()) a o r a' o'.
Proof.
  intros Hb w Hr Ho. destruct (Hb w Hr Ho) as (w' & E & ?). exists w'.
  by rewrite (loop_done _ _ _ _ _ _ E).
Qed.

(** Sends from each of [srcs], without waiting. *)
Fixpoint send_all (p : ptr) (srcs : list ptr) : M W () :=
  match srcs with
  | [] => mret ()
  | src :: srcs' => queue_send env 1 p src TIMEOUT_NONE ;; send_all p srcs'
  end.

(** [n] receives through the buffer [dst], looking at each message. *)
Fixpoint receive_all (p dst : ptr) (size : nat) (n : nat) : M W (list (list Z)) :=
  match n with
  | O => mret []
  | Datatypes.S n' =>
      queue_receive env 1 p dst TIMEOUT_NONE ;;
      m ← gets (λ w, default [] (read_bytes (objs w) dst size));
      ms ← receive_all p dst size n';
      mret (m :: ms)
  end.

(** Outside the ring and the queue structure memory is unchanged. *)
Lemma only_ring_read p q q0 o o' x n m : only_ring p q o o' → o !! p = Some (Queue q0) →
  apart (buffer q) (msg_size q * capacity q) x (Z.of_nat n) → read_bytes o x n = Some m →
  read_bytes o' x n = Some m.
Proof.
  intros Hon Hp Ha Hm. rewrite <- Hm. apply read_bytes_ext. intros i Hi. apply Hon.
  - intros E. destruct (read_bytes_is_byte o x n m i Hm Hi) as [b Eb]. rewrite E in Eb.
    unfold byte_at in Eb. by rewrite Hp in Eb.
  - unfold in_ring, apart in *. lia.
Qed.

Lemma send_all_runs p srcs o q msgs ms a : p ≠ NULL → wf a → holds o p q msgs →
  (length msgs + length srcs ≤ Z.to_nat (capacity q))%nat →
  Forall2 (λ src m, src ≠ NULL ∧ msg_area q src ∧
    read_bytes o src (Z.to_nat (msg_size q)) = Some m) srcs ms →
  ∃ a' o' q', runs (K := K) (send_all p srcs) a o () a' o' ∧ wf a' ∧ same_ring q q' ∧
    holds o' p q' (msgs ++ ms) ∧ only_ring p q o o'.
Proof using Type*.
  intros Hn. revert o q msgs ms a. induction srcs as [|src srcs IH]; intros o q msgs ms a Hwf Hh Hlen Hms.
  - apply Forall2_nil_inv_l in Hms as ->. exists a, o, q. rewrite app_nil_r.
    split_and!; try done. apply runs_ret.
  - apply Forall2_cons_inv_l in Hms as (m & ms' & (Hs0 & Ha & Hm) & Hms & ->). simpl in Hlen.
    destruct (send_room env _ _ o q msgs p src m TIMEOUT_NONE a pushes_back Hwf Hh ltac:(lia) Hm Ha)
      as (o1 & q1 & Hrun & Hon & Hsr & Hh1). pose proof Hsr as (Eb & Es & Ec).
    assert (wf (eff_unblock_one BLOCK_QUEUE_RECV p KERNEL_OK a)) as Hwf1 by (by apply unblock_one_eff).
    pose proof (queue_size _ _ _ (proj2 Hh)) as Hsz.
    destruct (IH o1 q1 (msgs ++ [m]) ms' _ Hwf1 Hh1) as (a' & o' & q' & Hrun' & Hwf' & Hsr' & Hh' & Hon').
    + rewrite Ec, length_app. simpl. lia.
    + eapply Forall2_impl; [exact Hms|]. intros s m' (? & Ha' & Hm'). unfold msg_area in *.
      rewrite Eb, Es, Ec. split_and!; try done.
      eapply only_ring_read; [exact Hon|apply Hh| |done]. by rewrite Z2Nat.id by lia.
    + exists a', o', q'. rewrite <- app_assoc in Hh'. destruct Hsr' as (E1 & E2 & E3).
      split_and!; try done; try congruence.
      * simpl. eapply runs_bind; [|exact Hrun']. unfold queue_send.
        rewrite (proj2 (Z.eqb_neq p NULL)), (proj2 (Z.eqb_neq src NULL)) by done.
        apply runs_loop_once. exact Hrun.
      * unfold same_ring. split_and!; congruence.
      * intros x Hx Hr. rewrite Hon', Hon; [done..|]. unfold in_ring in *. by rewrite Eb, Es, Ec.
Qed.

Lemma receive_all_runs p dst o q msgs a : p ≠ NULL → dst ≠ NULL → wf a → holds o p q msgs →
  bytes o dst (msg_size q) → msg_area q dst →
  ∃ a' o' q', runs (K := K) (receive_all p dst (Z.to_nat (msg_size q)) (length msgs)) a o msgs a' o' ∧
    wf a' ∧ same_ring q q' ∧ holds o' p q' [].
Proof using Type*.
  intros Hn Hd0. revert o q a. induction msgs as [|m msgs IH]; intros o q a Hwf Hh Hd Ha.
  - exists a, o, q. split_and!; try done. apply runs_ret.
  - destruct (receive_some env o q m msgs p dst TIMEOUT_NONE a Hwf Hh Hd Ha)
      as (o1 & q1 & Hrun & Hrd & Hon & Hsr & Hh1). pose proof Hsr as (Eb & Es & Ec).
    assert (wf (eff_unblock_one BLOCK_QUEUE_SEND p KERNEL_OK a)) as Hwf1 by (by apply unblock_one_eff).
    pose proof (queue_size _ _ _ (proj2 Hh)) as Hsz.
    destruct (IH o1 q1 _ Hwf1 Hh1) as (a' & o' & q' & Hrun' & Hwf' & Hsr' & Hh').
    + rewrite Es. intros i Hi. eapply read_bytes_is_byte; [exact Hrd|]. lia.
    + unfold msg_area in *. by rewrite Eb, Es, Ec.
    + exists a', o', q'. destruct Hsr' as (E1 & E2 & E3).
      rewrite Es in Hrun'.
      split_and!; try done; [|unfold same_ring; split_and!; congruence].
      simpl. eapply runs_bind.
      { unfold queue_receive.
        rewrite (proj2 (Z.eqb_neq p NULL)), (proj2 (Z.eqb_neq dst NULL)) by done.
        apply runs_loop_once. exact Hrun. }
      eapply (runs_bind _ _ _ _ m _ o1).
      { intros w Hr Ho. exists w. unfold gets. by rewrite Ho, Hrd. }
      eapply runs_bind; [exact Hrun'|]. apply runs_ret.
Qed.
End sequences.

(** ** Properties *)

Section properties.
Context {K : Type} `{SchedulerSpec K}.
Notation W := (world K cell).
Implicit Types (w : W) (o : gmap Z cell) (a : asched).

(** C40: Sending is atomic: whatever the environment does while the caller
    sleeps or is interrupted, a [queue_send] that returns [KERNEL_OK] has appended exactly the
    caller's message, at a moment when there was room ([queue_send_front] has
    put it first), writing nothing outside the ring, and a call that returns an
    error has not touched the queue.  The calls return if the caller is woken
    in vain, while the queue is full, only a bounded number of times. *)
Theorem queue_send_atomic self E env `{!Environment self E env} fuel p src timeout w a :
  p ≠ NULL → src ≠ NULL → rep (kern w) a → thread self a →
  (∀ o', E (objs w) o' → sendable p src o') →
  let ok ins r w' := (∃ a', rep (kern w') a' ∧ thread self a') ∧
    (r = KERNEL_OK ∧ sent E ins p src (objs w) (objs w') ∨ r ≠ KERNEL_OK ∧ E (objs w) (objs w')) in
  safe (queue_send env fuel p src timeout) (ok (λ m msgs, msgs ++ [m])) w ∧
  safe (queue_send_front env fuel p src timeout) (ok (λ m msgs, m :: msgs)) w ∧
  ∀ rank, fruitful E env (has_room p) rank (objs w) → (rank (objs w) + 1 < fuel)%nat →
    (∃ r w', queue_send env fuel p src timeout w = Ret r w') ∧
    (∃ r w', queue_send_front env fuel p src timeout w = Ret r w').
Proof.
  intros Hp Hs Hr Ht HE ok. unfold queue_send, queue_send_front.
  rewrite (proj2 (Z.eqb_neq p NULL)), (proj2 (Z.eqb_neq src NULL)) by done.
  destruct (send_linearizable self E env _ _ fuel p src timeout w a pushes_back Hr Ht HE) as [??].
  destruct (send_linearizable self E env _ _ fuel p src timeout w a pushes_front Hr Ht HE) as [??].
  split_and!; [done..|]. intros rank ??. split; eauto.
Qed.

(** Receiving is atomic: a [queue_receive] that returns [KERNEL_OK] has
    taken the oldest message out of the queue, at a moment when there was one,
    and the caller's buffer holds exactly its bytes; nothing else in memory
    changed at that moment.  A call that returns an error has not touched the
    queue.  The call returns if the caller is woken in vain, while the queue is
    empty, only a bounded number of times. *)
Theorem queue_receive_atomic self E env `{!Environment self E env} fuel p dst timeout w a :
  p ≠ NULL → dst ≠ NULL → rep (kern w) a → thread self a →
  (∀ o', E (objs w) o' → receivable p dst o') →
  safe (queue_receive env fuel p dst timeout) (λ r w',
    (∃ a', rep (kern w') a' ∧ thread self a') ∧
    (r = KERNEL_OK ∧ received E p dst (objs w) (objs w') ∨ r ≠ KERNEL_OK ∧ E (objs w) (objs w'))) w ∧
  ∀ rank, fruitful E env (has_message p) rank (objs w) → (rank (objs w) + 1 < fuel)%nat →
    ∃ r w', queue_receive env fuel p dst timeout w = Ret r w'.
Proof.
  intros Hp Hs Hr Ht HE. unfold queue_receive.
  rewrite (proj2 (Z.eqb_neq p NULL)), (proj2 (Z.eqb_neq dst NULL)) by done.
  by apply (receive_linearizable self E env fuel p dst timeout w a).
Qed.

(** C30: First in, first out: sending messages from [srcs] as far as there is
    room and then receiving everything yields, byte for byte, what was in the
    queue followed by the messages sent, in order, and leaves the queue empty;
    the ring wraps around wherever the tail happens to be. *)
Theorem queue_fifo env p srcs dst w a q msgs ms : rep (kern w) a → wf a → p ≠ NULL → dst ≠ NULL →
  holds (objs w) p q msgs → (length msgs + length srcs ≤ Z.to_nat (capacity q))%nat →
  Forall2 (λ src m, src ≠ NULL ∧ msg_area q src ∧
    read_bytes (objs w) src (Z.to_nat (msg_size q)) = Some m) srcs ms →
  bytes (objs w) dst (msg_size q) → msg_area q dst →
  ∃ w' q', (send_all env p srcs ;;
      receive_all env p dst (Z.to_nat (msg_size q)) (length (msgs ++ ms))) w =
    Ret (msgs ++ ms) w' ∧ holds (objs w') p q' [].
Proof.
  intros Hr Hwf Hp Hd Hh Hlen Hms Hb Ha.
  destruct (send_all_runs env p srcs (objs w) q msgs ms a Hp Hwf Hh Hlen Hms)
    as (a1 & o1 & q1 & Hrun1 & Hwf1 & (Eb & Es & Ec) & Hh1 & Hon).
  pose proof (queue_size _ _ _ (proj2 Hh)) as Hsz.
  destruct (receive_all_runs env p dst o1 q1 (msgs ++ ms) a1 Hp Hd Hwf1 Hh1)
    as (a2 & o2 & q2 & Hrun2 & Hwf2 & _ & Hh2).
  - rewrite Es. intros i Hi. destruct (Hb i Hi) as [b Eb']. exists b. unfold byte_at in *.
    rewrite Hon; [done|..].
    + intros E. rewrite E, (proj1 Hh) in Eb'. done.
    + unfold in_ring, msg_area, apart in *. lia.
  - unfold msg_area in *. by rewrite Eb, Es, Ec.
  - rewrite Es in Hrun2.
    destruct (runs_bind _ (λ _, receive_all env p dst (Z.to_nat (msg_size q)) (length (msgs ++ ms)))
      _ _ _ _ _ _ _ _ Hrun1 Hrun2 w Hr eq_refl) as (w' & Ew & _ & Ho').
    exists w', q2. split; [exact Ew|]. by rewrite Ho'.
Qed.

(** A full queue refuses and an empty one has nothing to give: without
    waiting, [queue_send] on a full queue and [queue_receive] on an empty one
    report [KERNEL_ERR_TIMEOUT], and [queue_send_isr] on a full queue
    [KERNEL_ERR_OVERFLOW]; scheduler and memory are as before. *)
Theorem queue_full_or_empty env p msg w a q msgs fuel : rep (kern w) a → wf a →
  p ≠ NULL → msg ≠ NULL → (0 < fuel)%nat → holds (objs w) p q msgs →
  (length msgs = Z.to_nat (capacity q) →
    (∃ w', queue_send env fuel p msg TIMEOUT_NONE w = Ret KERNEL_ERR_TIMEOUT w' ∧
      rep (kern w') a ∧ objs w' = objs w) ∧
    (∃ w', queue_send_isr p msg w = Ret KERNEL_ERR_OVERFLOW w' ∧
      rep (kern w') a ∧ objs w' = objs w)) ∧
  (msgs = [] → ∃ w', queue_receive env fuel p msg TIMEOUT_NONE w = Ret KERNEL_ERR_TIMEOUT w' ∧
      rep (kern w') a ∧ objs w' = objs w).
Proof.
  intros Hr Hwf Hp Hm Hf Hh. destruct fuel as [|fuel]; [lia|].
  assert ((p =? NULL) || (msg =? NULL) = false) as Hnn.
  { by rewrite (proj2 (Z.eqb_neq p NULL)), (proj2 (Z.eqb_neq msg NULL)). }
  split; [intros Hlen; split|intros ->].
  - destruct (send_full env queue_push_back w q msgs p msg TIMEOUT_NONE a Hwf Hr Hh Hlen)
      as (w1 & E1 & Hr1 & Ho1). exists w1. unfold queue_send. rewrite Hnn.
    split; [|done]. eapply loop_done. by rewrite E1.
  - pose proof (send_isr_full (objs w) q msgs p msg a Hp Hm Hwf Hh Hlen) as Hrun.
    destruct (Hrun w Hr eq_refl) as (w' & ? & ? & ?). by exists w'.
  - destruct (receive_empty env w q p msg TIMEOUT_NONE a Hwf Hr Hh) as (w1 & E1 & Hr1 & Ho1).
    exists w1. unfold queue_receive. rewrite Hnn.
    split; [|done]. eapply loop_done. by rewrite E1.
Qed.

(** Undisturbed, [queue_reset] leaves the queue empty with its ring unchanged and
    every waiter of it woken with [KERNEL_ERR_STATE]; nothing else in memory is
    touched. *)
Theorem queue_reset_empties env p w a q msgs : between env = mret () → rep (kern w) a → wf a →
  p ≠ NULL → holds (objs w) p q msgs →
  let a' := eff_unblock_all BLOCK_QUEUE_RECV p KERNEL_ERR_STATE
    (eff_unblock_all BLOCK_QUEUE_SEND p KERNEL_ERR_STATE a) in
  let q' := q <| head := 0 |> <| tail := 0 |> <| count := 0 |> in
  ∃ w', queue_reset env p w = Ret KERNEL_OK w' ∧ rep (kern w') a' ∧ wf a' ∧
    objs w' = <[p := Queue q']> (objs w) ∧ holds (objs w') p q' [] ∧ same_ring q q' ∧
    ∀ x, x ∈ a_blocked a' → waits a' BLOCK_QUEUE_RECV p x = false.
Proof.
  intros Henv Hr Hwf Hp [Ho Hok] a' q'.
  destruct (unblock_all_eff BLOCK_QUEUE_SEND p KERNEL_ERR_STATE a Hwf) as [_ Hwf1].
  destruct (unblock_all_eff BLOCK_QUEUE_RECV p KERNEL_ERR_STATE _ Hwf1) as [_ Hwf2].
  assert (runs (K := K) (queue_reset env p) a (objs w) KERNEL_OK a' (<[p := Queue q']> (objs w))) as Hrun.
  { unfold queue_reset. rewrite (proj2 (Z.eqb_neq p NULL)), Henv by done.
    eapply runs_bind; [by apply runs_upd_queue|]. eapply runs_bind; [apply runs_ret|].
    eapply runs_bind; [apply runs_upd_queue, lookup_insert_eq|]. eapply runs_bind; [apply runs_ret|].
    eapply runs_bind; [apply runs_upd_queue, lookup_insert_eq|]. eapply runs_bind; [apply runs_ret|].
    eapply runs_bind; [by apply runs_kern, spec_unblock_all|]. eapply runs_bind; [apply runs_ret|].
    eapply runs_bind; [by apply runs_kern, spec_unblock_all|].
    eapply runs_eq; [apply runs_ret|done|]. by rewrite !insert_insert_eq. }
  destruct (Hrun w Hr eq_refl) as (w' & Ew & Hr' & Eo). exists w'. rewrite Eo.
  split_and!; try done.
  - split; [apply lookup_insert_eq|]. destruct Hok as [Hs Hf Ht Hc Hb Hh Hby Hm]. subst q'. split; simpl; try done; try lia.
    + intros i Hi. destruct (Hby i Hi) as [b E]. exists b. unfold byte_at in *.
      rewrite lookup_insert_ne; [done|]. intros Ep. by rewrite <- Ep, Ho in E.
  - intros x Hx. by apply unblock_all_no_waiter.
Qed.
End properties.

(** ** The theorems on the example system *)

(** A queue of three messages of two bytes at [OBJ] that holds one message, in
    the last slot, and three message areas. *)
Definition RING : ptr := 0x1000.
Definition MSG1 : ptr := 0x2000.
Definition MSG2 : ptr := 0x2010.
Definition DEST : ptr := 0x3000.

Definition queue_example : msg_queue_t := mkQueue RING 2 3 0 2 1 NULL NULL NULL NULL.
Definition queue_memory : gmap Z cell :=
  <[OBJ := Queue queue_example]> (write_bytes (write_bytes (write_bytes (write_bytes ∅
    RING [0; 0; 0; 0; 1; 2]) MSG1 [3; 4]) MSG2 [5; 6]) DEST [0; 0]).
Definition queue_world : world sched cell := mkWorld example_boot queue_memory.

(** A full queue, at [OBJ], and an empty one. *)
Definition queue_full : msg_queue_t := mkQueue RING 2 3 2 2 3 NULL NULL NULL NULL.
Definition queue_full_world : world sched cell :=
  mkWorld example_boot (<[OBJ := Queue queue_full]> queue_memory).

Ltac small_index i :=
  let H := fresh in
  assert (i = 0 ∨ i = 1 ∨ i = 2 ∨ i = 3 ∨ i = 4 ∨ i = 5) as H by lia;
  repeat (destruct H as [H|H]); subst i.

Lemma queue_example_ring o : (∀ x, 0x1000 ≤ x < 0x1006 → o !! x = queue_memory !! x) →
  bytes o RING 6.
Proof.
  intros Ho i Hi. unfold byte_at. rewrite Ho by (unfold RING; lia).
  small_index i; eexists; vm_compute; reflexivity.
Qed.

Lemma queue_example_holds : holds queue_memory OBJ queue_example [[1; 2]].
Proof.
  split; [reflexivity|]. split; try (vm_compute; intuition congruence).
  - by apply queue_example_ring.
  - intros [|[|i]] m; [|done|done]. intros [= <-]. vm_compute. reflexivity.
Qed.

Lemma queue_full_holds :
  holds (<[OBJ := Queue queue_full]> queue_memory) OBJ queue_full [[1; 2]; [0; 0]; [0; 0]].
Proof.
  split; [reflexivity|]. split; try (vm_compute; intuition congruence).
  - apply queue_example_ring. intros x Hx. apply lookup_insert_ne. unfold OBJ. lia.
  - intros [|[|[|i]]] m; [..|done]; intros [= <-]; vm_compute; reflexivity.
Qed.

(** While the caller sleeps it is woken and the memory stays. *)
Definition queue_env : others (world sched cell) := example_env HIGH KERNEL_OK (λ o, o).

Lemma queue_env_same o o' : repeated (λ o : gmap Z cell, o) o o' → o' = o.
Proof. intros [n ->]. by induction n. Qed.

Lemma queue_dest_bytes : bytes queue_memory DEST 2.
Proof.
  intros i Hi. assert (i = 0 ∨ i = 1) as [->| ->] by lia; eexists; vm_compute; reflexivity.
Qed.

Lemma queue_send_atomic_witness :
  let ok ins r w' := (∃ a', rep (kern w') a' ∧ thread HIGH a') ∧
    (r = KERNEL_OK ∧ sent (repeated (λ o, o)) ins OBJ MSG1 (objs queue_world) (objs w') ∨
     r ≠ KERNEL_OK ∧ repeated (λ o, o) (objs queue_world) (objs w')) in
  safe (queue_send queue_env 3 OBJ MSG1 10) (ok (λ m msgs, msgs ++ [m])) queue_world ∧
  safe (queue_send_front queue_env 3 OBJ MSG1 10) (ok (λ m msgs, m :: msgs)) queue_world ∧
  ∃ r w', queue_send queue_env 3 OBJ MSG1 10 queue_world = Ret r w'.
Proof.
  destruct (queue_send_atomic HIGH (repeated (λ o, o)) queue_env 3 OBJ MSG1 10 queue_world
    example_boot_abs) as (Hs & Hf & Hr).
  - done.
  - done.
  - apply example_boot_rep.
  - apply example_thread_high.
  - intros o' ->%queue_env_same. exists queue_example, [[1; 2]].
    split_and!; [apply queue_example_holds|vm_compute; left; discriminate|].
    eexists. vm_compute. reflexivity.
  - split_and!; [exact Hs|exact Hf|]. apply (Hr (λ _, 0%nat)); [|simpl; lia].
    intros o1 o2 H0%queue_env_same. split; [done|]. intros (_ & v & v' & Hv & <- & <-). split; [done|]. left.
    apply example_away_objs in Hv. rewrite Hv, H0.
    exists queue_example, [[1; 2]]. split; [apply queue_example_holds|]. vm_compute. lia.
Defined.

Lemma queue_receive_atomic_witness :
  safe (queue_receive queue_env 3 OBJ DEST 10) (λ r w',
    (∃ a', rep (kern w') a' ∧ thread HIGH a') ∧
    (r = KERNEL_OK ∧ received (repeated (λ o, o)) OBJ DEST (objs queue_world) (objs w') ∨
     r ≠ KERNEL_OK ∧ repeated (λ o, o) (objs queue_world) (objs w'))) queue_world ∧
  ∃ r w', queue_receive queue_env 3 OBJ DEST 10 queue_world = Ret r w'.
Proof.
  destruct (queue_receive_atomic HIGH (repeated (λ o, o)) queue_env 3 OBJ DEST 10 queue_world
    example_boot_abs) as [Hs Hr].
  - done.
  - done.
  - apply example_boot_rep.
  - apply example_thread_high.
  - intros o' ->%queue_env_same. exists queue_example, [[1; 2]].
    split_and!; [apply queue_example_holds|vm_compute; left; discriminate|apply queue_dest_bytes].
  - split; [exact Hs|]. apply (Hr (λ _, 0%nat)); [|simpl; lia].
    intros o1 o2 H0%queue_env_same. split; [done|]. intros (_ & v & v' & Hv & <- & <-). split; [done|]. left.
    apply example_away_objs in Hv. rewrite Hv, H0.
    exists queue_example, [1; 2], []. apply queue_example_holds.
Defined.

Lemma queue_fifo_witness :
  ∃ w' q', (send_all queue_env OBJ [MSG1; MSG2] ;; receive_all queue_env OBJ DEST 2 3) queue_world =
    Ret [[1; 2]; [3; 4]; [5; 6]] w' ∧ holds (objs w') OBJ q' [].
Proof.
  apply (queue_fifo queue_env OBJ [MSG1; MSG2] DEST queue_world example_boot_abs queue_example
    [[1; 2]] [[3; 4]; [5; 6]]).
  - apply example_boot_rep.
  - apply example_boot_wf.
  - done.
  - done.
  - apply queue_example_holds.
  - vm_compute. lia.
  - repeat constructor; try done; vm_compute; try discriminate; left; discriminate.
  - apply queue_dest_bytes.
  - vm_compute. left. discriminate.
Defined.

Lemma queue_full_or_empty_witness :
  (∃ w', queue_send queue_env 1 OBJ MSG1 TIMEOUT_NONE queue_full_world = Ret KERNEL_ERR_TIMEOUT w' ∧
    rep (kern w') example_boot_abs ∧ objs w' = objs queue_full_world) ∧
  (∃ w', queue_send_isr OBJ MSG1 queue_full_world = Ret KERNEL_ERR_OVERFLOW w' ∧
    rep (kern w') example_boot_abs ∧ objs w' = objs queue_full_world).
Proof.
  apply (queue_full_or_empty queue_env OBJ MSG1 queue_full_world example_boot_abs queue_full
    [[1; 2]; [0; 0]; [0; 0]] 1).
  - apply example_boot_rep.
  - apply example_boot_wf.
  - done.
  - done.
  - lia.
  - apply queue_full_holds.
  - reflexivity.
Defined.

(** [queue_reset] is no critical section: a message an interrupt handler sends
    while it works leaves a queue whose head and tail disagree with its count.  A
    message sent after the reset is then not the one received: the ring hands out
    what it held before. *)
Example queue_reset_torn :
  let env := mkOthers (q ← load_queue OBJ; if count q =? 1 then queue_send_isr OBJ MSG1 ;; mret () else mret ())
    (mret ()) in
  let w := final (queue_reset env OBJ) queue_world in
  let w' := final (queue_send (mkOthers (mret ()) (mret ())) 1 OBJ MSG2 TIMEOUT_NONE ;;
    queue_receive (mkOthers (mret ()) (mret ())) 1 OBJ DEST TIMEOUT_NONE) w in
  (λ o, match o with Some (Queue q) => Some (head q, tail q, count q) | _ => None end) (objs w !! OBJ) =
    Some (1, 0, 0) ∧
  read_bytes (objs w') MSG2 2 = Some [5; 6] ∧ read_bytes (objs w') DEST 2 = Some [3; 4].
Proof. vm_compute. intuition reflexivity. Qed.
