(* ===== verification/MutexTrace.v ===== *)
(** * Mutual exclusion among all tasks

    All the calls of [kernel/sync/mutex.c] on one mutex, by any of the tasks in
    any order, with anything that leaves the mutex alone in between: scheduling,
    ticks, calls on other objects. *)
From S2P Require Import Prelude Config Task Critical Bitmap TcbList Scheduler SchedSpec.
From S2P Require Import SchedInv SchedEffect SchedIface Sync Trace Example Mutex.

Inductive mutex_label : Set :=
| Locked (t : ptr)
| Unlocked (t : ptr)
| Silent.

#[export] Instance mutex_label_eq_dec : EqDecision mutex_label.
Proof. solve_decision. Defined.

(** [t] does the step. *)
Definition by_task (t : ptr) (l : mutex_label) : Prop := l = Locked t ∨ l = Unlocked t.
#[export] Instance by_task_dec t l : Decision (by_task t l).
Proof. unfold by_task. apply _. Defined.

(** How many locks of [t] are not undone. *)
Definition depth_change (t : ptr) (l : mutex_label) : Z :=
  match l with
  | Locked u => if u =? t then 1 else 0
  | Unlocked u => if u =? t then -1 else 0
  | Silent => 0
  end.
Definition depth (t : ptr) (ls : list mutex_label) : Z := foldr (λ l d, depth_change t l + d) 0 ls.

(** Nobody ever nests locks deeper than the counter counts. *)
Definition shallow (ls : list mutex_label) : Prop := ∀ t pre, pre `prefix_of` ls → depth t pre ≤ 255.

Lemma depth_snoc t ls l : depth t (ls ++ [l]) = depth t ls + depth_change t l.
Proof. induction ls as [|l' ls IH]; simpl; [lia|]. rewrite IH. lia. Qed.

Lemma shallow_prefix ls l : shallow (ls ++ [l]) → shallow ls.
Proof. intros H t pre Hp. apply H. by apply prefix_app_r. Qed.

Section mutex_traces.
Context {K : Type} `{SchedulerSpec K}.
Notation W := (world K mutex_t).
Context (tasks : list ptr) (mtx : ptr) (Hmtx : mtx ≠ NULL).
Implicit Types (w : W) (o : gmap Z mutex_t) (a : asched).

(** A call by the running task, or something that leaves the mutex alone.
    Between the steps the scheduler may have got into any consistent state. *)
Inductive mutex_step : mutex_label → gmap Z mutex_t → gmap Z mutex_t → Prop :=
| step_trylock t w w' a r : t ∈ tasks → rep (kern w) a → thread t a →
    mutex_trylock mtx w = Ret r w' →
    mutex_step (if r =? KERNEL_OK then Locked t else Silent) (objs w) (objs w')
| step_unlock t w w' a r : t ∈ tasks → rep (kern w) a → thread t a →
    mutex_unlock mtx w = Ret r w' →
    mutex_step (if r =? KERNEL_OK then Unlocked t else Silent) (objs w) (objs w')
| step_other o o' : o' !! mtx = o !! mtx → mutex_step Silent o o'.

(** The mutex is well formed and its owner is one of the tasks. *)
Definition sound o (m : mutex_t) : Prop :=
  o !! mtx = Some m ∧ mutex_ok m ∧ (owner m = NULL ∨ owner m ∈ tasks).

(** What a step does to the mutex. *)
Definition moves (l : mutex_label) (m m' : mutex_t) : Prop :=
  match l with
  | Locked t => t ∈ tasks ∧ t ≠ NULL ∧ lockable t m = true ∧ ∃ prio, m' = acquired t prio m
  | Unlocked t => t ≠ NULL ∧ owner m = t ∧ m' = released m
  | Silent => m' = m
  end.

Lemma thread_not_null t a : thread t a → t ≠ NULL.
Proof using Type. intros [Hwf _ _ _ (u & Hu & _)]. by eapply wf_deref. Qed.

Lemma mutex_step_moves l o o' m : mutex_step l o o' → sound o m → ∃ m', o' !! mtx = Some m' ∧ moves l m m'.
Proof using Hmtx H.
  intros Hl (Hm & Hok & Hown).
  destruct Hl as [t w w' a r Hin Hr Ht E|t w w' a r Hin Hr Ht E|o o' E]; [| |exists m; by rewrite E];
    pose proof (thread_not_null t a Ht) as Hn; destruct Ht as [Hwf Hc Hi _ (u & Hu & _)].
  - destruct (mutex_trylock_runs mtx t a (objs w) m u Hwf Hi Hc Hu Hmtx Hm w Hr eq_refl)
      as (w1 & E1 & _ & Ho). rewrite E in E1. injection E1 as -> <-. rewrite Ho.
    destruct (lockable t m) eqn:El; simpl; [|by exists m].
    eexists. split; [apply lookup_insert_eq|]. eauto.
  - subst t. destruct (decide (owner m = a_current_task a)) as [Eo|Eo].
    + destruct (mutex_unlock_runs mtx _ a (objs w) m u Hwf Hi eq_refl Hu Hmtx Hm Eo w Hr eq_refl)
        as (w1 & E1 & _ & Ho). rewrite E in E1. injection E1 as -> <-. rewrite Ho. simpl.
      eexists. split; [apply lookup_insert_eq|done].
    + destruct (mutex_unlock_not_owner mtx a (objs w) m u Hwf Hi Hu Hmtx Hm Eo w Hr eq_refl)
        as (w1 & E1 & _ & Ho). rewrite E in E1. injection E1 as -> <-. rewrite Ho. by exists m.
Qed.

Lemma moves_sound l o m m' : moves l m m' → sound o m → mutex_ok m' ∧ (owner m' = NULL ∨ owner m' ∈ tasks).
Proof using Type.
  intros Hl (_ & Hok & Hown). destruct l as [t|t|]; simpl in Hl.
  - destruct Hl as (Hin & Hn & Hlk & prio & ->). destruct (acquired_ok t prio m Hn Hok Hlk) as [? ->]. by split; [|right].
  - destruct Hl as (_ & _ & ->). split; [by apply released_ok|]. unfold released.
    destruct (1 <? recursive_count m); simpl; [done|by left].
  - by subst.
Qed.

Lemma step_sound l o o' m : mutex_step l o o' → sound o m → ∃ m', sound o' m' ∧ moves l m m'.
Proof using Hmtx H.
  intros Hl Hs. destruct (mutex_step_moves l o o' m Hl Hs) as (m' & Hm' & Hmv).
  exists m'. split; [|done]. split; [done|]. by eapply moves_sound.
Qed.

Lemma reaches_sound P o o' m : reaches mutex_step P o o' → sound o m → ∃ m', sound o' m'.
Proof using Hmtx H.
  intros (ls & Ht & _). induction Ht as [o|ls l o o1 o' _ IH Hl]; intros Hs; [eauto|].
  destruct (IH Hs) as [m1 Hs1]. destruct (step_sound l o1 o' m1 Hl Hs1) as (m' & ? & _). eauto.
Qed.

(** The counter of the mutex is the depth of its owner; nobody else has it. *)
Definition accounted (ls : list mutex_label) (m : mutex_t) : Prop :=
  ∀ t, depth t ls = if owner m =? t then recursive_count m else 0.

Lemma moves_accounted l ls o m m' : moves l m m' → sound o m → shallow (ls ++ [l]) →
  accounted ls m → accounted (ls ++ [l]) m'.
Proof using Type.
  intros Hl (_ & [Hrc Hok] & _) Hsh Hacc t. rewrite depth_snoc, Hacc.
  assert (∀ u, depth u (ls ++ [l]) ≤ 255) as Hd by (intros u; by apply Hsh).
  destruct l as [u|u|]; simpl in Hl |- *; [| |subst; lia].
  - destruct Hl as (_ & Hn & Hlk & prio & ->). specialize (Hd u). rewrite depth_snoc, Hacc in Hd. simpl in Hd.
    rewrite Z.eqb_refl in Hd. unfold acquired, lockable in *.
    destruct (Z.eqb_spec (locked m) 0) as [E0|E0]; simpl.
    + destruct Hok as [(_ & -> & ->)|(E1 & _)]; [|congruence]. by destruct (NULL =? t), (u =? t).
    + apply andb_true_iff in Hlk as [Eo%Z.eqb_eq _]. rewrite Eo in *. rewrite Z.eqb_refl in Hd.
      rewrite (proj2 (Z.ltb_lt _ _)) by lia. simpl. rewrite Eo, u8_small by lia.
      destruct (u =? t); lia.
  - destruct Hl as (Hn & Eo & ->). destruct Hok as [(_ & ? & _)|(_ & _ & Hpos)]; [congruence|].
    rewrite Eo. unfold released. destruct (Z.ltb_spec 1 (recursive_count m)); simpl.
    + rewrite Eo. destruct (u =? t); lia.
    + destruct t; destruct (u =? _); lia.
Qed.

Lemma mutex_trace_accounted o m ls o' : sound o m → owner m = NULL →
  trace mutex_step ls o o' → shallow ls → ∃ m', sound o' m' ∧ accounted ls m'.
Proof using Hmtx H.
  intros Hs Hn. apply (trace_invariant mutex_step shallow (λ ls o', ∃ m', sound o' m' ∧ accounted ls m')).
  - apply shallow_prefix.
  - exists m. split; [done|]. intros t. destruct Hs as (_ & [_ Hok] & _).
    destruct Hok as [(_ & _ & ->)|(_ & ? & _)]; [|congruence]. by destruct (_ =? t).
  - intros ls1 l o1 o2 Hsh (m1 & Hs1 & Ha1) Hl. destruct (step_sound l o1 o2 m1 Hl Hs1) as (m2 & Hs2 & Hmv).
    exists m2. split; [done|]. by eapply moves_accounted.
Qed.
End mutex_traces.

Lemma depth_length t ls : depth t ls ≤ Z.of_nat (length ls).
Proof.
  induction ls as [|l ls IH]; simpl; [lia|].
  assert (depth_change t l ≤ 1) by (destruct l as [u|u|]; simpl; [destruct (u =? t)..|]; lia). lia.
Qed.

Lemma shallow_short ls : (length ls ≤ 255)%nat → shallow ls.
Proof. intros Hl t pre Hp%prefix_length. pose proof (depth_length t pre). lia. Qed.

(** ** The blocking call *)

Section blocking.
Context {K : Type} `{SchedulerSpec K}.
Notation W := (world K mutex_t).
Context (tasks : list ptr) (mtx : ptr) (Hmtx : mtx ≠ NULL).
Context (self : ptr) (env : others W).

(** The others only take steps of their own. *)
Definition others_step : gmap Z mutex_t → gmap Z mutex_t → Prop :=
  reaches (mutex_step tasks mtx) (λ l, ¬ by_task self l).
Context `{HE : !Environment self others_step env}.

Lemma round_is_trylock timeout w w' :
  mutex_lock_round env mtx self timeout () w = Ret (inr KERNEL_OK) w' → mutex_trylock mtx w = Ret KERNEL_OK w'.
Proof using Type.
  unfold mutex_lock_round. intros (r & w1 & E1 & E)%bind_ret_inv. rewrite E1. revert E.
  destruct (Z.eqb_spec r KERNEL_OK) as [->|]; [by intros [= ->]|].
  destruct (timeout =? TIMEOUT_NONE); [by intros [=]|].
  intros ([] & w2 & _ & E)%bind_ret_inv. apply bind_ret_inv in E as ([] & w3 & _ & E).
  apply bind_ret_inv in E as ([] & w4 & _ & E). apply bind_ret_inv in E as (r' & w5 & _ & E).
  destruct (Z.eqb_spec r' KERNEL_OK); by injection E.
Qed.

Lemma mutex_lock_trace fuel timeout w a m : self ∈ tasks → (∀ t, t ∈ tasks → is_Some (a_tasks a !! t)) →
  rep (kern w) a → thread self a → sound tasks mtx (objs w) m →
  safe (mutex_lock env fuel mtx timeout) (λ r w', ∃ ls, trace (mutex_step tasks mtx) ls (objs w) (objs w') ∧
    filter (by_task self) ls = if r =? KERNEL_OK then [Locked self] else []) w.
Proof using Type*.
  intros Hin Htasks Hr Ht Hs.
  assert (∀ o', others_step (objs w) o' → ∃ m', o' !! mtx = Some m' ∧ owner_known m' a) as Hthere.
  { intros o' Ho'. destruct (reaches_sound tasks mtx Hmtx _ _ _ _ Ho' Hs) as (m' & ? & _ & [?|?]);
      exists m'; split; [done|by left|done|right; auto]. }
  pose proof (env_order (Environment := HE)) as HO.
  destruct (mutex_lock_linearizable self others_step env fuel mtx timeout w a Hmtx Hr Ht Hthere) as [Hlin _].
  assert (safe (mutex_lock env fuel mtx timeout) (λ r w', ∃ w2 a2, rep (kern w2) a2 ∧ thread self a2 ∧
    others_step (objs w) (objs w2) ∧ mutex_lock_round env mtx self timeout () w2 = Ret (inr r) w') w) as Hlast.
  { destruct (mutex_lock_loop self env fuel mtx timeout w a Hmtx Hr Ht) as (w1 & E1 & Hr1 & Ho1).
    unfold safe at 1. rewrite E1. eapply safe_mono; [apply (loop_last self others_step env _ fuel w1 a); [|done..]|].
    - intros w2 a2 Hr2 Ht2 HE2 Hk2. rewrite Ho1 in HE2. destruct (Hthere _ HE2) as (m2 & Hm2 & _).
      destruct (mutex_lock_round_spec self others_step env mtx timeout w2 a2 m2 Hr2 Ht2 Hmtx Hm2)
        as (x & w3 & a3 & E3 & Hr3 & Ht3 & HQ).
      { intros o' HE'. destruct (Hthere o') as (m' & ? & ?); [by etrans|]. exists m'. by split; [|eapply owner_kept]. }
      exists x, w3, a3. split_and!; [done..|]. intros ->. by destruct HQ as (_ & ? & ? & _).
    - intros r w' (w2 & a2 & ? & ? & HE2 & _ & ?). rewrite Ho1 in HE2. by exists w2, a2. }
  eapply safe_mono; [exact (safe_and _ _ _ _ Hlin Hlast)|].
  intros r w' [[_ Hres] (w2 & a2 & Hr2 & Ht2 & (ls & Htr & Hls) & Eb)].
  destruct (Z.eqb_spec r KERNEL_OK) as [->|Hne].
  - apply round_is_trylock in Eb. exists (ls ++ [Locked self]). split.
    + eapply trace_snoc; [exact Htr|]. exact (step_trylock tasks mtx self w2 w' a2 _ Hin Hr2 Ht2 Eb).
    + rewrite filter_app, (filter_none _ ls Hls), filter_cons_True by (by left). done.
  - destruct Hres as [[? _]|[_ (ls' & Htr' & Hls')]]; [done|]. exists ls'. split; [done|by apply filter_none].
Qed.
End blocking.

(** ** Properties *)

Section properties.
Context {K : Type} `{SchedulerSpec K}.
Notation W := (world K mutex_t).
Implicit Types (w : W) (o : gmap Z mutex_t) (a : asched).

(** C7: Mutual exclusion among all tasks: whatever calls of [mutex_trylock] and
    [mutex_unlock] the tasks make on a mutex that was free, in whatever order
    and with whatever else in between, at any time at most one task has locks
    that it has not undone, and that task is the owner; nobody undoes a lock he
    does not have.  (Up to the depth of 255 the counter can count; see
    [mutex_recursion_depth] for what happens beyond.) *)
Theorem mutex_traces_exclusive tasks mtx o m ls o' : mtx ≠ NULL → o !! mtx = Some m → mutex_ok m →
  owner m = NULL → trace (mutex_step (K := K) tasks mtx) ls o o' → shallow ls →
  (∀ t t', 0 < depth t ls → 0 < depth t' ls → t = t') ∧ (∀ t, 0 ≤ depth t ls) ∧
  ∃ m', o' !! mtx = Some m' ∧ mutex_ok m' ∧ ∀ t, t ≠ NULL → (owner m' = t ↔ 0 < depth t ls).
Proof.
  intros Hmtx Hm Hok Hn Ht Hsh.
  destruct (mutex_trace_accounted tasks mtx Hmtx o m ls o') as (m' & (Hm' & Hok' & _) & Hacc); try done.
  { split_and!; [done..|by left]. }
  assert (∀ t, 0 < depth t ls → owner m' = t) as Hown.
  { intros t. rewrite Hacc. by destruct (Z.eqb_spec (owner m') t). }
  destruct Hok' as [Hrc Hcase] eqn:E. clear E. split_and!.
  - intros t t' H1%Hown H2%Hown. congruence.
  - intros t. rewrite Hacc. destruct (_ =? t); lia.
  - exists m'. split_and!; [done..|]. intros t Hnt. split; [|apply Hown]. intros <-. rewrite Hacc, Z.eqb_refl.
    destruct Hcase as [(_ & ? & _)|(_ & _ & ?)]; [congruence|lia].
Qed.

(** C15: The blocking [mutex_lock] among the calls of the other tasks: however often
    it sleeps and whatever the others do meanwhile, a call that returns
    [KERNEL_OK] adds exactly one step to the trace of the mutex, the caller's
    lock, and a call that fails adds none; all other steps are the others'. *)
Theorem mutex_lock_in_trace tasks mtx self env `{!Environment self (others_step tasks mtx self) env}
    fuel timeout w a m : mtx ≠ NULL → self ∈ tasks → (∀ t, t ∈ tasks → is_Some (a_tasks a !! t)) →
  rep (kern w) a → thread self a → objs w !! mtx = Some m → mutex_ok m → (owner m = NULL ∨ owner m ∈ tasks) →
  safe (mutex_lock env fuel mtx timeout) (λ r w', ∃ ls, trace (mutex_step tasks mtx) ls (objs w) (objs w') ∧
    filter (by_task self) ls = if r =? KERNEL_OK then [Locked self] else []) w.
Proof. intros. by apply (mutex_lock_trace tasks mtx ltac:(done) self env fuel timeout w a m). Qed.
End properties.

(** ** The theorems on the example system *)

Definition free_world : world sched mutex_t := mkWorld example_boot {[OBJ := mutex_example NULL]}.
Definition locked_world : world sched mutex_t := final (mutex_trylock OBJ) free_world.

Lemma mutex_traces_exclusive_witness :
  (∀ t t', 0 < depth t [Locked HIGH] → 0 < depth t' [Locked HIGH] → t = t') ∧
  ∃ m', objs locked_world !! OBJ = Some m' ∧ owner m' = HIGH.
Proof.
  destruct (mutex_traces_exclusive (K := sched) [HIGH; LOW] OBJ (objs free_world) (mutex_example NULL) [Locked HIGH]
    (objs locked_world)) as (Hex & _ & m' & Hm' & _ & Ho).
  - done.
  - reflexivity.
  - apply mutex_example_ok.
  - reflexivity.
  - apply trace_one. apply (step_trylock [HIGH; LOW] OBJ HIGH free_world locked_world example_boot_abs KERNEL_OK).
    + left.
    + apply example_boot_rep.
    + apply example_thread_high.
    + vm_compute. reflexivity.
  - apply shallow_short. simpl. lia.
  - split; [exact Hex|]. exists m'. split; [exact Hm'|]. apply Ho; [done|]. vm_compute. reflexivity.
Defined.

(** While the caller sleeps [LOW] unlocks the mutex, if it has it. *)
Definition low_unlocks (o : gmap Z mutex_t) : gmap Z mutex_t :=
  match o !! OBJ with
  | Some m => if owner m =? LOW then <[OBJ := released m]> o else o
  | None => o
  end.

Lemma low_unlocks_step o : others_step (K := sched) [HIGH; LOW] OBJ HIGH o (low_unlocks o).
Proof.
  unfold low_unlocks. destruct (o !! OBJ) as [m|] eqn:Em; [|by apply reaches_preorder].
  destruct (Z.eqb_spec (owner m) LOW) as [Eo|]; [|by apply reaches_preorder].
  destruct (example_thread_low BLOCK_DELAY) as [Hwf Hc Hi Hu (t & Ht & Hrt)].
  destruct (mutex_unlock_runs (K := sched) OBJ LOW (example_blocked_abs BLOCK_DELAY) o m t Hwf Hi Hc Ht ltac:(done) Em Eo
    (mkWorld (example_blocked BLOCK_DELAY) o) (example_blocked_rep _) eq_refl) as (w' & E & _ & <-).
  exists [Unlocked LOW]. split; [|apply Forall_singleton; by intros [[=]|[=]]].
  apply trace_one. refine (step_unlock [HIGH; LOW] OBJ LOW (mkWorld (example_blocked BLOCK_DELAY) o) w'
    (example_blocked_abs BLOCK_DELAY) KERNEL_OK _ _ _ E).
  - right. left.
  - apply example_blocked_rep.
  - apply example_thread_low.
Qed.

#[export] Instance low_unlocks_environment :
  Environment HIGH (others_step (K := sched) [HIGH; LOW] OBJ HIGH) (example_env HIGH KERNEL_OK low_unlocks).
Proof.
  eapply environment_weaken; [apply reaches_preorder| |apply example_environment].
  intros o o' [n ->]. induction n as [|n IH]; simpl; [by apply reaches_preorder|].
  eapply reaches_preorder; [exact IH|apply low_unlocks_step].
Qed.

Lemma mutex_lock_in_trace_witness :
  safe (mutex_lock (example_env HIGH KERNEL_OK low_unlocks) 5 OBJ 10) (λ r w', ∃ ls,
    trace (mutex_step (K := sched) [HIGH; LOW] OBJ) ls (objs mutex_contended) (objs w') ∧
    filter (by_task HIGH) ls = if r =? KERNEL_OK then [Locked HIGH] else []) mutex_contended.
Proof.
  apply (mutex_lock_in_trace [HIGH; LOW] OBJ HIGH (example_env HIGH KERNEL_OK low_unlocks) 5 10 mutex_contended
    example_boot_abs (mutex_example LOW)).
  - done.
  - left.
  - intros t Ht. repeat (apply elem_of_cons in Ht as [->|Ht]; [eexists; vm_compute; reflexivity|]). by apply not_elem_of_nil in Ht.
  - apply example_boot_rep.
  - apply example_thread_high.
  - reflexivity.
  - apply mutex_example_ok.
  - right. right. left.
Defined.
