(* ===== verification/QueueTrace.v ===== *)
(** * First in, first out among all tasks

    All sends to the back of one queue of [kernel/sync/queue.c] and all receives
    from it, by any tasks and handlers in any order, with anything that leaves
    the queue and its ring alone in between.  ([queue_send_front] puts a
    message first and [queue_reset] drops all: they are not among the calls.) *)
From S2P Require Import Prelude Config Task Critical Bitmap TcbList Scheduler SchedSpec.
From S2P Require Import SchedInv SchedEffect SchedIface Sync Trace Example Queue.

(** [x] sent or received a message; a handler is named [NULL]. *)
Inductive queue_label : Set :=
| Sent (x : ptr) (m : list Z)
| Received (x : ptr) (m : list Z)
| Silent.

Definition by_task (t : ptr) (l : queue_label) : Prop :=
  match l with Sent x _ | Received x _ => x = t | Silent => False end.
#[export] Instance by_task_dec t l : Decision (by_task t l).
Proof. destruct l; simpl; apply _. Defined.

(** The messages sent and received, in order. *)
Definition sent_by (l : queue_label) : list (list Z) := match l with Sent _ m => [m] | _ => [] end.
Definition received_by (l : queue_label) : list (list Z) := match l with Received _ m => [m] | _ => [] end.
Definition all_sent (ls : list queue_label) : list (list Z) := ls ≫= sent_by.
Definition all_received (ls : list queue_label) : list (list Z) := ls ≫= received_by.

(** Memory stays memory. *)
Definition bytes_kept (o o' : gmap Z cell) : Prop := ∀ x, is_Some (byte_at o x) → is_Some (byte_at o' x).

#[export] Instance bytes_kept_preorder : PreOrder bytes_kept.
Proof. split; [by intros o x Hx|]. intros o1 o2 o3 H1 H2 x Hx. by apply H2, H1. Qed.

Section queue_traces.
Context {K : Type} `{SchedulerSpec K}.
Notation W := (world K cell).
Context (p : ptr) (Hp : p ≠ NULL).
Implicit Types (w : W) (o : gmap Z cell) (a : asched).

(** The round of a call that succeeds, a send from a handler, or something that
    leaves the queue alone.  The buffer of a call lies outside the ring. *)
Inductive queue_step : queue_label → gmap Z cell → gmap Z cell → Prop :=
| step_send t env src timeout w w' a q m : rep (kern w) a → thread t a →
    objs w !! p = Some (Queue q) → msg_area q src → read_bytes (objs w) src (Z.to_nat (msg_size q)) = Some m →
    queue_send_round env queue_push_back p src timeout () w = Ret (inr KERNEL_OK) w' →
    queue_step (Sent t m) (objs w) (objs w')
| step_send_isr src w w' a q m r : rep (kern w) a → wf a → src ≠ NULL →
    objs w !! p = Some (Queue q) → msg_area q src → read_bytes (objs w) src (Z.to_nat (msg_size q)) = Some m →
    queue_send_isr p src w = Ret r w' →
    queue_step (if r =? KERNEL_OK then Sent NULL m else Silent) (objs w) (objs w')
| step_receive t env dst timeout w w' a q m : rep (kern w) a → thread t a →
    objs w !! p = Some (Queue q) → msg_area q dst → bytes (objs w) dst (msg_size q) →
    queue_receive_round env p dst timeout () w = Ret (inr KERNEL_OK) w' →
    read_bytes (objs w') dst (Z.to_nat (msg_size q)) = Some m →
    queue_step (Received t m) (objs w) (objs w')
| step_other o o' : o' !! p = o !! p → bytes_kept o o' →
    (∀ q, o !! p = Some (Queue q) → ∀ x, in_ring q x → o' !! x = o !! x) →
    queue_step Silent o o'.

(** What a step does to the messages. *)
Definition moves (l : queue_label) (msgs msgs' : list (list Z)) : Prop :=
  received_by l ++ msgs' = msgs ++ sent_by l.

Lemma ring_kept o o' q q' msgs : o !! p = Some (Queue q) → only_ring p q o o' → same_ring q q' →
  holds o' p q' msgs → bytes_kept o o'.
Proof using Type.
  intros Hq Hon (Eb & Es & Ec) Hh x Hx. destruct (decide (x = p)) as [->|Hne].
  { unfold byte_at in Hx. rewrite Hq in Hx. by destruct Hx. }
  destruct (decide (buffer q ≤ x < buffer q + msg_size q * capacity q)) as [Hin|Hout].
  - replace x with (buffer q' + (x - buffer q)) by lia. apply (queue_bytes _ _ _ (proj2 Hh)). rewrite Es, Ec. lia.
  - unfold byte_at. rewrite Hon; [exact Hx|done|]. unfold in_ring. lia.
Qed.

Lemma buffer_kept o o' q dst m : o !! p = Some (Queue q) →
  (∀ x, x ≠ p → x < dst ∨ dst + msg_size q ≤ x → o' !! x = o !! x) →
  read_bytes o' dst (Z.to_nat (msg_size q)) = Some m → bytes_kept o o'.
Proof using Type.
  intros Hq Hout Hm x Hx. destruct (decide (x = p)) as [->|Hne].
  { unfold byte_at in Hx. rewrite Hq in Hx. by destruct Hx. }
  destruct (decide (dst ≤ x < dst + msg_size q)) as [Hin|Hnin].
  - replace x with (dst + (x - dst)) by lia. eapply read_bytes_is_byte; [exact Hm|]. lia.
  - unfold byte_at. rewrite Hout; [exact Hx|done|lia].
Qed.

Lemma queue_step_moves l o o' q msgs : queue_step l o o' → holds o p q msgs →
  ∃ q' msgs', holds o' p q' msgs' ∧ same_ring q q' ∧ bytes_kept o o' ∧ moves l msgs msgs'.
Proof using Hp H.
  intros Hl Hh. destruct Hl as [t env src timeout w w' a q1 m Hr Ht Hq Ha Hm E
    |src w w' a q1 m r Hr Hwf Hs Hq Ha Hm E|t env dst timeout w w' a q1 m Hr Ht Hq Ha Hb E Hm|o o' Ep Hk Ering];
    try (assert (q1 = q) as -> by (destruct Hh; congruence)).
  - pose proof (thread_wf _ _ Ht) as Hwf.
    destruct (decide (length msgs < Z.to_nat (capacity q))%nat) as [Hlt|Hge].
    + destruct (send_room env _ _ (objs w) q msgs p src m timeout a pushes_back Hwf Hh Hlt Hm Ha)
        as (o' & q' & Hrun & Hon & Hsr & Hh'). destruct (Hrun w Hr eq_refl) as (w1 & E1 & _ & <-).
      rewrite E in E1. injection E1 as <-. exists q', (msgs ++ [m]). split_and!; try done. by eapply ring_kept.
    + pose proof (queue_count _ _ _ (proj2 Hh)). pose proof (queue_bound _ _ _ (proj2 Hh)).
      pose proof (queue_tail _ _ _ (proj2 Hh)).
      destruct (send_full env queue_push_back w q msgs p src timeout a Hwf Hr Hh ltac:(lia)) as (w1 & E1 & _).
      rewrite E in E1. by destruct (queue_block_not_ok env BLOCK_QUEUE_SEND p timeout w1 w').
  - destruct (decide (length msgs < Z.to_nat (capacity q))%nat) as [Hlt|Hge].
    + destruct (send_isr_room (objs w) q msgs p src m a Hp Hs Hwf Hh Hlt Hm Ha) as (o' & q' & Hrun & Hon & Hsr & Hh').
      destruct (Hrun w Hr eq_refl) as (w1 & E1 & _ & <-). rewrite E in E1. injection E1 as -> <-.
      exists q', (msgs ++ [m]). split_and!; try done. by eapply ring_kept.
    + pose proof (queue_count _ _ _ (proj2 Hh)). pose proof (queue_bound _ _ _ (proj2 Hh)).
      pose proof (queue_tail _ _ _ (proj2 Hh)).
      destruct (send_isr_full (objs w) q msgs p src a Hp Hs Hwf Hh ltac:(lia) w Hr eq_refl) as (w1 & E1 & _ & Ho).
      rewrite E in E1. injection E1 as -> <-. rewrite Ho. exists q, msgs. split_and!; try done.
      unfold moves. by rewrite app_nil_r.
  - pose proof (thread_wf _ _ Ht) as Hwf. destruct msgs as [|m1 msgs].
    + destruct (receive_empty env w q p dst timeout a Hwf Hr Hh) as (w1 & E1 & _).
      rewrite E in E1. by destruct (queue_block_not_ok env BLOCK_QUEUE_RECV p timeout w1 w').
    + destruct (receive_some env (objs w) q m1 msgs p dst timeout a Hwf Hh Hb Ha)
        as (o' & q' & Hrun & Hrd & Hon & Hsr & Hh'). destruct (Hrun w Hr eq_refl) as (w1 & E1 & _ & <-).
      rewrite E in E1. injection E1 as <-. assert (m1 = m) as -> by congruence.
      exists q', msgs. split_and!; try done; [by eapply buffer_kept|]. unfold moves. by rewrite app_nil_r.
  - exists q, msgs. destruct Hh as [Hq Hok]. split_and!; try done.
    + split; [by rewrite Ep|]. eapply queue_ok_ext; [exact Hok|]. by apply Ering.
    + unfold moves. by rewrite app_nil_r.
Qed.

Lemma same_ring_trans q1 q2 q3 : same_ring q1 q2 → same_ring q2 q3 → same_ring q1 q3.
Proof using Type. intros (?&?&?) (?&?&?). unfold same_ring. split_and!; congruence. Qed.

Lemma queue_trace_holds o q msgs ls o' : holds o p q msgs → trace queue_step ls o o' →
  ∃ q' msgs', holds o' p q' msgs' ∧ same_ring q q' ∧ bytes_kept o o' ∧
    all_received ls ++ msgs' = msgs ++ all_sent ls.
Proof using Hp H.
  intros Hh Ht. induction Ht as [o|ls l o o1 o' _ IH Hl].
  - exists q, msgs. split_and!; try done. by rewrite app_nil_r.
  - destruct (IH Hh) as (q1 & msgs1 & Hh1 & Hs1 & Hk1 & E1).
    destruct (queue_step_moves l o1 o' q1 msgs1 Hl Hh1) as (q2 & msgs2 & Hh2 & Hs2 & Hk2 & E2).
    exists q2, msgs2. split_and!; [done|by eapply same_ring_trans|by etrans|].
    unfold all_received, all_sent, moves in *. rewrite !bind_app. simpl. rewrite !app_nil_r.
    by rewrite <- !app_assoc, E2, !app_assoc, E1.
Qed.
End queue_traces.

(** ** The blocking calls *)

Section blocking.
Context {K : Type} `{SchedulerSpec K}.
Notation W := (world K cell).
Context (p : ptr) (Hp : p ≠ NULL) (self : ptr) (env : others W).

(** The others only take steps of their own. *)
Definition others_step : gmap Z cell → gmap Z cell → Prop :=
  reaches (queue_step p) (λ l, ¬ by_task self l).
Context `{HE : !Environment self others_step env}.
Implicit Types (w : W) (o : gmap Z cell) (a : asched).

(** The queue and the caller's buffer are still there. *)
Lemma others_keep o o' q msgs x : others_step o o' → holds o p q msgs → msg_area q x → bytes o x (msg_size q) →
  ∃ q' msgs' m, holds o' p q' msgs' ∧ msg_area q' x ∧ bytes o' x (msg_size q') ∧
    read_bytes o' x (Z.to_nat (msg_size q')) = Some m.
Proof using Hp H.
  intros (ls & Ht & _) Hh Ha Hb. destruct (queue_trace_holds p Hp o q msgs ls o' Hh Ht) as (q' & msgs' & Hh' & (Eb & Es & Ec) & Hk & _).
  pose proof (queue_size _ _ _ (proj2 Hh)) as Hsz.
  assert (bytes o' x (msg_size q')) as Hb' by (intros i Hi; apply Hk, Hb; lia).
  destruct (bytes_read o' x (Z.to_nat (msg_size q'))) as [m Hm]; [by rewrite Z2Nat.id by lia|].
  exists q', msgs', m. split_and!; try done. unfold msg_area in *. by rewrite Eb, Es, Ec.
Qed.

Lemma own_step w w2 w' l : others_step (objs w) (objs w2) → queue_step p l (objs w2) (objs w') → by_task self l →
  ∃ ls, trace (queue_step p) ls (objs w) (objs w') ∧ filter (by_task self) ls = [l].
Proof using Type.
  intros (ls & Htr & Hls) Hl Hby. exists (ls ++ [l]). split; [by eapply trace_snoc|].
  by rewrite filter_app, (filter_none _ ls Hls), filter_cons_True.
Qed.

Lemma no_step o o' : others_step o o' → ∃ ls, trace (queue_step p) ls o o' ∧ filter (by_task self) ls = [].
Proof using Type. intros (ls & Htr & Hls). exists ls. split; [done|by apply filter_none]. Qed.

Lemma queue_send_trace fuel src timeout w a q msgs : src ≠ NULL → rep (kern w) a → thread self a →
  holds (objs w) p q msgs → msg_area q src → bytes (objs w) src (msg_size q) →
  safe (queue_send env fuel p src timeout) (λ r w', ∃ ls, trace (queue_step p) ls (objs w) (objs w') ∧
    if r =? KERNEL_OK then ∃ m, filter (by_task self) ls = [Sent self m] else filter (by_task self) ls = []) w.
Proof using Type*.
  intros Hs Hr Ht Hh Ha Hb. unfold queue_send.
  rewrite (proj2 (Z.eqb_neq p NULL)), (proj2 (Z.eqb_neq src NULL)) by done. cbn [orb].
  assert (∀ o', others_step (objs w) o' → sendable p src o') as Hsend.
  { intros o' Ho'. destruct (others_keep _ _ q msgs src Ho' Hh Ha Hb) as (q' & msgs' & m & ? & ? & _ & ?).
    exists q', msgs'. split_and!; eauto. }
  destruct (send_linearizable self others_step env _ _ fuel p src timeout w a pushes_back Hr Ht Hsend) as [Hlin _].
  eapply safe_mono; [refine (safe_and _ _ _ _ Hlin (loop_last self others_step env _ fuel w a _ Hr Ht))|].
  - intros w2 a2 Hr2 Ht2 HE2 _. destruct (send_round_spec self others_step env _ _ p src timeout w2 a2 pushes_back
      Hr2 Ht2 (Hsend _ HE2)) as (x & w' & a' & ? & ? & ? & HQ).
    exists x, w', a'. split_and!; [done..|]. intros ->. by destruct HQ as (? & ? & _).
  - intros r w' [[_ Hres] (w2 & a2 & Hr2 & Ht2 & HE2 & _ & Eb)]. destruct (Z.eqb_spec r KERNEL_OK) as [->|Hne].
    + destruct (others_keep _ _ q msgs src HE2 Hh Ha Hb) as (q2 & msgs2 & m & [Hq2 _] & Ha2 & _ & Hm2).
      destruct (own_step w w2 w' (Sent self m) HE2) as (ls & ? & ?); [|done|by exists ls; eauto].
      by apply (step_send p self env src timeout w2 w' a2 q2 m).
    + destruct Hres as [[? _]|[_ Hother]]; [done|]. by apply no_step.
Qed.

Lemma queue_receive_trace fuel dst timeout w a q msgs : dst ≠ NULL → rep (kern w) a → thread self a →
  holds (objs w) p q msgs → msg_area q dst → bytes (objs w) dst (msg_size q) →
  safe (queue_receive env fuel p dst timeout) (λ r w', ∃ ls, trace (queue_step p) ls (objs w) (objs w') ∧
    if r =? KERNEL_OK
    then ∃ m, filter (by_task self) ls = [Received self m] ∧ read_bytes (objs w') dst (Z.to_nat (msg_size q)) = Some m
    else filter (by_task self) ls = []) w.
Proof using Type*.
  intros Hd Hr Ht Hh Ha Hb. unfold queue_receive.
  rewrite (proj2 (Z.eqb_neq p NULL)), (proj2 (Z.eqb_neq dst NULL)) by done. cbn [orb].
  assert (∀ o', others_step (objs w) o' → receivable p dst o') as Hrecv.
  { intros o' Ho'. destruct (others_keep _ _ q msgs dst Ho' Hh Ha Hb) as (q' & msgs' & m & ? & ? & ? & _).
    by exists q', msgs'. }
  destruct (receive_linearizable self others_step env fuel p dst timeout w a Hr Ht Hrecv) as [Hlin _].
  eapply safe_mono; [refine (safe_and _ _ _ _ Hlin (loop_last self others_step env _ fuel w a _ Hr Ht))|].
  - intros w2 a2 Hr2 Ht2 HE2 _. destruct (receive_round_spec self others_step env p dst timeout w2 a2
      Hr2 Ht2 (Hrecv _ HE2)) as (x & w' & a' & ? & ? & ? & HQ).
    exists x, w', a'. split_and!; [done..|]. intros ->. by destruct HQ as (? & ? & _).
  - intros r w' [[_ Hres] (w2 & a2 & Hr2 & Ht2 & HE2 & _ & Eb)]. destruct (Z.eqb_spec r KERNEL_OK) as [->|Hne].
    + destruct Hres as [[_ (o1 & q1 & q1' & m & msgs1 & HE1 & Hh1 & Hh1' & Hsr1 & Hm & _)]|[? _]]; [|done].
      destruct (others_keep _ _ q msgs dst HE2 Hh Ha Hb) as (q2 & msgs2 & _ & Hh2 & Ha2 & Hb2 & _).
      assert (msg_size q2 = msg_size q ∧ msg_size q1 = msg_size q) as [Es2 Es1].
      { split; [destruct HE2 as (ls & Htr & _)|destruct HE1 as (ls & Htr & _)];
          destruct (queue_trace_holds p Hp _ q msgs ls _ Hh Htr) as (q3 & msgs3 & Hh3 & (_ & Es & _) & _);
          [assert (q3 = q2) as <- by (destruct Hh2, Hh3; congruence)|assert (q3 = q1) as <- by (destruct Hh1, Hh3; congruence)]; done. }
      rewrite Es1 in Hm.
      destruct (own_step w w2 w' (Received self m) HE2) as (ls & ? & ?); [|done|by exists ls; eauto].
      apply (step_receive p self env dst timeout w2 w' a2 q2 m); try done; [apply Hh2|by rewrite Es2].
    + destruct Hres as [[? _]|[_ Hother]]; [done|]. by apply no_step.
Qed.
End blocking.

(** ** Properties *)

Section properties.
Context {K : Type} `{SchedulerSpec K}.
Notation W := (world K cell).
Implicit Types (w : W) (o : gmap Z cell) (a : asched).

(** C8: First in, first out, whoever sends and receives: after any sequence of sends
    to the back (by tasks and handlers) and receives, by any tasks, the messages
    received, in the order of the receives, followed by those still in the
    queue, are those that were in the queue followed by those sent, in the order
    of the sends: nothing is lost, doubled, changed or overtaken. *)
Theorem queue_traces_fifo p o q msgs ls o' : p ≠ NULL → holds o p q msgs →
  trace (queue_step (K := K) p) ls o o' →
  ∃ q' msgs', holds o' p q' msgs' ∧ same_ring q q' ∧ all_received ls ++ msgs' = msgs ++ all_sent ls.
Proof.
  intros Hp Hh Ht. destruct (queue_trace_holds p Hp o q msgs ls o' Hh Ht) as (q' & msgs' & ? & ? & _ & ?).
  by exists q', msgs'.
Qed.

(** C16: The blocking [queue_send] and [queue_receive] among the calls of the other
    tasks: however often the caller sleeps and whatever the others do meanwhile,
    a call that returns [KERNEL_OK] adds exactly one step to the trace of the
    queue, the caller's message sent, or received and now in his buffer, and a
    call that fails adds none. *)
Theorem queue_calls_in_trace p self env `{!Environment self (others_step p self) env} fuel buf timeout w a q msgs :
  p ≠ NULL → buf ≠ NULL → rep (kern w) a → thread self a →
  holds (objs w) p q msgs → msg_area q buf → bytes (objs w) buf (msg_size q) →
  safe (queue_send env fuel p buf timeout) (λ r w', ∃ ls, trace (queue_step p) ls (objs w) (objs w') ∧
    if r =? KERNEL_OK then ∃ m, filter (by_task self) ls = [Sent self m] else filter (by_task self) ls = []) w ∧
  safe (queue_receive env fuel p buf timeout) (λ r w', ∃ ls, trace (queue_step p) ls (objs w) (objs w') ∧
    if r =? KERNEL_OK
    then ∃ m, filter (by_task self) ls = [Received self m] ∧ read_bytes (objs w') buf (Z.to_nat (msg_size q)) = Some m
    else filter (by_task self) ls = []) w.
Proof.
  intros Hp Hb Hr Ht Hh Ha Hby.
  split; [by eapply (queue_send_trace p Hp self env)|by eapply (queue_receive_trace p Hp self env)].
Qed.
End properties.

(** ** The theorems on the example system *)

Definition sent_world : world sched cell :=
  final (queue_send_round queue_env queue_push_back OBJ MSG1 TIMEOUT_NONE ()) queue_world.
(** The scheduler is back where it was. *)
Definition settled (w : world sched cell) : world sched cell := mkWorld example_boot (objs w).
Lemma queue_settled_objs w : objs (settled w) = objs w.
Proof. done. Qed.

Definition received_world : world sched cell :=
  final (queue_receive_round queue_env OBJ DEST TIMEOUT_NONE ()) (settled sent_world).

Lemma example_queue_trace : trace (queue_step (K := sched) OBJ) ([Sent HIGH [3; 4]] ++ [Received HIGH [1; 2]])
  (objs queue_world) (objs received_world).
Proof.
  apply (trace_app _ _ _ _ (objs sent_world)); apply trace_one.
  - refine (step_send OBJ HIGH queue_env MSG1 TIMEOUT_NONE queue_world sent_world example_boot_abs queue_example [3; 4]
      (example_boot_rep) example_thread_high _ _ _ _).
    + reflexivity.
    + vm_compute. left. discriminate.
    + vm_compute. reflexivity.
    + vm_compute. reflexivity.
  - rewrite <- (queue_settled_objs sent_world).
    refine (step_receive OBJ HIGH queue_env DEST TIMEOUT_NONE (settled sent_world) received_world example_boot_abs
      (mkQueue RING 2 3 1 2 2 NULL NULL NULL NULL) [1; 2] example_boot_rep example_thread_high _ _ _ _ _).
    + vm_compute. reflexivity.
    + vm_compute. left. discriminate.
    + intros i Hi. simpl in Hi. assert (i = 0 ∨ i = 1) as [->| ->] by lia; eexists; vm_compute; reflexivity.
    + vm_compute. reflexivity.
    + vm_compute. reflexivity.
Qed.

Lemma queue_traces_fifo_witness : ∃ q' msgs', holds (objs received_world) OBJ q' msgs' ∧ msgs' = [[3; 4]].
Proof.
  destruct (queue_traces_fifo (K := sched) OBJ (objs queue_world) queue_example [[1; 2]]
    ([Sent HIGH [3; 4]] ++ [Received HIGH [1; 2]]) (objs received_world)) as (q' & msgs' & Hh & _ & E).
  - done.
  - apply queue_example_holds.
  - apply example_queue_trace.
  - exists q', msgs'. split; [exact Hh|]. vm_compute in E. by injection E.
Defined.

#[export] Instance queue_env_environment : Environment HIGH (others_step (K := sched) OBJ HIGH) queue_env.
Proof.
  eapply environment_weaken; [apply reaches_preorder| |apply example_environment].
  intros o o' ->%queue_env_same. by apply reaches_preorder.
Qed.

Lemma queue_calls_in_trace_witness :
  safe (queue_send queue_env 3 OBJ MSG1 10) (λ r w', ∃ ls,
    trace (queue_step (K := sched) OBJ) ls (objs queue_world) (objs w') ∧
    if r =? KERNEL_OK then ∃ m, filter (by_task HIGH) ls = [Sent HIGH m] else filter (by_task HIGH) ls = []) queue_world.
Proof.
  destruct (queue_calls_in_trace OBJ HIGH queue_env 3 MSG1 10 queue_world example_boot_abs queue_example [[1; 2]])
    as [Hs _].
  - done.
  - done.
  - apply example_boot_rep.
  - apply example_thread_high.
  - apply queue_example_holds.
  - vm_compute. left. discriminate.
  - intros i Hi. simpl in Hi. assert (i = 0 ∨ i = 1) as [->| ->] by lia; eexists; vm_compute; reflexivity.
  - exact Hs.
Defined.
