(* ===== verification/SemTrace.v ===== *)
(** * Tokens among all tasks

    All the calls of [sem_take], [sem_give] and [sem_give_isr] of
    [kernel/sync/semaphore.c] on one semaphore, by any tasks and handlers in any
    order, with anything that leaves the semaphore alone in between.
    ([sem_reset] sets the count and is not among the calls.)  A [sem_give_isr]
    is one step if the more urgent handlers that interrupt it leave the
    semaphore alone; it is no critical section, see [sem_give_isr_loses_token]
    in [Semaphore.v]. *)
From S2P Require Import Prelude Config Task Critical Bitmap TcbList Scheduler SchedSpec.
From S2P Require Import SchedInv SchedEffect SchedIface Sync Trace Example Semaphore.

(** A give that finds a waiter wakes it and is not counted. *)
Inductive sem_label : Set :=
| Took (t : ptr)
| Gave
| Woke
| Silent.

Definition by_task (t : ptr) (l : sem_label) : Prop := match l with Took x => x = t | _ => False end.
#[export] Instance by_task_dec t l : Decision (by_task t l).
Proof. destruct l; simpl; apply _. Defined.

(** What a step does to the number of tokens. *)
Definition gain (l : sem_label) : Z := match l with Took _ => -1 | Gave => 1 | Woke | Silent => 0 end.
Definition balance (ls : list sem_label) : Z := foldr (λ l n, gain l + n) 0 ls.
Definition is_take (l : sem_label) : Prop := match l with Took _ => True | _ => False end.
#[export] Instance is_take_dec l : Decision (is_take l).
Proof. destruct l; simpl; apply _. Defined.
Definition is_gave (l : sem_label) : Prop := l = Gave.
#[export] Instance is_gave_dec l : Decision (is_gave l).
Proof. unfold is_gave. destruct l; (by left) || (by right). Defined.

Lemma balance_snoc ls l : balance (ls ++ [l]) = balance ls + gain l.
Proof. induction ls as [|l' ls IH]; simpl; [lia|]. rewrite IH. lia. Qed.

Lemma balance_counts ls : balance ls =
  Z.of_nat (length (filter is_gave ls)) - Z.of_nat (length (filter is_take ls)).
Proof.
  induction ls as [|l ls IH]; [done|]. simpl balance. rewrite IH.
  rewrite !filter_cons. destruct l; repeat case_decide; unfold is_gave, is_take in *; try done; cbn [length gain]; lia.
Qed.

Section sem_traces.
Context {K : Type} `{SchedulerSpec K}.
Notation W := (world K semaphore_t).
Context (sem : ptr) (Hsem : sem ≠ NULL).
Implicit Types (w : W) (o : gmap Z semaphore_t) (a : asched).

(** What a give is in the trace, from its result and the state it found. *)
Definition give_label (r : Z) (a : asched) : sem_label :=
  if r =? KERNEL_OK then if best_waiter a BLOCK_SEMAPHORE sem =? NULL then Gave else Woke else Silent.

(** An unlimited semaphore is not given at [INT32_MAX], where [count++] would be
    undefined. *)
Definition can_count o : Prop := ∀ s, o !! sem = Some s → max_count s ≤ 0 → count s < INT32_MAX.

(** The round of a [sem_take] that succeeds, a give, or something that leaves
    the semaphore alone. *)
Inductive sem_step : sem_label → gmap Z semaphore_t → gmap Z semaphore_t → Prop :=
| step_take t env timeout w w' a : rep (kern w) a → thread t a →
    sem_take_round env sem timeout () w = Ret (inr KERNEL_OK) w' →
    sem_step (Took t) (objs w) (objs w')
| step_give w w' a r : rep (kern w) a → wf a → can_count (objs w) → sem_give sem w = Ret r w' →
    sem_step (give_label r a) (objs w) (objs w')
| step_give_isr env w w' a r : undisturbed env sem → rep (kern w) a → wf a → can_count (objs w) →
    sem_give_isr env sem w = Ret r w' →
    sem_step (give_label r a) (objs w) (objs w')
| step_other o o' : o' !! sem = o !! sem → sem_step Silent o o'.

Definition sound (max : Z) o (s : semaphore_t) : Prop :=
  o !! sem = Some s ∧ sem_ok s ∧ max_count s = max ∧ max ≤ INT32_MAX.

(** Whichever routine gave. *)
Lemma give_moves max o s a r o' a' : sound max o s → can_count o → eff_give sem s a o = (r, a', o') →
  ∃ s', sound max o' s' ∧ count s' = count s + gain (give_label r a).
Proof using Type.
  intros (Hs & [Hc Hcm] & Hm & Hmax) Hcan Eg. unfold eff_give in Eg. unfold give_label.
  destruct (best_waiter a BLOCK_SEMAPHORE sem =? NULL).
  - injection Eg as <- <- <-. exists (given s).2. unfold given, sound. rewrite lookup_insert_eq.
    destruct ((0 <? max_count s) && (max_count s <=? count s)) eqn:E; simpl; [split; [done|lia]|].
    apply andb_false_iff in E. rewrite Z.ltb_ge, Z.leb_gt in E. specialize (Hcan s Hs).
    split; [|lia]. split_and!; [done| |done|done]. split; simpl; lia.
  - injection Eg as <- <- <-. exists s. split; [done|]. simpl. lia.
Qed.

Lemma sem_step_moves max l o o' s : sem_step l o o' → sound max o s →
  ∃ s', sound max o' s' ∧ count s' = count s + gain l.
Proof using Hsem H.
  intros Hl Hs. pose proof Hs as (Hlk & Hok & Hm & Hmax).
  destruct Hl as [t env timeout w w' a Hr Ht E|w w' a r Hr Hwf Hcan E|env w w' a r Henv Hr Hwf Hcan E|o o' Ho].
  - destruct (decide (0 < count s)) as [Hpos|Hnpos].
    + destruct (take_token env sem timeout w a s Hr (thread_wf _ _ Ht) Hlk Hpos) as (w1 & E1 & _ & Ho).
      rewrite E in E1. injection E1 as <-. rewrite Ho. exists (s <| count := count s - 1 |>).
      split; [|simpl; lia]. split_and!; [apply lookup_insert_eq| |done|done]. destruct Hok. split; simpl; lia.
    + destruct (take_no_token env sem timeout w a s Hr (thread_wf _ _ Ht) Hlk Hnpos) as (w1 & E1 & _).
      rewrite E in E1. by destruct (sem_take_wait_not_ok env sem timeout w1 w').
  - pose proof (sem_give_runs sem s a (objs w) Hwf Hsem Hlk Hok ltac:(lia) (Hcan s Hlk)) as Hrun.
    destruct (eff_give sem s a (objs w)) as [[r1 a1] o1] eqn:Eg. destruct (Hrun w Hr eq_refl) as (w1 & E1 & _ & <-).
    rewrite E in E1. injection E1 as -> <-. by eapply give_moves.
  - destruct (sem_give_isr_at env sem s w a Henv Hr Hwf Hsem Hlk Hok ltac:(lia) (Hcan s Hlk)) as (r1 & w1 & a1 & E1 & _ & _ & Hres).
    rewrite E in E1. injection E1 as -> <-.
    destruct (eff_give sem s a (objs w)) as [[r2 a2] o2] eqn:Eg. pose proof Eg as Eg'. unfold eff_give in Eg.
    destruct (best_waiter a BLOCK_SEMAPHORE sem =? NULL); injection Eg as <- <- <-.
    + destruct Hres as [-> Ho']. destruct (give_moves max (objs w) s a _ _ _ Hs Hcan Eg') as (s' & (Hs' & Hrest) & Hc).
      rewrite lookup_insert_eq in Hs'. injection Hs' as <-. exists (given s).2. split; [|done]. split; [by rewrite Ho'|done].
    + destruct Hres as (-> & _ & Ho'). rewrite Ho'. by eapply give_moves.
  - exists s. split; [|simpl; lia]. split; [by rewrite Ho|done].
Qed.

Lemma sem_trace_balance max o s ls o' : sound max o s → trace sem_step ls o o' →
  ∃ s', sound max o' s' ∧ count s' = count s + balance ls.
Proof using Hsem H.
  intros Hs Ht. induction Ht as [o|ls l o o1 o' _ IH Hl]; [exists s; simpl; split; [done|lia]|].
  destruct (IH Hs) as (s1 & Hs1 & E1). destruct (sem_step_moves max l o1 o' s1 Hl Hs1) as (s2 & Hs2 & E2).
  exists s2. rewrite balance_snoc. split; [done|lia].
Qed.
End sem_traces.

(** ** The blocking call *)

Section blocking.
Context {K : Type} `{SchedulerSpec K}.
Notation W := (world K semaphore_t).
Context (sem : ptr) (Hsem : sem ≠ NULL) (self : ptr) (env : others W).

(** The others only take steps of their own. *)
Definition others_step : gmap Z semaphore_t → gmap Z semaphore_t → Prop :=
  reaches (sem_step sem) (λ l, ¬ by_task self l).
Context `{HE : !Environment self others_step env}.
Implicit Types (w : W) (o : gmap Z semaphore_t) (a : asched).

Lemma sem_take_trace max fuel timeout w a s : rep (kern w) a → thread self a → sound sem max (objs w) s →
  safe (sem_take env fuel sem timeout) (λ r w', ∃ ls, trace (sem_step sem) ls (objs w) (objs w') ∧
    filter (by_task self) ls = if r =? KERNEL_OK then [Took self] else []) w.
Proof using Type*.
  intros Hr Ht Hs.
  assert (∀ o', others_step (objs w) o' → is_Some (o' !! sem)) as Hthere.
  { intros o' (ls & Htr & _). destruct (sem_trace_balance sem Hsem max _ s ls o' Hs Htr) as (s' & (? & _) & _). eauto. }
  destruct (sem_take_linearizable self others_step env fuel sem timeout w a Hsem Hr Ht Hthere) as [Hlin _].
  unfold sem_take in *. rewrite (proj2 (Z.eqb_neq sem NULL)) in * by done.
  eapply safe_mono; [refine (safe_and _ _ _ _ Hlin (loop_last self others_step env _ fuel w a _ Hr Ht))|].
  - intros w2 a2 Hr2 Ht2 HE2 _. destruct (Hthere _ HE2) as [s2 Hs2].
    destruct (sem_take_round_spec self others_step env sem timeout w2 a2 s2 Hr2 Ht2 Hs2) as (x & w' & a' & ? & ? & ? & HQ).
    exists x, w', a'. split_and!; [done..|]. intros ->. by destruct HQ as (_ & _ & ? & ? & _).
  - intros r w' [[_ Hres] (w2 & a2 & Hr2 & Ht2 & (ls & Htr & Hls) & _ & Eb)].
    destruct (Z.eqb_spec r KERNEL_OK) as [->|Hne].
    + exists (ls ++ [Took self]). split.
      * eapply trace_snoc; [exact Htr|]. by apply (step_take sem self env timeout w2 w' a2).
      * by rewrite filter_app, (filter_none _ ls Hls), filter_cons_True.
    + destruct Hres as [[? _]|[_ (ls' & Htr' & Hls')]]; [done|]. exists ls'. split; [done|by apply filter_none].
Qed.
End blocking.

(** ** Properties *)

(** How often a token was taken and how often one was counted. *)
Definition takes (ls : list sem_label) : Z := Z.of_nat (length (filter is_take ls)).
Definition gives (ls : list sem_label) : Z := Z.of_nat (length (filter is_gave ls)).

Section properties.
Context {K : Type} `{SchedulerSpec K}.
Notation W := (world K semaphore_t).
Implicit Types (w : W) (o : gmap Z semaphore_t) (a : asched).

(** C9: Tokens are conserved: whatever takes and gives the tasks make, and whatever
    gives the handlers make that no more urgent handler disturbs, in whatever
    order, the count is the initial count plus the gives that found
    nobody waiting minus the takes, it stays within its bounds, and so no more
    tokens are taken than there were and were given.  (The gives that woke a
    waiter do not appear in the sum: the waiter gets no token from them.) *)
Theorem sem_traces_conserve sem o s ls o' : sem ≠ NULL → o !! sem = Some s → sem_ok s →
  max_count s ≤ INT32_MAX → trace (sem_step (K := K) sem) ls o o' →
  ∃ s', o' !! sem = Some s' ∧ sem_ok s' ∧ max_count s' = max_count s ∧
    count s' = count s + gives ls - takes ls ∧ takes ls ≤ count s + gives ls.
Proof.
  intros Hsem Hs Hok Hmax Ht.
  destruct (sem_trace_balance sem Hsem (max_count s) o s ls o') as (s' & (Hs' & Hok' & Hm & _) & Hc); [by split_and!|done|].
  rewrite balance_counts in Hc. exists s'. unfold gives, takes. pose proof Hok' as [[Hpos _] _].
  split_and!; try done; lia.
Qed.

(** The blocking [sem_take] among the calls of the others: a call that returns
    [KERNEL_OK] adds exactly one step to the trace of the semaphore, the
    caller's take, and a call that fails adds none. *)
Theorem sem_take_in_trace sem self env `{!Environment self (others_step sem self) env} fuel timeout w a s :
  sem ≠ NULL → rep (kern w) a → thread self a → objs w !! sem = Some s → sem_ok s → max_count s ≤ INT32_MAX →
  safe (sem_take env fuel sem timeout) (λ r w', ∃ ls, trace (sem_step sem) ls (objs w) (objs w') ∧
    filter (by_task self) ls = if r =? KERNEL_OK then [Took self] else []) w.
Proof. intros Hsem Hr Ht Hs Hok Hmax. by apply (sem_take_trace sem Hsem self env (max_count s) fuel timeout w a s). Qed.
End properties.

(** ** The theorems on the example system *)

Definition given_world : sem_world := final (sem_give OBJ) (sem_example_boot 0).
(** The scheduler is back where it was. *)
Definition settled (w : sem_world) : sem_world := mkWorld example_boot (objs w).
Lemma sem_settled_objs w : objs (settled w) = objs w.
Proof. done. Qed.
Definition taken_world : sem_world := final (sem_take_round sem_env OBJ TIMEOUT_NONE ()) (settled given_world).

Lemma example_sem_trace : trace (sem_step (K := sched) OBJ) ([Gave] ++ [Took HIGH])
  (objs (sem_example_boot 0)) (objs taken_world).
Proof.
  apply (trace_app _ _ _ _ (objs given_world)); apply trace_one.
  - refine (step_give OBJ (sem_example_boot 0) given_world example_boot_abs KERNEL_OK example_boot_rep
      (thread_wf _ _ example_thread_high) _ _).
    + intros s [= <-] _. by vm_compute.
    + vm_compute. reflexivity.
  - rewrite <- (sem_settled_objs given_world).
    refine (step_take OBJ HIGH sem_env TIMEOUT_NONE (settled given_world) taken_world example_boot_abs example_boot_rep
      example_thread_high _).
    vm_compute. reflexivity.
Qed.

Lemma sem_traces_conserve_witness : ∃ s', objs taken_world !! OBJ = Some s' ∧ count s' = 0.
Proof.
  destruct (sem_traces_conserve (K := sched) OBJ (objs (sem_example_boot 0)) (mkSemaphore 0 3 NULL NULL)
    ([Gave] ++ [Took HIGH]) (objs taken_world)) as (s' & Hs' & _ & _ & Hc & _).
  - done.
  - reflexivity.
  - apply example_sem_ok.
  - by vm_compute.
  - apply example_sem_trace.
  - exists s'. split; [exact Hs'|exact Hc].
Defined.

(** While the caller sleeps a handler gives a token, if one can be counted. *)
Definition handler_gives (o : gmap Z semaphore_t) : gmap Z semaphore_t :=
  match o !! OBJ with
  | Some s => if bool_decide (0 ≤ count s < max_count s ∧ max_count s ≤ INT32_MAX)
              then <[OBJ := s <| count := count s + 1 |>]> o else o
  | None => o
  end.

Lemma handler_gives_step o : others_step (K := sched) OBJ HIGH o (handler_gives o).
Proof.
  unfold handler_gives. destruct (o !! OBJ) as [s|] eqn:Es; [|by apply reaches_preorder].
  case_bool_decide as Hc; [|by apply reaches_preorder].
  assert (sem_ok s) as Hs by (split; lia).
  pose proof (sem_give_isr_runs (K := sched) quiet OBJ s example_boot_abs o eq_refl (thread_wf _ _ example_thread_high)
    ltac:(done) Es Hs ltac:(lia) ltac:(lia)) as Hrun.
  unfold eff_give in Hrun. assert (best_waiter example_boot_abs BLOCK_SEMAPHORE OBJ = NULL) as Hb by (by vm_compute).
  rewrite Hb in Hrun. simpl in Hrun. unfold given in Hrun.
  rewrite (proj2 (Z.leb_gt _ _)), andb_false_r in Hrun by lia.
  destruct (Hrun (mkWorld example_boot o) example_boot_rep eq_refl) as (w' & E & _ & Ho). simpl in Ho. rewrite <- Ho.
  exists [Gave]. split; [|by apply Forall_singleton; intros []]. apply trace_one.
  assert (give_label OBJ KERNEL_OK example_boot_abs = Gave) as <- by (unfold give_label; by rewrite Hb).
  refine (step_give_isr OBJ quiet (mkWorld example_boot o) w' example_boot_abs KERNEL_OK
    (quiet_undisturbed quiet OBJ eq_refl) example_boot_rep (thread_wf _ _ example_thread_high) _ E).
  intros s' Es' ?. simpl in Es'. assert (s' = s) as -> by congruence. lia.
Qed.

#[export] Instance handler_gives_environment :
  Environment HIGH (others_step (K := sched) OBJ HIGH) (example_env HIGH KERNEL_OK handler_gives).
Proof.
  eapply environment_weaken; [apply reaches_preorder| |apply example_environment].
  intros o o' [n ->]. induction n as [|n IH]; simpl; [by apply reaches_preorder|].
  eapply reaches_preorder; [exact IH|apply handler_gives_step].
Qed.

Lemma sem_take_in_trace_witness :
  safe (sem_take (example_env HIGH KERNEL_OK handler_gives) 5 OBJ 10) (λ r w', ∃ ls,
    trace (sem_step (K := sched) OBJ) ls (objs (sem_example_boot 0)) (objs w') ∧
    filter (by_task HIGH) ls = if r =? KERNEL_OK then [Took HIGH] else []) (sem_example_boot 0).
Proof.
  apply (sem_take_in_trace OBJ HIGH (example_env HIGH KERNEL_OK handler_gives) 5 10 (sem_example_boot 0)
    example_boot_abs (mkSemaphore 0 3 NULL NULL)).
  - done.
  - apply example_boot_rep.
  - apply example_thread_high.
  - reflexivity.
  - apply example_sem_ok.
  - by vm_compute.
Defined.
