(* ===== verification/EventTrace.v ===== *)
(** * Event flags among all tasks

    All the calls of [event_set], [event_clear] and [event_wait] of
    [kernel/sync/event.c] on one event group, by any tasks and handlers in any
    order, with anything that leaves the group alone in between.  [event_clear]
    is among them as long as nobody interrupts it: [event_clear_revives] shows
    that what follows is not true otherwise. *)
From S2P Require Import Prelude Config Task Critical Bitmap TcbList Scheduler SchedSpec.
From S2P Require Import SchedInv SchedEffect SchedIface Sync Trace Example Event.

(** [Got t r cl]: a wait of [t] returned the bits [r], and cleared them if [cl]. *)
Inductive event_label : Set :=
| Raised (bits : Z)
| Cleared (bits : Z)
| Got (t : ptr) (r : Z) (cl : bool)
| Silent.

Definition by_task (t : ptr) (l : event_label) : Prop := match l with Got x _ _ => x = t | _ => False end.
#[export] Instance by_task_dec t l : Decision (by_task t l).
Proof. destruct l; simpl; apply _. Defined.

(** What the steps do to bit [i]. *)
Definition bit_step (i : Z) (v : bool) (l : event_label) : bool :=
  match l with
  | Raised bits => v || Z.testbit bits i
  | Cleared bits => v && negb (Z.testbit bits i)
  | Got _ r true => v && negb (Z.testbit r i)
  | _ => v
  end.
Definition bit_after (i : Z) (v : bool) (ls : list event_label) : bool := foldl (bit_step i) v ls.

(** The bit was raised; a wait consumed it. *)
Definition raises (i : Z) (l : event_label) : Prop := match l with Raised bits => Z.testbit bits i = true | _ => False end.
#[export] Instance raises_dec i l : Decision (raises i l).
Proof. destruct l; simpl; apply _. Defined.
Definition consumes (i : Z) (l : event_label) : Prop :=
  match l with Got _ r true => Z.testbit r i = true | _ => False end.
#[export] Instance consumes_dec i l : Decision (consumes i l).
Proof. destruct l as [| |t r [|]|]; simpl; apply _. Defined.

(** A wait finds what it returns. *)
Definition finds (i : Z) (v : bool) (l : event_label) : Prop :=
  match l with Got _ r _ => Z.testbit r i = true → v = true | _ => True end.

Lemma bit_after_snoc i v ls l : bit_after i v (ls ++ [l]) = bit_step i (bit_after i v ls) l.
Proof. unfold bit_after. by rewrite foldl_app. Qed.

(** Each raise is good for one consumption. *)
Lemma bit_balance i v l : finds i v l →
  (length (filter (consumes i) [l]) + Nat.b2n (bit_step i v l) ≤ length (filter (raises i) [l]) + Nat.b2n v)%nat.
Proof.
  intros Hf. rewrite !filter_cons, !filter_nil.
  destruct l as [bits|bits|t r [|]|]; simpl in *; repeat case_decide; try done; simpl;
    try (destruct (Z.testbit _ i); [|]; simpl in *; try done); destruct v; simpl; try lia; naive_solver.
Qed.

(** The request of a wait, without the flag that asks for clearing, and that
    flag. *)
Definition request (bits : Z) : Z := Z.land bits (not32 EVENT_CLEAR_ON_EXIT).
Definition clears (bits : Z) : Z := Z.land bits EVENT_CLEAR_ON_EXIT.

Section event_traces.
Context {K : Type} `{SchedulerSpec K}.
Notation W := (world K event_group_t).
Context (eg : ptr) (Heg : eg ≠ NULL).
Implicit Types (w : W) (o : gmap Z event_group_t) (a : asched).

(** A set, a clear nobody interrupts, the round of an [event_wait] that finds
    bits, or something that leaves the group alone. *)
Inductive event_step : event_label → gmap Z event_group_t → gmap Z event_group_t → Prop :=
| step_set bits w w' a r : rep (kern w) a → wf a → event_set eg bits w = Ret r w' →
    event_step (Raised bits) (objs w) (objs w')
| step_clear env bits w w' a r : between env = mret () → rep (kern w) a → wf a →
    event_clear env eg bits w = Ret r w' → event_step (Cleared bits) (objs w) (objs w')
| step_wait t env bits wait_all clear timeout w w' a r : rep (kern w) a → thread t a → r ≠ 0 →
    event_wait_round env eg bits wait_all clear timeout () w = Ret (inr r) w' →
    event_step (Got t r (negb (clear =? 0))) (objs w) (objs w')
| step_other o o' : o' !! eg = o !! eg → event_step Silent o o'.

Lemma event_step_moves l o o' e i : event_step l o o' → o !! eg = Some e → 0 ≤ i < 32 →
  finds i (Z.testbit (flags e) i) l ∧
  ∃ e', o' !! eg = Some e' ∧ Z.testbit (flags e') i = bit_step i (Z.testbit (flags e) i) l.
Proof using Heg H.
  intros Hl He Hi.
  destruct Hl as [bits w w' a r Hr Hwf E|env bits w w' a r Henv Hr Hwf E
    |t env bits wait_all clear timeout w w' a r Hr Ht Hr0 E|o o' Ho].
  - split; [done|].
    destruct (event_set_runs eg bits a (objs w) e Hwf Heg He w Hr eq_refl) as (w1 & E1 & _ & Ho).
    rewrite E in E1. injection E1 as -> <-. eexists. rewrite Ho. split; [apply lookup_insert_eq|].
    simpl. apply Z.lor_spec.
  - split; [done|].
    destruct (event_clear_runs env eg bits a (objs w) e Henv Heg He w Hr eq_refl) as (w1 & E1 & _ & Ho).
    rewrite E in E1. injection E1 as -> <-. eexists. rewrite Ho. split; [apply lookup_insert_eq|].
    simpl. rewrite Z.land_spec, testbit_not32 by lia. by rewrite bool_decide_true by lia.
  - destruct (event_wait_round_cases env eg bits wait_all clear timeout w a e Hr (thread_wf _ _ Ht) He)
      as (w1 & _ & Hcase).
    destruct (event_match (flags e) bits wait_all); destruct Hcase as [E1 Ho]; rewrite E in E1.
    2:{ by apply eq_sym, event_wait_sleep_result in E1. }
    injection E1 as -> ->. split.
    { simpl. rewrite Z.land_spec. by intros [? _]%andb_true_iff. }
    eexists. rewrite Ho. split; [apply lookup_insert_eq|]. unfold consume.
    destruct (negb (clear =? 0)); simpl; [|done].
    rewrite Z.land_spec, testbit_not32 by lia. by rewrite bool_decide_true by lia.
  - split; [done|]. exists e. by rewrite Ho.
Qed.

Lemma event_trace_bits o e ls o' i : o !! eg = Some e → trace event_step ls o o' → 0 ≤ i < 32 →
  ∃ e', o' !! eg = Some e' ∧ Z.testbit (flags e') i = bit_after i (Z.testbit (flags e) i) ls ∧
    (length (filter (consumes i) ls) + Nat.b2n (Z.testbit (flags e') i) ≤
      length (filter (raises i) ls) + Nat.b2n (Z.testbit (flags e) i))%nat.
Proof using Heg H.
  intros He Ht Hi. induction Ht as [o|ls l o o1 o' _ IH Hl]; [by exists e|].
  destruct (IH He) as (e1 & He1 & Eb & Hc). destruct (event_step_moves l o1 o' e1 i Hl He1 Hi) as (Hf & e' & He' & Eb').
  exists e'. split_and!; [done|by rewrite bit_after_snoc, Eb', Eb|].
  pose proof (bit_balance i _ l Hf). rewrite !filter_app, !length_app, Eb'. lia.
Qed.
End event_traces.

(** ** The blocking call *)

Lemma event_match_nonzero f bits wait_all : bits ≠ 0 → event_match f bits wait_all = true → Z.land f bits ≠ 0.
Proof.
  intros Hb. unfold event_match. destruct (negb (wait_all =? 0)).
  - intros ->%Z.eqb_eq. done.
  - by intros ?%negb_true_iff%Z.eqb_neq.
Qed.

Section blocking.
Context {K : Type} `{SchedulerSpec K}.
Notation W := (world K event_group_t).
Context (eg : ptr) (Heg : eg ≠ NULL) (self : ptr) (env : others W).

(** The others only take steps of their own. *)
Definition others_step : gmap Z event_group_t → gmap Z event_group_t → Prop :=
  reaches (event_step eg) (λ l, ¬ by_task self l).
Context `{HE : !Environment self others_step env}.
Implicit Types (w : W) (o : gmap Z event_group_t) (a : asched).

Lemma event_wait_trace fuel bits wait_all timeout w a e : request bits ≠ 0 →
  rep (kern w) a → thread self a → objs w !! eg = Some e →
  safe (event_wait env fuel eg bits wait_all timeout) (λ r w', ∃ ls,
    trace (event_step eg) ls (objs w) (objs w') ∧
    filter (by_task self) ls = if r =? 0 then [] else [Got self r (negb (clears bits =? 0))]) w.
Proof using Type*.
  intros Hreq Hr Ht He.
  assert (∀ o', others_step (objs w) o' → is_Some (o' !! eg)) as Hthere.
  { intros o' (ls & Htr & _). destruct (event_trace_bits eg Heg _ e ls o' 0 He Htr) as (e' & ? & _); [lia|eauto]. }
  assert (bits ≠ 0) as Hb by (by intros ->).
  destruct (event_wait_enters env self fuel eg bits wait_all timeout w a Heg Hb Hr Ht)
    as (w0 & a0 & Ew & Hr0 & Ht0 & Ho0). unfold safe. rewrite Ew, <- Ho0 in *. fold (request bits) (clears bits).
  assert (patient self others_step
    (event_wait_round env eg (request bits) wait_all (clears bits) timeout) w0 a0) as Hpat.
  { intros w2 a2 Hr2 Ht2 HE2 _. destruct (Hthere _ HE2) as [e2 He2].
    destruct (event_wait_round_spec self others_step env eg (request bits) wait_all (clears bits) timeout
      w2 a2 e2 Hr2 Ht2 He2) as (x & w' & a' & ? & ? & ? & HQ).
    exists x, w', a'. split_and!; [done..|]. intros ->. by destruct HQ as (_ & ? & ? & _). }
  eapply safe_mono; [exact (loop_last self others_step env _ fuel w0 a0 Hpat Hr0 Ht0)|].
  intros r w' (w2 & a2 & Hr2 & Ht2 & HE2 & _ & Eb). pose proof HE2 as (ls & Htr & Hls).
  destruct (Hthere _ HE2) as [e2 He2].
  destruct (event_wait_round_spec self others_step env eg (request bits) wait_all (clears bits) timeout
    w2 a2 e2 Hr2 Ht2 He2) as (x & w1 & a1 & E1 & _ & _ & HQ).
  rewrite Eb in E1. injection E1 as <- <-.
  destruct (event_match (flags e2) (request bits) wait_all) eqn:Em.
  - destruct HQ as [-> _]. pose proof (event_match_nonzero _ _ _ Hreq Em) as Hne.
    exists (ls ++ [Got self (Z.land (flags e2) (request bits)) (negb (clears bits =? 0))]). split.
    + eapply trace_snoc; [exact Htr|]. by apply (step_wait eg self env (request bits) wait_all (clears bits) timeout w2 w' a2).
    + by rewrite filter_app, (filter_none _ ls Hls), filter_cons_True, (proj2 (Z.eqb_neq (Z.land (flags e2) (request bits)) 0)).
  - destruct HQ as [-> (ls' & Htr' & Hls')]. exists (ls ++ ls'). split; [by eapply trace_app|].
    by rewrite filter_app, !filter_none.
Qed.
End blocking.

(** ** Properties *)

Section properties.
Context {K : Type} `{SchedulerSpec K}.
Notation W := (world K event_group_t).
Implicit Types (w : W) (o : gmap Z event_group_t) (a : asched).

(** C10: Every event is consumed at most once: in any history of sets, undisturbed
    clears and waits, by any tasks and handlers, and for each of the 32 bits, the
    flag is what the last step on it made it, a wait that returned the bit found
    it up at its place in the history, and the waits that returned and cleared it
    are no more than the sets that raised it, and one if it was up at first. *)
Theorem event_traces_consume_once eg o e ls o' i : eg ≠ NULL → o !! eg = Some e →
  trace (event_step (K := K) eg) ls o o' → 0 ≤ i < 32 →
  ∃ e', o' !! eg = Some e' ∧ Z.testbit (flags e') i = bit_after i (Z.testbit (flags e) i) ls ∧
    (length (filter (consumes i) ls) ≤ length (filter (raises i) ls) + Nat.b2n (Z.testbit (flags e) i))%nat ∧
    ∀ ls1 t r cl ls2, ls = ls1 ++ [Got t r cl] ++ ls2 → Z.testbit r i = true →
      bit_after i (Z.testbit (flags e) i) ls1 = true.
Proof.
  intros Heg He Ht Hi. destruct (event_trace_bits eg Heg o e ls o' i He Ht Hi) as (e' & He' & Eb & Hc).
  exists e'. split_and!; [done..|lia|]. intros ls1 t r cl ls2 -> Hr.
  apply trace_app_inv in Ht as (o1 & Ht1 & (o2 & Hl & _)%trace_app_inv).
  destruct (event_trace_bits eg Heg o e ls1 o1 i He Ht1 Hi) as (e1 & He1 & <- & _).
  apply trace_one_inv in Hl. by apply (event_step_moves eg Heg _ o1 o2 e1 i Hl He1 Hi).
Qed.

(** The blocking [event_wait] among the calls of the others: a call that returns
    bits adds exactly one step to the trace of the group, which found and, if
    asked to, cleared exactly these bits; a call that returns zero adds none. *)
Theorem event_wait_in_trace eg self env `{!Environment self (others_step eg self) env}
    fuel bits wait_all timeout w a e :
  eg ≠ NULL → request bits ≠ 0 → rep (kern w) a → thread self a → objs w !! eg = Some e →
  safe (event_wait env fuel eg bits wait_all timeout) (λ r w', ∃ ls,
    trace (event_step eg) ls (objs w) (objs w') ∧
    filter (by_task self) ls = if r =? 0 then [] else [Got self r (negb (clears bits =? 0))]) w.
Proof. intros Heg Hreq Hr Ht He. by apply (event_wait_trace eg Heg self env fuel bits wait_all timeout w a e). Qed.
End properties.

(** ** The theorems on the example system *)

(** A handler sets bits 0 and 3, the task takes bit 0 away. *)
Definition raised_world : world sched event_group_t := final (event_set OBJ 9) (event_example_boot 4).
(** The scheduler is back where it was. *)
Definition settled (w : world sched event_group_t) : world sched event_group_t := mkWorld example_boot (objs w).
Lemma event_settled_objs w : objs (settled w) = objs w.
Proof. done. Qed.
Definition got_world : world sched event_group_t :=
  final (event_wait_round quiet_env OBJ 1 EVENT_WAIT_ANY EVENT_CLEAR_ON_EXIT TIMEOUT_NONE ()) (settled raised_world).

Lemma example_event_trace : trace (event_step (K := sched) OBJ) ([Raised 9] ++ [Got HIGH 1 true])
  (objs (event_example_boot 4)) (objs got_world).
Proof.
  apply (trace_app _ _ _ _ (objs raised_world)); apply trace_one.
  - refine (step_set OBJ 9 (event_example_boot 4) raised_world example_boot_abs KERNEL_OK example_boot_rep
      (thread_wf _ _ example_thread_high) _). vm_compute. reflexivity.
  - rewrite <- (event_settled_objs raised_world).
    refine (step_wait OBJ HIGH quiet_env 1 EVENT_WAIT_ANY EVENT_CLEAR_ON_EXIT TIMEOUT_NONE
      (settled raised_world) got_world example_boot_abs 1 example_boot_rep
      example_thread_high _ _); [done|]. vm_compute. reflexivity.
Qed.

Lemma event_traces_consume_once_witness : ∃ e', objs got_world !! OBJ = Some e' ∧ Z.testbit (flags e') 0 = false.
Proof.
  destruct (event_traces_consume_once (K := sched) OBJ (objs (event_example_boot 4)) (mkEvent 4)
    ([Raised 9] ++ [Got HIGH 1 true]) (objs got_world) 0) as (e' & He' & Hb & _).
  - done.
  - reflexivity.
  - apply example_event_trace.
  - lia.
  - exists e'. split; [exact He'|exact Hb].
Defined.

(** While the caller sleeps a handler sets bit 0. *)
Lemma set_bit0_step o : others_step (K := sched) OBJ HIGH o (set_bit0 o).
Proof.
  unfold set_bit0. destruct (o !! OBJ) as [e|] eqn:Ee.
  - destruct (event_set_runs (K := sched) OBJ 1 example_boot_abs o e (thread_wf _ _ example_thread_high)
      ltac:(done) Ee (mkWorld example_boot o) example_boot_rep eq_refl) as (w' & E & _ & Ho).
    exists [Raised 1]. split; [|by apply Forall_singleton; intros []]. apply trace_one.
    assert (alter (λ e0, e0 <| flags := Z.lor (flags e0) 1 |>) OBJ o = objs w') as ->.
    { rewrite Ho. apply map_eq. intros x. destruct (decide (x = OBJ)) as [->|].
      - by rewrite lookup_alter_eq, lookup_insert_eq, Ee.
      - by rewrite lookup_alter_ne, lookup_insert_ne. }
    exact (step_set OBJ 1 (mkWorld example_boot o) w' example_boot_abs KERNEL_OK example_boot_rep
      (thread_wf _ _ example_thread_high) E).
  - exists [Silent]. split; [|by apply Forall_singleton; intros []]. apply trace_one, step_other.
    by rewrite lookup_alter_eq, Ee.
Qed.

#[export] Instance set_bit0_environment :
  Environment HIGH (others_step (K := sched) OBJ HIGH) (example_env HIGH KERNEL_OK set_bit0).
Proof.
  eapply environment_weaken; [apply reaches_preorder| |apply example_environment].
  intros o o' [n ->]. induction n as [|n IH]; simpl; [by apply reaches_preorder|].
  eapply reaches_preorder; [exact IH|apply set_bit0_step].
Qed.

Lemma event_wait_in_trace_witness :
  safe (event_wait (example_env HIGH KERNEL_OK set_bit0) 5 OBJ 3 EVENT_WAIT_ANY 10) (λ r w', ∃ ls,
    trace (event_step (K := sched) OBJ) ls (objs (event_example_boot 4)) (objs w') ∧
    filter (by_task HIGH) ls = if r =? 0 then [] else [Got HIGH r false]) (event_example_boot 4).
Proof.
  apply (event_wait_in_trace OBJ HIGH (example_env HIGH KERNEL_OK set_bit0) 5 3 EVENT_WAIT_ANY 10
    (event_example_boot 4) example_boot_abs (mkEvent 4)).
  - done.
  - done.
  - apply example_boot_rep.
  - apply example_thread_high.
  - reflexivity.
Defined.
