(* ===== verification/Timer.v ===== *)
(** * Software timers

    [kernel/timer.c]: active timers form a singly linked list from
    [g_timer_list]; [timer_tick_isr] walks it on every tick.  The callbacks are
    application code: [callback f arg] is the effect of calling the function at
    address [f], on a state that contains the application's data [user]. *)
From S2P Require Import Prelude Config Critical.

Record sw_timer_t : Set := mkTimer {
  period_ticks : Z;
  remaining_ticks : Z;
  timer_callback : ptr;
  timer_arg : ptr;
  periodic : Z;
  active : Z;
  next : ptr;
}.

Definition eta_timer (t : sw_timer_t) : sw_timer_t :=
  mkTimer (period_ticks t) (remaining_ticks t) (timer_callback t) (timer_arg t) (periodic t)
    (active t) (next t).
#[export] Instance set_period_ticks : Setter period_ticks := ltac:(derive_setter eta_timer period_ticks).
#[export] Instance set_remaining_ticks : Setter remaining_ticks := ltac:(derive_setter eta_timer remaining_ticks).
#[export] Instance set_periodic : Setter periodic := ltac:(derive_setter eta_timer periodic).
#[export] Instance set_active : Setter active := ltac:(derive_setter eta_timer active).
#[export] Instance set_next : Setter next := ltac:(derive_setter eta_timer next).

Record timer_state (U : Type) : Type := mkTimerState {
  g_timer_list : ptr;
  timers : gmap Z sw_timer_t;
  timer_cpu : cpu_t;
  user : U;
}.
Arguments mkTimerState {U} _ _ _ _.
Arguments g_timer_list {U} _.
Arguments timers {U} _.
Arguments timer_cpu {U} _.
Arguments user {U} _.

#[export] Program Instance timer_cpu_lens U : Lens cpu_t (timer_state U) := {|
  view := timer_cpu; over c s := mkTimerState (g_timer_list s) (timers s) c (user s);
|}.
Solve Obligations with by intros; repeat destruct select (timer_state _).

(** ** Operations *)

Section operations.
Context {U : Type}.
Notation T := (timer_state U).
Context (callback : ptr → ptr → M T ()).

Definition t_deref (p : ptr) : M T sw_timer_t := λ s,
  match timers s !! p with Some t => Ret t s | None => Fault end.
Definition t_upd (p : ptr) (f : sw_timer_t → sw_timer_t) : M T () := λ s,
  match timers s !! p with
  | Some _ => Ret () (mkTimerState (g_timer_list s) (alter f p (timers s)) (timer_cpu s) (user s))
  | None => Fault
  end.
Definition set_timer_list (p : ptr) : M T () :=
  modify (λ s, mkTimerState p (timers s) (timer_cpu s) (user s)).

(** A walk of the list visits every timer at most once. *)
Definition timer_fuel : M T nat := gets (λ s, Datatypes.S (size (timers s))).

(** [iter] and [prev] of the search loop. *)
Definition timer_remove_body (timer : ptr) (x : ptr * ptr) : M T (ptr * ptr + ()) :=
  let '(iter, prev) := x in
  if iter =? NULL then mret (inr ()) else
  if iter =? timer then
    t ← t_deref iter;
    (if prev =? NULL then set_timer_list (next t) else t_upd prev (set_field next (next t))) ;;
    t_upd iter (set_field next NULL) ;;
    t_upd iter (set_field active 0) ;;
    mret (inr ())
  else
    t ← t_deref iter;
    mret (inl (next t, iter)).

Definition timer_list_remove (timer : ptr) : M T () :=
  iter ← gets g_timer_list;
  fuel ← timer_fuel;
  loop fuel (timer_remove_body timer) (iter, NULL).

Definition timer_list_add (timer : ptr) : M T () :=
  head ← gets g_timer_list;
  t_upd timer (set_field next head) ;;
  set_timer_list timer ;;
  t_upd timer (set_field active 1).

Definition timer_create (timer cb arg : ptr) : M T Z :=
  if (timer =? NULL) || (cb =? NULL) then mret KERNEL_ERR_PARAM else
  modify (λ s, mkTimerState (g_timer_list s) (<[timer := mkTimer 0 0 cb arg 0 0 NULL]> (timers s))
    (timer_cpu s) (user s)) ;;
  mret KERNEL_OK.

Definition timer_start (timer : ptr) (period_tick : Z) (is_periodic : Z) : M T Z :=
  if timer =? NULL then mret KERNEL_ERR_PARAM else
  t ← t_deref timer;
  if (timer_callback t =? NULL) || (period_tick =? 0) then mret KERNEL_ERR_PARAM else
  irq_state ← zoom critical_enter;
  t ← t_deref timer;
  when (negb (active t =? 0)) (timer_list_remove timer) ;;
  t_upd timer (set_field period_ticks period_tick) ;;
  t_upd timer (set_field remaining_ticks period_tick) ;;
  t_upd timer (set_field periodic (if negb (is_periodic =? 0) then 1 else 0)) ;;
  timer_list_add timer ;;
  zoom (critical_exit irq_state) ;;
  mret KERNEL_OK.

Definition timer_stop (timer : ptr) : M T Z :=
  if timer =? NULL then mret KERNEL_ERR_PARAM else
  irq_state ← zoom critical_enter;
  t ← t_deref timer;
  when (negb (active t =? 0)) (timer_list_remove timer) ;;
  zoom (critical_exit irq_state) ;;
  mret KERNEL_OK.

Definition timer_is_active (timer : ptr) : M T Z :=
  if timer =? NULL then mret 0 else
  t ← t_deref timer;
  mret (if negb (active t =? 0) then 1 else 0).

(** One turn of the loop of [timer_tick_isr]. *)
Definition timer_tick_body (iter : ptr) : M T (ptr + ()) :=
  if iter =? NULL then mret (inr ()) else
  t ← t_deref iter;
  let next_iter := next t in
  when (0 <? remaining_ticks t) (t_upd iter (λ t, t <| remaining_ticks := remaining_ticks t - 1 |>)) ;;
  t ← t_deref iter;
  when (remaining_ticks t =? 0)
    (let cb := timer_callback t in
     let arg := timer_arg t in
     (if negb (periodic t =? 0) then t_upd iter (set_field remaining_ticks (period_ticks t))
      else timer_list_remove iter) ;;
     callback cb arg) ;;
  mret (inl next_iter).

Definition timer_tick_isr : M T () :=
  if CONFIG_SW_TIMERS then
    iter ← gets g_timer_list;
    fuel ← timer_fuel;
    loop fuel timer_tick_body iter
  else mret ().
End operations.

(** ** The list of active timers *)

(** The timers [l] are chained from [p] on. *)
Fixpoint chain (h : gmap Z sw_timer_t) (l : list ptr) : Prop :=
  match l with
  | [] => True
  | x :: l' => (∃ t, h !! x = Some t ∧ next t = hd NULL l') ∧ chain h l'
  end.

Record timers_ok {U} (s : timer_state U) (l : list ptr) : Prop := {
  tm_null : timers s !! NULL = None;
  tm_head : g_timer_list s = hd NULL l;
  tm_chain : chain (timers s) l;
  tm_nodup : NoDup l;
  tm_active x t : timers s !! x = Some t → (active t = 1 ∧ x ∈ l) ∨ (active t = 0 ∧ x ∉ l);
  tm_idle x t : timers s !! x = Some t → x ∉ l → next t = NULL;
  tm_running x t : timers s !! x = Some t → x ∈ l → 0 < remaining_ticks t ≤ period_ticks t;
}.

Lemma chain_lookup h l x : chain h l → x ∈ l → is_Some (h !! x).
Proof.
  induction l as [|y l IH]; intros Hc Hx; [set_solver|].
  destruct Hc as [(t & Ht & _) Hc]. apply elem_of_cons in Hx as [->|]; eauto.
Qed.

Lemma chain_ext h h' l : (∀ x t, x ∈ l → h !! x = Some t → ∃ t', h' !! x = Some t' ∧ next t' = next t) →
  chain h l → chain h' l.
Proof.
  induction l as [|x l IH]; intros Hext; simpl; [done|]. intros [(t & Ht & Hn) Hc].
  split; [|apply IH; [|done]; intros; eapply Hext; [by right|done]].
  destruct (Hext x t) as (t' & ? & ?); [by left|done|]. exists t'. split; congruence.
Qed.

Lemma chain_app h l1 l2 : chain h (l1 ++ l2) → chain h l2.
Proof. induction l1 as [|x l1 IH]; [done|]. intros [_ ?]. by apply IH. Qed.

(** ** Unlinking a timer *)

Section removal.
Context {U : Type}.
Implicit Types (s : timer_state U).

Lemma t_deref_ret s p t : timers s !! p = Some t → t_deref p s = Ret t s.
Proof. intros Ht. unfold t_deref. by rewrite Ht. Qed.

Lemma t_upd_ret s p f : is_Some (timers s !! p) →
  t_upd p f s = Ret () (mkTimerState (g_timer_list s) (alter f p (timers s)) (timer_cpu s) (user s)).
Proof. intros [t Ht]. unfold t_upd. by rewrite Ht. Qed.

(** The timers after [x], which follows [l1] and precedes [l2], is unlinked. *)
Definition removed_store (l1 : list ptr) (x : ptr) (l2 : list ptr) (h : gmap Z sw_timer_t)
    : gmap Z sw_timer_t :=
  alter (set_field active 0) x (alter (set_field next NULL) x
    (if last_ptr NULL l1 =? NULL then h else alter (set_field next (hd NULL l2)) (last_ptr NULL l1) h)).

Definition removed_state (l1 : list ptr) (x : ptr) (l2 : list ptr) s : timer_state U :=
  mkTimerState (hd NULL (l1 ++ l2)) (removed_store l1 x l2 (timers s)) (timer_cpu s) (user s).

Lemma remove_walk s l0 l1 x l2 fuel : chain (timers s) (l1 ++ x :: l2) → timers s !! NULL = None →
  x ∉ l1 → (length l1 < fuel)%nat →
  ∃ fuel', loop fuel (timer_remove_body x) (hd NULL (l1 ++ x :: l2), last_ptr NULL l0) s =
    loop (Datatypes.S fuel') (timer_remove_body x) (x, last_ptr NULL (l0 ++ l1)) s.
Proof.
  intros Hc Hn. revert l0 fuel. induction l1 as [|y l1 IH]; intros l0 fuel Hx Hf.
  - destruct fuel as [|fuel]; [simpl in Hf; lia|]. exists fuel. by rewrite app_nil_r.
  - destruct fuel as [|fuel]; [simpl in Hf; lia|]. destruct Hc as [(t & Ht & Hnx) Hc].
    apply not_elem_of_cons in Hx as [Hxy Hx].
    destruct (IH Hc (l0 ++ [y]) fuel Hx) as [fuel' E]; [simpl in Hf; lia|]. exists fuel'.
    rewrite <- app_assoc in E. cbn [app] in E. rewrite <- E, last_ptr_snoc. cbn [app hd].
    apply loop_next. unfold timer_remove_body.
    rewrite (proj2 (Z.eqb_neq y NULL)) by (intros ->; by rewrite Hn in Ht).
    rewrite (proj2 (Z.eqb_neq y x)) by done. run (t_deref_ret _ _ _ Ht). by rewrite Hnx.
Qed.

Lemma timer_list_remove_ret s l1 x l2 : g_timer_list s = hd NULL (l1 ++ x :: l2) →
  chain (timers s) (l1 ++ x :: l2) → timers s !! NULL = None → NoDup (l1 ++ x :: l2) →
  timer_list_remove x s = Ret () (removed_state l1 x l2 s).
Proof.
  intros Hh Hc Hn Hnd. unfold timer_list_remove, timer_fuel. step. step. rewrite Hh.
  assert (∀ y, y ∈ l1 ++ x :: l2 → y ≠ NULL ∧ is_Some (timers s !! y)) as Hin.
  { intros y Hy. destruct (chain_lookup _ _ _ Hc Hy) as [t Ht]. split; [|eauto].
    intros ->. by rewrite Hn in Ht. }
  pose proof (nodup_length_size (timers s) _ Hnd (λ y Hy, proj2 (Hin y Hy))) as Hlen.
  rewrite length_app in Hlen. simpl in Hlen.
  apply NoDup_app in Hnd as (Hnd1 & Hd & Hnd2).
  assert (x ∉ l1) as Hx by (intros Hx; apply (Hd x Hx); by left).
  destruct (remove_walk s [] l1 x l2 (Datatypes.S (size (timers s))) Hc Hn Hx ltac:(lia)) as [fuel' E].
  cbn [last_ptr app] in E. rewrite E. apply loop_done. clear E.
  destruct (Hin x) as [Hx0 [t Ht]]; [set_solver|].
  pose proof (chain_app _ _ _ Hc) as [(t' & Ht' & Hnx) _]. simplify_eq.
  unfold timer_remove_body. rewrite (proj2 (Z.eqb_neq x NULL)), Z.eqb_refl by done.
  run (t_deref_ret _ _ _ Ht). unfold removed_state, removed_store. rewrite Hnx.
  destruct l1 as [|z l1 _] using rev_ind.
  - cbn [last_ptr]. rewrite Z.eqb_refl. step.
    erewrite bind_ret by (apply t_upd_ret; simpl; eauto).
    erewrite bind_ret by (apply t_upd_ret; simpl; rewrite lookup_alter_is_Some; eauto). done.
  - rewrite last_ptr_snoc. destruct (Hin z) as [Hz [u Hu]]; [set_solver|].
    rewrite (proj2 (Z.eqb_neq z NULL)) by done.
    erewrite bind_ret by (apply t_upd_ret; eauto).
    erewrite bind_ret by (apply t_upd_ret; simpl; rewrite lookup_alter_is_Some; eauto).
    erewrite bind_ret by (apply t_upd_ret; simpl; rewrite !lookup_alter_is_Some; eauto).
    simpl. rewrite Hh. f_equal. f_equal. by destruct l1.
Qed.

(** The fields of a timer other than its link and its flag. *)
Definition same_timer (t t' : sw_timer_t) : Prop :=
  period_ticks t' = period_ticks t ∧ remaining_ticks t' = remaining_ticks t ∧
  timer_callback t' = timer_callback t ∧ timer_arg t' = timer_arg t ∧ periodic t' = periodic t.

Lemma removed_lookup l1 x l2 h y t : removed_store l1 x l2 h !! y = Some t → ∃ t0, h !! y = Some t0 ∧
  same_timer t0 t ∧
  (if decide (y = x) then active t = 0 ∧ next t = NULL
   else active t = active t0 ∧ next t = if decide (y = last_ptr NULL l1 ∧ y ≠ NULL) then hd NULL l2 else next t0).
Proof.
  unfold removed_store. set (h1 := if last_ptr NULL l1 =? NULL then h else _).
  assert (∀ u, h1 !! y = Some u → ∃ t0, h !! y = Some t0 ∧ same_timer t0 u ∧ active u = active t0 ∧
    next u = if decide (y = last_ptr NULL l1 ∧ y ≠ NULL) then hd NULL l2 else next t0) as Hh1.
  { intros u. unfold h1. destruct (Z.eqb_spec (last_ptr NULL l1) NULL) as [E|E].
    - intros Hu. exists u. split_and!; try done. rewrite decide_False; [done|]. rewrite E. tauto.
    - destruct (decide (last_ptr NULL l1 = y)) as [<-|Hy].
      + rewrite lookup_alter_eq. intros (t0 & ? & ->)%fmap_Some. exists t0. split_and!; try done.
        by rewrite decide_True.
      + rewrite lookup_alter_ne by done. intros Hu. exists u. split_and!; try done.
        rewrite decide_False; [done|]. intros [? _]. congruence. }
  destruct (decide (x = y)) as [<-|Hxy].
  - rewrite !lookup_alter_eq. intros (u & (v & Hv & ->)%fmap_Some & ->)%fmap_Some.
    destruct (Hh1 v Hv) as (t0 & ? & (?&?&?&?&?) & _). exists t0. by rewrite decide_True.
  - rewrite !lookup_alter_ne by done. intros Ht. destruct (Hh1 _ Ht) as (t0 & ? & ? & ?).
    exists t0. by rewrite decide_False by congruence.
Qed.

Lemma removed_is_Some l1 x l2 h y : is_Some (removed_store l1 x l2 h !! y) ↔ is_Some (h !! y).
Proof.
  unfold removed_store. rewrite !lookup_alter_is_Some.
  destruct (_ =? NULL); [done|]. by rewrite lookup_alter_is_Some.
Qed.

Lemma last_ptr_in l : l ≠ [] → last_ptr NULL l ∈ l.
Proof. destruct l as [|z l _] using rev_ind; [done|]. intros _. rewrite last_ptr_snoc. set_solver. Qed.

Lemma removed_chain l1 x l2 h : chain h (l1 ++ x :: l2) → NoDup (l1 ++ x :: l2) → h !! NULL = None →
  chain (removed_store l1 x l2 h) (l1 ++ l2).
Proof.
  intros Hc Hnd Hn.
  assert (∀ y t0, y ≠ x → h !! y = Some t0 → ∃ t, removed_store l1 x l2 h !! y = Some t ∧
    next t = if decide (y = last_ptr NULL l1 ∧ y ≠ NULL) then hd NULL l2 else next t0) as Hother.
  { intros y t0 Hy H0. destruct (proj2 (removed_is_Some l1 x l2 h y)) as [t Ht]; [eauto|].
    exists t. split; [done|]. destruct (removed_lookup _ _ _ _ _ _ Ht) as (u & Hu & _ & Hd).
    rewrite decide_False in Hd by done. destruct Hd as [_ ->]. by simplify_eq. }
  assert (∀ y, y ∈ l1 ++ x :: l2 → y ≠ NULL) as Hnn.
  { intros y Hy ->. by destruct (chain_lookup _ _ _ Hc Hy) as [? ?]; simplify_eq. }
  apply NoDup_app in Hnd as (Hnd1 & Hd & [Hx2 Hnd2]%NoDup_cons).
  assert (chain (removed_store l1 x l2 h) l2) as Hc2.
  { apply (chain_ext h); [|by apply chain_app in Hc as [_ ?]].
    intros y t Hy Ht. destruct (Hother y t) as (t' & ? & E); [set_solver|done|].
    exists t'. split; [done|]. rewrite decide_False in E; [done|]. intros [-> Hl].
    destruct (decide (l1 = [])) as [->|H1]; [done|]. apply (Hd _ (last_ptr_in l1 H1)). by right. }
  (* the prefix keeps its links, its last timer gets the new successor *)
  assert (∀ l0 l', l1 = l0 ++ l' → chain (removed_store l1 x l2 h) (l' ++ l2)) as Hpre.
  { intros l0 l'. revert l0. induction l' as [|y l' IH]; intros l0 Hl1; [done|]. simpl. split.
    - assert (chain h ((y :: l') ++ x :: l2)) as [(t & Ht & Hnx) _].
      { apply (chain_app h l0). by rewrite app_assoc, <- Hl1. }
      destruct (Hother y t) as (t' & Ht' & E); [|done|].
      { intros ->. apply (Hd x); [rewrite Hl1; set_solver|by left]. }
      exists t'. split; [done|]. rewrite E. destruct l' as [|z l'].
      + rewrite decide_True; [done|]. split; [by rewrite Hl1, last_ptr_snoc|].
        apply Hnn. rewrite Hl1. set_solver.
      + rewrite decide_False; [done|]. intros [Ey _]. rewrite Hl1 in Ey, Hnd1.
        apply NoDup_app in Hnd1 as (_ & _ & [Hy _]%NoDup_cons). apply Hy.
        assert (last_ptr NULL (l0 ++ y :: z :: l') = last_ptr NULL (z :: l')) as El.
        { clear. generalize NULL at 1. induction l0; intros p; simpl; auto. }
        rewrite Ey, El. by apply last_ptr_in.
    - apply (IH (l0 ++ [y])). by rewrite <- app_assoc. }
  by apply (Hpre []).
Qed.
End removal.

(** ** One tick *)

Section ticking.
Context {U : Type} (Inv : U → Prop) (callback : ptr → ptr → M (timer_state U) ()) (g : ptr → ptr → U → U).
Implicit Types (s : timer_state U).

(** The callback works on the application's data, whose invariant it keeps, and
    leaves the timers alone. *)
Definition neutral_on : Prop := ∀ f arg s, Inv (user s) →
  callback f arg s = Ret () (mkTimerState (g_timer_list s) (timers s) (timer_cpu s) (g f arg (user s))) ∧
  Inv (g f arg (user s)).

Definition fires (t : sw_timer_t) : bool := remaining_ticks t =? 1.
Definition survives (t : sw_timer_t) : bool := negb (fires t) || negb (periodic t =? 0).

(** A running timer after the tick, up to its link. *)
Definition ticked (t : sw_timer_t) : sw_timer_t :=
  if fires t then
    if periodic t =? 0 then t <| remaining_ticks := 0 |> <| active := 0 |>
    else t <| remaining_ticks := period_ticks t |>
  else t <| remaining_ticks := remaining_ticks t - 1 |>.

Definition call (t : sw_timer_t) (u : U) : U :=
  if fires t then g (timer_callback t) (timer_arg t) u else u.

Definition same_but_next (t t' : sw_timer_t) : Prop := same_timer t t' ∧ active t' = active t.

(** The list structure. *)
Definition listed_as s (l : list ptr) : Prop :=
  timers s !! NULL = None ∧ g_timer_list s = hd NULL l ∧ chain (timers s) l ∧ NoDup l.

Lemma same_but_next_refl t : same_but_next t t.
Proof using Type. by split; [split_and!|]. Qed.

Lemma same_but_next_trans t1 t2 t3 : same_but_next t1 t2 → same_but_next t2 t3 → same_but_next t1 t3.
Proof using Type.
  intros [(?&?&?&?&?) ?] [(?&?&?&?&?) ?]. split; [split_and!|]; congruence.
Qed.

Lemma ticked_same t t' : same_but_next t t' → same_but_next (ticked t) (ticked t') ∧
  fires t' = fires t ∧ survives t' = survives t ∧ call t' = call t.
Proof using Type.
  intros [(E1&E2&E3&E4&E5) E6]. unfold survives, call, ticked, fires. rewrite E1, E2, E3, E4, E5.
  split; [|done]. destruct (remaining_ticks t =? 1); [destruct (periodic t =? 0)|];
    (split; [split_and!|]; simpl; congruence).
Qed.

Lemma call_inv t u : neutral_on → Inv u → Inv (call t u).
Proof using Type.
  intros Hcb Hu. unfold call. destruct (fires t); [|done]. by apply (Hcb _ _ (mkTimerState NULL ∅ cpu_reset u)).
Qed.

Lemma tick_step s l1 x l2 t : neutral_on → Inv (user s) → listed_as s (l1 ++ x :: l2) → timers s !! x = Some t →
  0 < remaining_ticks t →
  ∃ s', timer_tick_body callback x s = Ret (inl (hd NULL l2)) s' ∧
    listed_as s' (if survives t then l1 ++ x :: l2 else l1 ++ l2) ∧
    user s' = call t (user s) ∧ timer_cpu s' = timer_cpu s ∧
    (∀ y, is_Some (timers s' !! y) → is_Some (timers s !! y)) ∧
    (∀ y u, timers s !! y = Some u → ∃ u', timers s' !! y = Some u' ∧
      same_but_next (if decide (y = x) then ticked u else u) u' ∧
      (y ∉ l1 ++ x :: l2 → next u' = next u) ∧ (y = x → survives t = false → next u' = NULL)).
Proof using Type.
  intros Hcb Hinv (Hn & Hh & Hc & Hnd) Ht Hr.
  assert (x ≠ NULL) as Hx by (intros ->; by rewrite Hn in Ht).
  pose proof (chain_app _ _ _ Hc) as [(t' & Ht' & Hnx) _]. simplify_eq.
  set (s1 := mkTimerState (g_timer_list s) (alter (λ t, t <| remaining_ticks := remaining_ticks t - 1 |>) x
    (timers s)) (timer_cpu s) (user s)).
  assert (timers s1 !! x = Some (t <| remaining_ticks := remaining_ticks t - 1 |>)) as Ht1.
  { simpl. by rewrite lookup_alter_eq, Ht. }
  assert (∀ f h, (∀ t, next (f t) = next t) → chain h (l1 ++ x :: l2) →
    chain (alter f x h) (l1 ++ x :: l2)) as Hchain.
  { intros f h Hf. apply chain_ext. intros y u Hy Hu. destruct (decide (x = y)) as [<-|].
    - rewrite lookup_alter_eq, Hu. simpl. eauto.
    - rewrite lookup_alter_ne by done. eauto. }
  unfold timer_tick_body. rewrite (proj2 (Z.eqb_neq x NULL)) by done.
  run (t_deref_ret _ _ _ Ht). rewrite (proj2 (Z.ltb_lt 0 _)) by done. cbn [when].
  erewrite bind_ret by (apply t_upd_ret; eauto). fold s1. run (t_deref_ret _ _ _ Ht1). cbv zeta.
  simpl remaining_ticks. unfold survives, call, ticked, fires.
  destruct (Z.eqb_spec (remaining_ticks t) 1) as [E1|E1].
  - rewrite (proj2 (Z.eqb_eq (remaining_ticks t - 1) 0)) by lia. cbn [when]. simpl periodic.
    destruct (periodic t =? 0) eqn:Ep; cbn [negb orb].
    + rewrite bind_assoc.
      assert (chain (timers s1) (l1 ++ x :: l2)) as Hc1 by (by apply Hchain).
      assert (timers s1 !! NULL = None) as Hn1 by (simpl; by rewrite lookup_alter_ne).
      erewrite bind_ret by (by apply (timer_list_remove_ret s1 l1 x l2)).
      erewrite bind_ret by (apply Hcb; exact Hinv). rewrite Hnx.
      eexists. split; [done|]. unfold listed_as. split_and!; try done; simpl.
      * unfold removed_state. simpl. rewrite eq_None_not_Some, removed_is_Some, <- eq_None_not_Some. done.
      * by apply removed_chain.
      * apply NoDup_app in Hnd as (Hnd1 & Hd & [Hx2 Hnd2]%NoDup_cons). apply NoDup_app.
        split_and!; [done| |done]. intros y Hy Hy2. apply (Hd y Hy). by right.
      * intros y. rewrite removed_is_Some. simpl. by rewrite lookup_alter_is_Some.
      * intros y u Hu.
        destruct (proj2 (removed_is_Some l1 x l2 (timers s1) y)) as [u' Hu'].
        { simpl. rewrite lookup_alter_is_Some. eauto. }
        exists u'. split; [done|]. destruct (removed_lookup _ _ _ _ _ _ Hu') as (v & Hv & Hsv & Hd).
        simpl in Hv. case_decide as Hyx.
        -- subst y. rewrite lookup_alter_eq, Ht in Hv. simpl in Hv. simplify_eq.
           destruct Hd as [Ha Hnu]. rewrite E1, Z.eqb_refl, Ep.
           split_and!; [|set_solver|done].
           destruct Hsv as (?&?&?&?&?). simpl in *.
           split; [split_and!; simpl; congruence || lia|done].
        -- rewrite lookup_alter_ne in Hv by congruence. simplify_eq. destruct Hd as [Ha Hnu].
           split_and!; [done| |done]. intros Hyl. rewrite Hnu, decide_False; [done|].
           intros [-> Hl]. apply Hyl. destruct (decide (l1 = [])) as [->|]; [done|].
           apply elem_of_app. left. by apply last_ptr_in.
    + erewrite bind_assoc, bind_ret by (apply t_upd_ret; eauto).
      erewrite bind_ret by (apply Hcb; exact Hinv). rewrite Hnx.
      eexists. split; [done|]. unfold listed_as. split_and!; try done; simpl.
      * by rewrite !lookup_alter_ne.
      * by apply Hchain, Hchain.
      * intros y. by rewrite !lookup_alter_is_Some.
      * intros y u Hu. case_decide as Hyx.
        -- subst y. simplify_eq. rewrite !lookup_alter_eq, Ht. eexists. split; [done|].
           rewrite E1, Z.eqb_refl, Ep. split_and!; done.
        -- rewrite !lookup_alter_ne by congruence. exists u. split_and!; done.
  - rewrite (proj2 (Z.eqb_neq (remaining_ticks t - 1) 0)) by lia. cbn [when negb orb]. step.
    rewrite Hnx. eexists. split; [done|]. unfold listed_as. split_and!; try done; simpl.
    * by rewrite lookup_alter_ne.
    * by apply Hchain.
    * intros y. by rewrite lookup_alter_is_Some.
    * intros y u Hu. case_decide as Hyx.
      -- subst y. simplify_eq. rewrite lookup_alter_eq, Ht. eexists. split; [done|].
         rewrite (proj2 (Z.eqb_neq _ _) E1). split_and!; done.
      -- rewrite lookup_alter_ne by congruence. exists u. split_and!; done.
Qed.

(** What [h] says of the timer [x]. *)
Definition at_timer {B} (h : gmap Z sw_timer_t) (f : sw_timer_t → B) (d : B) (x : ptr) : B :=
  match h !! x with Some t => f t | None => d end.
Definition surviving (h : gmap Z sw_timer_t) (l : list ptr) : list ptr :=
  filter (λ x, at_timer h survives true x = true) l.
Definition calls (h : gmap Z sw_timer_t) (l : list ptr) (u : U) : U :=
  fold_left (λ u x, at_timer h call (λ u, u) x u) l u.

Lemma calls_inv h l u : neutral_on → Inv u → Inv (calls h l u).
Proof using Type.
  intros Hcb. revert u. induction l as [|x l IH]; intros u Hu; [done|]. apply IH.
  unfold at_timer. destruct (h !! x); [by apply call_inv|done].
Qed.

Lemma at_timer_step {B} (f : sw_timer_t → B) d h h' x (l : list ptr) :
  (∀ t t', same_but_next t t' → f t' = f t) →
  (∀ y u, h !! y = Some u → ∃ u', h' !! y = Some u' ∧ same_but_next (if decide (y = x) then ticked u else u) u') →
  (∀ y, is_Some (h' !! y) → is_Some (h !! y)) →
  ∀ y, y ≠ x → at_timer h' f d y = at_timer h f d y.
Proof using Type.
  intros Hf Hh Hdom y Hy. unfold at_timer. destruct (h !! y) as [u|] eqn:E.
  - destruct (Hh y u E) as (u' & -> & Hs). rewrite decide_False in Hs by done. by apply Hf.
  - destruct (h' !! y) as [u'|] eqn:E'; [|done]. destruct (Hdom y) as [? ?]; [eauto|congruence].
Qed.

Lemma tick_loop rest : ∀ done s fuel, neutral_on → Inv (user s) → listed_as s (done ++ rest) →
  (∀ x t, x ∈ rest → timers s !! x = Some t → 0 < remaining_ticks t) → (length rest < fuel)%nat →
  ∃ s', loop fuel (timer_tick_body callback) (hd NULL rest) s = Ret () s' ∧
    listed_as s' (done ++ surviving (timers s) rest) ∧
    user s' = calls (timers s) rest (user s) ∧ timer_cpu s' = timer_cpu s ∧
    (∀ y, is_Some (timers s' !! y) → is_Some (timers s !! y)) ∧
    (∀ y u, timers s !! y = Some u → ∃ u', timers s' !! y = Some u' ∧
      same_but_next (if decide (y ∈ rest) then ticked u else u) u' ∧
      (y ∉ done ++ rest → next u' = next u) ∧ (y ∈ rest → survives u = false → next u' = NULL)).
Proof using Type.
  induction rest as [|x rest IH]; intros done s fuel Hcb Hinv Hl Hr Hf.
  - destruct fuel as [|fuel]; [simpl in Hf; lia|]. exists s. split; [by apply loop_done|].
    split_and!; try done. intros y u Hu. exists u. rewrite decide_False by set_solver.
    split_and!; [done|apply same_but_next_refl|done|set_solver].
  - destruct fuel as [|fuel]; [simpl in Hf; lia|].
    destruct Hl as (Hn & Hh & Hc & Hnd). pose proof (chain_app _ _ _ Hc) as [(t & Ht & _) _].
    destruct (tick_step s done x rest t Hcb Hinv) as (s1 & E1 & Hl1 & Hu1 & Hc1 & Hd1 & Hs1); [done|done| |].
    { apply (Hr x t); [by left|done]. }
    apply NoDup_app in Hnd as (_ & Hdj & [Hx _]%NoDup_cons).
    assert (∀ y, y ∈ rest → y ≠ x) as Hne by (intros y Hy ->; done).
    destruct (IH (if survives t then done ++ [x] else done) s1 fuel Hcb) as
      (s' & E' & Hl' & Hu' & Hc' & Hd' & Hs').
    { rewrite Hu1. by apply call_inv. }
    { destruct (survives t); [by rewrite <- app_assoc|done]. }
    { intros y u' Hy Hyu'. destruct (Hd1 y) as [u Hu]; [eauto|].
      destruct (Hs1 y u Hu) as (u'' & Hu'' & [(_&Er&_) _] & _). simplify_eq.
      rewrite decide_False in Er by (by apply Hne). rewrite Er. apply (Hr y u); [by right|done]. }
    { simpl in Hf. lia. }
    assert (∀ y u, timers s !! y = Some u → ∃ u', timers s1 !! y = Some u' ∧
      same_but_next (if decide (y = x) then ticked u else u) u') as Hs1'.
    { intros y u Hu. destruct (Hs1 y u Hu) as (u' & ? & ? & _). eauto. }
    assert (surviving (timers s1) rest = surviving (timers s) rest) as Es.
    { unfold surviving. apply filter_ext_in. intros y Hy.
      rewrite (at_timer_step survives true (timers s) (timers s1) x rest); auto.
      intros u u' Hsame. by destruct (ticked_same u u' Hsame) as (_&_&?&_). }
    assert (∀ u, calls (timers s1) rest u = calls (timers s) rest u) as Ec.
    { assert (∀ y, y ∈ rest → at_timer (timers s1) call (λ u, u) y = at_timer (timers s) call (λ u, u) y) as Ea.
      { intros y Hy. apply (at_timer_step call (λ u, u) (timers s) (timers s1) x rest); auto.
        intros u u' Hsame. by destruct (ticked_same u u' Hsame) as (_&_&_&?). }
      clear -Ea. induction rest as [|y l IHl]; intros u; [done|]. unfold calls. simpl.
      rewrite Ea by (by left). apply IHl. intros. apply Ea. by right. }
    assert (at_timer (timers s) survives true x = survives t) as Ex by (unfold at_timer; by rewrite Ht).
    assert (at_timer (timers s) call (λ u, u) x = call t) as Exc by (unfold at_timer; by rewrite Ht).
    exists s'. split_and!.
    + simpl hd. rewrite <- E'. by apply loop_next.
    + rewrite Es in Hl'. unfold surviving at 1. rewrite filter_cons, Ex.
      destruct (survives t); [rewrite decide_True by done|by rewrite decide_False].
      by rewrite <- app_assoc in Hl'.
    + rewrite Hu', Ec, Hu1. unfold calls. simpl. by rewrite Exc.
    + by rewrite Hc'.
    + intros y Hy. by apply Hd1, Hd'.
    + intros y u Hu. destruct (Hs1 y u Hu) as (u1 & Hu1' & Hsame1 & Hn1 & Hx1).
      destruct (Hs' y u1 Hu1') as (u2 & Hu2 & Hsame2 & Hn2 & Hx2).
      exists u2. split; [done|]. split_and!.
      * destruct (decide (y = x)) as [->|Hyx].
        -- rewrite decide_False in Hsame2 by done. rewrite decide_True by (by left).
           by eapply same_but_next_trans.
        -- destruct (decide (y ∈ rest)) as [Hin|Hin].
           ++ rewrite decide_True by (by right). eapply same_but_next_trans; [|exact Hsame2].
              by apply ticked_same.
           ++ rewrite decide_False by set_solver. by eapply same_but_next_trans.
      * intros Hy. rewrite Hn2, Hn1; [done|set_solver|]. destruct (survives t); set_solver.
      * intros [->|Hin]%elem_of_cons Hsv.
        -- assert (u = t) as -> by congruence. rewrite Hn2; [by apply Hx1|]. rewrite Hsv. intros Hy.
           apply elem_of_app in Hy as [Hy|Hy]; [apply (Hdj x Hy); by left|done].
        -- apply Hx2; [done|]. rewrite decide_False in Hsame1 by (by apply Hne).
           destruct (ticked_same u u1 Hsame1) as (_&_&->&_). done.
Qed.

(** The handler on a well-formed timer list. *)
Lemma timer_tick_ret s l : neutral_on → Inv (user s) → timers_ok s l →
  ∃ s', timer_tick_isr callback s = Ret () s' ∧ timers_ok s' (surviving (timers s) l) ∧
    user s' = calls (timers s) l (user s) ∧ timer_cpu s' = timer_cpu s ∧
    (∀ y u, timers s !! y = Some u → ∃ u', timers s' !! y = Some u' ∧
      same_but_next (if decide (y ∈ l) then ticked u else u) u').
Proof using Type.
  intros Hcb Hinv Hok. pose proof Hok as [Hn Hh Hc Hnd Ha Hi Hr].
  assert (length l < Datatypes.S (size (timers s)))%nat as Hlen.
  { pose proof (nodup_length_size (timers s) l Hnd (λ x Hx, chain_lookup _ _ _ Hc Hx)). lia. }
  destruct (tick_loop l [] s (Datatypes.S (size (timers s))) Hcb Hinv (conj Hn (conj Hh (conj Hc Hnd)))) as (s' & E' & (Hn' & Hh' & Hc' & Hnd') & Hu' & Hcpu' & Hd' & Hs').
  { intros x t Hx Ht. by destruct (Hr x t Ht Hx). }
  { done. }
  exists s'. split_and!; try done.
  - unfold timer_tick_isr, CONFIG_SW_TIMERS, timer_fuel. step. step. by rewrite Hh.
  - assert (∀ x u, timers s !! x = Some u → x ∈ surviving (timers s) l ↔ x ∈ l ∧ survives u = true) as Hsv.
    { intros x u Hu. unfold surviving. rewrite list_elem_of_filter. unfold at_timer. rewrite Hu. by split; intros [??]. }
    split; try done.
    + intros x t Ht. destruct (Hd' x) as [u Hu]; [eauto|].
      destruct (Hs' x u Hu) as (u' & Hu'' & [_ Es] & _). simplify_eq. rewrite Es, (Hsv x u Hu).
      destruct (Ha x u Hu) as [[Ea Hx]|[Ea Hx]].
      * rewrite decide_True by done. unfold ticked, survives.
        destruct (fires u), (periodic u =? 0); simpl; rewrite ?Ea; naive_solver.
      * rewrite decide_False by done. rewrite Ea. tauto.
    + intros x t Ht Hx. destruct (Hd' x) as [u Hu]; [eauto|].
      destruct (Hs' x u Hu) as (u' & Hu'' & _ & Hnx & Hnull). simplify_eq.
      destruct (decide (x ∈ l)) as [Hin|Hin].
      * apply Hnull; [done|]. destruct (survives u) eqn:E; [|done]. destruct Hx. by apply (Hsv x u Hu).
      * rewrite Hnx by done. by apply (Hi x u).
    + intros x t Ht Hx. destruct (Hd' x) as [u Hu]; [eauto|].
      destruct (proj1 (Hsv x u Hu) Hx) as [Hin Hsurv].
      destruct (Hs' x u Hu) as (u' & Hu'' & [(Ep & Er & _) _] & _). simplify_eq.
      rewrite (decide_True _ _ Hin) in Ep, Er. rewrite Ep, Er.
      destruct (Hr x u Hu Hin). unfold ticked, survives, fires in *. clear Ep Er.
      destruct (Z.eqb_spec (remaining_ticks u) 1), (periodic u =? 0); simpl in *; try done; lia.
  - intros y u Hu. destruct (Hs' y u Hu) as (u' & ? & ? & _). eauto.
Qed.
End ticking.

(** ** Starting and stopping *)

Section start_stop.
Context {U : Type}.
Implicit Types (s : timer_state U).

Definition without (p : ptr) (l : list ptr) : list ptr := filter (λ y, y ≠ p) l.

Lemma without_absent p l : p ∉ l → without p l = l.
Proof. intros Hp. apply filter_all. intros x Hx ->. done. Qed.

Lemma without_split p l1 l2 : NoDup (l1 ++ p :: l2) → without p (l1 ++ p :: l2) = l1 ++ l2.
Proof.
  intros (_ & Hd & [Hp _]%NoDup_cons)%NoDup_app. unfold without.
  rewrite filter_app, filter_cons_False by tauto. f_equal; apply without_absent; [|done].
  intros Hin. apply (Hd p Hin). by left.
Qed.

(** Entering or leaving a critical section does not touch the timers. *)
Definition with_cpu (c : cpu_t) s : timer_state U := mkTimerState (g_timer_list s) (timers s) c (user s).

Lemma timers_ok_cpu c s l : timers_ok s l → timers_ok (with_cpu c s) l.
Proof. by intros []. Qed.

Lemma timer_enter s : zoom critical_enter s =
  Ret (primask (timer_cpu s)) (with_cpu (timer_cpu s <| primask := 1 |>) s).
Proof. done. Qed.

Lemma timer_exit s p : p = 0 ∨ p = 1 →
  zoom (critical_exit p) s = Ret () (with_cpu (timer_cpu s <| primask := p |>) s).
Proof. by intros [-> | ->]. Qed.

(** [if (timer->active) timer_list_remove(timer)] *)
Lemma deactivate s l p t : timers_ok s l → timers s !! p = Some t →
  ∃ s', when (negb (active t =? 0)) (timer_list_remove p) s = Ret () s' ∧
    timers_ok s' (without p l) ∧ timer_cpu s' = timer_cpu s ∧ user s' = user s ∧
    ∀ y u, timers s !! y = Some u → ∃ u', timers s' !! y = Some u' ∧ same_timer u u' ∧
      active u' = if decide (y = p) then 0 else active u.
Proof.
  intros [Hn Hh Hc Hnd Ha Hi Hr] Ht. destruct (Ha p t Ht) as [[Et Hp]|[Et Hp]].
  2: { rewrite Et. cbn. exists s. rewrite without_absent by done. split_and!; try done.
       intros y u Hu. exists u. split_and!; [done..|]. case_decide as E; [|done]. subst y.
       by simplify_eq. }
  rewrite Et. change (negb (1 =? 0)) with true. cbn [when].
  apply list_elem_of_split in Hp as (l1 & l2 & ->). rewrite (without_split p l1 l2 Hnd).
  rewrite (timer_list_remove_ret s l1 p l2) by done.
  eexists. split; [done|]. unfold removed_state. split_and!; try done; simpl.
  - assert (∀ y, y ≠ p → y ∈ l1 ++ p :: l2 ↔ y ∈ l1 ++ l2) as Hel by set_solver.
    assert (p ∉ l1 ++ l2) as Hp.
    { apply NoDup_app in Hnd as (_ & Hd & [Hp _]%NoDup_cons).
      intros [Hin|Hin]%elem_of_app; [|done]. apply (Hd p Hin). by left. }
    split; simpl; try done.
    + by rewrite eq_None_not_Some, removed_is_Some, <- eq_None_not_Some.
    + by apply removed_chain.
    + apply NoDup_app in Hnd as (Hnd1 & Hd & [_ Hnd2]%NoDup_cons). apply NoDup_app. split_and!; [done| |done].
      intros y Hy Hy2. apply (Hd y Hy). by right.
    + intros y u (u0 & Hu0 & _ & Hd)%removed_lookup. case_decide as E.
      * subst y. right. by destruct Hd.
      * destruct Hd as [-> _]. rewrite <- Hel by done. by apply Ha.
    + intros y u (u0 & Hu0 & _ & Hd)%removed_lookup Hy. case_decide as E; [by destruct Hd|].
      destruct Hd as [_ ->]. rewrite decide_False; [apply (Hi y u0 Hu0); by rewrite Hel|].
      intros [-> Hl]. destruct (decide (l1 = [])) as [->|H1]; [done|].
      apply Hy, elem_of_app. left. by apply last_ptr_in.
    + intros y u (u0 & Hu0 & (Ep & Er & _) & _)%removed_lookup Hy. rewrite Ep, Er.
      apply (Hr y u0 Hu0), Hel; [by intros ->|done].
  - intros y u Hu. destruct (proj2 (removed_is_Some l1 p l2 (timers s) y)) as [u' Hu']; [eauto|].
    exists u'. split; [done|]. destruct (removed_lookup _ _ _ _ _ _ Hu') as (u0 & Hu0 & Hs & Hd).
    simplify_eq. split; [done|]. case_decide; [by destruct Hd|by destruct Hd].
Qed.

(** [timer_list_add] links a timer that is not in the list. *)
Lemma link s l p t : timers_ok s l → timers s !! p = Some t → p ∉ l →
  0 < remaining_ticks t ≤ period_ticks t →
  ∃ s', timer_list_add p s = Ret () s' ∧ timers_ok s' (p :: l) ∧ timer_cpu s' = timer_cpu s ∧
    user s' = user s ∧
    ∀ y, timers s' !! y = if decide (y = p) then Some (t <| next := hd NULL l |> <| active := 1 |>)
      else timers s !! y.
Proof.
  intros [Hn Hh Hc Hnd Ha Hi Hr] Ht Hp Hrt. unfold timer_list_add. step.
  erewrite bind_ret by (apply t_upd_ret; eauto). step.
  rewrite (t_upd_ret _ p) by (simpl; rewrite lookup_alter_is_Some; eauto).
  eexists. split; [done|].
  match goal with |- timers_ok (mkTimerState _ ?h _ _) _ ∧ _ => set (h' := h) end.
  assert (∀ y, h' !! y = if decide (y = p) then Some (t <| next := hd NULL l |> <| active := 1 |>)
    else timers s !! y) as Hh'.
  { intros y. unfold h'. simpl. case_decide as E.
    - subst y. by rewrite !lookup_alter_eq, Ht, <- Hh.
    - by rewrite !lookup_alter_ne by congruence. }
  assert (p ≠ NULL) as Hp0 by (intros ->; by rewrite Hn in Ht).
  split_and!; try done. split; simpl; try done.
  - rewrite Hh'. by rewrite decide_False.
  - split.
    + exists (t <| next := hd NULL l |> <| active := 1 |>). rewrite Hh', decide_True by done. done.
    + apply (chain_ext (timers s)); [|done]. intros y u Hy Hu. exists u. rewrite Hh', decide_False; [done|].
      by intros ->.
  - by apply NoDup_cons.
  - intros y u. rewrite Hh'. case_decide as E.
    + intros [= <-]. left. split; [done|]. subst. by left.
    + rewrite elem_of_cons. intros Hu. destruct (Ha y u Hu) as [[? ?]|[? ?]]; [left|right]; tauto.
  - intros y u. rewrite Hh', elem_of_cons. case_decide as E; [tauto|]. intros Hu Hy. apply (Hi y u Hu). tauto.
  - intros y u. rewrite Hh', elem_of_cons. case_decide as E; [by intros [= <-] _|].
    intros Hu [?|Hy]; [done|]. by apply (Hr y u Hu).
Qed.
End start_stop.

(** The callbacks ask nothing of the application's data. *)
Definition neutral {U} (callback : ptr → ptr → M (timer_state U) ()) (g : ptr → ptr → U → U) : Prop :=
  ∀ f arg s, callback f arg s = Ret () (mkTimerState (g_timer_list s) (timers s) (timer_cpu s) (g f arg (user s))).

Lemma neutral_everywhere {U} (callback : ptr → ptr → M (timer_state U) ()) g :
  neutral callback g → neutral_on (λ _, True) callback g.
Proof. intros Hcb f arg s _. by rewrite Hcb. Qed.

(** ** A timer over many ticks *)

Section period.
Context {U : Type} (Inv : U → Prop) (callback : ptr → ptr → M (timer_state U) ()) (g : ptr → ptr → U → U).
Implicit Types (s : timer_state U).

(** [k] ticks in a row. *)
Fixpoint ticks (k : nat) : M (timer_state U) () :=
  match k with O => mret () | Datatypes.S k => ticks k ;; timer_tick_isr callback end.

(** The timer [p], started with period [n], [k] ticks later. *)
Definition on_schedule (one_shot : bool) (n k : Z) (l : list ptr) (p : ptr) (t : sw_timer_t) : Prop :=
  period_ticks t = n ∧ (periodic t =? 0) = one_shot ∧
  if one_shot then (k < n → p ∈ l ∧ remaining_ticks t = n - k) ∧ (n ≤ k → p ∉ l)
  else p ∈ l ∧ remaining_ticks t = n - k mod n.

Lemma on_schedule_tick one_shot n k l l' p t t' : 0 < n → 0 ≤ k → on_schedule one_shot n k l p t →
  same_but_next (if decide (p ∈ l) then ticked t else t) t' → (p ∈ l' ↔ p ∈ l ∧ survives t = true) →
  on_schedule one_shot n (k + 1) l' p t'.
Proof.
  intros Hn Hk (En & Eo & H) [(Ep & Er & _ & _ & Eo') _] Hin. unfold on_schedule.
  assert (period_ticks t' = n ∧ periodic t' = periodic t) as [-> ->].
  { rewrite Ep, Eo', <- En. case_decide; [|done]. unfold ticked. by destruct (fires t), (periodic t =? 0). }
  clear Ep Eo'. split_and!; [done..|]. rewrite Er. clear Er t'.
  unfold survives, fires in Hin. unfold ticked, fires. rewrite Eo in *. destruct one_shot; cbn [negb] in *.
  - destruct H as [H H']. rewrite orb_false_r, negb_true_iff, Z.eqb_neq in Hin. split.
    + intros Hk'. destruct H as [Hl Hr]; [lia|]. rewrite Hr in *. rewrite decide_True by done.
      rewrite (proj2 (Z.eqb_neq (n - k) 1)) by lia. simpl. split; [apply Hin; split; [done|lia]|lia].
    + intros Hk' [Hl Hr]%Hin. destruct (decide (n ≤ k)) as [Hle|]; [by apply H'|].
      destruct H as [_ E]; [lia|]. lia.
  - destruct H as [Hl Hr]. rewrite decide_True, mod_succ by done.
    split; [apply Hin; split; [done|apply orb_true_r]|]. rewrite Hr.
    destruct (Z.eqb_spec (n - k mod n) 1); destruct (Z.eqb_spec (k mod n) (n - 1)); simpl; lia.
Qed.

(** The timers whose callbacks a tick makes, and one of these callbacks. *)
Definition due (h : gmap Z sw_timer_t) (l : list ptr) : list ptr := filter (λ x, at_timer h fires false x = true) l.
Definition called (h : gmap Z sw_timer_t) (u : U) (x : ptr) : U :=
  at_timer h (λ t, g (timer_callback t) (timer_arg t)) (λ u, u) x u.

Lemma calls_due h l u : calls g h l u = fold_left (called h) (due h l) u.
Proof using Type.
  revert u. induction l as [|x l IH]; intros u; [done|]. unfold calls, due. simpl. rewrite filter_cons.
  fold (due h l) (calls g h l (at_timer h (call g) (λ u, u) x u)). rewrite IH.
  assert (at_timer h (call g) (λ u, u) x u = if at_timer h fires false x then called h u x else u) as ->.
  { unfold called, at_timer, call. by destruct (h !! x). }
  destruct (at_timer h fires false x); [by rewrite decide_True|by rewrite decide_False].
Qed.

(** The timers of [l] call the same functions in [h'] as in [h]. *)
Definition same_calls (h h' : gmap Z sw_timer_t) (l : list ptr) : Prop := ∀ x, x ∈ l →
  ∃ t t', h !! x = Some t ∧ h' !! x = Some t' ∧ timer_callback t' = timer_callback t ∧ timer_arg t' = timer_arg t.

Lemma called_same h h' l xs u : same_calls h h' l → xs ⊆ l → fold_left (called h') xs u = fold_left (called h) xs u.
Proof using Type.
  clear Inv callback. intros Hs. revert u. induction xs as [|x xs IH]; intros u Hin; [done|]. simpl. rewrite IH by set_solver.
  f_equal. destruct (Hs x) as (t & t' & Ht & Ht' & Ec & Ea); [set_solver|].
  unfold called, at_timer. by rewrite Ht, Ht', Ec, Ea.
Qed.

(** It is the turn of a timer of period [n] to call on tick [k]. *)
Definition on_turn (one_shot : bool) (n k : Z) : Prop := if one_shot then k = n else k mod n = 0.

Lemma due_on_turn one_shot n k l p t h : 0 < n → 0 ≤ k → h !! p = Some t → on_schedule one_shot n k l p t →
  p ∈ due h l ↔ on_turn one_shot n (k + 1).
Proof using Type.
  intros Hn Hk Ht (_ & _ & H). unfold due, on_turn. rewrite list_elem_of_filter. unfold at_timer, fires. rewrite Ht, Z.eqb_eq.
  destruct one_shot.
  - destruct H as [H H']. destruct (decide (k < n)) as [Hlt|].
    + destruct (H Hlt) as [Hin ->]. split; [lia|]. intros ?. split; [lia|done].
    + split; [intros [_ Hin]; by destruct (H' ltac:(lia))|lia].
  - destruct H as [Hin ->]. rewrite mod_succ by done. pose proof (Z.mod_pos_bound k n Hn).
    destruct (Z.eqb_spec (k mod n) (n - 1)); split; try lia; try (intros [? _]; lia). intros _. split; [lia|done].
Qed.

Lemma same_calls_tick h h1 h2 l : same_calls h h1 l →
  (∀ y u, h1 !! y = Some u → ∃ u', h2 !! y = Some u' ∧ same_but_next (if decide (y ∈ l) then ticked u else u) u') →
  same_calls h h2 (surviving h1 l).
Proof using Type.
  intros Hs Hh x [_ Hx]%list_elem_of_filter. destruct (Hs x Hx) as (t & t1 & Ht & Ht1 & Ec & Ea).
  destruct (Hh x t1 Ht1) as (t2 & Ht2 & [(_ & _ & Ec2 & Ea2 & _) _]). exists t, t2. split_and!; [done..| |].
  - rewrite Ec2, <- Ec. case_decide; [|done]. unfold ticked. by destruct (fires t1), (periodic t1 =? 0).
  - rewrite Ea2, <- Ea. case_decide; [|done]. unfold ticked. by destruct (fires t1), (periodic t1 =? 0).
Qed.

(** The callbacks of [k] ticks, tick by tick. *)
Lemma ticks_log s l p t k : neutral_on Inv callback g → Inv (user s) → timers_ok s l → p ∈ l → timers s !! p = Some t →
  remaining_ticks t = period_ticks t → ∃ s' log l' t', ticks k s = Ret () s' ∧ timers_ok s' l' ∧
    Inv (user s') ∧ same_calls (timers s) (timers s') l' ∧ timers s' !! p = Some t' ∧
    on_schedule (periodic t =? 0) (period_ticks t) (Z.of_nat k) l' p t' ∧ length log = k ∧
    user s' = fold_left (called (timers s)) (concat log) (user s) ∧
    ∀ i xs, log !! i = Some xs → NoDup xs ∧ (p ∈ xs ↔ on_turn (periodic t =? 0) (period_ticks t) (Z.of_nat i + 1)).
Proof using Type.
  intros Hcb Hinv Hok Hp Ht Er. destruct (tm_running _ _ Hok p t Ht Hp) as [Hn _]. rewrite Er in Hn.
  induction k as [|k (s1 & log & l1 & t1 & E1 & Hok1 & Hinv1 & Hsc & Ht1 & H1 & Hlen & Hu1 & Hlog)].
  - exists s, [], l, t. split_and!; try done.
    + intros x Hx. destruct (chain_lookup _ _ _ (tm_chain _ _ Hok) Hx) as [u Hu]. by exists u, u.
    + split_and!; [done..|]. destruct (periodic t =? 0); [split; lia || (split; [done|lia])|]. rewrite Z.mod_0_l by lia.
      split; [done|lia].
  - destruct (timer_tick_ret Inv callback g s1 l1 Hcb Hinv1 Hok1) as (s2 & E2 & Hok2 & Hu2 & _ & H2).
    destruct (H2 p t1 Ht1) as (t2 & Ht2 & Hs2).
    exists s2, (log ++ [due (timers s1) l1]), (surviving (timers s1) l1), t2.
    replace (Z.of_nat (Datatypes.S k)) with (Z.of_nat k + 1) by lia.
    split_and!; [simpl; by run E1|done| |by apply same_calls_tick|done| | | |].
    + rewrite Hu2. by apply (calls_inv Inv callback).
    + eapply on_schedule_tick; [done|lia|exact H1|exact Hs2|].
      unfold surviving, at_timer. rewrite list_elem_of_filter, Ht1. tauto.
    + rewrite length_app, Hlen. simpl. lia.
    + rewrite Hu2, calls_due, concat_app, fold_left_app, <- Hu1. simpl. rewrite app_nil_r.
      apply (called_same _ _ l1); [done|]. intros x [_ Hx]%list_elem_of_filter. done.
    + intros i xs [[_ Hi]|[-> <-]]%lookup_snoc_Some; [by apply Hlog|]. rewrite Hlen. split.
      * apply NoDup_filter, (tm_nodup _ _ Hok1).
      * apply (due_on_turn _ _ _ _ _ t1); [done|lia|done..].
Qed.
End period.

(** ** Properties *)

Section properties.
Context {U : Type}.
Implicit Types (s : timer_state U).

(** [timer_start] on a well-formed list, whether the timer runs or not,
    puts it once, at the front of the list, with the full period ahead; the
    other timers keep their fields and their order, the list stays well formed
    and the interrupt mask is the caller's. *)
Theorem timer_start_spec s l p t n is_periodic : timers_ok s l → timers s !! p = Some t →
  timer_callback t ≠ NULL → 0 < n < 2 ^ 32 → primask (timer_cpu s) = 0 ∨ primask (timer_cpu s) = 1 →
  ∃ s' t', timer_start p n is_periodic s = Ret KERNEL_OK s' ∧ timers_ok s' (p :: without p l) ∧
    timers s' !! p = Some t' ∧ period_ticks t' = n ∧ remaining_ticks t' = n ∧
    periodic t' = (if is_periodic =? 0 then 0 else 1) ∧
    timer_callback t' = timer_callback t ∧ timer_arg t' = timer_arg t ∧
    primask (timer_cpu s') = primask (timer_cpu s) ∧ user s' = user s ∧
    ∀ y u, y ≠ p → timers s !! y = Some u → ∃ u', timers s' !! y = Some u' ∧ same_but_next u u'.
Proof.
  intros Hok Ht Hcb Hn Hp. assert (p ≠ NULL) as Hp0 by (intros ->; by rewrite (tm_null _ _ Hok) in Ht).
  unfold timer_start. rewrite (proj2 (Z.eqb_neq p NULL)) by done. run (t_deref_ret _ _ _ Ht).
  rewrite (proj2 (Z.eqb_neq _ _) Hcb), (proj2 (Z.eqb_neq n 0)) by lia. cbn [orb].
  run (timer_enter s). run (t_deref_ret (with_cpu (timer_cpu s <| primask := 1 |>) s) _ _ Ht).
  destruct (deactivate _ l p t (timers_ok_cpu (timer_cpu s <| primask := 1 |>) _ _ Hok) Ht)
    as (s1 & E1 & Hok1 & Hc1 & Hu1 & H1).
  run E1. destruct (H1 p t Ht) as (t1 & Ht1 & (?&?&Ecb&Earg&?) & Eact). rewrite decide_True in Eact by done.
  set (s2 := mkTimerState (g_timer_list s1) (<[p := t1 <| period_ticks := n |> <| remaining_ticks := n |>
    <| periodic := if is_periodic =? 0 then 0 else 1 |> ]> (timers s1)) (timer_cpu s1) (user s1)).
  assert (p ∉ without p l) as Hpl by (intros [? _]%list_elem_of_filter; done).
  assert (timers_ok s2 (without p l)) as Hok2.
  { destruct Hok1 as [Hn1 Hh1 Hch1 Hnd1 Ha1 Hi1 Hr1]. split; simpl; try done.
    - by rewrite lookup_insert_ne.
    - apply (chain_ext (timers s1)); [|done]. intros y u Hy Hu. exists u.
      rewrite lookup_insert_ne; [done|]. by intros ->.
    - intros y u. destruct (decide (p = y)) as [<-|]; [|rewrite lookup_insert_ne by done; apply Ha1].
      rewrite lookup_insert_eq. intros [= <-]. right. done.
    - intros y u. destruct (decide (p = y)) as [<-|]; [|rewrite lookup_insert_ne by done; apply Hi1].
      rewrite lookup_insert_eq. intros [= <-] _. simpl. by apply (Hi1 p t1).
    - intros y u. destruct (decide (p = y)) as [<-|]; [done|]. rewrite lookup_insert_ne by done. apply Hr1. }
  destruct (link s2 _ p _ Hok2 (lookup_insert_eq _ _ _) Hpl) as (s3 & E3 & Hok3 & Hc3 & Hu3 & H3); [simpl; lia|].
  erewrite bind_ret by (apply t_upd_ret; eauto).
  erewrite bind_ret by (apply t_upd_ret; simpl; rewrite lookup_alter_is_Some; eauto).
  erewrite bind_ret by (apply t_upd_ret; simpl; rewrite !lookup_alter_is_Some; eauto).
  match goal with |- ∃ _ _, (timer_list_add p ≫= ?k) ?x = _ ∧ _ => replace x with s2 end.
  2: { unfold s2. simpl. f_equal. apply map_eq. intros y. destruct (decide (p = y)) as [<-|].
       - rewrite lookup_insert_eq, !lookup_alter_eq, Ht1. by destruct (is_periodic =? 0).
       - by rewrite lookup_insert_ne, !lookup_alter_ne by done. }
  run E3. erewrite bind_ret by (by apply timer_exit).
  eexists _, _. split; [done|]. split; [by apply timers_ok_cpu|]. simpl. rewrite H3, decide_True by done.
  split; [done|]. simpl. rewrite Ecb, Earg, Hu3. split_and!; try done.
  intros y u Hy Hu. destruct (H1 y u Hu) as (u' & Hu' & Hs & Ea). rewrite decide_False in Ea by done.
  exists u'. rewrite H3, decide_False by done. simpl. by rewrite lookup_insert_ne.
Qed.

(** [timer_stop] takes the timer out of the list, and leaves the other
    timers as they are; stopping a timer that does not run does nothing. *)
Theorem timer_stop_spec s l p t : timers_ok s l → timers s !! p = Some t →
  primask (timer_cpu s) = 0 ∨ primask (timer_cpu s) = 1 →
  ∃ s', timer_stop p s = Ret KERNEL_OK s' ∧ timers_ok s' (without p l) ∧
    timer_is_active p s' = Ret 0 s' ∧ primask (timer_cpu s') = primask (timer_cpu s) ∧ user s' = user s ∧
    ∀ y u, timers s !! y = Some u → ∃ u', timers s' !! y = Some u' ∧ same_timer u u' ∧
      active u' = if decide (y = p) then 0 else active u.
Proof.
  intros Hok Ht Hp. assert (p ≠ NULL) as Hp0 by (intros ->; by rewrite (tm_null _ _ Hok) in Ht).
  unfold timer_stop, timer_is_active. rewrite (proj2 (Z.eqb_neq p NULL)) by done.
  run (timer_enter s). run (t_deref_ret (with_cpu (timer_cpu s <| primask := 1 |>) s) _ _ Ht).
  destruct (deactivate _ l p t (timers_ok_cpu (timer_cpu s <| primask := 1 |>) _ _ Hok) Ht)
    as (s1 & E1 & Hok1 & Hc1 & Hu1 & H1).
  run E1. erewrite bind_ret by (by apply timer_exit). eexists. split; [done|].
  split; [by apply timers_ok_cpu|]. destruct (H1 p t Ht) as (t1 & Ht1 & _ & Eact).
  rewrite decide_True in Eact by done. split_and!; try done.
  run (t_deref_ret (with_cpu (timer_cpu s1 <| primask := primask (timer_cpu s) |>) s1) _ _ Ht1).
  by rewrite Eact.
Qed.

Context (callback : ptr → ptr → M (timer_state U) ()) (g : ptr → ptr → U → U).

(** One tick, with callbacks that leave the timers alone: every running
    timer advances by one tick; exactly those at their last tick call back, in
    list order; a periodic one starts over with its period and a one-shot one
    leaves the list; the list stays well formed. *)
Theorem timer_tick_spec s l : neutral callback g → timers_ok s l →
  ∃ s', timer_tick_isr callback s = Ret () s' ∧
    timers_ok s' (filter (λ x, at_timer (timers s) survives true x = true) l) ∧
    user s' = fold_left (λ u x, at_timer (timers s) (call g) (λ u, u) x u) l (user s) ∧
    timer_cpu s' = timer_cpu s ∧
    ∀ y u, timers s !! y = Some u → ∃ u', timers s' !! y = Some u' ∧
      same_but_next (if decide (y ∈ l) then ticked u else u) u'.
Proof. intros Hcb%neutral_everywhere. by apply (timer_tick_ret _ _ _ _ _ Hcb). Qed.

(** C34: A timer just started with period [n] makes its callback on tick [n] and no
    earlier; if it is periodic, on every multiple of [n] and at no other tick, and
    if it is one-shot never again.  What [k] ticks do to the application's data
    is the effect of the callbacks made, tick by tick ([log]), and the timer's is
    among those of a tick, once, exactly if it is its turn.  The callbacks leave
    the timers alone (one that stops another timer can upset the list:
    [timer_stop_next_in_callback]). *)
Theorem timer_period s l p t k : neutral callback g → timers_ok s l → p ∈ l → timers s !! p = Some t →
  remaining_ticks t = period_ticks t →
  ∃ s' log, ticks callback k s = Ret () s' ∧ length log = k ∧
    user s' = fold_left (called g (timers s)) (concat log) (user s) ∧
    ∀ i fired, log !! i = Some fired → NoDup fired ∧
      (p ∈ fired ↔ if periodic t =? 0 then Z.of_nat i + 1 = period_ticks t
                   else (Z.of_nat i + 1) mod period_ticks t = 0).
Proof.
  intros Hcb Hok Hp Ht Er.
  destruct (ticks_log (λ _, True) callback g s l p t k (neutral_everywhere _ _ Hcb) I Hok Hp Ht Er)
    as (s' & log & _ & _ & E & _ & _ & _ & _ & _ & Hlen & Hu & Hlog).
  exists s', log. split_and!; [done..|]. intros i xs Hi. exact (Hlog i xs Hi).
Qed.
End properties.

(** ** The theorems on an example *)

(** The application's data is the log of the callbacks made. *)
Notation log := (list (ptr * ptr)).
Definition log_call (f arg : ptr) (u : log) : log := u ++ [(f, arg)].
Definition logging (f arg : ptr) : M (timer_state log) () :=
  modify (λ s, mkTimerState (g_timer_list s) (timers s) (timer_cpu s) (log_call f arg (user s))).

Lemma logging_neutral : neutral logging log_call.
Proof. done. Qed.

(** [TA] is periodic and at its last tick, [TB] one-shot and at its last tick,
    [TC] has three ticks to go, [TD] does not run. *)
Definition TA : ptr := 1000.
Definition TB : ptr := 2000.
Definition TC : ptr := 3000.
Definition TD : ptr := 4000.
Definition FN : ptr := 500.

Definition example_timers : timer_state log := mkTimerState TA
  {[TA := mkTimer 3 1 FN 1 1 1 TB; TB := mkTimer 5 1 FN 2 0 1 TC;
    TC := mkTimer 3 3 FN 3 1 1 NULL; TD := mkTimer 0 0 FN 4 0 0 NULL]} cpu_reset [].

Lemma example_timers_lookup x t : timers example_timers !! x = Some t →
  x = TA ∧ t = mkTimer 3 1 FN 1 1 1 TB ∨ x = TB ∧ t = mkTimer 5 1 FN 2 0 1 TC ∨
  x = TC ∧ t = mkTimer 3 3 FN 3 1 1 NULL ∨ x = TD ∧ t = mkTimer 0 0 FN 4 0 0 NULL.
Proof.
  simpl. rewrite !lookup_insert_Some, lookup_singleton_Some. naive_solver.
Qed.

Lemma example_timers_ok : timers_ok example_timers [TA; TB; TC].
Proof.
  split.
  - done.
  - done.
  - repeat split; eexists; (split; [reflexivity|done]).
  - apply (bool_decide_unpack _). by vm_compute.
  - intros x t [[-> ->]|[[-> ->]|[[-> ->]|[-> ->]]]]%example_timers_lookup.
    + left. split; [done|]. by left.
    + left. split; [done|]. right. by left.
    + left. split; [done|]. right. right. by left.
    + right. split; [done|]. apply (bool_decide_unpack _). by vm_compute.
  - intros x t [[-> ->]|[[-> ->]|[[-> ->]|[-> ->]]]]%example_timers_lookup Hx; try done.
    + destruct Hx. by left.
    + destruct Hx. right. by left.
  - intros x t [[-> ->]|[[-> ->]|[[-> ->]|[-> ->]]]]%example_timers_lookup Hx; simpl; try lia.
    exfalso. revert Hx. apply (bool_decide_unpack _). by vm_compute.
Qed.

Lemma timer_start_spec_witness :
  ∃ s' t', timer_start TB 7 1 example_timers = Ret KERNEL_OK s' ∧
    timers_ok s' (TB :: without TB [TA; TB; TC]) ∧
    timers s' !! TB = Some t' ∧ period_ticks t' = 7 ∧ remaining_ticks t' = 7 ∧
    periodic t' = (if 1 =? 0 then 0 else 1) ∧
    timer_callback t' = FN ∧ timer_arg t' = 2 ∧
    primask (timer_cpu s') = 0 ∧ user s' = [] ∧
    ∀ y u, y ≠ TB → timers example_timers !! y = Some u →
      ∃ u', timers s' !! y = Some u' ∧ same_but_next u u'.
Proof.
  apply (timer_start_spec example_timers [TA; TB; TC] TB (mkTimer 5 1 FN 2 0 1 TC) 7 1).
  - apply example_timers_ok.
  - reflexivity.
  - done.
  - lia.
  - by left.
Defined.

Lemma timer_stop_spec_witness :
  ∃ s', timer_stop TB example_timers = Ret KERNEL_OK s' ∧ timers_ok s' (without TB [TA; TB; TC]) ∧
    timer_is_active TB s' = Ret 0 s' ∧ primask (timer_cpu s') = 0 ∧ user s' = [] ∧
    ∀ y u, timers example_timers !! y = Some u → ∃ u', timers s' !! y = Some u' ∧ same_timer u u' ∧
      active u' = if decide (y = TB) then 0 else active u.
Proof.
  apply (timer_stop_spec example_timers [TA; TB; TC] TB (mkTimer 5 1 FN 2 0 1 TC)).
  - apply example_timers_ok.
  - reflexivity.
  - by left.
Defined.

Lemma timer_tick_spec_witness :
  ∃ s', timer_tick_isr logging example_timers = Ret () s' ∧
    timers_ok s' (filter (λ x, at_timer (timers example_timers) survives true x = true) [TA; TB; TC]) ∧
    user s' = fold_left (λ u x, at_timer (timers example_timers) (call log_call) (λ u, u) x u)
      [TA; TB; TC] [] ∧
    timer_cpu s' = cpu_reset ∧
    ∀ y u, timers example_timers !! y = Some u → ∃ u', timers s' !! y = Some u' ∧
      same_but_next (if decide (y ∈ [TA; TB; TC]) then ticked u else u) u'.
Proof.
  apply (timer_tick_spec logging log_call example_timers [TA; TB; TC] logging_neutral example_timers_ok).
Defined.

(** [TA] and [TB] call back, in this order, and [TB] leaves the list. *)
Example example_tick :
  ∃ s', timer_tick_isr logging example_timers = Ret () s' ∧ user s' = [(FN, 1); (FN, 2)] ∧
    (at_timer (timers s') remaining_ticks 0 <$> [TA; TB; TC]) = [3; 0; 2] ∧
    (at_timer (timers s') active 0 <$> [TA; TB; TC]) = [1; 0; 1] ∧
    at_timer (timers s') next NULL TA = TC.
Proof. eexists. split; [vm_compute; reflexivity|]. by vm_compute. Qed.

(** [TC] calls back on ticks 3 and 6 of 8. *)
Lemma timer_period_witness : ∃ s' calls_made, ticks logging 8 example_timers = Ret () s' ∧ length calls_made = 8%nat ∧
  user s' = fold_left (called log_call (timers example_timers)) (concat calls_made) [] ∧
  ∀ i fired, calls_made !! i = Some fired → (TC ∈ fired ↔ (Z.of_nat i + 1) mod 3 = 0).
Proof.
  destruct (timer_period logging log_call example_timers [TA; TB; TC] TC (mkTimer 3 3 FN 3 1 1 NULL) 8)
    as (s' & calls_made & E & Hlen & Hu & Hlog).
  - apply logging_neutral.
  - apply example_timers_ok.
  - right. right. by left.
  - reflexivity.
  - done.
  - exists s', calls_made. split; [exact E|]. split; [exact Hlen|]. split; [exact Hu|].
    intros i fired Hi. exact (proj2 (Hlog i fired Hi)).
Defined.

(** ** Callbacks that use the timer interface *)

(** [timer_stop] of the next timer in the list, from the callback of a timer. *)
Definition stop_next (f arg : ptr) : M (timer_state log) () :=
  when (arg =? 1) (timer_stop TB ;; mret ()) ;; logging f arg.

(** [timer_tick_isr] saves [iter->next] before it calls back, and works on
    the saved timer even when the callback has stopped it: here the callback of
    the first timer stops the second one, whose callback is made nevertheless;
    and as the stopped timer has no successor any more, the third timer misses
    the tick. *)
Theorem timer_stop_next_in_callback :
  ∃ s', timer_tick_isr stop_next example_timers = Ret () s' ∧
    user s' = [(FN, 1); (FN, 2)] ∧ timer_is_active TB s' = Ret 0 s' ∧
    timers s' !! TC = timers example_timers !! TC.
Proof. eexists. split; [vm_compute; reflexivity|]. by vm_compute. Qed.
