(* ===== verification/SchedProps.v ===== *)
(** * What the scheduler does

    The properties of the routines of [scheduler.c], stated on the concrete
    state [sched] through the state it stands for: [stands_for s a] says that
    the memory [s] spells the queues and variables of [a], and that [a] is well
    formed. *)
From S2P Require Import Prelude Config Task Critical Bitmap TcbList Scheduler SchedSpec.
From S2P Require Import SchedRefine SchedInv SchedEffect SchedIface Checker Example.

Definition stands_for (s : sched) (a : asched) : Prop := abstracts s a ∧ wf a.

(** A refinement and the effect of the specification, put together. *)
Lemma refined {X} (m : M sched X) (am : M asched X) s a r a' :
  refines abstracts m am → stands_for s a → am a = Ret r a' ∧ wf a' →
  ∃ s', m s = Ret r s' ∧ stands_for s' a'.
Proof.
  intros Hm [HR _] [Ha Hwf]. destruct (refines_apply _ _ _ _ _ _ _ Hm HR Ha) as (s' & E & HR').
  by exists s'.
Qed.

Lemma same_task s a x t : stands_for s a → tcbs s !! x = Some t → a_tasks a !! x = Some (unlink t).
Proof. intros [HR _] Ht. by rewrite (abs_lookup _ _ _ HR), Ht. Qed.

Lemma same_task_inv s a x t : stands_for s a → a_tasks a !! x = Some t →
  ∃ u, tcbs s !! x = Some u ∧ t = unlink u.
Proof. intros [HR _]. rewrite (abs_lookup _ _ _ HR). intros (u & ? & ->)%fmap_Some. eauto. Qed.

Lemma stands_for_current s a : stands_for s a → current_task s = a_current_task a.
Proof. intros [HR _]. apply HR. Qed.

(** ** The tick, task by task *)

(** Equality of TCBs up to the time slice. *)
Definition but_slice (t t' : task_tcb) : Prop := t' <| time_slice := 0 |> = t <| time_slice := 0 |>.

#[export] Instance but_slice_equiv : Equivalence but_slice.
Proof. split; [done| |]; unfold but_slice; intros ?*; congruence. Qed.

(** The TCB of [x] after the wake-up pass of a tick. *)
Definition after_tick (a : asched) (x : ptr) (t : task_tcb) : task_tcb :=
  if bool_decide (x ∈ a_blocked a) && expires (advance a) x
  then expired (times_out (advance a) x) t else t.

Lemma eff_yield_tasks a : a_tasks (eff_yield a) = a_tasks a ∧ a_blocked (eff_yield a) = a_blocked a ∧
  a_tick (eff_yield a) = a_tick a ∧ a_current_task (eff_yield a) = a_current_task a.
Proof. unfold eff_yield. destruct (_ =? _); [done|]. by destruct (0 <? _). Qed.

Lemma eff_slice_tasks a x t : a_tasks a !! x = Some t → ∃ t', a_tasks (eff_slice a) !! x = Some t' ∧ but_slice t t'.
Proof.
  intros Ht. unfold eff_slice. destruct (_ =? NULL); [by exists t|].
  assert (∀ f, (∀ t, but_slice t (f t)) → ∃ t', a_tasks (set_task (a_current_task a) f a) !! x = Some t' ∧
    but_slice t t') as Hset.
  { intros f Hf. simpl. destruct (decide (a_current_task a = x)) as [->|].
    - rewrite lookup_alter_eq, Ht. simpl. eauto.
    - rewrite lookup_alter_ne by done. by exists t. }
  destruct (slice_over a); [|by apply Hset].
  destruct (eff_yield_tasks (set_task (a_current_task a) (set_field time_slice CONFIG_TIME_SLICE) a)) as [-> _].
  by apply Hset.
Qed.

Lemma eff_slice_rest a : a_blocked (eff_slice a) = a_blocked a ∧ a_tick (eff_slice a) = a_tick a ∧
  a_current_task (eff_slice a) = a_current_task a.
Proof.
  unfold eff_slice. destruct (_ =? NULL); [done|]. destruct (slice_over a); [|done].
  by destruct (eff_yield_tasks (set_task (a_current_task a) (set_field time_slice CONFIG_TIME_SLICE) a))
    as (_ & -> & -> & ->).
Qed.

Lemma pend_if_rest b a : a_tasks (pend_if b a) = a_tasks a ∧ a_blocked (pend_if b a) = a_blocked a ∧
  a_tick (pend_if b a) = a_tick a ∧ a_current_task (pend_if b a) = a_current_task a ∧
  a_ready (pend_if b a) = a_ready a ∧ a_lock (pend_if b a) = a_lock a.
Proof. by destruct b. Qed.

Lemma eff_wake_expired_tasks a x t : wf a → a_tasks a !! x = Some t →
  a_tasks (eff_wake_expired a) !! x =
    Some (if bool_decide (x ∈ a_blocked a) && expires a x then expired (times_out a x) t else t).
Proof.
  intros Hwf Ht. unfold eff_wake_expired. rewrite wake_many_tasks by exact (wf_blocked_nodup _ _ Hwf).
  rewrite Ht. case_decide as Hd.
  - destruct Hd as [Hin He]. rewrite bool_decide_true by done. by rewrite He.
  - case_bool_decide as Hin; [|done]. destruct (expires a x); [|done]. by destruct Hd.
Qed.

Lemma eff_tick_task a x t : wf a → a_tasks a !! x = Some t →
  ∃ t', a_tasks (eff_tick a) !! x = Some t' ∧ but_slice (after_tick a x t) t'.
Proof.
  intros Hwf Ht. unfold eff_tick. set (b := urgent _).
  destruct (pend_if_rest b (eff_slice (eff_wake_expired (advance a)))) as [-> _].
  apply eff_slice_tasks. apply (eff_wake_expired_tasks (advance a) x t); [by apply wf_advance|done].
Qed.

Lemma eff_tick_rest a : wf a →
  a_tick (eff_tick a) = u32 (a_tick a + 1) ∧ a_current_task (eff_tick a) = a_current_task a ∧
  a_blocked (eff_tick a) = filter (λ x, ¬ expires (advance a) x = true) (a_blocked a).
Proof.
  intros Hwf. unfold eff_tick. set (b := urgent _).
  destruct (pend_if_rest b (eff_slice (eff_wake_expired (advance a)))) as (_&->&->&->&_).
  destruct (eff_slice_rest (eff_wake_expired (advance a))) as (->&->&->).
  destruct (wake_many_rest (expires (advance a)) (λ x, expired (times_out (advance a) x))
    (a_blocked (advance a)) (advance a)) as (Et&Ec&_).
  fold (eff_wake_expired (advance a)) in Et, Ec. rewrite Et, Ec. split_and!; [done..|].
  unfold eff_wake_expired.
  rewrite wake_many_blocked. apply filter_ext_in. intros x Hx. simpl in Hx. simpl. tauto.
Qed.

Lemma tick_stands s a : stands_for s a → ∃ s', scheduler_tick s = Ret () s' ∧ stands_for s' (eff_tick a).
Proof. intros Hs. apply (refined _ _ _ _ _ _ refines_tick Hs), tick_eff, Hs. Qed.

(** A blocked task whose time has come at tick [now]. *)
Definition ripe (now : Z) (t : task_tcb) : Prop :=
  state t = TASK_STATE_BLOCKED ∧ wake_tick t ≤ now ∧
  (block_reason t = BLOCK_DELAY ∨ block_timeout t ≠ 0 ∧ block_timeout t ≠ UINT32_MAX).

#[export] Instance ripe_dec now t : Decision (ripe now t).
Proof. unfold ripe. apply _. Defined.

Lemma tick_expired_ripe now t : state t = TASK_STATE_BLOCKED →
  fst (tick_expired now t) = bool_decide (ripe now t) ∧
  snd (tick_expired now t) = bool_decide (ripe now t ∧ block_reason t ≠ BLOCK_DELAY).
Proof.
  intros Hst. unfold tick_expired, ripe.
  destruct (decide (block_reason t = BLOCK_DELAY)) as [E|E].
  - rewrite bool_decide_true by done. simpl. rewrite (bool_decide_false (_ ∧ block_reason t ≠ _)) by tauto.
    split; [|done]. destruct (Z.leb_spec (wake_tick t) now); symmetry;
      [apply bool_decide_true|apply bool_decide_false]; naive_solver lia.
  - rewrite (bool_decide_false (block_reason t = _)) by done.
    destruct (Z.eqb_spec (block_timeout t) 0), (Z.eqb_spec (block_timeout t) UINT32_MAX),
      (Z.leb_spec (wake_tick t) now); simpl; split; symmetry;
      (apply bool_decide_true || apply bool_decide_false); naive_solver lia.
Qed.

Lemma after_tick_ripe a x t : wf a → a_tasks a !! x = Some t →
  after_tick a x t = if decide (ripe (u32 (a_tick a + 1)) t)
    then expired (bool_decide (block_reason t ≠ BLOCK_DELAY)) t else t.
Proof.
  intros Hwf Ht. unfold after_tick, expires, times_out. simpl. rewrite Ht.
  destruct (decide (state t = TASK_STATE_BLOCKED)) as [Hst|Hst].
  - destruct (tick_expired_ripe (u32 (a_tick a + 1)) t Hst) as [-> ->].
    rewrite (bool_decide_true (x ∈ a_blocked a)) by (apply (wf_blocked _ _ Hwf); eauto).
    case_decide as Hr; [rewrite (bool_decide_true (ripe _ _)) by done|by rewrite (bool_decide_false (ripe _ _))].
    simpl. f_equal. apply bool_decide_ext. tauto.
  - rewrite (bool_decide_false (x ∈ a_blocked a)); [rewrite decide_False; [done|by intros [? _]]|].
    intros (_ & u & Hu & ?)%(wf_blocked _ _ Hwf). congruence.
Qed.

Lemma but_slice_priority t t' : but_slice t t' → priority t' = priority t.
Proof. intros Hb. apply (f_equal priority Hb). Qed.

Lemma but_slice_state t t' : but_slice t t' → state t' = state t.
Proof. intros Hb. apply (f_equal state Hb). Qed.

(** A tick changes no priority. *)
Lemma tick_priority a x t : wf a → a_tasks a !! x = Some t →
  ∃ t', a_tasks (eff_tick a) !! x = Some t' ∧ priority t' = priority t.
Proof.
  intros Hwf Ht. destruct (eff_tick_task a x t Hwf Ht) as (t' & Ht' & Hb). exists t'. split; [done|].
  rewrite (but_slice_priority _ _ Hb). unfold after_tick.
  destruct (_ && _); [apply expired_priority|done].
Qed.

(** The tick on the concrete TCBs. *)
Lemma tick_tcb s a : stands_for s a →
  ∃ s', scheduler_tick s = Ret () s' ∧ stands_for s' (eff_tick a) ∧
    g_tick_count s' = u32 (g_tick_count s + 1) ∧
    ∀ x t, tcbs s !! x = Some t → ∃ t', tcbs s' !! x = Some t' ∧
      but_slice (if decide (ripe (u32 (g_tick_count s + 1)) t)
        then expired (bool_decide (block_reason t ≠ BLOCK_DELAY)) (unlink t) else unlink t) (unlink t').
Proof.
  intros Hs. destruct (tick_stands s a Hs) as (s' & E & Hs'). exists s'. split_and!; [done..| |].
  - destruct Hs as [HR Hwf], Hs' as [HR' _]. rewrite (abs_tick _ _ HR'), (abs_tick _ _ HR).
    by destruct (eff_tick_rest a Hwf) as [-> _].
  - intros x t Ht. pose proof (same_task _ _ _ _ Hs Ht) as Ha. destruct Hs as [HR Hwf].
    destruct (eff_tick_task a x _ Hwf Ha) as (t' & Ht' & Hb).
    destruct (same_task_inv _ _ _ _ Hs' Ht') as (u & Hu & ->). exists u. split; [done|].
    rewrite (after_tick_ripe _ _ _ Hwf Ha) in Hb. by rewrite (abs_tick _ _ HR).
Qed.

(** C12: One tick: the tick count advances modulo 2^32; exactly the blocked
    tasks whose delay or timeout has come are made ready, a delay with the
    result it had and a timeout with [KERNEL_ERR_TIMEOUT]; every other task
    keeps its TCB but for the time slice; the queues stay well formed. *)
Theorem scheduler_tick_wakes s a : stands_for s a →
  ∃ s' a', scheduler_tick s = Ret () s' ∧ stands_for s' a' ∧
    g_tick_count s' = (g_tick_count s + 1) mod 2 ^ 32 ∧
    ∀ x t, tcbs s !! x = Some t → ∃ t', tcbs s' !! x = Some t' ∧
      if decide (ripe ((g_tick_count s + 1) mod 2 ^ 32) t) then
        state t' = TASK_STATE_READY ∧ block_reason t' = BLOCK_NONE ∧ block_object t' = NULL ∧
        block_result t' = (if decide (block_reason t = BLOCK_DELAY) then block_result t else KERNEL_ERR_TIMEOUT)
      else but_slice (unlink t) (unlink t').
Proof.
  intros Hs. destruct (tick_tcb s a Hs) as (s' & E & Hs' & Htick & Htcb).
  exists s', (eff_tick a). split_and!; [done..|]. intros x t Ht.
  destruct (Htcb x t Ht) as (t' & Ht' & Hb). exists t'. split; [done|].
  fold (u32 (g_tick_count s + 1)). case_decide; [|done].
  pose proof (f_equal state Hb) as E1. pose proof (f_equal block_reason Hb) as E2.
  pose proof (f_equal block_object Hb) as E3. pose proof (f_equal block_result Hb) as E4.
  simpl in E1, E2, E3, E4. unfold expired in E1, E2, E3, E4.
  destruct (decide (block_reason t = BLOCK_DELAY)) as [Er|Er].
  - rewrite (bool_decide_false (_ ≠ _)) in * by tauto. done.
  - rewrite (bool_decide_true (_ ≠ _)) in * by done. done.
Qed.

Fixpoint repeated_ticks (k : nat) : M sched () :=
  match k with O => mret () | S k => repeated_ticks k ;; scheduler_tick end.

(** A task that is not ripe in any of the next [k] ticks sleeps on. *)
Lemma sleeps_on k s a x t : stands_for s a → tcbs s !! x = Some t →
  (∀ i, 1 ≤ i ≤ Z.of_nat k → ¬ ripe (u32 (g_tick_count s + i)) t) →
  ∃ s' a' t', repeated_ticks k s = Ret () s' ∧ stands_for s' a' ∧
    g_tick_count s' = u32 (g_tick_count s + Z.of_nat k) ∧
    tcbs s' !! x = Some t' ∧ but_slice (unlink t) (unlink t').
Proof.
  intros Hs Ht. induction k as [|k IH]; intros Hr.
  - exists s, a, t. split_and!; try done. rewrite Z.add_0_r, u32_small; [done|].
    rewrite (abs_tick _ _ (proj1 Hs)). apply (wf_tick _ _ (proj2 Hs)).
  - destruct IH as (s1 & a1 & t1 & E1 & Hs1 & Hk1 & Ht1 & Hb1); [intros i Hi; apply Hr; lia|].
    destruct (tick_tcb s1 a1 Hs1) as (s2 & E2 & Hs2 & Hk2 & Htcb).
    destruct (Htcb x t1 Ht1) as (t2 & Ht2 & Hb2).
    assert (u32 (g_tick_count s1 + 1) = u32 (g_tick_count s + Z.of_nat (S k))) as Ek.
    { rewrite Hk1. unfold u32. rewrite Zplus_mod_idemp_l. f_equal. lia. }
    exists s2, (eff_tick a1), t2. split_and!; [simpl; by run E1|done|by rewrite Hk2, Ek|done|].
    rewrite Ek in Hb2. rewrite decide_False in Hb2; [by etrans|].
    intros Hn. apply (Hr (Z.of_nat (S k))); [lia|]. revert Hn. unfold ripe.
    pose proof (f_equal state Hb1) as H1. pose proof (f_equal wake_tick Hb1) as H2.
    pose proof (f_equal block_reason Hb1) as H3. pose proof (f_equal block_timeout Hb1) as H4.
    simpl in H1, H2, H3, H4. by rewrite H1, H2, H3, H4.
Qed.

(** ** Blocking *)

Lemma eff_block_task reason object timeout a t : a_tasks a !! a_current_task a = Some t →
  a_tasks (eff_block reason object timeout a) !! a_current_task a =
    Some (waiting (a_tick a) reason object timeout t).
Proof. intros Ht. simpl. by rewrite lookup_alter_eq, Ht. Qed.

Lemma block_stands reason object timeout s a t : stands_for s a → tcbs s !! current_task s = Some t →
  state t ≠ TASK_STATE_BLOCKED →
  ∃ s' t', block_task_enter reason object timeout s = Ret (inr (current_task s)) s' ∧
    stands_for s' (eff_block reason object timeout a) ∧ g_tick_count s' = g_tick_count s ∧
    tcbs s' !! current_task s = Some t' ∧
    unlink t' = waiting (g_tick_count s) reason object timeout (unlink t).
Proof.
  intros Hs Ht Hst. pose proof (same_task _ _ _ _ Hs Ht) as Ha. rewrite (stands_for_current _ _ Hs) in *.
  destruct (refined _ _ _ _ _ _ (refines_block_task_enter reason object timeout) Hs
    (block_eff reason object timeout a _ (proj2 Hs) Ha Hst)) as (s' & E & Hs').
  destruct (same_task_inv _ _ _ _ Hs' (eff_block_task reason object timeout a _ Ha)) as (t' & Ht' & Eu).
  exists s', t'. rewrite (abs_tick _ _ (proj1 Hs)), (abs_tick _ _ (proj1 Hs')). by split_and!.
Qed.

(** C13: [scheduler_block_task], up to its switch point, takes the running task
    off its ready list and puts it, blocked on the object with the deadline
    computed from the timeout, on the blocked list; the ready lists of the
    other tasks and their TCBs are untouched, and a context switch is pending
    when interrupts are open again. *)
Theorem scheduler_block_spec reason object timeout s a t : stands_for s a →
  tcbs s !! current_task s = Some t → runnable (state t) = true →
  ∃ s' a' t', block_task_enter reason object timeout s = Ret (inr (current_task s)) s' ∧
    stands_for s' a' ∧ pendsv_pending (cpu s') = true ∧ primask (cpu s') = primask (cpu s) ∧
    a_blocked a' = current_task s :: a_blocked a ∧
    (∀ i, a_ready a' !! i = filter (λ x, x ≠ current_task s) <$> a_ready a !! i) ∧
    tcbs s' !! current_task s = Some t' ∧ state t' = TASK_STATE_BLOCKED ∧
    block_reason t' = reason ∧ block_object t' = object ∧ block_timeout t' = timeout ∧
    block_result t' = KERNEL_OK ∧
    wake_tick t' = (if timeout =? 0 then (g_tick_count s + 1) mod 2 ^ 32
      else if timeout =? UINT32_MAX then UINT32_MAX else (g_tick_count s + timeout) mod 2 ^ 32) ∧
    ∀ x, x ≠ current_task s → unlink <$> tcbs s' !! x = unlink <$> tcbs s !! x.
Proof.
  intros Hs Ht Hrun. assert (state t ≠ TASK_STATE_BLOCKED) as Hst by (by intros E; rewrite E in Hrun).
  pose proof (same_task _ _ _ _ Hs Ht) as Ha. pose proof Hs as [HR Hwf].
  destruct (block_stands reason object timeout s a t Hs Ht Hst) as (s' & t' & E & Hs' & _ & Ht' & Eu).
  exists s', (eff_block reason object timeout a), t'. pose proof Hs' as [HR' _].
  split; [done|]. split; [done|]. rewrite (abs_cpu _ _ HR'), (abs_cpu _ _ HR).
  rewrite (stands_for_current _ _ Hs) in *.
  split; [apply trigger_switch_pends|]. split; [done|]. split; [done|]. split.
  { intros i. simpl. unfold prio_of. rewrite Ha. fold remove_ptr.
    change (priority (unlink t)) with (priority t).
    destruct (decide (Z.to_nat (priority t) = i)) as [<-|Hi].
    - by rewrite list_lookup_alter_eq.
    - rewrite list_lookup_alter_ne by done. destruct (a_ready a !! i) as [l|] eqn:El; [|done].
      simpl. f_equal. symmetry. apply filter_all. intros y Hy ->.
      apply (wf_ready _ _ Hwf _ _ _ El) in Hy as (_ & u & Hu & _ & Hp). simplify_eq.
      apply Hi. simpl in Hp. by rewrite Hp, Nat2Z.id. }
  split; [done|].
  pose proof (f_equal state Eu) as E1. pose proof (f_equal block_reason Eu) as E2.
  pose proof (f_equal block_object Eu) as E3. pose proof (f_equal block_timeout Eu) as E4.
  pose proof (f_equal block_result Eu) as E5. pose proof (f_equal wake_tick Eu) as E6.
  simpl in E1, E2, E3, E4, E5, E6. split_and!; try done.
  intros x Hx. rewrite <- (abs_lookup _ _ _ HR'), <- (abs_lookup _ _ _ HR). simpl.
  by rewrite lookup_alter_ne by congruence.
Qed.

(** A delay of [n] ticks lasts exactly [n] ticks: the task that blocks at
    tick [now] for [n > 0] ticks sleeps through the next [n - 1] ticks and is
    ready after the [n]-th, as long as the deadline does not pass the end of
    the 32-bit tick count. *)
Theorem scheduler_delay_exact s a t n k : stands_for s a → tcbs s !! current_task s = Some t →
  runnable (state t) = true → 0 < n → g_tick_count s + n < 2 ^ 32 → Z.of_nat k ≤ n →
  ∃ s' a' t', (block_task_enter BLOCK_DELAY NULL n ;; repeated_ticks k) s = Ret () s' ∧
    stands_for s' a' ∧ tcbs s' !! current_task s = Some t' ∧
    state t' = if decide (Z.of_nat k < n) then TASK_STATE_BLOCKED else TASK_STATE_READY.
Proof.
  intros Hs Ht Hrun Hn Hnw Hk. assert (state t ≠ TASK_STATE_BLOCKED) as Hst by (by intros E; rewrite E in Hrun).
  destruct (block_stands BLOCK_DELAY NULL n s a t Hs Ht Hst) as (s1 & t1 & E1 & Hs1 & Hk1 & Ht1 & Eu).
  assert (0 ≤ g_tick_count s) as Hpos.
  { rewrite (abs_tick _ _ (proj1 Hs)). apply (wf_tick _ _ (proj2 Hs)). }
  pose proof (f_equal state Eu) as Est. pose proof (f_equal wake_tick Eu) as Ewk.
  pose proof (f_equal block_reason Eu) as Erea. simpl in Est, Ewk, Erea.
  assert (wake_tick t1 = g_tick_count s + n) as Ewk'.
  { rewrite Ewk. unfold block_wake_tick, UINT32_MAX. rewrite (proj2 (Z.eqb_neq n 0)) by lia.
    destruct (Z.eqb_spec n 4294967295); [lia|]. apply u32_small. lia. }
  assert (∀ m, Z.of_nat m < n → ∃ s' a' t', repeated_ticks m s1 = Ret () s' ∧ stands_for s' a' ∧
    g_tick_count s' = g_tick_count s + Z.of_nat m ∧ tcbs s' !! current_task s = Some t' ∧
    but_slice (unlink t1) (unlink t')) as Hsleep.
  { intros m Hm. destruct (sleeps_on m s1 _ (current_task s) t1 Hs1 Ht1) as (s' & a' & t' & E & Hs' & Hc & ? & ?).
    - intros i Hi (_ & Hw & _). rewrite Ewk', Hk1, u32_small in Hw; lia.
    - exists s', a', t'. rewrite Hc, Hk1, u32_small by lia. by split_and!. }
  assert (∀ t', but_slice (unlink t1) (unlink t') → state t' = TASK_STATE_BLOCKED ∧
    wake_tick t' = g_tick_count s + n ∧ block_reason t' = BLOCK_DELAY) as Hsame.
  { intros t' Hb. pose proof (f_equal state Hb). pose proof (f_equal wake_tick Hb).
    pose proof (f_equal block_reason Hb). simpl in *. split_and!; congruence. }
  run E1. destruct (decide (Z.of_nat k < n)) as [Hlt|Hge].
  - destruct (Hsleep k Hlt) as (s' & a' & t' & E & Hs' & _ & Ht' & Hb). exists s', a', t'.
    split_and!; [done..|]. by destruct (Hsame t' Hb).
  - destruct k as [|k]; [lia|]. destruct (Hsleep k) as (s2 & a2 & t2 & E2 & Hs2 & Hc2 & Ht2 & Hb2); [lia|].
    destruct (tick_tcb s2 a2 Hs2) as (s3 & E3 & Hs3 & _ & Htcb).
    destruct (Htcb _ t2 Ht2) as (t3 & Ht3 & Hb3). exists s3, (eff_tick a2), t3.
    split_and!; [simpl; by run E2|done..|]. destruct (Hsame t2 Hb2) as (H1 & H2 & H3).
    rewrite decide_True in Hb3.
    + apply (f_equal state) in Hb3. simpl in Hb3. done.
    + split; [done|]. rewrite H2, Hc2, u32_small by lia. split; [lia|by left].
Qed.

(** The deadline is compared without regard to the wrap-around of the tick
    count: a delay of [n] ticks whose deadline passes 2^32 ends at the very
    next tick, however long [n] is. *)
Theorem scheduler_delay_wraps s a t n : stands_for s a → tcbs s !! current_task s = Some t →
  runnable (state t) = true → 0 < n < UINT32_MAX → 2 ^ 32 ≤ g_tick_count s + n → g_tick_count s < UINT32_MAX →
  ∃ s' a' t', (block_task_enter BLOCK_DELAY NULL n ;; scheduler_tick) s = Ret () s' ∧
    stands_for s' a' ∧ tcbs s' !! current_task s = Some t' ∧ state t' = TASK_STATE_READY.
Proof.
  unfold UINT32_MAX. intros Hs Ht Hrun Hn Hw Hlt.
  assert (state t ≠ TASK_STATE_BLOCKED) as Hst by (by intros E; rewrite E in Hrun).
  destruct (block_stands BLOCK_DELAY NULL n s a t Hs Ht Hst) as (s1 & t1 & E1 & Hs1 & Hk1 & Ht1 & Eu).
  destruct (tick_tcb s1 _ Hs1) as (s2 & E2 & Hs2 & _ & Htcb). destruct (Htcb _ t1 Ht1) as (t2 & Ht2 & Hb).
  exists s2, (eff_tick (eff_block BLOCK_DELAY NULL n a)), t2. run E1. split_and!; [done..|].
  pose proof (f_equal state Eu) as Est. pose proof (f_equal wake_tick Eu) as Ewk.
  pose proof (f_equal block_reason Eu) as Erea. simpl in Est, Ewk, Erea.
  assert (0 ≤ g_tick_count s) as Hpos.
  { rewrite (abs_tick _ _ (proj1 Hs)). apply (wf_tick _ _ (proj2 Hs)). }
  rewrite decide_True in Hb.
  - apply (f_equal state) in Hb. simpl in Hb. done.
  - split; [done|]. split; [|by left]. rewrite Ewk, Hk1. unfold block_wake_tick, UINT32_MAX.
    rewrite (proj2 (Z.eqb_neq n 0)), (proj2 (Z.eqb_neq n 4294967295)) by lia.
    rewrite (u32_small (g_tick_count s + 1)) by lia. unfold u32.
    rewrite <- (Z.mod_unique_pos (g_tick_count s + n) (2 ^ 32) 1 (g_tick_count s + n - 2 ^ 32)) by lia. lia.
Qed.

(** ** Waking waiters *)

Lemma waits_spec a reason object x t : a_tasks a !! x = Some t →
  waits a reason object x = true ↔ block_reason t = reason ∧ block_object t = object.
Proof.
  intros Ht. unfold waits, waits_for. rewrite Ht, andb_true_iff, bool_decide_eq_true, Z.eqb_eq. done.
Qed.

(** The state after one waiter has been made ready. *)
Lemma eff_unblock_tasks x result a y : a_tasks (eff_unblock x result a) !! y =
  if decide (y = x) then woken result <$> a_tasks a !! y else a_tasks a !! y.
Proof.
  unfold eff_unblock. set (b := higher _ _). destruct (pend_if_rest b (wake x result a)) as [-> _].
  simpl. case_decide as E; [subst y; by rewrite lookup_alter_eq|by rewrite lookup_alter_ne by congruence].
Qed.

(** C14: [scheduler_unblock_one] wakes a most urgent task among those blocked on
    the object for the given reason, with the given result, and nobody else; it
    reports [false], and changes nothing, exactly when nobody waits. *)
Theorem scheduler_unblock_one_spec reason object result s a : stands_for s a →
  let waiter x t := state t = TASK_STATE_BLOCKED ∧ block_reason t = reason ∧ block_object t = object in
  ∃ r s' a', scheduler_unblock_one reason object result s = Ret r s' ∧ stands_for s' a' ∧
    if r : bool then ∃ x t t', tcbs s !! x = Some t ∧ waiter x t ∧
      (∀ y u, tcbs s !! y = Some u → waiter y u → priority t ≤ priority u) ∧
      tcbs s' !! x = Some t' ∧ state t' = TASK_STATE_READY ∧ block_result t' = result ∧
      a_blocked a' = filter (λ y, y ≠ x) (a_blocked a) ∧
      ∀ y, y ≠ x → unlink <$> tcbs s' !! y = unlink <$> tcbs s !! y
    else a' = a ∧ ∀ y u, tcbs s !! y = Some u → ¬ waiter y u.
Proof.
  intros Hs waiter. pose proof Hs as [HR Hwf].
  destruct (refined _ _ _ _ _ _ (refines_unblock_one reason object result) Hs
    (unblock_one_eff reason object result a Hwf)) as (s' & E & Hs').
  assert (∀ y u, tcbs s !! y = Some u → waiter y u → y ∈ a_blocked a ∧ waits a reason object y = true) as Hw.
  { intros y u Hu (Hst & Hr & Ho). pose proof (same_task _ _ _ _ Hs Hu) as Hau. split.
    - apply (wf_blocked _ _ Hwf). split; [done|]. by exists (unlink u).
    - by apply (waits_spec _ _ _ _ _ Hau). }
  exists (negb (best_waiter a reason object =? NULL)), s', (eff_unblock_one reason object result a).
  split; [done|]. split; [done|]. unfold eff_unblock_one in *.
  destruct (best_waiter_spec a reason object Hwf) as [[En Hno]|(Hin & Hn & Hwb & Hbest)].
  - rewrite En in *. simpl. split; [done|]. intros y u Hu Hy. destruct (Hw y u Hu Hy) as [Hin Hwt].
    by rewrite Hno in Hwt.
  - set (b := best_waiter a reason object) in *. rewrite (proj2 (Z.eqb_neq b NULL)) in * by done. simpl.
    pose proof Hin as (_ & t0 & Ht0 & Hst0)%(wf_blocked _ _ Hwf).
    destruct (same_task_inv _ _ _ _ Hs Ht0) as (t & Ht & ->).
    pose proof (eff_unblock_tasks b result a b) as Hb. rewrite decide_True, Ht0 in Hb by done. simpl in Hb.
    destruct (same_task_inv _ _ _ _ Hs' Hb) as (t' & Ht' & Eu).
    exists b, t, t'. apply (waits_spec _ _ _ _ _ Ht0) in Hwb as [Hr Ho]. split_and!; try done.
    + intros y u Hu Hy. destruct (Hw y u Hu Hy) as [Hyin Hyw]. specialize (Hbest y Hyin Hyw).
      unfold prio_of in Hbest. by rewrite Ht0, (same_task _ _ _ _ Hs Hu) in Hbest.
    + by apply (f_equal state) in Eu.
    + by apply (f_equal block_result) in Eu.
    + unfold eff_unblock. set (h := higher _ _). by destruct (pend_if_rest h (wake b result a)) as (_ & -> & _).
    + intros y Hy. rewrite <- (abs_lookup _ _ _ (proj1 Hs')), <- (abs_lookup _ _ _ HR), eff_unblock_tasks.
      by rewrite decide_False.
Qed.

(** [scheduler_unblock_all] wakes every task blocked on the object for the
    given reason with the given result, touches no other task, and returns how
    many it woke. *)
Theorem scheduler_unblock_all_spec reason object result s a : stands_for s a →
  let waiter t := state t = TASK_STATE_BLOCKED ∧ block_reason t = reason ∧ block_object t = object in
  ∃ r s' a', scheduler_unblock_all reason object result s = Ret r s' ∧ stands_for s' a' ∧
    r = Z.of_nat (length (filter (λ x, waits a reason object x = true) (a_blocked a))) mod 2 ^ 32 ∧
    ∀ x t, tcbs s !! x = Some t → ∃ t', tcbs s' !! x = Some t' ∧
      if decide (waiter t) then state t' = TASK_STATE_READY ∧ block_result t' = result ∧ block_reason t' = BLOCK_NONE
      else unlink t' = unlink t.
Proof.
  intros Hs waiter. pose proof Hs as [HR Hwf].
  destruct (refined _ _ _ _ _ _ (refines_unblock_all reason object result) Hs
    (unblock_all_eff reason object result a Hwf)) as (s' & E & Hs').
  exists (count_waiters reason object a), s', (eff_unblock_all reason object result a).
  split_and!; [done..|]. intros x t Ht. pose proof (same_task _ _ _ _ Hs Ht) as Hat.
  assert (a_tasks (eff_unblock_all reason object result a) !! x =
    Some (if decide (waiter t) then woken result (unlink t) else unlink t)) as Hx.
  { unfold eff_unblock_all. set (b := _ <? _).
    destruct (pend_if_rest b (wake_waiters reason object result a)) as [-> _]. unfold wake_waiters.
    rewrite wake_many_tasks by exact (wf_blocked_nodup _ _ Hwf). rewrite Hat. unfold waiter.
    pose proof (waits_spec a reason object x _ Hat) as Hw. simpl in Hw.
    pose proof (wf_blocked _ _ Hwf x) as Hb.
    case_decide as H1; case_decide as H2; try done.
    - destruct H2. destruct H1 as [(_ & u & Hu & Hst)%Hb [? ?]%Hw]. by simplify_eq.
    - destruct H1. destruct H2 as (? & ? & ?). split; [apply Hb; eauto|by apply Hw]. }
  destruct (same_task_inv _ _ _ _ Hs' Hx) as (t' & Ht' & Eu). exists t'. split; [done|].
  case_decide; [|done].
  pose proof (f_equal state Eu). pose proof (f_equal block_result Eu).
  by pose proof (f_equal block_reason Eu).
Qed.

(** ** Selection and preemption *)

(** C11: The task PendSV switches to is the head of the ready list of the most
    urgent priority that has a runnable task; it is [NULL] exactly when there is
    no runnable task, and choosing changes no task and no queue. *)
Theorem scheduler_select_spec s a : stands_for s a →
  ∃ n s' a', scheduler_select_next_task s = Ret n s' ∧ stands_for s' a' ∧ next_task s' = n ∧
    tcbs s' = tcbs s ∧ a_ready a' = a_ready a ∧ a_blocked a' = a_blocked a ∧
    if decide (n = NULL) then ∀ x t, tcbs s !! x = Some t → runnable (state t) = false
    else ∃ t l, tcbs s !! n = Some t ∧ runnable (state t) = true ∧
      a_ready a !! Z.to_nat (priority t) = Some (n :: l) ∧
      ∀ y u, tcbs s !! y = Some u → runnable (state u) = true → priority t ≤ priority u.
Proof.
  intros Hs. pose proof Hs as [HR Hwf].
  destruct (refined _ _ _ _ _ _ refines_select_next_task Hs (select_eff a Hwf)) as (s' & E & Hs').
  exists (top a), s', (eff_select a). split; [done|]. split; [done|].
  split; [by rewrite (abs_next _ _ (proj1 Hs'))|]. split.
  { assert (keeps tcbs scheduler_select_next_task) as Hk.
    { unfold scheduler_select_next_task, scheduler_get_next, ready_head. keeps_auto.
      intros u y u'. case_match; congruence. }
    exact (Hk _ _ _ E). }
  split; [done|]. split; [done|]. destruct (top_spec a Hwf) as [[Et Hno]|(t & Ht & Hr & Hn & Hmin)].
  - rewrite decide_True by done. intros x t Ht. apply (Hno x _ (same_task _ _ _ _ Hs Ht)).
  - rewrite decide_False by done. destruct (same_task_inv _ _ _ _ Hs Ht) as (u & Hu & ->).
    destruct (wf_valid_priority _ _ _ _ Hwf Ht) as [_ [l Hl]].
    pose proof (wf_runnable_in _ _ _ _ Hwf Ht Hr Hl) as Hin.
    (* the list of the task's priority is the first non-empty one *)
    unfold top in Hn, Hin |- *. destruct (first_nonempty_spec (a_ready a)) as (Hrange & _ & Hhit).
    destruct (a_ready a !! Z.to_nat (first_nonempty (a_ready a))) as [m|] eqn:Em; [|done].
    destruct m as [|x m]; [done|]. simpl in *.
    assert (Z.to_nat (priority u) = Z.to_nat (first_nonempty (a_ready a))) as Ep.
    { assert (x ∈ x :: m) as Hxm by (by left).
      apply (wf_ready _ _ Hwf _ _ _ Em) in Hxm as (_ & v & Hv & _ & Hp).
      unfold top in Ht. rewrite Em in Ht. simpl in Ht. simplify_eq. simpl in Hp. lia. }
    exists u, m. rewrite Ep. unfold top in Hu. rewrite Em in Hu. split_and!; try done.
    intros y v Hv Hrv. apply (Hmin y _ (same_task _ _ _ _ Hs Hv) Hrv).
Qed.

(** A task on no queue may be queued. *)
Lemma wf_unsettle x t a : wf a → a_tasks a !! x = Some t → queue_kind (state t) = None → wf_out (Some x) a.
Proof.
  intros Hwf Ht Hq. pose proof (wf_ready _ _ Hwf) as Hrd. pose proof (wf_blocked _ _ Hwf) as Hb.
  same_wf Hwf.
  - intros i l y Hi. rewrite (Hrd _ _ _ Hi). split; [|naive_solver].
    intros (_ & u & Hu & Hr & Hp). split; [|eauto]. intros [= ->]. simplify_eq.
    apply runnable_kind in Hr. congruence.
  - intros y. rewrite Hb. split; [|naive_solver]. intros (_ & u & Hu & Hst). split; [|eauto].
    intros [= ->]. simplify_eq. by rewrite Hst in Hq.
Qed.

(** A task added to the ready queue goes behind its peers of the same
    priority with a full time slice, and a context switch is requested exactly
    when it is more urgent than the running task (or one was requested before). *)
Theorem scheduler_add_spec x t s a l : stands_for s a → tcbs s !! x = Some t →
  queue_kind (state t) = None → a_ready a !! Z.to_nat (priority t) = Some l →
  ∃ s' a' t', scheduler_add_task x s = Ret () s' ∧ stands_for s' a' ∧
    a_ready a' !! Z.to_nat (priority t) = Some (l ++ [x]) ∧
    tcbs s' !! x = Some t' ∧ state t' = TASK_STATE_READY ∧ time_slice t' = CONFIG_TIME_SLICE ∧
    pendsv_pending (cpu s') = pendsv_pending (cpu s) ||
      match tcbs s !! current_task s with Some c => priority t <? priority c | None => false end.
Proof.
  intros Hs Ht Hq Hl. pose proof Hs as [HR Hwf]. pose proof (same_task _ _ _ _ Hs Ht) as Ha.
  pose proof (wf_unsettle x _ a Hwf Ha Hq) as Hout.
  assert (is_Some (a_tasks a !! x)) as Hsome by eauto.
  destruct (refined _ _ _ _ _ _ (refines_add_task x) Hs (add_eff x a Hout Hsome)) as (s' & E & Hs').
  unfold eff_add in Hs'. set (a1 := enqueue _ _ _) in *. set (h := higher a1 x) in *.
  destruct (pend_if_rest h a1) as (Etasks & _ & _ & _ & Eready & _).
  assert (a_tasks a1 !! x = Some (fresh_slice (unlink t))) as Hx by (simpl; by rewrite lookup_alter_eq, Ha).
  rewrite <- Etasks in Hx. destruct (same_task_inv _ _ _ _ Hs' Hx) as (t' & Ht' & Eu).
  exists s', (pend_if h a1), t'. split_and!; try done.
  - rewrite Eready. simpl. unfold prio_of. rewrite Ha. simpl. by rewrite list_lookup_alter_eq, Hl.
  - by apply (f_equal state) in Eu.
  - by apply (f_equal time_slice) in Eu.
  - rewrite (abs_cpu _ _ (proj1 Hs')), (abs_cpu _ _ HR), (stands_for_current _ _ Hs).
    assert (h = match tcbs s !! a_current_task a with Some c => priority t <? priority c | None => false end)
      as <-; [|destruct h; simpl; [|by rewrite orb_false_r]; rewrite orb_true_r; apply trigger_switch_pends].
    unfold h, higher. change (a_current_task a1) with (a_current_task a).
    assert (∀ y, prio_of a1 y = prio_of a y) as Hp by (intros y; by apply prio_of_set_task).
    rewrite !Hp. unfold prio_of. rewrite Ha. simpl. destruct (wf_current _ _ Hwf) as [Ec|[c Hc]].
    + rewrite Ec, Z.eqb_refl. simpl. destruct (tcbs s !! NULL) as [c|] eqn:Hc; [|done].
      pose proof (same_task _ _ _ _ Hs Hc) as Hc'. by rewrite (wf_null _ _ Hwf) in Hc'.
    + rewrite Hc. rewrite (proj2 (Z.eqb_neq _ _)) by (eapply wf_deref; eauto).
      by destruct (same_task_inv _ _ _ _ Hs Hc) as (c' & -> & ->).
Qed.

(** ** Round robin *)

(** What [PendSV_Handler] does to the variables of the scheduler: the selected
    task becomes the running one.  [Context.v] has the whole handler. *)
Definition switch_context : M sched () :=
  n ← scheduler_select_next_task;
  modify (λ s, s <| current_task := n |> <| cpu := cpu s <| icsr := Z.ldiff (icsr (cpu s)) (bit PENDSVSET) |> |>).

Definition eff_switch (a : asched) : asched :=
  (eff_select a) <| a_current_task := top a |>
    <| a_cpu := a_cpu a <| icsr := Z.ldiff (icsr (a_cpu a)) (bit PENDSVSET) |> |>.

Lemma ldiff_range x y : 0 ≤ x < 2 ^ 32 → 0 ≤ Z.ldiff x y < 2 ^ 32.
Proof.
  intros Hx. split; [apply Z.ldiff_nonneg; lia|]. apply word_bound; [lia|apply Z.ldiff_nonneg; lia|].
  intros i Hi. rewrite Z.ldiff_spec, <- (u32_small x), testbit_u32 by lia. by rewrite bool_decide_false by lia.
Qed.

Lemma switch_stands s a : stands_for s a →
  ∃ s', switch_context s = Ret () s' ∧ stands_for s' (eff_switch a).
Proof.
  intros Hs. destruct (refined _ _ _ _ _ _ refines_select_next_task Hs (select_eff a (proj2 Hs)))
    as (s1 & E1 & [HR1 Hwf1]).
  unfold switch_context. run E1. eexists. split; [done|]. split.
  - pose proof (abs_cpu _ _ HR1) as Ec. same_abs HR1. by rewrite Ec.
  - assert (wf (eff_select a <| a_current_task := top a |>)) as Hwf2.
    { pose proof (top_null_or_task _ (proj2 Hs)). by destruct Hwf1. }
    apply wf_cpu; [done|]. destruct (wf_cpu_ok _ _ (proj2 Hs)) as (?&?&?&?).
    pose proof (ldiff_range (icsr (a_cpu a)) (bit PENDSVSET)). split; [|split]; try done. split; [done|]. eauto.
Qed.

Lemma first_nonempty_insert ls i x l y m : ls !! i = Some (x :: l) →
  first_nonempty (<[i := y :: m]> ls) = first_nonempty ls.
Proof.
  revert i. induction ls as [|[|z n] ls IH]; intros [|i] Hi; simpl in *; try done.
  f_equal. by apply IH.
Qed.

(** [l] are the ready tasks of the most urgent priority [i], the first runs. *)
Definition running_peers (i : nat) (l : list ptr) (a : asched) : Prop :=
  first_nonempty (a_ready a) = Z.of_nat i ∧ a_ready a !! i = Some l ∧
  a_current_task a = hd NULL l ∧ a_lock a = 0.

Lemma round_step s a i x l : stands_for s a → running_peers i (x :: l) a →
  ∃ s' a', (scheduler_yield ;; switch_context) s = Ret () s' ∧ stands_for s' a' ∧
    running_peers i (l ++ [x]) a'.
Proof.
  intros Hs (Hf & Hi & Hc & Hlk). simpl in Hc.
  destruct (refined _ _ _ _ _ _ refines_yield Hs (yield_eff a (proj2 Hs))) as (s1 & E1 & Hs1).
  destruct (switch_stands _ _ Hs1) as (s2 & E2 & Hs2). run E1.
  exists s2, (eff_switch (eff_yield a)). split_and!; [done..|].
  assert (x ∈ x :: l) as Hx by (by left).
  apply (wf_ready _ _ (proj2 Hs) _ _ _ Hi) in Hx as (_ & t & Ht & _ & Hp).
  assert (x ≠ NULL) as Hn by (eapply wf_deref; [exact (proj2 Hs)|eauto]).
  assert (a_ready (eff_yield a) = <[i := l ++ [x]]> (a_ready a)) as Er.
  { unfold eff_yield. rewrite Hc, (proj2 (Z.eqb_neq x NULL)), Hlk by done. simpl.
    unfold prio_of. rewrite Ht, Hp, Nat2Z.id. rewrite (list_alter_lookup _ _ _ _ Hi). f_equal.
    destruct l; [done|]. simpl. by rewrite Z.eqb_refl. }
  assert (first_nonempty (a_ready (eff_yield a)) = Z.of_nat i) as Ef.
  { rewrite Er. destruct l as [|y l]; simpl; by rewrite (first_nonempty_insert _ _ x _ _ _ Hi). }
  assert (a_ready (eff_yield a) !! i = Some (l ++ [x])) as Ei.
  { rewrite Er. apply list_lookup_insert_eq. by eapply lookup_lt_Some. }
  split_and!; try done.
  - simpl. unfold top. by rewrite Ef, Nat2Z.id, Ei.
  - unfold eff_yield, eff_switch. rewrite Hc, (proj2 (Z.eqb_neq x NULL)), Hlk by done. done.
Qed.

Fixpoint rounds (k : nat) : M sched () :=
  match k with O => mret () | S k => rounds k ;; scheduler_yield ;; switch_context end.

Lemma rounds_spec l1 l2 s a i : stands_for s a → running_peers i (l1 ++ l2) a →
  ∃ s' a', rounds (length l1) s = Ret () s' ∧ stands_for s' a' ∧ running_peers i (l2 ++ l1) a'.
Proof.
  revert l2. induction l1 as [|x l1 IH] using rev_ind; intros l2 Hs Hp.
  - exists s, a. by rewrite app_nil_r.
  - rewrite <- app_assoc in Hp. destruct (IH _ Hs Hp) as (s1 & a1 & E1 & Hs1 & Hp1).
    rewrite length_app, Nat.add_comm. simpl. run E1. simpl in Hp1.
    destruct (round_step _ _ _ _ _ Hs1 Hp1) as (s2 & a2 & E2 & Hs2 & Hp2).
    exists s2, a2. by rewrite app_assoc.
Qed.

(** Round robin: when the tasks of the most urgent priority only yield, they
    run one after the other, in the order of their list, each exactly once per
    turn, and a full turn restores the list. *)
Theorem scheduler_round_robin s a i l k : stands_for s a → running_peers i l a → (k ≤ length l)%nat →
  ∃ s' a', rounds k s = Ret () s' ∧ stands_for s' a' ∧
    a_ready a' !! i = Some (drop k l ++ take k l) ∧
    (∀ x, l !! k = Some x → current_task s' = x) ∧
    (k = length l → current_task s' = current_task s).
Proof.
  intros Hs Hp Hk. pose proof Hp as (_ & _ & Hc & _). rewrite <- (take_drop k l) in Hp.
  destruct (rounds_spec _ _ _ _ _ Hs Hp) as (s' & a' & E & Hs' & (_ & Hi & Hc' & _)).
  rewrite length_take, Nat.min_l in E by done. exists s', a'. split_and!; [done..| |].
  - intros x Hx. rewrite (stands_for_current _ _ Hs'), Hc'. by rewrite (drop_S _ _ _ Hx).
  - intros ->. rewrite (stands_for_current _ _ Hs'), (stands_for_current _ _ Hs), Hc', Hc.
    by rewrite drop_all, firstn_all.
Qed.

(** ** Time slices *)

Lemma eff_wake_expired_ready a i l : wf a → a_ready a !! i = Some l →
  ∃ w, a_ready (eff_wake_expired a) !! i = Some (l ++ w) ∧ Forall (λ x, x ∈ a_blocked a) w.
Proof.
  intros Hwf Hl. unfold eff_wake_expired. rewrite wake_many_ready.
  - rewrite Hl. simpl. eexists. split; [done|]. apply Forall_forall. intros x Hx.
    by apply list_elem_of_filter in Hx as [_ ?].
  - exact (wf_blocked_nodup _ _ Hwf).
  - intros x Hx. destruct (blocked_is_Some _ _ _ Hwf Hx) as [t Ht]. exists t. split; [done|].
    by destruct (wf_task _ _ Hwf _ _ Ht) as ([? _] & _).
Qed.

(** A tick charges the running task one tick of its slice.  When the slice
    is used up and preemption is not locked, the slice is refilled, the task
    goes behind its peers, those the tick has woken included, and a context
    switch is pending; otherwise it stays at the head. *)
Theorem scheduler_tick_slice s a t l : stands_for s a → tcbs s !! current_task s = Some t →
  runnable (state t) = true → a_ready a !! Z.to_nat (priority t) = Some (current_task s :: l) → a_lock a = 0 →
  ∃ s' a' t' w, scheduler_tick s = Ret () s' ∧ stands_for s' a' ∧ tcbs s' !! current_task s = Some t' ∧
    Forall (λ x, x ∈ a_blocked a) w ∧
    if time_slice t <=? 1 then
      time_slice t' = CONFIG_TIME_SLICE ∧ pendsv_pending (cpu s') = true ∧
      a_ready a' !! Z.to_nat (priority t) = Some (l ++ w ++ [current_task s])
    else
      time_slice t' = time_slice t - 1 ∧
      a_ready a' !! Z.to_nat (priority t) = Some (current_task s :: l ++ w).
Proof.
  intros Hs Ht Hrun Hl Hlk. pose proof (same_task _ _ _ _ Hs Ht) as Ha. pose proof (proj2 Hs) as Hwf.
  destruct (tick_stands s a Hs) as (s' & E & Hs'). rewrite (stands_for_current _ _ Hs) in *.
  set (cur := a_current_task a) in *. set (a1 := eff_wake_expired (advance a)).
  assert (wf (advance a)) as Hwf0 by (by apply wf_advance).
  destruct (eff_wake_expired_ready (advance a) _ _ Hwf0 Hl) as (w & Hw & Hfw).
  assert (cur ≠ NULL) as Hn by (eapply wf_deref; eauto).
  assert (a_tasks a1 !! cur = Some (unlink t)) as Ht1.
  { unfold a1. rewrite (eff_wake_expired_tasks _ _ _ Hwf0 Ha). simpl.
    rewrite bool_decide_false; [done|]. intros (_ & u & Hu & Hst)%(wf_blocked _ _ Hwf). simplify_eq.
    simpl in Hst. by rewrite Hst in Hrun. }
  destruct (wake_many_rest (expires (advance a)) (λ x, expired (times_out (advance a) x))
    (a_blocked (advance a)) (advance a)) as (_&Ec&_&_&El&_).
  fold (eff_wake_expired (advance a)) in Ec, El. fold a1 in Ec, El, Hw. simpl in Ec, El. fold cur in Ec.
  assert (∀ f, a_tasks (set_task cur f a1) !! cur = Some (f (unlink t))) as Hset.
  { intros f. simpl. by rewrite lookup_alter_eq, Ht1. }
  assert (∃ u, a_tasks (eff_tick a) !! cur = Some u ∧ if time_slice t <=? 1 then
      time_slice u = CONFIG_TIME_SLICE ∧ pendsv_pending (a_cpu (eff_tick a)) = true ∧
      a_ready (eff_tick a) !! Z.to_nat (priority t) = Some (l ++ w ++ [cur])
    else time_slice u = time_slice t - 1 ∧
      a_ready (eff_tick a) !! Z.to_nat (priority t) = Some (cur :: l ++ w)) as (u & Hu & Hpost).
  { unfold eff_tick. fold a1. set (b := urgent _).
    destruct (pend_if_rest b (eff_slice a1)) as (-> & _ & _ & _ & -> & _).
    unfold eff_slice, slice_over in *. rewrite Ec, Ht1, (proj2 (Z.eqb_neq cur NULL)) in * by done.
    simpl time_slice in *. destruct (time_slice t <=? 1) eqn:Es.
    - unfold eff_yield in *. change (a_current_task (set_task cur ?f a1)) with (a_current_task a1) in *.
      change (a_lock (set_task cur ?f a1)) with (a_lock a1) in *.
      rewrite Ec, El, Hlk, (proj2 (Z.eqb_neq cur NULL)) in * by done. simpl (0 <? 0) in *. cbn iota in *.
      eexists. split; [apply Hset|]. split; [done|]. split.
      + destruct b; [|apply trigger_switch_pends]. apply trigger_switch_pends.
      + unfold prio_of. rewrite Hset. simpl. rewrite list_lookup_alter_eq, Hw. simpl. f_equal.
        destruct (l ++ w) eqn:Elw; [by apply app_eq_nil in Elw as [-> ->]|].
        rewrite app_assoc, Elw, Z.eqb_refl. done.
    - eexists. split; [apply Hset|]. split; [done|]. exact Hw. }
  destruct (same_task_inv _ _ _ _ Hs' Hu) as (t' & Ht' & ->).
  exists s', (eff_tick a), t', w. by rewrite (abs_cpu _ _ (proj1 Hs')).
Qed.

(** ** The preemption lock *)

Fixpoint locks (n : nat) : M sched () := match n with O => mret () | S n => scheduler_lock ;; locks n end.
Fixpoint unlocks (n : nat) : M sched () := match n with O => mret () | S n => unlocks n ;; scheduler_unlock end.

Lemma locks_spec n s a : stands_for s a → a_lock a + Z.of_nat n < 2 ^ 32 →
  ∃ s', locks n s = Ret () s' ∧ stands_for s' (a <| a_lock := a_lock a + Z.of_nat n |>).
Proof.
  revert s a. induction n as [|n IH]; intros s a Hs Hn.
  - exists s. split; [done|]. rewrite Z.add_0_r. by destruct a.
  - destruct (refined _ _ _ _ _ _ refines_lock Hs (lock_eff a (proj2 Hs))) as (s1 & E1 & Hs1).
    pose proof (wf_lock _ _ (proj2 Hs)). unfold eff_lock in Hs1. rewrite u32_small in Hs1 by lia.
    destruct (IH _ _ Hs1) as (s2 & E2 & Hs2); [simpl; lia|]. exists s2. simpl. run E1. split; [done|].
    simpl in Hs2. by replace (a_lock a + Z.of_nat (S n)) with (a_lock a + 1 + Z.of_nat n) by lia.
Qed.

Lemma unlocks_spec n s a : stands_for s a → a_resched a = true → (Z.of_nat n ≤ a_lock a) → 0 < a_lock a →
  ∃ s', unlocks n s = Ret () s' ∧ stands_for s'
    (if Z.of_nat n =? a_lock a then pend (a <| a_lock := 0 |> <| a_resched := false |>)
     else a <| a_lock := a_lock a - Z.of_nat n |>).
Proof.
  intros Hs Hr. induction n as [|n IH]; intros Hn Hpos.
  - exists s. split; [done|]. rewrite (proj2 (Z.eqb_neq (Z.of_nat 0) _)), Z.sub_0_r by lia. by destruct a.
  - destruct IH as (s1 & E1 & Hs1); [lia|done|].
    rewrite (proj2 (Z.eqb_neq (Z.of_nat n) (a_lock a))) in Hs1 by lia.
    destruct (refined _ _ _ _ _ _ refines_unlock Hs1 (unlock_eff _ (proj2 Hs1))) as (s2 & E2 & Hs2).
    exists s2. cbn [unlocks]. run E1. split; [done|]. unfold eff_unlock in Hs2.
    change (a_lock (a <| a_lock := ?l |>)) with l in Hs2.
    change (a_resched (a <| a_lock := ?l |>)) with (a_resched a) in Hs2. rewrite Hr, andb_true_r in Hs2.
    destruct (Z.eqb_spec (Z.of_nat (S n)) (a_lock a)).
    + rewrite (proj2 (Z.leb_le _ _)) in Hs2 by lia. exact Hs2.
    + rewrite (proj2 (Z.leb_gt _ _)) in Hs2 by lia.
      replace (Z.max 0 (a_lock a - Z.of_nat n - 1)) with (a_lock a - Z.of_nat (S n)) in Hs2 by lia. exact Hs2.
Qed.

(** C27: The preemption lock nests: a yield under [n > 0] locks moves no task and
    requests no switch; it is remembered, and the switch is requested by the
    [n]-th unlock and no earlier. *)
Theorem scheduler_lock_nests s a n m : stands_for s a → a_lock a = 0 → a_current_task a ≠ NULL →
  (0 < n)%nat → (m ≤ n)%nat → Z.of_nat n < 2 ^ 32 →
  ∃ s' a', (locks n ;; scheduler_yield ;; unlocks m) s = Ret () s' ∧ stands_for s' a' ∧
    lock_count (g_sched s') = Z.of_nat n - Z.of_nat m ∧ a_ready a' = a_ready a ∧
    pendsv_pending (cpu s') = pendsv_pending (cpu s) || bool_decide (m = n).
Proof.
  intros Hs Hlk Hc Hn Hm Hmax.
  destruct (locks_spec n s a Hs) as (s1 & E1 & Hs1); [lia|]. run E1.
  destruct (refined _ _ _ _ _ _ refines_yield Hs1 (yield_eff _ (proj2 Hs1))) as (s2 & E2 & Hs2).
  run E2. unfold eff_yield in Hs2. simpl in Hs2. rewrite (proj2 (Z.eqb_neq _ _) Hc) in Hs2.
  rewrite (proj2 (Z.ltb_lt 0 _)) in Hs2 by lia.
  destruct (unlocks_spec m _ _ Hs2) as (s3 & E3 & Hs3); [done|simpl; lia|simpl; lia|].
  simpl in Hs3. exists s3. eexists. split; [done|]. split; [exact Hs3|].
  rewrite (abs_lock _ _ (proj1 Hs3)), (abs_cpu _ _ (proj1 Hs3)), (abs_cpu _ _ (proj1 Hs)). rewrite Hlk.
  destruct (Z.eqb_spec (Z.of_nat m) (0 + Z.of_nat n)).
  - rewrite bool_decide_true, orb_true_r by lia. simpl. split_and!; [lia|done|]. apply trigger_switch_pends.
  - rewrite bool_decide_false, orb_false_r by lia. simpl. split_and!; [lia|done..].
Qed.

(** ** The theorems on the example system *)

Lemma example_boot_stands : stands_for example_boot example_boot_abs.
Proof. split; [apply example_boot_rep|apply example_boot_wf]. Qed.
Lemma example_blocked_stands reason : stands_for (example_blocked reason) (example_blocked_abs reason).
Proof. split; [apply example_blocked_rep|apply example_blocked_wf]. Qed.

(** The lock only defers [scheduler_yield]: with the lock held, waking a more
    urgent task still requests a switch, and PendSV makes it run. *)
Example lock_does_not_stop_switches :
  let s := final (scheduler_lock ;; scheduler_unblock_task HIGH KERNEL_OK) (example_blocked BLOCK_SEMAPHORE) in
  current_task (example_blocked BLOCK_SEMAPHORE) = LOW ∧ lock_count (g_sched s) = 1 ∧
  pendsv_taken (cpu s) = true ∧ current_task (final switch_context s) = HIGH.
Proof. by vm_compute. Qed.

(** [HIGH] runs, with the peer [LOW] behind it. *)
Definition example_peers : sched := final (scheduler_set_priority LOW 1) example_boot.
Definition example_peers_abs : asched :=
  abstraction (ready_lists [(1%nat, [HIGH; LOW]); (31%nat, [IDLE])]) [] example_peers.

Lemma example_peers_stands : stands_for example_peers example_peers_abs.
Proof.
  split; [apply abstracts_checked, (bool_decide_unpack _); vm_compute; exact I|].
  apply wf_checked, (bool_decide_unpack _). vm_compute. exact I.
Qed.

(** The TCB of [x]. *)
Definition tcb_of (s : sched) (x : ptr) : task_tcb := default (example_tcb 0) (tcbs s !! x).

(** Ticks, each followed by the context switch if one is due. *)
Fixpoint tick_and_switch (n : nat) : M sched () :=
  match n with
  | O => mret ()
  | S n' => scheduler_tick ;; due ← gets (λ s, pendsv_taken (cpu s)); when due switch_context ;; tick_and_switch n'
  end.

(** [scheduler_set_priority] is two critical sections, not one.  [HIGH] changes
    its own priority and is interrupted between them, off its list, by the tick
    that ends its time slice: its peer is switched in, and [HIGH], runnable and
    on no list, does not run again to get back on one. *)
Example set_priority_not_atomic :
  let s0 := example_peers <| tcbs := alter (set_field time_slice 1) HIGH (tcbs example_peers) |> in
  let s := final (scheduler_remove_task HIGH ;; tick_and_switch 1) s0 in
  current_task s0 = HIGH ∧ current_task s = LOW ∧ runnable (state (tcb_of s HIGH)) = true ∧
  g_blocked_head s = NULL ∧ ready_list (g_sched s) !! 1%nat = Some LOW ∧ next (tcb_of s LOW) = NULL ∧
  current_task (final (tick_and_switch 100) s) = LOW.
Proof. vm_compute. intuition reflexivity. Qed.

Lemma scheduler_tick_wakes_witness : ∃ s' a', scheduler_tick (example_blocked BLOCK_MUTEX) = Ret () s' ∧
  stands_for s' a' ∧ g_tick_count s' = 1.
Proof.
  destruct (scheduler_tick_wakes (example_blocked BLOCK_MUTEX) (example_blocked_abs BLOCK_MUTEX))
    as (s' & a' & E & Hs & Hk & _); [apply example_blocked_stands|].
  exists s', a'. split; [exact E|]. split; [exact Hs|]. rewrite Hk. vm_compute. reflexivity.
Defined.

Lemma scheduler_block_spec_witness : ∃ s' a' t',
  block_task_enter BLOCK_QUEUE_RECV OBJ 7 example_boot = Ret (inr (current_task example_boot)) s' ∧
  stands_for s' a' ∧ a_blocked a' = [HIGH] ∧ tcbs s' !! current_task example_boot = Some t' ∧ wake_tick t' = 7.
Proof.
  destruct (scheduler_block_spec BLOCK_QUEUE_RECV OBJ 7 example_boot example_boot_abs
    (tcb_of example_boot HIGH)) as (s' & a' & t' & E & Hs & _ & _ & Hb & _ & Ht & _ & _ & _ & _ & _ & Hw & _).
  - apply example_boot_stands.
  - vm_compute. reflexivity.
  - vm_compute. reflexivity.
  - exists s', a', t'. split; [exact E|]. split; [exact Hs|].
    split; [rewrite Hb; vm_compute; reflexivity|]. split; [exact Ht|]. rewrite Hw. vm_compute. reflexivity.
Defined.

Lemma scheduler_delay_exact_witness : ∃ s' a' t',
  (block_task_enter BLOCK_DELAY NULL 3 ;; repeated_ticks 2) example_boot = Ret () s' ∧
  stands_for s' a' ∧ tcbs s' !! current_task example_boot = Some t' ∧
  state t' = if decide (Z.of_nat 2 < 3) then TASK_STATE_BLOCKED else TASK_STATE_READY.
Proof.
  apply (scheduler_delay_exact example_boot example_boot_abs (tcb_of example_boot HIGH) 3 2).
  - apply example_boot_stands.
  - vm_compute. reflexivity.
  - vm_compute. reflexivity.
  - lia.
  - by vm_compute.
  - lia.
Defined.

(** The example system shortly before the tick count wraps. *)
Definition example_late : sched := example_boot <| g_tick_count := UINT32_MAX - 9 |>.
Definition example_late_abs : asched := example_boot_abs <| a_tick := UINT32_MAX - 9 |>.

Lemma example_late_stands : stands_for example_late example_late_abs.
Proof.
  split; [apply abstracts_checked, (bool_decide_unpack _); vm_compute; exact I|].
  apply wf_checked, (bool_decide_unpack _). vm_compute. exact I.
Qed.

Lemma scheduler_delay_wraps_witness : ∃ s' a' t',
  (block_task_enter BLOCK_DELAY NULL 1000 ;; scheduler_tick) example_late = Ret () s' ∧
  stands_for s' a' ∧ tcbs s' !! current_task example_late = Some t' ∧ state t' = TASK_STATE_READY.
Proof.
  apply (scheduler_delay_wraps example_late example_late_abs (tcb_of example_late HIGH) 1000).
  - apply example_late_stands.
  - vm_compute. reflexivity.
  - vm_compute. reflexivity.
  - by vm_compute.
  - by vm_compute.
  - by vm_compute.
Defined.

Lemma scheduler_unblock_one_spec_witness : ∃ r s' a',
  scheduler_unblock_one BLOCK_EVENT OBJ KERNEL_OK (example_blocked BLOCK_EVENT) = Ret r s' ∧ stands_for s' a'.
Proof.
  destruct (scheduler_unblock_one_spec BLOCK_EVENT OBJ KERNEL_OK _ _ (example_blocked_stands BLOCK_EVENT))
    as (r & s' & a' & E & Hs & _). exists r, s', a'. split; [exact E|exact Hs].
Defined.

Lemma scheduler_unblock_all_spec_witness : ∃ s' a',
  scheduler_unblock_all BLOCK_EVENT OBJ KERNEL_OK (example_blocked BLOCK_EVENT) = Ret 1 s' ∧ stands_for s' a'.
Proof.
  destruct (scheduler_unblock_all_spec BLOCK_EVENT OBJ KERNEL_OK _ _ (example_blocked_stands BLOCK_EVENT))
    as (r & s' & a' & E & Hs & Hr & _). exists s', a'. split; [|exact Hs].
  rewrite E, Hr. vm_compute. reflexivity.
Defined.

Lemma scheduler_select_spec_witness : ∃ n s' a',
  scheduler_select_next_task (example_blocked BLOCK_EVENT) = Ret n s' ∧ stands_for s' a' ∧ next_task s' = n.
Proof.
  destruct (scheduler_select_spec _ _ (example_blocked_stands BLOCK_EVENT)) as (n & s' & a' & E & Hs & Hn & _).
  exists n, s', a'. split; [exact E|]. split; [exact Hs|exact Hn].
Defined.

(** [LOW], suspended, is added again. *)
Definition example_removed : sched :=
  final (scheduler_remove_task LOW ;; upd LOW (set_field state TASK_STATE_SUSPENDED)) example_boot.
Definition example_removed_abs : asched :=
  abstraction (ready_lists [(1%nat, [HIGH]); (31%nat, [IDLE])]) [] example_removed.

Lemma example_removed_stands : stands_for example_removed example_removed_abs.
Proof.
  split; [apply abstracts_checked, (bool_decide_unpack _); vm_compute; exact I|].
  apply wf_checked, (bool_decide_unpack _). vm_compute. exact I.
Qed.

Lemma scheduler_add_spec_witness : ∃ s' a' t', scheduler_add_task LOW example_removed = Ret () s' ∧
  stands_for s' a' ∧ a_ready a' !! 3%nat = Some [LOW] ∧ tcbs s' !! LOW = Some t' ∧ state t' = TASK_STATE_READY.
Proof.
  destruct (scheduler_add_spec LOW (tcb_of example_removed LOW) example_removed example_removed_abs [])
    as (s' & a' & t' & E & Hs & Hl & Ht & Hst & _).
  - apply example_removed_stands.
  - vm_compute. reflexivity.
  - vm_compute. reflexivity.
  - vm_compute. reflexivity.
  - exists s', a', t'. split; [exact E|]. split; [exact Hs|].
    split; [etransitivity; [|exact Hl]; vm_compute; reflexivity|]. split; [exact Ht|exact Hst].
Defined.

Lemma scheduler_round_robin_witness : ∃ s' a', rounds 1 example_peers = Ret () s' ∧ stands_for s' a' ∧
  a_ready a' !! 1%nat = Some [LOW; HIGH] ∧
  (∀ x, [HIGH; LOW] !! 1%nat = Some x → current_task s' = x) ∧
  (1%nat = 2%nat → current_task s' = current_task example_peers).
Proof.
  apply (scheduler_round_robin example_peers example_peers_abs 1 [HIGH; LOW] 1).
  - apply example_peers_stands.
  - split; [vm_compute; reflexivity|]. split; [vm_compute; reflexivity|]. split; vm_compute; reflexivity.
  - simpl. lia.
Defined.

Lemma scheduler_tick_slice_witness : ∃ s' a' t' w, scheduler_tick example_peers = Ret () s' ∧
  stands_for s' a' ∧ tcbs s' !! current_task example_peers = Some t' ∧
  Forall (λ x, x ∈ a_blocked example_peers_abs) w.
Proof.
  destruct (scheduler_tick_slice example_peers example_peers_abs (tcb_of example_peers HIGH) [LOW])
    as (s' & a' & t' & w & E & Hs & Ht & Hw & _).
  - apply example_peers_stands.
  - vm_compute. reflexivity.
  - vm_compute. reflexivity.
  - vm_compute. reflexivity.
  - vm_compute. reflexivity.
  - exists s', a', t', w. split; [exact E|]. split; [exact Hs|]. split; [exact Ht|exact Hw].
Defined.

Lemma scheduler_lock_nests_witness : ∃ s' a',
  (locks 2 ;; scheduler_yield ;; unlocks 2) example_peers = Ret () s' ∧ stands_for s' a' ∧
  lock_count (g_sched s') = Z.of_nat 2 - Z.of_nat 2 ∧ a_ready a' = a_ready example_peers_abs ∧
  pendsv_pending (cpu s') = pendsv_pending (cpu example_peers) || bool_decide (2 = 2)%nat.
Proof.
  apply (scheduler_lock_nests example_peers example_peers_abs 2 2).
  - apply example_peers_stands.
  - vm_compute. reflexivity.
  - vm_compute. discriminate.
  - lia.
  - lia.
  - by vm_compute.
Defined.
