(* ===== verification/TimeSlice.v ===== *)
(** * Time slices over any number of ticks

    The most urgent ready tasks share the processor: each runs for
    [CONFIG_TIME_SLICE] ticks, in turn, for ever. *)
From S2P Require Import Prelude Config Task Critical Bitmap TcbList Scheduler SchedSpec.
From S2P Require Import SchedRefine SchedInv SchedEffect SchedIface Sync Trace Checker Example SchedProps.

(** ** Turns *)

(** The first goes behind the others. *)
Definition turn (l : list ptr) : list ptr := match l with [] => [] | x :: l' => l' ++ [x] end.

Lemma turn_rotate x l : rotate x (x :: l) = turn (x :: l).
Proof. destruct l; simpl; [done|]. by rewrite Z.eqb_refl. Qed.

Lemma turns_split k l : (k ≤ length l)%nat → Nat.iter k turn l = drop k l ++ take k l.
Proof.
  induction k as [|k IH]; intros Hk; [by rewrite drop_0, app_nil_r|]. simpl. rewrite IH by lia.
  destruct (drop k l) as [|x d] eqn:E; [apply (f_equal length) in E; rewrite length_drop in E; simpl in E; lia|].
  assert (l !! k = Some x) as Hx by (by rewrite <- (Nat.add_0_r k), <- lookup_drop, E).
  assert (drop (Datatypes.S k) l = d) as -> by (by rewrite (drop_S _ _ _ Hx) in E; injection E).
  simpl. by rewrite (take_S_r _ _ _ Hx), <- app_assoc.
Qed.

Lemma turns_length k l : length (Nat.iter k turn l) = length l.
Proof.
  induction k as [|k IH]; [done|]. simpl. rewrite <- IH. destruct (Nat.iter k turn l); [done|].
  simpl. rewrite length_app. simpl. lia.
Qed.

(** After [k] turns the one with the number [k] modulo the length is first. *)
Lemma turns_first k l : l ≠ [] → hd_error (Nat.iter k turn l) = l !! (k mod length l)%nat.
Proof.
  intros Hl. set (n := length l). assert (n ≠ 0%nat) as Hn by (by destruct l).
  replace (Nat.iter k turn l) with (Nat.iter (k mod n + n * (k / n)) turn l)
    by (f_equal; pose proof (Nat.div_mod_eq k n); lia).
  rewrite Nat.iter_add.
  assert (∀ q, Nat.iter (n * q) turn l = l) as ->.
  { intros q. induction q as [|q IH]; [by rewrite Nat.mul_0_r|].
    rewrite Nat.mul_succ_r, Nat.add_comm, Nat.iter_add, IH. unfold n.
    by rewrite turns_split, drop_all, take_ge by lia. }
  pose proof (Nat.mod_upper_bound k n Hn). rewrite turns_split by (fold n; lia).
  destruct (lookup_lt_is_Some_2 l (k mod n)) as [x Hx]; [done|]. by rewrite (drop_S _ _ _ Hx), Hx.
Qed.

(** ** One tick *)

(** No timeout runs for the task. *)
Definition waits_for_ever (t : task_tcb) : Prop :=
  block_reason t ≠ BLOCK_DELAY ∧ (block_timeout t = 0 ∨ block_timeout t = UINT32_MAX).

(** Time wakes no task of priority [i] or more urgent. *)
Definition quiet (i : nat) (a : asched) : Prop := ∀ x t, x ∈ a_blocked a → a_tasks a !! x = Some t →
  Z.of_nat i < priority t ∨ waits_for_ever t.

(** [l] are the ready tasks of the most urgent priority [i]; the first runs and
    has [r] ticks left, the others full slices. *)
Record sharing (i : nat) (l : list ptr) (r : Z) (a : asched) : Prop := {
  sharing_peers : running_peers i l a;
  sharing_slices x t : x ∈ l → a_tasks a !! x = Some t →
    time_slice t = if bool_decide (x = hd NULL l) then r else CONFIG_TIME_SLICE;
  sharing_quiet : quiet i a;
  sharing_thread : primask (a_cpu a) = 0 ∧ ipsr (a_cpu a) = 0 ∧ pendsv_pending (a_cpu a) = false;
}.

Lemma for_ever_sleeps now t : waits_for_ever t → tick_expired now t = (false, false).
Proof.
  intros [Hd Ht]. unfold tick_expired. rewrite bool_decide_false by done. by destruct Ht as [-> | ->].
Qed.

Lemma quiet_expires i a x t : quiet i a → x ∈ a_blocked a → a_tasks a !! x = Some t → expires a x = true →
  Z.of_nat i < priority t.
Proof.
  intros Hq Hx Ht. unfold expires. rewrite Ht. destruct (Hq x t Hx Ht) as [|Hw]; [done|].
  by rewrite for_ever_sleeps.
Qed.

Lemma quiet_ready i j a l : wf a → quiet i a → (j ≤ i)%nat → a_ready a !! j = Some l →
  a_ready (eff_wake_expired a) !! j = Some l.
Proof.
  intros Hwf Hq Hj Hl. unfold eff_wake_expired. rewrite wake_many_ready.
  - rewrite Hl. simpl. rewrite filter_none; [by rewrite app_nil_r|]. apply Forall_forall.
    intros x Hx [He Hp]. destruct (blocked_is_Some _ _ _ Hwf Hx) as [t Ht].
    pose proof (quiet_expires i a x t Hq Hx Ht He). unfold prio_of in Hp. rewrite Ht in Hp. lia.
  - exact (wf_blocked_nodup _ _ Hwf).
  - intros x Hx. destruct (blocked_is_Some _ _ _ Hwf Hx) as [t Ht]. exists t. split; [done|].
    by destruct (wf_task _ _ Hwf _ _ Ht) as ([? _] & _).
Qed.

Lemma first_nonempty_at ls i x l : ls !! i = Some (x :: l) → (∀ j, (j < i)%nat → ls !! j = Some []) →
  first_nonempty ls = Z.of_nat i.
Proof.
  revert i. induction ls as [|l0 ls IH]; intros i Hi Hlow; [done|]. destruct i as [|i].
  - by injection Hi as ->.
  - pose proof (Hlow 0%nat ltac:(lia)) as H0. injection H0 as ->. simpl.
    rewrite (IH i); [lia|done|]. intros j Hj. apply (Hlow (Datatypes.S j)). lia.
Qed.

Lemma peers_below i l a j : running_peers i l a → (j < i)%nat → a_ready a !! j = Some [].
Proof.
  intros (Hf & _) Hj. destruct (first_nonempty_spec (a_ready a)) as (_ & Hlow & _). apply Hlow. lia.
Qed.

(** The wake-up pass leaves the peers as they are. *)
Lemma quiet_wakes i x l r a : wf a → sharing i (x :: l) r a → let a1 := eff_wake_expired (advance a) in
  wf a1 ∧ a_ready a1 !! i = Some (x :: l) ∧ (∀ j, (j < i)%nat → a_ready a1 !! j = Some []) ∧
  a_current_task a1 = x ∧ a_lock a1 = 0 ∧ a_cpu a1 = a_cpu a ∧
  (∀ y, y ∈ x :: l → a_tasks a1 !! y = a_tasks a !! y) ∧ quiet i a1.
Proof.
  intros Hwf Hsh a1. pose proof Hsh as [Hp _ Hq _]. pose proof Hp as (_ & Hi & Hc & Hl).
  pose proof (wf_advance _ Hwf) as Hwf0. change (quiet i (advance a)) in Hq.
  destruct (wake_many_rest (expires (advance a)) (λ x, expired (times_out (advance a) x))
    (a_blocked (advance a)) (advance a)) as (_&Ec&_&_&El&_&Ecpu).
  fold (eff_wake_expired (advance a)) in Ec, El, Ecpu. fold a1 in Ec, El, Ecpu. split_and!.
  - by apply wake_expired_eff.
  - by apply (quiet_ready i).
  - intros j Hj. apply (quiet_ready i); [done..|lia|]. by apply (peers_below i (x :: l)).
  - by rewrite Ec.
  - by rewrite El.
  - done.
  - intros y Hy. apply (wf_ready _ _ Hwf _ _ _ Hi) in Hy as (_ & t & Ht & Hr & _). rewrite Ht.
    unfold a1. rewrite (eff_wake_expired_tasks _ _ t Hwf0 Ht), bool_decide_false; [done|].
    intros (_ & u & Hu & Hst)%(wf_blocked _ _ Hwf). simplify_eq. by rewrite Hst in Hr.
  - intros y t Hy Ht. unfold a1, eff_wake_expired in Hy. rewrite wake_many_blocked in Hy.
    apply list_elem_of_filter in Hy as [Hne Hy]. destruct (blocked_is_Some _ _ _ Hwf0 Hy) as [u Hu].
    unfold a1 in Ht. rewrite (eff_wake_expired_tasks _ _ u Hwf0 Hu), bool_decide_true in Ht by done.
    destruct (expires (advance a) y); [by destruct Hne|]. injection Ht as <-. by apply (Hq y).
Qed.

(** The running task, its list and its slice at a tick. *)
Lemma quiet_current i x l r a : wf a → sharing i (x :: l) r a → ∃ t, a_tasks a !! x = Some t ∧ x ≠ NULL ∧
  priority t = Z.of_nat i ∧ time_slice t = r.
Proof.
  intros Hwf [Hp Hts _ _]. destruct Hp as (_ & Hi & _).
  assert (x ∈ x :: l) as Hx by (by left). destruct (proj1 (wf_ready _ _ Hwf _ _ _ Hi) Hx) as (_ & t & Ht & _ & Hp).
  exists t. split_and!; [done|by eapply wf_deref|done|]. rewrite (Hts x t Hx Ht). by rewrite bool_decide_true.
Qed.

Lemma quiet_not_urgent i x l a t : a_ready a !! i = Some l → l ≠ [] → (∀ j, (j < i)%nat → a_ready a !! j = Some []) →
  a_current_task a = x → a_tasks a !! x = Some t → priority t = Z.of_nat i → urgent a = false.
Proof.
  intros Hi Hl Hlow Hc Ht Hp. unfold urgent, prio_of. rewrite Hc, Ht, Hp. destruct l as [|y l]; [done|].
  rewrite (first_nonempty_at _ _ _ _ Hi Hlow), Z.ltb_irrefl. apply andb_false_r.
Qed.

Lemma quiet_set_task i x r a : quiet i a → quiet i (set_task x (set_field time_slice r) a).
Proof.
  intros Hq y u Hy. simpl. destruct (decide (x = y)) as [<-|Hne].
  - rewrite lookup_alter_eq. intros (v & Hv & ->)%fmap_Some. by apply (Hq x v).
  - rewrite lookup_alter_ne by done. by apply Hq.
Qed.

(** A tick within the slice. *)
Lemma tick_shares i x l r a : wf a → sharing i (x :: l) r a → 1 < r →
  sharing i (x :: l) (r - 1) (eff_tick a) ∧ pendsv_taken (a_cpu (eff_tick a)) = false.
Proof.
  intros Hwf Hsh Hr. destruct (quiet_current _ _ _ _ _ Hwf Hsh) as (t & Ht & Hn & Hpt & Hrt).
  destruct (quiet_wakes _ _ _ _ _ Hwf Hsh) as (Hwf1 & Hi1 & Hlow1 & Hc1 & Hl1 & Ecpu & Etasks & Hq1).
  destruct Hsh as [Hp Hts Hq (Hm & Hips & Hpend)]. set (a1 := eff_wake_expired (advance a)) in *.
  assert (x ∈ x :: l) as Hx by (by left). pose proof (Etasks x Hx) as Ht1. rewrite Ht in Ht1.
  assert (eff_slice a1 = set_task x (set_field time_slice (r - 1)) a1) as Es.
  { unfold eff_slice, slice_over. rewrite Hc1, Ht1, Hrt, (proj2 (Z.eqb_neq x NULL)) by done.
    rewrite (proj2 (Z.leb_gt r 1)) by done. apply set_task_ext. intros u Hu. by simplify_eq. }
  assert (eff_tick a = set_task x (set_field time_slice (r - 1)) a1) as E.
  { unfold eff_tick. fold a1. rewrite Es. rewrite (quiet_not_urgent i x (x :: l) _ (t <| time_slice := r - 1 |>));
      [done|done|done|done|done| |done]. simpl. by rewrite lookup_alter_eq, Ht1. }
  rewrite E. split; [|unfold pendsv_taken; simpl; by rewrite Ecpu, Hpend]. split.
  - split_and!; [|done|done|done]. by apply (first_nonempty_at _ _ x l).
  - intros y u Hy Hu. simpl in Hu. simpl hd. destruct (decide (x = y)) as [<-|Hne].
    + rewrite lookup_alter_eq, Ht1 in Hu. injection Hu as <-. simpl. by rewrite bool_decide_true.
    + rewrite lookup_alter_ne, (Etasks y Hy) in Hu by done. rewrite (Hts y u Hy Hu). simpl hd.
      by rewrite !bool_decide_false by congruence.
  - by apply (quiet_set_task i x (r - 1)).
  - simpl. by rewrite Ecpu.
Qed.

Lemma switch_clears (c : cpu_t) : Z.testbit (Z.ldiff (icsr c) (bit PENDSVSET)) PENDSVSET = false.
Proof. rewrite Z.ldiff_spec, testbit_bit, bool_decide_true by (unfold PENDSVSET; lia). apply andb_false_r. Qed.

(** The tick that uses up the slice, and the switch it asks for. *)
Lemma tick_turns i x l r a : wf a → sharing i (x :: l) r a → r ≤ 1 →
  pendsv_taken (a_cpu (eff_tick a)) = true ∧ sharing i (turn (x :: l)) CONFIG_TIME_SLICE (eff_switch (eff_tick a)).
Proof.
  intros Hwf Hsh Hr. destruct (quiet_current _ _ _ _ _ Hwf Hsh) as (t & Ht & Hn & Hpt & Hrt).
  destruct (quiet_wakes _ _ _ _ _ Hwf Hsh) as (Hwf1 & Hi1 & Hlow1 & Hc1 & Hl1 & Ecpu & Etasks & Hq1).
  destruct Hsh as [Hp Hts Hq (Hm & Hips & Hpend)]. set (a1 := eff_wake_expired (advance a)) in *.
  assert (x ∈ x :: l) as Hx by (by left). pose proof (Etasks x Hx) as Ht1. rewrite Ht in Ht1.
  set (a2 := set_task x (set_field time_slice CONFIG_TIME_SLICE) a1).
  set (a3 := pend (a2 <| a_ready := <[i := turn (x :: l)]> (a_ready a1) |>)).
  assert (eff_slice a1 = a3) as Es.
  { unfold eff_slice, slice_over. rewrite Hc1, Ht1, Hrt, (proj2 (Z.eqb_neq x NULL)) by done.
    rewrite (proj2 (Z.leb_le r 1)) by done. fold a2. unfold eff_yield.
    change (a_current_task a2) with (a_current_task a1). change (a_lock a2) with (a_lock a1).
    rewrite Hc1, Hl1, (proj2 (Z.eqb_neq x NULL)) by done. unfold a3, prio_of. do 2 f_equal.
    simpl. rewrite lookup_alter_eq, Ht1. simpl. rewrite Hpt, Nat2Z.id.
    by rewrite (list_alter_lookup _ _ _ _ Hi1), turn_rotate. }
  destruct (turn (x :: l)) as [|y m] eqn:Et; [by destruct l|].
  assert (a_ready a3 !! i = Some (y :: m)) as Hi3 by (apply list_lookup_insert_eq; by eapply lookup_lt_Some).
  assert (∀ j, (j < i)%nat → a_ready a3 !! j = Some []) as Hlow3.
  { intros j Hj. simpl. rewrite list_lookup_insert_ne by lia. by apply Hlow1. }
  assert (eff_tick a = pend_if (urgent a3) a3) as E by (unfold eff_tick; fold a1; by rewrite Es).
  rewrite E. destruct (pend_if_rest (urgent a3) a3) as (Pt & Pb & _ & _ & Pr & Pl).
  split; [destruct (urgent a3); apply pend_taken; unfold irq_mask; simpl; by rewrite Ecpu|].
  split.
  - split_and!; simpl.
    + rewrite Pr. by apply (first_nonempty_at _ _ y m).
    + by rewrite Pr.
    + unfold top. by rewrite Pr, (first_nonempty_at _ _ _ _ Hi3 Hlow3), Nat2Z.id, Hi3.
    + by rewrite Pl.
  - intros z u Hz Hu. simpl in Hu. rewrite Pt in Hu. simpl in Hu.
    assert (time_slice u = CONFIG_TIME_SLICE) as ->; [|by case_bool_decide].
    destruct (decide (x = z)) as [<-|Hne].
    + rewrite lookup_alter_eq, Ht1 in Hu. by injection Hu as <-.
    + assert (z ∈ x :: l) as Hz' by (rewrite <- Et in Hz; simpl in Hz; set_solver).
      rewrite lookup_alter_ne, (Etasks z Hz') in Hu by done. rewrite (Hts z u Hz' Hu).
      by rewrite bool_decide_false by (simpl; congruence).
  - intros z u Hz Hu. simpl in Hz, Hu. rewrite Pb in Hz. rewrite Pt in Hu. by apply (quiet_set_task i x CONFIG_TIME_SLICE a1 Hq1 z).
  - unfold pendsv_pending. simpl. rewrite switch_clears. destruct (urgent a3); simpl; by rewrite Ecpu.
Qed.

(** ** Any number of ticks *)

(** A slice in ticks. *)
Definition slice_ticks : nat := Z.to_nat CONFIG_TIME_SLICE.

Lemma sharing_nonempty i l r a : sharing i l r a → ∃ x l', l = x :: l'.
Proof.
  intros [(Hf & Hi & _) _ _ _]. destruct (first_nonempty_spec (a_ready a)) as (_ & _ & Hhit).
  destruct Hhit as (x & l' & Hx); [rewrite Hf; apply inj_lt; by eapply lookup_lt_Some|].
  rewrite Hf, Nat2Z.id, Hi in Hx. injection Hx as ->. eauto.
Qed.

(** One tick, with the switch if one is due. *)
Lemma tick_and_switch_next n s a b : stands_for s a →
  (pendsv_taken (a_cpu (eff_tick a)) = false ∧ b = eff_tick a ∨
   pendsv_taken (a_cpu (eff_tick a)) = true ∧ b = eff_switch (eff_tick a)) →
  ∃ s', stands_for s' b ∧ tick_and_switch (Datatypes.S n) s = tick_and_switch n s'.
Proof.
  intros Hs Hb. destruct (tick_stands s a Hs) as (s1 & E1 & Hs1). cbn [tick_and_switch]. pose proof (abs_cpu _ _ (proj1 Hs1)) as Ec.
  destruct Hb as [[Hp ->]|[Hp ->]].
  - exists s1. split; [done|]. run E1. step. by rewrite Ec, Hp.
  - destruct (switch_stands _ _ Hs1) as (s2 & E2 & Hs2). exists s2. split; [done|]. run E1. step. rewrite Ec, Hp.
    by run E2.
Qed.

Lemma ticks_share n : ∀ s a i l e, stands_for s a → (e < slice_ticks)%nat →
  sharing i l (CONFIG_TIME_SLICE - Z.of_nat e) a → ∃ s' a', tick_and_switch n s = Ret () s' ∧ stands_for s' a' ∧
    sharing i (Nat.iter ((e + n) / slice_ticks) turn l) (CONFIG_TIME_SLICE - Z.of_nat ((e + n) mod slice_ticks)) a'.
Proof.
  change slice_ticks with 10%nat. change CONFIG_TIME_SLICE with 10.
  induction n as [|n IH]; intros s a i l e Hs He Hsh.
  - exists s, a. rewrite Nat.add_0_r, Nat.div_small, Nat.mod_small by lia. done.
  - destruct (sharing_nonempty _ _ _ _ Hsh) as (x & l' & ->). pose proof (proj2 Hs) as Hwf.
    destruct (decide (e = 9%nat)) as [->|].
    + assert (10 - Z.of_nat 9 ≤ 1) as Hr by lia. destruct (tick_turns _ _ _ _ _ Hwf Hsh Hr) as [Hp Hsh'].
      destruct (tick_and_switch_next n s a _ Hs (or_intror (conj Hp eq_refl))) as (s1 & Hs1 & ->).
      destruct (IH s1 _ i _ 0%nat Hs1 ltac:(lia) Hsh') as (s' & a' & E & Hs' & Hsh2).
      exists s', a'. split_and!; [done..|]. replace (9 + Datatypes.S n)%nat with (n + 1 * 10)%nat by lia.
      rewrite Nat.div_add, Nat.Div0.mod_add, Nat.add_1_r, Nat.iter_succ_r by lia. done.
    + assert (1 < 10 - Z.of_nat e) as Hr by lia. destruct (tick_shares _ _ _ _ _ Hwf Hsh Hr) as [Hsh' Hp].
      destruct (tick_and_switch_next n s a _ Hs (or_introl (conj Hp eq_refl))) as (s1 & Hs1 & ->).
      replace (10 - Z.of_nat e - 1) with (10 - Z.of_nat (Datatypes.S e)) in Hsh' by lia.
      assert (Datatypes.S e < 10)%nat as He1 by lia.
      destruct (IH s1 _ i _ _ Hs1 He1 Hsh') as (s' & a' & E & Hs' & Hsh2).
      exists s', a'. split_and!; [done..|]. by rewrite Nat.add_succ_r.
Qed.

(** C26: Time slicing is fair: as long as time wakes nobody as urgent, the most
    urgent ready tasks share the processor, whatever they compute.  After any
    number [n] of ticks, [e] of the first slice having passed before, the task
    that runs is the one whose turn it is in the order of their list, each
    keeping the processor for [CONFIG_TIME_SLICE] ticks; so each of them runs
    again within as many slices as there are tasks. *)
Theorem time_slices_rotate s a i l e n : stands_for s a → sharing i l (CONFIG_TIME_SLICE - Z.of_nat e) a →
  (e < slice_ticks)%nat → ∃ s' a', tick_and_switch n s = Ret () s' ∧ stands_for s' a' ∧
    l !! ((e + n) / slice_ticks mod length l)%nat = Some (current_task s').
Proof.
  intros Hs Hsh He. destruct (sharing_nonempty _ _ _ _ Hsh) as (x & l' & El).
  destruct (ticks_share n s a i l e Hs He Hsh) as (s' & a' & E & Hs' & Hsh').
  exists s', a'. split_and!; [done..|]. rewrite <- turns_first by (by subst).
  destruct (sharing_nonempty _ _ _ _ Hsh') as (y & m & Ey). rewrite Ey in Hsh' |- *.
  destruct (sharing_peers _ _ _ _ Hsh') as (_ & _ & Hc & _). by rewrite (stands_for_current _ _ Hs'), Hc.
Qed.

(** ** The theorem on the example system *)

(** [HIGH] and [LOW] at priority 1: after 25 ticks it is [HIGH]'s turn again. *)
Lemma time_slices_rotate_witness : ∃ s', tick_and_switch 25 example_peers = Ret () s' ∧ current_task s' = HIGH.
Proof.
  destruct (time_slices_rotate example_peers example_peers_abs 1 [HIGH; LOW] 0 25) as (s' & a' & E & _ & Hc).
  - apply example_peers_stands.
  - split.
    + split; [vm_compute; reflexivity|]. split; [vm_compute; reflexivity|]. split; vm_compute; reflexivity.
    + intros x t Hx Ht. rewrite !elem_of_cons in Hx. destruct Hx as [->|[->|[]%not_elem_of_nil]];
        vm_compute in Ht; injection Ht as <-; vm_compute; reflexivity.
    + intros x t []%not_elem_of_nil.
    + vm_compute. split; [reflexivity|]. split; reflexivity.
  - vm_compute. lia.
  - exists s'. split; [exact E|]. apply (inj Some). rewrite <- Hc. vm_compute. reflexivity.
Defined.
