(* ===== verification/SysTick.v ===== *)
(** * The tick interrupt

    [SysTick_Handler] of [kernel/scheduler.c]: the scheduler's tick, then the
    software timers', then the application's hook.  The state is that of the
    timers, with the scheduler and the application's data as the data their
    callbacks may use. *)
From S2P Require Import Prelude Config Task Critical Bitmap TcbList Scheduler SchedSpec.
From S2P Require Import SchedRefine SchedInv SchedEffect SchedIface Checker Example Timer SchedProps.

Section systick.
Context {V : Type}.
Notation board := (timer_state (sched * V)).

#[export] Program Instance sched_lens : Lens sched board := {|
  view b := fst (user b); over s b := mkTimerState (g_timer_list b) (timers b) (timer_cpu b) (s, snd (user b));
|}.
Next Obligation. done. Qed.
Next Obligation. by intros [??? []]. Qed.
Next Obligation. done. Qed.

#[export] Program Instance app_lens : Lens V board := {|
  view b := snd (user b); over v b := mkTimerState (g_timer_list b) (timers b) (timer_cpu b) (fst (user b), v);
|}.
Next Obligation. done. Qed.
Next Obligation. by intros [??? []]. Qed.
Next Obligation. done. Qed.

(** The weak default of [kernel_tick_hook] is empty; [hook] is what the
    application puts in its place. *)
Definition kernel_tick_hook : M V () := mret ().

Definition SysTick_Handler (callback : ptr → ptr → M board ()) (hook : M V ()) : M board () :=
  zoom scheduler_tick ;;
  when CONFIG_SW_TIMERS (timer_tick_isr callback) ;;
  zoom hook.

(** A callback of the timers that works on the application's data. *)
Definition on_app (g : ptr → ptr → V → V) (f x : ptr) (u : sched * V) : sched * V := (fst u, g f x (snd u)).

Lemma fold_on_app (g : ptr → ptr → V → V) h l u :
  fold_left (λ u x, at_timer h (call (on_app g)) (λ u, u) x u) l u =
  (fst u, fold_left (λ v x, at_timer h (call g) (λ v, v) x v) l (snd u)).
Proof using Type.
  revert u. induction l as [|x l IH]; intros [s v]; [done|]. simpl. rewrite IH.
  assert (at_timer h (call (on_app g)) (λ u, u) x (s, v) = (s, at_timer h (call g) (λ v, v) x v)) as ->; [|done].
  unfold at_timer, call. destruct (h !! x) as [t|]; [|done]. by destruct (fires t).
Qed.

End systick.

(** ** An instance *)

(** The timers of [Timer.v]'s example on the example scheduler, with [HIGH]
    blocked until tick 5; the application logs the callbacks. *)
Definition example_log : Type := list (ptr * ptr).
Definition example_board : timer_state (sched * example_log) :=
  mkTimerState (g_timer_list example_timers) (timers example_timers) (timer_cpu example_timers)
    (example_blocked BLOCK_DELAY <| g_tick_count := 4 |>, []).
Definition log_app (f arg : ptr) : M (timer_state (sched * example_log)) () :=
  modify (λ b, mkTimerState (g_timer_list b) (timers b) (timer_cpu b) (on_app log_call f arg (user b))).

