(* ===== verification/TimerSem.v ===== *)
(** * A timer that gives a semaphore

    Timer, semaphore and scheduler together, in the interrupt handlers of the
    kernel: the callback of a periodic timer calls [sem_give_isr], the other
    timers call functions of the application that leave the kernel alone. *)
From S2P Require Import Prelude Config Task Critical Bitmap TcbList Scheduler SchedSpec.
From S2P Require Import SchedRefine SchedInv SchedEffect SchedIface Sync Checker Example.
From S2P Require Import Semaphore Timer SchedProps SysTick.

(** ** Ticks and gives on the specification *)

Section pace.
Context (sem : ptr).
Implicit Types (a : asched) (s : semaphore_t).

(** A give: whoever waits is woken, or else the token is counted. *)
Definition give_pair (x : asched * semaphore_t) : asched * semaphore_t :=
  if best_waiter x.1 BLOCK_SEMAPHORE sem =? NULL then (x.1, (given x.2).2)
  else (eff_unblock_one BLOCK_SEMAPHORE sem KERNEL_OK x.1, x.2).

(** Tick [k], on which the timer of period [n] may give. *)
Definition pace_step (n k : Z) (x : asched * semaphore_t) : asched * semaphore_t :=
  if k mod n =? 0 then give_pair (eff_tick x.1, x.2) else (eff_tick x.1, x.2).
Fixpoint paced (n : Z) (k : nat) (x : asched * semaphore_t) : asched * semaphore_t :=
  match k with O => x | Datatypes.S k' => pace_step n (Z.of_nat k) (paced n k' x) end.

(** A limited semaphore: [count++] does not overflow. *)
Definition limited s : Prop := sem_ok s ∧ 0 < max_count s ≤ INT32_MAX.

Lemma given_limited s : limited s → limited (given s).2 ∧
  (given s).2 = s <| count := Z.min (max_count s) (count s + 1) |>.
Proof.
  intros [[Hc Hm] Hmax]. specialize (Hm ltac:(lia)). unfold given. rewrite (proj2 (Z.ltb_lt 0 _)) by lia. cbn [andb].
  destruct (Z.leb_spec (max_count s) (count s)); simpl.
  - split; [done|]. replace (_ `min` _) with (count s) by lia. by destruct s.
  - split; [|by rewrite Z.min_r by lia]. split; [split; simpl; lia|done].
Qed.

Lemma give_pair_ok a s : wf a → limited s → wf (give_pair (a, s)).1 ∧ limited (give_pair (a, s)).2.
Proof.
  intros Hwf Hs. unfold give_pair. simpl. destruct (_ =? _); split; try done.
  - by apply given_limited.
  - by apply unblock_one_eff.
Qed.

Lemma pace_step_ok n k a s : wf a → limited s → wf (pace_step n k (a, s)).1 ∧ limited (pace_step n k (a, s)).2.
Proof.
  intros Hwf Hs. destruct (tick_eff a Hwf) as [_ Hwf']. unfold pace_step.
  destruct (_ =? 0); [by apply give_pair_ok|done].
Qed.

(** A tick wakes sleepers; of those who sleep on it changes nothing but the
    time slice. *)
Lemma tick_blocked a x : wf a → x ∈ a_blocked (eff_tick a) → x ∈ a_blocked a ∧
  waits (eff_tick a) BLOCK_SEMAPHORE sem x = waits a BLOCK_SEMAPHORE sem x ∧ prio_of (eff_tick a) x = prio_of a x.
Proof.
  intros Hwf Hx. destruct (eff_tick_rest a Hwf) as (_ & _ & Eb). rewrite Eb, list_elem_of_filter in Hx.
  destruct Hx as [Hne Hx]. split; [done|]. destruct (proj1 (wf_blocked _ _ Hwf x) Hx) as (_ & t & Ht & _).
  destruct (eff_tick_task a x t Hwf Ht) as (t' & Ht' & Hb).
  assert (after_tick a x t = t) as E.
  { unfold after_tick. destruct (expires (advance a) x); [done|]. by rewrite andb_false_r. }
  rewrite E in Hb. unfold waits, prio_of, waits_for. rewrite Ht, Ht'.
  by rewrite (f_equal block_reason Hb : block_reason t' = block_reason t),
    (f_equal block_object Hb : block_object t' = block_object t), (but_slice_priority _ _ Hb).
Qed.

Definition nobody_waits a : Prop := ∀ x, x ∈ a_blocked a → waits a BLOCK_SEMAPHORE sem x = false.

Lemma nobody_waits_tick a : wf a → nobody_waits a → nobody_waits (eff_tick a).
Proof. intros Hwf Hno x Hx. destruct (tick_blocked a x Hwf Hx) as (Hx' & -> & _). by apply Hno. Qed.

Lemma nobody_best a : wf a → nobody_waits a → best_waiter a BLOCK_SEMAPHORE sem = NULL.
Proof.
  intros Hwf Hno. destruct (best_waiter_spec a BLOCK_SEMAPHORE sem Hwf) as [[? _]|(Hb & _ & Hw & _)]; [done|].
  by rewrite (Hno _ Hb) in Hw.
Qed.

Lemma div_succ k n : 0 < n → 0 ≤ k → (k + 1) / n = k / n + (if (k + 1) mod n =? 0 then 1 else 0).
Proof.
  intros Hn Hk. pose proof (Z.div_mod k n ltac:(lia)) as E. pose proof (Z.mod_pos_bound k n Hn) as Hr.
  rewrite mod_succ by done. destruct (Z.eqb_spec (k mod n) (n - 1)) as [El|El]; simpl.
  - symmetry. apply (Z.div_unique _ _ _ 0); [lia|]. rewrite El in E. lia.
  - rewrite (proj2 (Z.eqb_neq _ _)) by lia. symmetry. apply (Z.div_unique _ _ _ (k mod n + 1)); lia.
Qed.

(** With nobody waiting every period counts one token, up to the limit. *)
Lemma paced_counts n k a s : 0 < n → wf a → limited s → nobody_waits a →
  ∃ a', paced n k (a, s) = (a', s <| count := Z.min (max_count s) (count s + Z.of_nat k / n) |>) ∧
    wf a' ∧ nobody_waits a'.
Proof.
  intros Hn Hwf Hs Hno. induction k as [|k (a1 & E & Hwf1 & Hno1)].
  - exists a. split; [|done]. simpl. rewrite Zdiv_0_l, Z.add_0_r. destruct Hs as [[? ?] ?].
    rewrite Z.min_r by auto with lia. by destruct s.
  - cbn [paced]. rewrite E. unfold pace_step. cbn [fst snd]. destruct (tick_eff a1 Hwf1) as [_ Hwf2].
    pose proof (nobody_waits_tick a1 Hwf1 Hno1) as Hno2. exists (eff_tick a1).
    rewrite Nat2Z.inj_succ, <- Z.add_1_r, div_succ by lia. split; [|done].
    destruct (_ =? 0); [|by rewrite Z.add_0_r]. unfold give_pair. cbn [fst snd].
    rewrite (nobody_best _ Hwf2 Hno2). simpl.
    set (s1 := s <| count := _ |>). assert (limited s1) as Hs1.
    { destruct Hs as [[? ?] ?]. pose proof (Z.div_pos (Z.of_nat k) n ltac:(lia) Hn). split; [split; simpl; lia|done]. }
    destruct (given_limited s1 Hs1) as [_ ->]. unfold s1. simpl. f_equal.
    replace (_ `min` _) with (max_count s `min` (count s + (Z.of_nat k / n + 1))) by lia. done.
Qed.

(** ** The most urgent waiter *)

Section waiter.
Context (x : ptr) (t : task_tcb).
Context (Hst : state t = TASK_STATE_BLOCKED) (Hrs : block_reason t = BLOCK_SEMAPHORE) (Hob : block_object t = sem).

(** [x] is as [t] but for its time slice. *)
Definition task_like (u : task_tcb) a : Prop := ∃ u', a_tasks a !! x = Some u' ∧ but_slice u u'.

(** Whoever else waits is less urgent. *)
Definition ahead a : Prop := ∀ y, y ≠ x → y ∈ a_blocked a → waits a BLOCK_SEMAPHORE sem y = true →
  priority t < prio_of a y.

Lemma but_slice_ripe now u u' : but_slice u u' → ripe now u' ↔ ripe now u.
Proof using Type.
  intros Hb. unfold ripe.
  by rewrite (but_slice_state _ _ Hb), (f_equal wake_tick Hb : wake_tick u' = wake_tick u),
    (f_equal block_reason Hb : block_reason u' = block_reason u),
    (f_equal block_timeout Hb : block_timeout u' = block_timeout u).
Qed.

(** A tick at which its time does not come leaves the task as it is. *)
Lemma task_like_tick u a : wf a → task_like u a → ¬ ripe (u32 (a_tick a + 1)) u → task_like u (eff_tick a).
Proof using Type.
  intros Hwf (u' & Hu & Hb) Hr. destruct (eff_tick_task a x u' Hwf Hu) as (v & Hv & Hbv). exists v. split; [done|].
  rewrite (after_tick_ripe a x u' Hwf Hu), decide_False in Hbv by (by rewrite (but_slice_ripe _ _ _ Hb)).
  by etrans.
Qed.

Lemma ahead_tick a : wf a → ahead a → ahead (eff_tick a).
Proof using Type.
  intros Hwf Ha y Hy Hin Hw. destruct (tick_blocked a y Hwf Hin) as (Hin' & Ew & ->).
  apply Ha; [done..|]. by rewrite <- Ew.
Qed.

Lemma ahead_best a : wf a → task_like t a → ahead a → best_waiter a BLOCK_SEMAPHORE sem = x ∧ x ∈ a_blocked a.
Proof using Hst Hrs Hob.
  intros Hwf (t' & Ht & Hb) Ha.
  assert (x ≠ NULL) as Hx by (intros ->; by rewrite (wf_null _ _ Hwf) in Ht).
  assert (x ∈ a_blocked a) as Hin.
  { apply (wf_blocked _ _ Hwf). split; [done|]. exists t'. by rewrite (but_slice_state _ _ Hb). }
  assert (waits a BLOCK_SEMAPHORE sem x = true) as Hw.
  { apply (waits_spec a _ _ x t' Ht). rewrite <- Hrs, <- Hob.
    split; [apply (f_equal block_reason Hb)|apply (f_equal block_object Hb)]. }
  split; [|done]. destruct (best_waiter_spec a BLOCK_SEMAPHORE sem Hwf) as [[_ Hno]|(Hbl & _ & Hwb & Hmin)].
  - by rewrite (Hno x Hin) in Hw.
  - destruct (decide (best_waiter a BLOCK_SEMAPHORE sem = x)) as [|Hne]; [done|].
    specialize (Ha _ Hne Hbl Hwb). specialize (Hmin x Hin Hw). unfold prio_of in Hmin at 2.
    rewrite Ht, (but_slice_priority _ _ Hb) in Hmin. lia.
Qed.

(** The running task and its priority. *)
Definition same_running a a' : Prop := a_current_task a' = a_current_task a ∧
  prio_of a' (a_current_task a) = prio_of a (a_current_task a).

Lemma same_running_tick a : wf a → a_current_task a ≠ NULL → same_running a (eff_tick a).
Proof using Type.
  intros Hwf Hc. destruct (eff_tick_rest a Hwf) as (_ & Ec & _). split; [done|].
  destruct (wf_current _ _ Hwf) as [|[u Hu]]; [done|]. destruct (tick_priority a _ u Hwf Hu) as (u' & Hu' & E).
  unfold prio_of. by rewrite Hu, Hu', E.
Qed.

(** Before the timer fires, and its time not having come, the task waits. *)
Lemma pace_waits n k a s : wf a → task_like t a → ahead a → ¬ ripe (u32 (a_tick a + 1)) t → k mod n ≠ 0 →
  pace_step n k (a, s) = (eff_tick a, s) ∧ task_like t (eff_tick a) ∧ ahead (eff_tick a).
Proof using Type.
  intros Hwf Hl Ha Hr Hk. unfold pace_step. rewrite (proj2 (Z.eqb_neq _ _)) by done.
  split_and!; [done|by apply task_like_tick|by apply ahead_tick].
Qed.

(** When it fires the task is ready, the semaphore as it was, and a switch is
    due if the task is more urgent than the running one. *)
Lemma pace_wakes n a s : 0 < n → wf a → task_like t a → ahead a → ¬ ripe (u32 (a_tick a + 1)) t →
  ∃ a', pace_step n n (a, s) = (a', s) ∧ task_like (woken KERNEL_OK t) a' ∧
    (a_current_task a ≠ NULL → priority t < prio_of a (a_current_task a) → pendsv_pending (a_cpu a') = true).
Proof using Hst Hrs Hob.
  intros Hn Hwf Hl Ha Hr. unfold pace_step. rewrite Z_mod_same_full. cbn [Z.eqb fst snd].
  unfold give_pair. cbn [fst snd]. destruct (tick_eff a Hwf) as [_ Hwf2].
  pose proof (task_like_tick t a Hwf Hl Hr) as Hl2.
  destruct (ahead_best _ Hwf2 Hl2 (ahead_tick _ Hwf Ha)) as [Eb Hin].
  destruct Hl2 as (u & Hu & Hb). assert (x ≠ NULL) as Hx by (intros Ex; by rewrite Ex, (wf_null _ _ Hwf2) in Hu).
  rewrite Eb, (proj2 (Z.eqb_neq _ _)) by done. eexists. split; [done|].
  unfold eff_unblock_one. rewrite Eb, (proj2 (Z.eqb_neq _ _)) by done. split.
  - exists (woken KERNEL_OK u). rewrite eff_unblock_tasks, decide_True, Hu by done. split; [done|].
    unfold but_slice in *. apply (f_equal (woken KERNEL_OK)) in Hb. exact Hb.
  - intros Hc Hp. destruct (same_running_tick a Hwf Hc) as [Ec Ep].
    unfold eff_unblock. assert (higher (wake x KERNEL_OK (eff_tick a)) x = true) as ->; [|apply trigger_switch_pends].
    unfold higher. change (a_current_task (wake x KERNEL_OK (eff_tick a))) with (a_current_task (eff_tick a)).
    rewrite Ec, (proj2 (Z.eqb_neq _ _)) by done. cbn [negb andb]. apply Z.ltb_lt.
    assert (∀ y, prio_of (wake x KERNEL_OK (eff_tick a)) y = prio_of (eff_tick a) y) as Ew.
    { intros y. unfold prio_of. simpl. destruct (decide (x = y)) as [<-|]; [by rewrite lookup_alter_eq, Hu|].
      by rewrite lookup_alter_ne. }
    rewrite !Ew, Ep. unfold prio_of at 1. by rewrite Hu, (but_slice_priority _ _ Hb).
Qed.
End waiter.
End pace.

(** ** The interrupt handlers *)

Section board.
Context {A : Type} (sem give_fn : ptr) (other : ptr → ptr → M A ()) (g : ptr → ptr → A → A).
Notation V := (gmap Z semaphore_t * A)%type.
Notation board := (timer_state (sched * V)).

#[export] Program Instance world_lens : Lens (world sched semaphore_t) board := {|
  view b := mkWorld (fst (user b)) (fst (snd (user b)));
  over w b := mkTimerState (g_timer_list b) (timers b) (timer_cpu b) (kern w, (objs w, snd (snd (user b))));
|}.
Next Obligation. by intros []. Qed.
Next Obligation. by intros [??? [? []]]. Qed.
Next Obligation. done. Qed.

#[export] Program Instance data_lens : Lens A board := {|
  view b := snd (snd (user b));
  over v b := mkTimerState (g_timer_list b) (timers b) (timer_cpu b) (fst (user b), (fst (snd (user b)), v));
|}.
Next Obligation. done. Qed.
Next Obligation. by intros [??? [? []]]. Qed.
Next Obligation. done. Qed.

(** No handler more urgent than SysTick uses the semaphore. *)
Definition alone : others (world sched semaphore_t) := mkOthers (mret ()) (mret ()).

(** The timer callbacks of the application: [give_fn] gives the semaphore, the
    other functions work on the application's own data. *)
Definition callbacks (f arg : ptr) : M board () :=
  if f =? give_fn then zoom (sem_give_isr alone sem) ;; mret () else zoom (other f arg).

(** [k] tick interrupts, with the default tick hook. *)
Fixpoint interrupts (k : nat) : M board () :=
  match k with O => mret () | Datatypes.S k => interrupts k ;; SysTick_Handler callbacks kernel_tick_hook end.

(** The scheduler and the semaphores. *)
Definition core (u : sched * V) : sched * gmap Z semaphore_t := (u.1, u.2.1).
Definition give_core (c : sched * gmap Z semaphore_t) : sched * gmap Z semaphore_t :=
  let w := final (sem_give_isr alone sem) (mkWorld c.1 c.2) in (kern w, objs w).
Definition effect (f arg : ptr) (u : sched * V) : sched * V :=
  if f =? give_fn then ((give_core (core u)).1, ((give_core (core u)).2, u.2.2))
  else (u.1, (u.2.1, g f arg u.2.2)).

Definition pair_of (c : sched * gmap Z semaphore_t) (x : asched * semaphore_t) : Prop :=
  stands_for c.1 x.1 ∧ c.2 !! sem = Some x.2 ∧ limited x.2.

Context (Hsem : sem ≠ NULL) (Hother : ∀ f y v, other f y v = Ret () (g f y v)).

Lemma give_core_pair c x : pair_of c x →
  ∃ r, sem_give_isr alone sem (mkWorld c.1 c.2) = Ret r (mkWorld (give_core c).1 (give_core c).2) ∧
    pair_of (give_core c) (give_pair sem x).
Proof using Hsem.
  destruct c as [k o], x as [a s]. intros ([HR Hwf] & Hs & Hl). cbn [fst snd] in *.
  pose proof Hl as [Hok Hmax].
  pose proof (sem_give_isr_runs (K := sched) alone sem s a o eq_refl Hwf Hsem Hs Hok ltac:(lia) ltac:(lia)) as Hrun.
  destruct (eff_give sem s a o) as [[r a'] o'] eqn:Eg. destruct (Hrun (mkWorld k o) HR eq_refl) as (w' & E & HR' & Ho').
  exists r. unfold give_core, final. cbn [fst snd]. rewrite E. split; [by destruct w'|].
  unfold eff_give in Eg. destruct (give_pair_ok sem a s Hwf Hl) as [Hwf' Hl'].
  assert (pair_of (kern w', objs w') (a', (give_pair sem (a, s)).2) ∧ a' = (give_pair sem (a, s)).1) as [Hp ->]; [|by destruct (give_pair sem (a, s))].
  unfold give_pair in *. cbn [fst snd] in *. rewrite Ho'.
  destruct (best_waiter a BLOCK_SEMAPHORE sem =? NULL); injection Eg as <- <- <-; split; try done.
  split; [done|]. split; [apply lookup_insert_eq|done].
Qed.

Lemma callbacks_neutral : neutral_on (λ u, ∃ x, pair_of (core u) x) callbacks effect.
Proof using Hsem Hother.
  intros f arg b [x Hx]. unfold callbacks, effect. destruct (f =? give_fn).
  - destruct (give_core_pair _ _ Hx) as (r & E & Hx'). split; [|by exists (give_pair sem x)].
    by rewrite (bind_ret _ _ _ _ _ (zoom_ret (L := world_lens) _ _ _ _ E)).
  - split; [|by exists x]. by rewrite (zoom_ret (L := data_lens) _ _ _ _ (Hother _ _ _)).
Qed.

(** The timer [p] is the only running timer that gives the semaphore. *)
Definition only_giver (b : board) (l : list ptr) (p : ptr) : Prop :=
  (∃ t, timers b !! p = Some t ∧ timer_callback t = give_fn) ∧
  ∀ q t, q ∈ l → q ≠ p → timers b !! q = Some t → timer_callback t ≠ give_fn.

Lemma core_other h q u : at_timer h timer_callback NULL q ≠ give_fn ∨ at_timer h fires false q = false →
  core (at_timer h (call effect) (λ u, u) q u) = core u.
Proof using Type.
  unfold at_timer, call, effect. destruct (h !! q) as [t|]; [|done]. intros Hq. destruct (fires t); [|done].
  destruct Hq as [Hq|]; [|done]. by rewrite (proj2 (Z.eqb_neq _ _) Hq).
Qed.

(** Of all callbacks of a tick only [p]'s matters to the kernel. *)
Lemma calls_core (b : board) l p u : only_giver b l p → NoDup l →
  core (calls effect (timers b) l u) =
    if bool_decide (p ∈ l) && at_timer (timers b) fires false p then give_core (core u) else core u.
Proof using Type.
  intros [(t & Ht & Hcb) Honly] Hnd. revert u. induction l as [|q l IH]; intros u; [done|].
  apply NoDup_cons in Hnd as [Hq Hnd]. unfold calls. simpl fold_left.
  assert (∀ v, core (calls effect (timers b) l v) =
    if bool_decide (p ∈ l) && at_timer (timers b) fires false p then give_core (core v) else core v) as IH'.
  { intros v. apply IH; [|done]. intros y u' Hy. apply Honly. by right. }
  fold (calls effect (timers b) l (at_timer (timers b) (call effect) (λ u, u) q u)). rewrite IH'.
  destruct (decide (q = p)) as [->|Hqp].
  - rewrite (bool_decide_false (p ∈ l)), (bool_decide_true (p ∈ p :: l)) by (done || by left). cbn [andb].
    unfold at_timer, call, effect. rewrite Ht. destruct (fires t); [|done]. by rewrite Hcb, Z.eqb_refl.
  - rewrite core_other.
    + rewrite (bool_decide_ext (p ∈ q :: l) (p ∈ l)) by (rewrite elem_of_cons; naive_solver). done.
    + unfold at_timer. destruct (timers b !! q) as [u'|] eqn:Eu; [left|by right].
      apply (Honly q); [by left|done..].
Qed.

(** The state after [k] interrupts: scheduler and semaphore are as [x] says, and
    the timer [p] of period [n] is on schedule. *)
Definition in_step (p : ptr) (n k : Z) (x : asched * semaphore_t) (b : board) : Prop :=
  pair_of (core (user b)) x ∧ ∃ l t, timers_ok b l ∧ only_giver b l p ∧ timers b !! p = Some t ∧
    on_schedule false n k l p t.

Lemma only_giver_tick (b b' : board) l p : timers_ok b l → only_giver b l p →
  (∀ y u, timers b !! y = Some u → ∃ u', timers b' !! y = Some u' ∧
    same_but_next (if decide (y ∈ l) then ticked u else u) u') →
  only_giver b' (surviving (timers b) l) p.
Proof using Type.
  intros Hok [(t & Ht & Hcb) Honly] Hs.
  assert (∀ y u u', same_but_next (if decide (y ∈ l) then ticked u else u) u' → timer_callback u' = timer_callback u) as Hkeep.
  { intros y u u' [(_ & _ & -> & _) _]. case_decide; [|done]. unfold ticked. by destruct (fires u), (periodic u =? 0). }
  split.
  - destruct (Hs p t Ht) as (t' & Ht' & Hst). exists t'. split; [done|]. by rewrite (Hkeep _ _ _ Hst).
  - intros q v [_ Hq]%list_elem_of_filter Hqp Hv. destruct (chain_lookup _ _ _ (tm_chain _ _ Hok) Hq) as [u Hu].
    destruct (Hs q u Hu) as (u' & Hu' & Hsu). assert (u' = v) as -> by congruence. rewrite (Hkeep _ _ _ Hsu).
    by apply (Honly q).
Qed.

Lemma handler_in_step p n k x b : 0 < n → 0 ≤ k → in_step p n k x b →
  ∃ b', SysTick_Handler callbacks kernel_tick_hook b = Ret () b' ∧ in_step p n (k + 1) (pace_step sem n (k + 1) x) b'.
Proof using Hsem Hother.
  intros Hn Hk ((Hs & Ho & Hl) & l & t & Hok & Hg & Ht & Hp). destruct x as [a s]. cbn [fst snd] in *.
  destruct (tick_stands _ _ Hs) as (s1 & E1 & Hs1).
  set (b1 := mkTimerState (g_timer_list b) (timers b) (timer_cpu b) (s1, snd (user b))).
  assert (pair_of (core (user b1)) (eff_tick a, s)) as Hp1 by (by split_and!).
  assert (timers_ok b1 l) as Hok1 by (destruct Hok; by split).
  destruct (timer_tick_ret _ callbacks effect b1 l callbacks_neutral (ex_intro _ _ Hp1) Hok1)
    as (b2 & E2 & Hok2 & Hu2 & _ & Ht2).
  exists b2. split.
  { unfold SysTick_Handler. rewrite (bind_ret _ _ _ () b1) by (by apply (zoom_ret (L := sched_lens))).
    cbn [CONFIG_SW_TIMERS when]. run E2. by apply (zoom_ret_same (L := app_lens)). }
  destruct (Ht2 p t Ht) as (t2 & Htp & Hst). split.
  - rewrite Hu2, (calls_core b1 l p) by (done || apply (tm_nodup _ _ Hok)).
    destruct Hp as (_ & _ & Hin & Hrem). rewrite bool_decide_true by done. cbn [andb].
    unfold at_timer. change (timers b1) with (timers b). rewrite Ht. unfold fires, pace_step. rewrite Hrem, mod_succ by done.
    pose proof (Z.mod_pos_bound k n Hn).
    destruct (Z.eqb_spec (k mod n) (n - 1)), (Z.eqb_spec (n - k mod n) 1); try lia; cbn [Z.eqb].
    + by destruct (give_core_pair _ _ Hp1) as (r & _ & ?).
    + by rewrite (proj2 (Z.eqb_neq _ _)) by lia.
  - exists (surviving (timers b1) l), t2. split_and!; [done|by eapply only_giver_tick|done|].
    eapply on_schedule_tick; [done|done|exact Hp|exact Hst|].
    unfold surviving, at_timer. rewrite list_elem_of_filter. change (timers b1) with (timers b). rewrite Ht. tauto.
Qed.

Lemma interrupts_in_step p n k x b : 0 < n → in_step p n 0 x b →
  ∃ b', interrupts k b = Ret () b' ∧ in_step p n (Z.of_nat k) (paced sem n k x) b'.
Proof using Hsem Hother.
  intros Hn Hb. induction k as [|k (b1 & E1 & H1)]; [by exists b|].
  destruct (handler_in_step p n (Z.of_nat k) _ b1 Hn ltac:(lia) H1) as (b2 & E2 & H2).
  exists b2. split; [simpl; by run E1|]. cbn [paced].
  by replace (Z.of_nat (Datatypes.S k)) with (Z.of_nat k + 1) by lia.
Qed.

(** ** Properties *)

(** The periodic timer [p], just started, gives the semaphore every [n] ticks. *)
Record gives_every (p : ptr) (n : Z) (b : board) (l : list ptr) : Prop := {
  ge_ok : timers_ok b l;
  ge_running : p ∈ l;
  ge_only : only_giver b l p;
  ge_timer : ∃ t, timers b !! p = Some t ∧ (periodic t =? 0) = false ∧ period_ticks t = n ∧ remaining_ticks t = n;
}.

Lemma gives_in_step p n b l x : gives_every p n b l → pair_of (core (user b)) x →
  0 < n ∧ in_step p n 0 x b.
Proof using Type.
  intros [Hok Hp Hg (t & Ht & He & En & Er)] Hx. destruct (tm_running _ _ Hok p t Ht Hp) as [Hn _]. rewrite Er in Hn.
  split; [done|]. split; [done|]. exists l, t. split_and!; [done..|]. unfold on_schedule.
  rewrite Z.mod_0_l, Z.sub_0_r by lia. done.
Qed.
End board.

Section properties.
Context {A : Type} (sem give_fn : ptr) (other : ptr → ptr → M A ()) (g : ptr → ptr → A → A).
Context (Hsem : sem ≠ NULL) (Hother : ∀ f y v, other f y v = Ret () (g f y v)).
Notation board := (timer_state (sched * (gmap Z semaphore_t * A)%type)).
Notation interrupts := (interrupts sem give_fn other).

Definition kernel_of (b : board) : sched := (user b).1.
Definition sem_at (b : board) : option semaphore_t := (user b).2.1 !! sem.

(** The task waits for the semaphore. *)
Definition waits_here (t : task_tcb) : Prop :=
  state t = TASK_STATE_BLOCKED ∧ block_reason t = BLOCK_SEMAPHORE ∧ block_object t = sem.

#[export] Instance waits_here_dec t : Decision (waits_here t).
Proof using Type. unfold waits_here. apply _. Defined.

Lemma waits_here_inv k a y : stands_for k a → y ∈ a_blocked a → waits a BLOCK_SEMAPHORE sem y = true →
  ∃ v, tcbs k !! y = Some v ∧ waits_here v ∧ prio_of a y = priority v.
Proof using Type.
  intros Hs Hy Hw. destruct (proj1 (wf_blocked _ _ (proj2 Hs) y) Hy) as (_ & v & Hv & Hst).
  destruct (same_task_inv _ _ _ _ Hs Hv) as (u & Hu & ->). exists u. split; [done|].
  apply (waits_spec a _ _ y _ Hv) in Hw. unfold prio_of. rewrite Hv. done.
Qed.

(** What tasks and other handlers may do between two ticks: anything that keeps
    the scheduler consistent and leaves the count of ticks, the semaphore, the
    timers and the waiting task [x] alone, whoever waits for the semaphore with
    [x] being less urgent. *)
Record others_do (x : ptr) (b b' : board) : Prop := {
  od_kernel : ∃ a, stands_for (kernel_of b') a;
  od_tick : g_tick_count (kernel_of b') = g_tick_count (kernel_of b);
  od_sem : sem_at b' = sem_at b;
  od_timers : timers b' = timers b ∧ g_timer_list b' = g_timer_list b;
  od_task t : tcbs (kernel_of b) !! x = Some t →
    ∃ t', tcbs (kernel_of b') !! x = Some t' ∧ but_slice (unlink t) (unlink t') ∧
      ∀ y v, y ≠ x → tcbs (kernel_of b') !! y = Some v → waits_here v → priority t' < priority v;
}.

(** A history of [k] tick interrupts and what the others do in between. *)
Inductive history (x : ptr) : nat → board → board → Prop :=
| history_start b : history x 0 b b
| history_tick k b b1 b2 : history x k b b1 →
    SysTick_Handler (callbacks sem give_fn other) kernel_tick_hook b1 = Ret () b2 →
    history x (Datatypes.S k) b b2
| history_others k b b1 b2 : history x k b b1 → others_do x b1 b2 → history x k b b2.

(** [k] ticks after the start, at tick count [now], the task waits as [u] does. *)
Definition still_waits (p : ptr) (n : Z) (x : ptr) (u : task_tcb) (s : semaphore_t) (now : Z) (k : nat) (b : board) : Prop :=
  ∃ a, in_step sem give_fn p n (Z.of_nat k) (a, s) b ∧ task_like x (unlink u) a ∧ ahead sem x (unlink u) a ∧
    g_tick_count (kernel_of b) = u32 (now + Z.of_nat k).

Lemma others_keep_waiting p n x u s now k b b' : still_waits p n x u s now k b → others_do x b b' →
  still_waits p n x u s now k b'.
Proof using Type.
  intros (a & ((Hs & Hsm & Hl) & l & t & Hok & Hg & Ht & Hp) & Hlike & Ha & Hnow) [(a' & Hs') Etick Esem [Etm Elist] Htask].
  destruct Hlike as (v & Hv & Hb). destruct (same_task_inv _ _ _ _ Hs Hv) as (t1 & Ht1 & ->).
  destruct (Htask t1 Ht1) as (t2 & Ht2 & Hb2 & Hahead). exists a'. split_and!.
  - split; [split_and!; [done|by etrans|done]|]. exists l, t. unfold only_giver in *. rewrite Etm.
    split; [destruct Hok; by split; rewrite ?Etm, ?Elist|done].
  - exists (unlink t2). split; [by apply (same_task (kernel_of b'))|by etrans].
  - intros y Hy Hyb Hyw. destruct (waits_here_inv _ a' y Hs' Hyb Hyw) as (w & Hw & Hww & ->).
    specialize (Hahead y w Hy Hw Hww). pose proof (but_slice_priority _ _ Hb) as E1.
    pose proof (but_slice_priority _ _ Hb2) as E2. simpl in *. lia.
  - congruence.
Qed.

Section waiting.
Context (p : ptr) (n : Z) (x : ptr) (u : task_tcb) (s : semaphore_t) (now : Z).
Context (Hn : 0 < n) (Hu : waits_here u) (Hlate : ∀ i, 0 < i ≤ n → ¬ ripe (u32 (now + i)) u).

(** The next tick. *)
Lemma tick_while_waiting k b : still_waits p n x u s now k b → Z.of_nat k < n →
  ∃ b', SysTick_Handler (callbacks sem give_fn other) kernel_tick_hook b = Ret () b' ∧
    if Z.of_nat k + 1 =? n then
      (∃ u', tcbs (kernel_of b') !! x = Some u' ∧ but_slice (unlink (woken KERNEL_OK u)) (unlink u')) ∧
      sem_at b' = Some s ∧
      (∀ v, tcbs (kernel_of b) !! current_task (kernel_of b) = Some v → priority u < priority v →
        pendsv_pending (cpu (kernel_of b')) = true)
    else still_waits p n x u s now (Datatypes.S k) b'.
Proof using Hsem Hother Hn Hu Hlate.
  intros (a & Hin & Hlike & Ha & Hnow) Hk. destruct Hu as (Hst & Hrs & Hob).
  destruct (handler_in_step sem give_fn other g Hsem Hother p n (Z.of_nat k) _ b Hn ltac:(lia) Hin) as (b' & E & Hin').
  exists b'. split; [exact E|]. pose proof Hin as ((Hs & _) & _). cbn [fst] in Hs.
  change (core (user b)).1 with (kernel_of b) in Hs. pose proof (abs_tick _ _ (proj1 Hs)) as Etick.
  assert (u32 (a_tick a + 1) = u32 (now + (Z.of_nat k + 1))) as Enext.
  { rewrite <- Etick, Hnow. unfold u32. rewrite Zplus_mod_idemp_l. f_equal. lia. }
  assert (¬ ripe (u32 (a_tick a + 1)) (unlink u)) as Hr by (rewrite Enext; apply Hlate; lia).
  destruct (Z.eqb_spec (Z.of_nat k + 1) n) as [En|Hne].
  - rewrite En in Hin'. destruct (pace_wakes sem x (unlink u) Hst Hrs Hob n a s Hn (proj2 Hs) Hlike Ha Hr)
      as (a' & Ea & (v & Hv & Hb) & Hpend).
    destruct Hin' as ((Hs' & Hsm' & _) & _). rewrite Ea in Hs', Hsm'. cbn [fst snd] in Hs', Hsm'.
    destruct (same_task_inv _ _ _ _ Hs' Hv) as (u' & Hu' & ->). split_and!.
    + by exists u'.
    + exact Hsm'.
    + intros v Hv' Hp'. change (core (user b')).1 with (kernel_of b') in Hs'. rewrite (abs_cpu _ _ (proj1 Hs')).
      rewrite (stands_for_current _ _ Hs) in Hv'. pose proof (same_task _ _ _ _ Hs Hv') as Hva. apply Hpend.
      * intros E0. by rewrite E0, (wf_null _ _ (proj2 Hs)) in Hva.
      * unfold prio_of. by rewrite Hva.
  - destruct (pace_waits sem x (unlink u) n (Z.of_nat k + 1) a s (proj2 Hs) Hlike Ha Hr) as (Ea & Hl' & Ha').
    { rewrite Z.mod_small by lia. lia. }
    rewrite Ea in Hin'. exists (eff_tick a). replace (Z.of_nat (Datatypes.S k)) with (Z.of_nat k + 1) by lia.
    split_and!; [done..|]. destruct Hin' as ((Hs' & _) & _). cbn [fst] in Hs'.
    change (core (user b')).1 with (kernel_of b') in Hs'. rewrite (abs_tick _ _ (proj1 Hs')), <- Enext.
    by destruct (eff_tick_rest a (proj2 Hs)) as [-> _].
Qed.

Lemma history_waits k b b' : still_waits p n x u s now 0 b → history x k b b' → Z.of_nat k < n →
  still_waits p n x u s now k b'.
Proof using Hsem Hother Hn Hu Hlate.
  intros Hb Hh. induction Hh as [b|k b b1 b2 _ IH E|k b b1 b2 _ IH Hod]; intros Hk; [done| |].
  - destruct (tick_while_waiting k b1 (IH Hb ltac:(lia)) ltac:(lia)) as (b2' & E' & Hb2).
    rewrite E in E'. injection E' as <-. by rewrite (proj2 (Z.eqb_neq _ _)) in Hb2 by lia.
  - eapply others_keep_waiting; [by apply IH|done].
Qed.
End waiting.

(** C32: A periodic timer wakes the waiting task on time, and only wakes it.  The
    timer gives the semaphore every [n] ticks; [x] is the most urgent task
    waiting for it, and no timeout of its own comes first.  Whatever the others
    do between the ticks, short of using the semaphore, the timers and [x],
    [x] sleeps on at all ticks before the [n]-th; the [n]-th makes it ready with
    [KERNEL_OK] and asks for a switch if it is more urgent than the task
    interrupted.  No token is counted for it, contrary to the comment on
    [sem_give]: the semaphore is as before, and what the woken [sem_take] finds
    is what was there when it went to sleep ([sem_give_wakeup_lost]). *)
Theorem timer_wakes_waiter p n b l a s x u k b1 :
  gives_every give_fn p n b l → stands_for (kernel_of b) a → sem_at b = Some s → limited s →
  tcbs (kernel_of b) !! x = Some u → waits_here u →
  (∀ y v, y ≠ x → tcbs (kernel_of b) !! y = Some v → waits_here v → priority u < priority v) →
  (∀ i, 0 < i ≤ n → ¬ ripe (u32 (g_tick_count (kernel_of b) + i)) u) →
  history x k b b1 → Z.of_nat k < n →
  (∃ u1, tcbs (kernel_of b1) !! x = Some u1 ∧ but_slice (unlink u) (unlink u1)) ∧ sem_at b1 = Some s ∧
  ∃ b2 u2, SysTick_Handler (callbacks sem give_fn other) kernel_tick_hook b1 = Ret () b2 ∧
    tcbs (kernel_of b2) !! x = Some u2 ∧ sem_at b2 = Some s ∧
    but_slice (unlink (if Z.of_nat k + 1 =? n then woken KERNEL_OK u else u)) (unlink u2) ∧
    (∀ v, Z.of_nat k + 1 = n → tcbs (kernel_of b1) !! current_task (kernel_of b1) = Some v → priority u < priority v →
      pendsv_pending (cpu (kernel_of b2)) = true).
Proof using Hsem Hother.
  intros Hg Hs Hsm Hlim Hu Hw Hmost Hlate Hh Hk.
  destruct (gives_in_step sem give_fn p n b l (a, s) Hg) as [Hn Hin]; [by split_and!|].
  assert (still_waits p n x u s (g_tick_count (kernel_of b)) 0 b) as H0.
  { exists a. split; [exact Hin|]. split; [exists (unlink u); split; [by apply (same_task (kernel_of b))|done]|].
    split.
    - intros y Hy Hyb Hyw. destruct (waits_here_inv _ a y Hs Hyb Hyw) as (v & Hv & Hvw & ->). by apply (Hmost y v).
    - rewrite Z.add_0_r, (abs_tick _ _ (proj1 Hs)). symmetry. apply u32_small, (wf_tick _ _ (proj2 Hs)). }
  pose proof (history_waits p n x u s _ Hn Hw Hlate k b b1 H0 Hh Hk) as H1.
  assert (∀ k b', still_waits p n x u s (g_tick_count (kernel_of b)) k b' →
    (∃ u1, tcbs (kernel_of b') !! x = Some u1 ∧ but_slice (unlink u) (unlink u1)) ∧ sem_at b' = Some s) as Hout.
  { intros k' b' (a' & ((Hs' & Hsm' & _) & _) & (v & Hv & Hb) & _).
    destruct (same_task_inv _ _ _ _ Hs' Hv) as (u1 & Hu1 & ->). split; [by exists u1|exact Hsm']. }
  destruct (Hout k b1 H1) as [Hu1 Hs1]. split_and!; [done..|].
  destruct (tick_while_waiting p n x u s _ Hn Hw Hlate k b1 H1 Hk) as (b2 & E & H2).
  destruct (Z.eqb_spec (Z.of_nat k + 1) n) as [En|Hne].
  - destruct H2 as ((u2 & Hu2 & Hb2) & Hs2 & Hpend). exists b2, u2. split_and!; try done. intros v _. apply Hpend.
  - destruct (Hout _ b2 H2) as [(u2 & Hu2 & Hb2) Hs2]. exists b2, u2. split_and!; try done.
Qed.

(** C33: With nobody waiting a periodic timer counts: [k] ticks add [k / n] tokens,
    up to the limit of the semaphore, and none is lost or made otherwise. *)
Theorem timer_counts_tokens p n b l a s k :
  gives_every give_fn p n b l → stands_for (kernel_of b) a → sem_at b = Some s → limited s →
  (∀ y v, tcbs (kernel_of b) !! y = Some v → ¬ waits_here v) →
  ∃ b', interrupts k b = Ret () b' ∧
    sem_at b' = Some (s <| count := Z.min (max_count s) (count s + Z.of_nat k / n) |>).
Proof using Hsem Hother.
  intros Hg Hs Hsm Hlim Hno.
  destruct (gives_in_step sem give_fn p n b l (a, s) Hg) as [Hn Hin]; [by split_and!|].
  destruct (interrupts_in_step sem give_fn other g Hsem Hother p n k _ b Hn Hin) as (b' & E & (_ & Hsm' & _) & _).
  exists b'. split; [done|]. change (sem_at b' = Some (paced sem n k (a, s)).2) in Hsm'. rewrite Hsm'.
  destruct (paced_counts sem n k a s Hn (proj2 Hs) Hlim) as (a' & -> & _); [|done].
  intros y Hy. destruct (waits a BLOCK_SEMAPHORE sem y) eqn:Hw; [|done].
  destruct (waits_here_inv _ a y Hs Hy Hw) as (v & Hv & Hvw & _). by destruct (Hno y v).
Qed.
End properties.

(** ** The theorems on an example *)

(** [TA] gives [OBJ] every three ticks, [TB] logs every two ticks. *)
Definition GIVE : ptr := 600.
Definition logs (f arg : ptr) : M (list (ptr * ptr)) () := modify (log_call f arg).
Definition example_pulse (k : sched) : timer_state (sched * (gmap Z semaphore_t * list (ptr * ptr))%type) :=
  mkTimerState TA {[TA := mkTimer 3 3 GIVE 0 1 1 TB; TB := mkTimer 2 2 FN 7 1 1 NULL]} cpu_reset
    (k, ({[OBJ := mkSemaphore 0 3 NULL NULL]}, [])).

Lemma example_pulse_lookup k y t : timers (example_pulse k) !! y = Some t →
  y = TA ∧ t = mkTimer 3 3 GIVE 0 1 1 TB ∨ y = TB ∧ t = mkTimer 2 2 FN 7 1 1 NULL.
Proof. simpl. rewrite lookup_insert_Some, lookup_singleton_Some. naive_solver. Qed.

Lemma example_gives k : gives_every GIVE TA 3 (example_pulse k) [TA; TB].
Proof.
  split.
  - split; try done.
    + repeat split; eexists; (split; [reflexivity|done]).
    + apply (bool_decide_unpack _). by vm_compute.
    + intros y t [[-> ->]|[-> ->]]%example_pulse_lookup; left; (split; [done|set_solver]).
    + intros y t [[-> ->]|[-> ->]]%example_pulse_lookup Hy; destruct Hy; set_solver.
    + intros y t [[-> ->]|[-> ->]]%example_pulse_lookup _; simpl; lia.
  - by left.
  - split; [by eexists|]. intros q t _ Hq [[-> ->]|[-> ->]]%example_pulse_lookup; done.
  - by eexists.
Qed.

Lemma example_limited : limited (mkSemaphore 0 3 NULL NULL).
Proof. split; [split|]; simpl; unfold INT32_MAX; lia. Qed.

(** [HIGH] waits for [OBJ] for up to five ticks while [LOW] runs.  After the
    second tick [LOW] yields, and the switch is served. *)
Definition example_handler : M (timer_state (sched * (gmap Z semaphore_t * list (ptr * ptr))%type)) () :=
  SysTick_Handler (callbacks OBJ GIVE logs) kernel_tick_hook.
Definition pulse_b0 := example_pulse (example_blocked BLOCK_SEMAPHORE).
Definition pulse_b2 := final (example_handler ;; example_handler) pulse_b0.
Definition pulse_b3 := final (zoom (S := sched) (scheduler_yield ;; switch_context)) pulse_b2.

Lemma pulse_yield : others_do OBJ HIGH pulse_b2 pulse_b3.
Proof.
  split.
  - exists (abstraction (ready_lists [(3%nat, [LOW]); (31%nat, [IDLE])]) [HIGH] (kernel_of pulse_b3)).
    split; [apply abstracts_checked|apply wf_checked]; apply (bool_decide_unpack _); vm_compute; exact I.
  - vm_compute. reflexivity.
  - vm_compute. reflexivity.
  - vm_compute. split; reflexivity.
  - intros t Ht. destruct (tcbs (kernel_of pulse_b3) !! HIGH) as [t'|] eqn:Ht'; [|vm_compute in Ht'; discriminate].
    exists t'. split; [done|]. revert Ht Ht'. vm_compute. intros [= <-] [= <-]. split; [reflexivity|].
    intros y v Hy Hv. revert Hy.
    apply (map_Forall_lookup_1 (λ y v, y ≠ HIGH → waits_here OBJ v → 1 < priority v) (tcbs (kernel_of pulse_b3))); [|exact Hv].
    clear. apply (bool_decide_unpack _). vm_compute. exact I.
Qed.

Lemma pulse_history : history OBJ GIVE logs HIGH 2 pulse_b0 pulse_b3.
Proof.
  eapply history_others; [|exact pulse_yield].
  apply (history_tick _ _ _ _ _ _ (final example_handler pulse_b0)); [|vm_compute; reflexivity].
  apply (history_tick _ _ _ _ _ _ pulse_b0); [apply history_start|vm_compute; reflexivity].
Qed.

(** The third tick wakes [HIGH] and asks for a switch. *)
Lemma timer_wakes_waiter_witness : ∃ b2 u2, example_handler pulse_b3 = Ret () b2 ∧
  tcbs (kernel_of b2) !! HIGH = Some u2 ∧ state u2 = TASK_STATE_READY ∧ block_result u2 = KERNEL_OK ∧
  count <$> sem_at OBJ b2 = Some 0 ∧ pendsv_pending (cpu (kernel_of b2)) = true.
Proof.
  destruct (tcbs (kernel_of pulse_b0) !! HIGH) as [u|] eqn:Hu; [|vm_compute in Hu; discriminate].
  assert (priority u = 1 ∧ wake_tick u = 5 ∧ waits_here OBJ u) as (Hp & Hw & Hh).
  { revert Hu. vm_compute. intros [= <-]. repeat split. }
  destruct (timer_wakes_waiter OBJ GIVE logs log_call ltac:(done) (λ _ _ _, eq_refl) TA 3 pulse_b0 [TA; TB]
    (example_blocked_abs BLOCK_SEMAPHORE) (mkSemaphore 0 3 NULL NULL) HIGH u 2 pulse_b3)
    as (_ & _ & b2 & u2 & E & Hu2 & Hs2 & Hb & Hpend).
  - apply example_gives.
  - split; [apply example_blocked_rep|apply example_blocked_wf].
  - reflexivity.
  - apply example_limited.
  - exact Hu.
  - exact Hh.
  - intros y v Hy Hv. rewrite Hp. revert Hy.
    apply (map_Forall_lookup_1 (λ y v, y ≠ HIGH → waits_here OBJ v → 1 < priority v) (tcbs (kernel_of pulse_b0))); [|exact Hv].
    clear. apply (bool_decide_unpack _). vm_compute. exact I.
  - intros i Hi (_ & Hle & _). rewrite Hw in Hle.
    assert (g_tick_count (kernel_of pulse_b0) = 0) as E0 by (vm_compute; reflexivity). rewrite E0, Z.add_0_l, u32_small in Hle; lia.
  - apply pulse_history.
  - lia.
  - exists b2, u2. split; [exact E|]. split; [exact Hu2|]. cbn [Z.ltb Z.of_nat Z.eqb Z.add] in Hb.
    split; [exact (f_equal state Hb)|]. split; [exact (f_equal block_result Hb)|]. split; [by rewrite Hs2|].
    destruct (tcbs (kernel_of pulse_b3) !! LOW) as [v|] eqn:Hv; [|vm_compute in Hv; discriminate].
    apply (Hpend v); [reflexivity|exact Hv|]. rewrite Hp. revert Hv. vm_compute. by intros [= <-].
Defined.

(** Seven ticks, two tokens. *)
Lemma timer_counts_tokens_witness : ∃ b', interrupts OBJ GIVE logs 7 (example_pulse example_boot) = Ret () b' ∧
  count <$> sem_at OBJ b' = Some 2.
Proof.
  destruct (timer_counts_tokens OBJ GIVE logs log_call ltac:(done) (λ _ _ _, eq_refl) TA 3 (example_pulse example_boot)
    [TA; TB] example_boot_abs (mkSemaphore 0 3 NULL NULL) 7) as (b' & E & Hs).
  - apply example_gives.
  - split; [apply example_boot_rep|apply example_boot_wf].
  - reflexivity.
  - apply example_limited.
  - intros y v Hv. revert y v Hv.
    change (map_Forall (λ _ v, ¬ waits_here OBJ v) (tcbs example_boot)). apply (bool_decide_unpack _). vm_compute. exact I.
  - exists b'. split; [exact E|]. rewrite Hs. reflexivity.
Defined.
