(* ===== verification/Kernel.v ===== *)
(** * The kernel

    [kernel/kernel.c]: the pools of TCBs and stacks, the task management
    interface, the kernel's life cycle and the system-call dispatcher.  The
    addresses of the statically allocated objects are chosen by the linker and
    the strings live in read-only memory: both are parameters.  [switch] stands
    for the other tasks, as in [Sync.v]. *)
From S2P Require Import Prelude Config Task Critical Bitmap TcbList Scheduler SchedSpec.
From S2P Require Import SchedRefine SchedInv SchedEffect SchedIface Sync SchedProps.

Inductive kernel_state_t : Set :=
| KERNEL_STATE_UNINIT
| KERNEL_STATE_INIT
| KERNEL_STATE_RUNNING
| KERNEL_STATE_STOPPED.

#[export] Instance kernel_state_eq_dec : EqDecision kernel_state_t.
Proof. solve_decision. Defined.

(** ** State

    The variables of [kernel.c], the scheduler, the words of RAM the kernel
    writes outside TCBs (the stacks) and the registers it programs. *)
Record kernel : Type := mkKernel {
  k_sched : sched;
  g_kernel_state : kernel_state_t;
  g_task_slot_used : list Z;
  g_stack_slot_used : list Z;
  g_next_task_id : Z;
  ram : gmap Z Z;
  scb_shpr3 : Z;
  systick_rvr : Z;
  systick_cvr : Z;
  systick_csr : Z;
  SystemCoreClock : Z;
}.

Definition eta_kernel (k : kernel) : kernel :=
  mkKernel (k_sched k) (g_kernel_state k) (g_task_slot_used k) (g_stack_slot_used k) (g_next_task_id k)
    (ram k) (scb_shpr3 k) (systick_rvr k) (systick_cvr k) (systick_csr k) (SystemCoreClock k).
#[export] Instance set_k_sched : Setter k_sched := ltac:(derive_setter eta_kernel k_sched).
#[export] Instance set_g_kernel_state : Setter g_kernel_state := ltac:(derive_setter eta_kernel g_kernel_state).
#[export] Instance set_g_task_slot_used : Setter g_task_slot_used := ltac:(derive_setter eta_kernel g_task_slot_used).
#[export] Instance set_g_stack_slot_used : Setter g_stack_slot_used := ltac:(derive_setter eta_kernel g_stack_slot_used).
#[export] Instance set_g_next_task_id : Setter g_next_task_id := ltac:(derive_setter eta_kernel g_next_task_id).
#[export] Instance set_ram : Setter ram := ltac:(derive_setter eta_kernel ram).
#[export] Instance set_scb_shpr3 : Setter scb_shpr3 := ltac:(derive_setter eta_kernel scb_shpr3).
#[export] Instance set_systick_rvr : Setter systick_rvr := ltac:(derive_setter eta_kernel systick_rvr).
#[export] Instance set_systick_cvr : Setter systick_cvr := ltac:(derive_setter eta_kernel systick_cvr).
#[export] Instance set_systick_csr : Setter systick_csr := ltac:(derive_setter eta_kernel systick_csr).
#[export] Instance set_SystemCoreClock : Setter SystemCoreClock := ltac:(derive_setter eta_kernel SystemCoreClock).

#[export] Program Instance kernel_lens : Lens sched kernel := {|
  view := k_sched; over s k := k <| k_sched := s |>;
|}.
Solve Obligations with by intros; repeat destruct select kernel.

(** [*p = v] on a word of RAM. *)
Definition store_word (p v : Z) : M kernel () := modify (λ k, k <| ram := <[p := v]> (ram k) |>).

(** ** Slots *)

(** The [for] loop of [alloc_slot] from index [i], with [n] slots to go. *)
Fixpoint alloc_slot_from (n : nat) (i : nat) (bitmap : list Z) : Z * list Z :=
  match n with
  | O => (-1, bitmap)
  | S n' => if default 1 (bitmap !! i) =? 0 then (Z.of_nat i, <[i := 1]> bitmap)
            else alloc_slot_from n' (S i) bitmap
  end.
Definition alloc_slot (bitmap : list Z) (count : Z) : Z * list Z :=
  alloc_slot_from (Z.to_nat count) 0 bitmap.

Definition free_slot (bitmap : list Z) (idx : Z) : list Z :=
  if 0 <=? idx then <[Z.to_nat idx := 0]> bitmap else bitmap.

(** ** Names *)

(** [src[i]]: characters of a string; a [NULL] name stands for "task". *)
Definition default_name : list Z := [116; 97; 115; 107; 0].
Definition src_char (rodata : Z → Z) (src : ptr) (i : Z) : Z :=
  if src =? NULL then default 0 (default_name !! Z.to_nat i) else rodata (src + i).

Fixpoint copy_name_loop (n : nat) (i : nat) (ch : Z → Z) (dst : list Z) : nat * list Z :=
  match n with
  | O => (i, dst)
  | S n' => if (Z.of_nat i <? TASK_NAME_MAX - 1) && negb (ch (Z.of_nat i) =? 0)
            then copy_name_loop n' (S i) ch (<[i := ch (Z.of_nat i)]> dst)
            else (i, dst)
  end.
Definition copy_task_name (rodata : Z → Z) (dst : list Z) (src : ptr) : list Z :=
  let '(i, dst) := copy_name_loop (Z.to_nat TASK_NAME_MAX) 0 (src_char rodata src) dst in
  <[i := 0]> dst.

(** ** The initial stack of a task *)

(** [*(--sp) = v] *)
Definition push (sp v : Z) : M kernel Z :=
  store_word (sp - 4) v ;; mret (sp - 4).

Definition task_init_stack (stack_top entry arg exit_func : ptr) : M kernel Z :=
  sp ← push stack_top 0x01000000;          (* xPSR *)
  sp ← push sp entry;                      (* PC *)
  sp ← push sp exit_func;                  (* LR *)
  sp ← push sp 0;                          (* R12 *)
  sp ← push sp 0;
  sp ← push sp 0;
  sp ← push sp 0;
  sp ← push sp arg;                        (* R0 *)
  sp ← push sp EXC_RETURN_THREAD_PSP;
  sp ← push sp 0;                          (* R11 *)
  sp ← push sp 0;
  sp ← push sp 0;
  sp ← push sp 0;
  sp ← push sp 0;
  sp ← push sp 0;
  sp ← push sp 0;
  push sp 0.                               (* R4 *)

(** The fill pattern, from word [i] on, [n] words to go. *)
Fixpoint fill_stack (n : nat) (i : Z) (stack : ptr) : M kernel () :=
  match n with
  | O => mret ()
  | S n' => store_word (stack + 4 * i) TASK_STACK_FILL ;; fill_stack n' (i + 1) stack
  end.

(** [(stack + size / 4) & ~7] *)
Definition stack_top_of (stack stack_size : Z) : Z :=
  Z.land (u32 (stack + 4 * (stack_size / 4))) (not32 7).

(** ** Task management *)

Section kernel.
Context (g_task_pool g_stack_pool : Z → ptr) (g_idle_tcb g_idle_stack : ptr).
Context (task_exit_trampoline_addr idle_task_addr : ptr) (idle_name : ptr) (rodata : Z → Z).
Context (stale_name : ptr → list Z) (switch : M kernel ()).

Definition task_get_current : M kernel ptr := zoom scheduler_get_current.

(** Assignments to all fields of a TCB, of which only the name is read (it is
    written in place).  [stale_name] is what an address that has not been a TCB
    yet holds there: the pool of TCBs is not cleared at startup. *)
Definition write_tcb (tcb : ptr) (f : list Z → task_tcb) : M kernel () :=
  modify (λ k, k <| k_sched := k_sched k <| tcbs :=
    <[tcb := f (match tcbs (k_sched k) !! tcb with
                | Some t => Task.name t | None => stale_name tcb end)]>
      (tcbs (k_sched k)) |> |>).

(** [tcb]: the argument or a slot of the pool; [inl e] is an early return. *)
Definition create_pick_tcb (tcb : ptr) : M kernel (Z + Z * ptr) :=
  if tcb =? NULL then
    used ← gets g_task_slot_used;
    let '(tcb_slot, used) := alloc_slot used CONFIG_MAX_TASKS in
    modify (set_field g_task_slot_used used) ;;
    if tcb_slot <? 0 then mret (inl KERNEL_ERR_NO_MEM)
    else mret (inr (tcb_slot, g_task_pool tcb_slot))
  else mret (inr (-1, tcb)).

Definition create_release_tcb (tcb_slot : Z) : M kernel () :=
  when (0 <=? tcb_slot)
    (modify (λ k, k <| g_task_slot_used := free_slot (g_task_slot_used k) tcb_slot |>)).

(** The stack and its size, likewise. *)
Definition create_pick_stack (tcb_slot : Z) (stack stack_size : Z) : M kernel (Z + Z * Z) :=
  if stack =? NULL then
    if CONFIG_DEFAULT_STACK_SIZE <? stack_size then
      create_release_tcb tcb_slot ;; mret (inl KERNEL_ERR_NO_MEM)
    else
      used ← gets g_stack_slot_used;
      let '(stack_slot, used) := alloc_slot used CONFIG_MAX_TASKS in
      modify (set_field g_stack_slot_used used) ;;
      if stack_slot <? 0 then
        create_release_tcb tcb_slot ;; mret (inl KERNEL_ERR_NO_MEM)
      else mret (inr (g_stack_pool stack_slot, CONFIG_DEFAULT_STACK_SIZE))
  else mret (inr (stack, stack_size)).

(** The fields of a new TCB. *)
Definition new_tcb (id : Z) (name : list Z) (entry arg : ptr) (priority : Z) (stack stack_top stack_size : Z)
    : task_tcb :=
  mkTcb 0 NULL NULL id name entry arg priority priority TASK_STATE_READY 0
    stack stack_top stack_size 0 CONFIG_TIME_SLICE 0 BLOCK_NONE NULL 0 KERNEL_OK 0 0 0 0 0.

(** From the fill pattern to [scheduler_add_task]. *)
Definition create_init (tcb name entry arg : ptr) (priority stack stack_size : Z) : M kernel () :=
  fill_stack (Z.to_nat (stack_size / 4)) 0 stack ;;
  let stack_top := stack_top_of stack stack_size in
  task_id ← gets g_next_task_id;
  modify (set_field g_next_task_id (u32 (task_id + 1))) ;;
  write_tcb tcb (λ old, new_tcb task_id (copy_task_name rodata old name) entry arg priority
    stack stack_top stack_size) ;;
  sp ← task_init_stack stack_top entry arg task_exit_trampoline_addr;
  zoom (upd tcb (set_field Task.sp sp)) ;;
  zoom (scheduler_add_task tcb).

Definition task_create (tcb name entry arg : ptr) (priority stack stack_size : Z) : M kernel Z :=
  if (entry =? NULL) || (CONFIG_MAX_PRIORITY <=? priority) then mret KERNEL_ERR_PARAM else
  if (stack_size <? CONFIG_MIN_STACK_SIZE) || negb (Z.land stack_size 7 =? 0) then mret KERNEL_ERR_PARAM else
  r ← create_pick_tcb tcb;
  match r with
  | inl e => mret e
  | inr (tcb_slot, tcb) =>
      r ← create_pick_stack tcb_slot stack stack_size;
      match r with
      | inl e => mret e
      | inr (stack, stack_size) =>
          create_init tcb name entry arg priority stack stack_size ;;
          mret KERNEL_OK
      end
  end.

(** [if (tcb == NULL) tcb = task_get_current();] *)
Definition or_current (tcb : ptr) : M kernel ptr :=
  if tcb =? NULL then task_get_current else mret tcb.

(** The critical section shared by deletion and suspension. *)
Definition retire (tcb : ptr) (st : task_state_t) : M kernel () :=
  irq_state ← zoom (zoom (S := cpu_t) (W := sched) critical_enter);
  zoom (scheduler_remove_task tcb) ;;
  zoom (upd tcb (set_field state st)) ;;
  zoom (zoom (S := cpu_t) (W := sched) (critical_exit irq_state)).

Definition task_delete (tcb : ptr) : M kernel Z :=
  tcb ← or_current tcb;
  if tcb =? NULL then mret KERNEL_ERR_PARAM else
  retire tcb TASK_STATE_DELETED ;;
  cur ← task_get_current;
  if tcb =? cur then
    zoom scheduler_yield ;;
    spin
  else mret KERNEL_OK.

Definition task_suspend (tcb : ptr) : M kernel Z :=
  tcb ← or_current tcb;
  if tcb =? NULL then mret KERNEL_ERR_PARAM else
  retire tcb TASK_STATE_SUSPENDED ;;
  cur ← task_get_current;
  when (tcb =? cur) (zoom scheduler_yield ;; switch_point switch) ;;
  mret KERNEL_OK.

Definition task_resume (tcb : ptr) : M kernel Z :=
  suspended ← (if tcb =? NULL then mret false else
               t ← zoom (deref tcb); mret (bool_decide (state t = TASK_STATE_SUSPENDED)));
  if negb suspended then mret KERNEL_ERR_PARAM else
  zoom (upd tcb (set_field state TASK_STATE_READY)) ;;
  zoom (scheduler_add_task tcb) ;;
  mret KERNEL_OK.

Definition task_yield : M kernel () := zoom scheduler_yield ;; switch_point switch.

Definition task_delay (ticks : Z) : M kernel () :=
  if ticks =? 0 then zoom scheduler_yield ;; switch_point switch
  else scheduler_block_task switch BLOCK_DELAY NULL ticks ;; mret ().

(** [task_delay_ms] of [kernel.h]: the product is a [uint32_t]. *)
Definition task_delay_ms (ms : Z) : M kernel () :=
  task_delay (u32 (ms * CONFIG_TICK_RATE_HZ) / 1000).

Definition task_set_priority (tcb : ptr) (priority : Z) : M kernel Z :=
  if CONFIG_MAX_PRIORITY <=? priority then mret KERNEL_ERR_PARAM else
  tcb ← or_current tcb;
  if tcb =? NULL then mret KERNEL_ERR_PARAM else
  zoom (scheduler_set_priority tcb priority) ;;
  mret KERNEL_OK.

(** ** Life cycle *)

Definition kernel_init : M kernel Z :=
  st ← gets g_kernel_state;
  if negb (bool_decide (st = KERNEL_STATE_UNINIT)) then mret KERNEL_ERR_STATE else
  zoom scheduler_init ;;
  modify (λ k, k <| scb_shpr3 := Z.lor (Z.lor (Z.land (scb_shpr3 k) 0xFFFF) (Z.shiftl 0xFF 16))
                                       (Z.shiftl 0xFE 24) |>) ;;
  r ← task_create g_idle_tcb idle_name idle_task_addr NULL (CONFIG_MAX_PRIORITY - 1)
        g_idle_stack CONFIG_IDLE_STACK_SIZE;
  if negb (r =? KERNEL_OK) then mret KERNEL_ERR_STATE else
  modify (set_field g_kernel_state KERNEL_STATE_INIT) ;;
  mret KERNEL_OK.

Definition SYSTICK_CSR_RUN : Z := Z.lor (Z.lor (bit 0) (bit 1)) (bit 2).

(** [kernel_start], up to the call of the first task ([start_first_task] of
    [Context.v]). *)
Definition kernel_start : M kernel (ptr * ptr) :=
  st ← gets g_kernel_state;
  if negb (bool_decide (st = KERNEL_STATE_INIT)) then spin else
  modify (λ k, k <| systick_rvr := u32 (SystemCoreClock k / CONFIG_TICK_RATE_HZ - 1) |>) ;;
  modify (set_field systick_cvr 0) ;;
  modify (set_field systick_csr SYSTICK_CSR_RUN) ;;
  modify (set_field g_kernel_state KERNEL_STATE_RUNNING) ;;
  zoom scheduler_start.

Definition kernel_get_state : M kernel kernel_state_t := gets g_kernel_state.
Definition kernel_get_tick : M kernel Z := zoom scheduler_get_tick_count.

(** The function a task returns into. *)
Definition task_exit_trampoline : M kernel () := task_delete NULL ;; spin.

(** The end of [scheduler_start], when the first task returns. *)
Definition first_task_exit : M kernel () := task_delete NULL ;; spin.

(** ** System calls ([kernel/syscall.h]) *)

Definition SVC_START_FIRST_TASK : Z := 0.
Definition SVC_TASK_CREATE : Z := 1.
Definition SVC_TASK_DELETE : Z := 2.
Definition SVC_TASK_SUSPEND : Z := 3.
Definition SVC_TASK_RESUME : Z := 4.
Definition SVC_TASK_YIELD : Z := 5.
Definition SVC_TASK_DELAY : Z := 6.
Definition SVC_TASK_PRIORITY : Z := 7.

Definition svc_dispatch (svc_num arg0 arg1 arg2 : Z) : M kernel Z :=
  if svc_num =? SVC_TASK_YIELD then task_yield ;; mret KERNEL_OK
  else if svc_num =? SVC_TASK_DELAY then task_delay arg0 ;; mret KERNEL_OK
  else if svc_num =? SVC_TASK_DELETE then task_delete arg0
  else if svc_num =? SVC_TASK_SUSPEND then task_suspend arg0
  else if svc_num =? SVC_TASK_RESUME then task_resume arg0
  else if svc_num =? SVC_TASK_PRIORITY then task_set_priority arg0 (u8 arg1)
  else if svc_num =? SVC_TASK_CREATE then
    task_create arg0 NULL arg1 arg2 (CONFIG_MAX_PRIORITY - 2) NULL CONFIG_DEFAULT_STACK_SIZE
  else mret KERNEL_ERR_PARAM.
End kernel.
