(* ===== verification/Context.v ===== *)
(** * Context switch

    The handlers of [kernel/context.s] on the register file of the core, with
    the exception entry and return of the processor and the stack frames of
    [kernel/task.h] they work on.  Exceptions are entered from thread mode, on
    either stack, with or without a floating-point context.  A call of a C
    function follows the procedure call standard: it may destroy r0-r3, r12,
    lr, s0-s15 and the flags, as the parameter [clobber] says.

    The words the handlers and the C functions push on the main stack while
    they run are kept apart from the memory of the tasks ([main_stack]).  The
    floating-point part of a frame is written at exception entry (the processor
    may put this off until the handler uses the unit), and stack pointers are
    taken to be multiples of 8, so that entry inserts no padding. *)
From stdpp Require Import vector.
From S2P Require Import Prelude Config Task Critical Bitmap TcbList Scheduler SchedSpec.
From S2P Require Import SchedRefine SchedInv SchedEffect SchedIface Sync SchedProps Kernel.

(** The registers: [r4_r11] lists r4 to r11; [control] is CONTROL as thread
    mode sees it (bit 1: the process stack is in use, bit 2: there is a
    floating-point context); [main_stack] are the words handlers have pushed. *)
Record core : Type := mkCore {
  kst : kernel;
  r0 : Z; r1 : Z; r2 : Z; r3 : Z; r12 : Z;
  r4_r11 : vec Z 8;
  lr : Z; pc : Z; xpsr : Z; psp : Z; msp : Z; control : Z;
  s0_s15 : vec Z 16; s16_s31 : vec Z 16; fpscr : Z;
  main_stack : list Z;
}.

Definition eta_core (c : core) : core :=
  mkCore (kst c) (r0 c) (r1 c) (r2 c) (r3 c) (r12 c) (r4_r11 c) (lr c) (pc c) (xpsr c) (psp c) (msp c) (control c)
    (s0_s15 c) (s16_s31 c) (fpscr c) (main_stack c).
#[export] Instance set_kst : Setter kst := ltac:(derive_setter eta_core kst).
#[export] Instance set_r0 : Setter r0 := ltac:(derive_setter eta_core r0).
#[export] Instance set_r1 : Setter r1 := ltac:(derive_setter eta_core r1).
#[export] Instance set_r2 : Setter r2 := ltac:(derive_setter eta_core r2).
#[export] Instance set_r3 : Setter r3 := ltac:(derive_setter eta_core r3).
#[export] Instance set_r12 : Setter r12 := ltac:(derive_setter eta_core r12).
#[export] Instance set_r4_r11 : Setter r4_r11 := ltac:(derive_setter eta_core r4_r11).
#[export] Instance set_lr : Setter lr := ltac:(derive_setter eta_core lr).
#[export] Instance set_pc : Setter pc := ltac:(derive_setter eta_core pc).
#[export] Instance set_xpsr : Setter xpsr := ltac:(derive_setter eta_core xpsr).
#[export] Instance set_psp : Setter psp := ltac:(derive_setter eta_core psp).
#[export] Instance set_msp : Setter msp := ltac:(derive_setter eta_core msp).
#[export] Instance set_control : Setter control := ltac:(derive_setter eta_core control).
#[export] Instance set_s0_s15 : Setter s0_s15 := ltac:(derive_setter eta_core s0_s15).
#[export] Instance set_s16_s31 : Setter s16_s31 := ltac:(derive_setter eta_core s16_s31).
#[export] Instance set_fpscr : Setter fpscr := ltac:(derive_setter eta_core fpscr).
#[export] Instance set_main_stack : Setter main_stack := ltac:(derive_setter eta_core main_stack).

#[export] Program Instance core_lens : Lens kernel core := {|
  view := kst; over k c := c <| kst := k |>;
|}.
Solve Obligations with by intros; repeat destruct select core.

(** ** Memory *)

Definition load_word (p : Z) : M core Z := λ c,
  match ram (kst c) !! p with Some v => Ret v c | None => Fault end.

(** [ldmia p, {..}] and [stmdb]: words at increasing addresses. *)
Fixpoint load_words (n : nat) (p : Z) : M core (vec Z n) :=
  match n with
  | O => mret [#]
  | S n' => v ← load_word p; l ← load_words n' (p + 4); mret (v ::: l)
  end.
Fixpoint store_words (p : Z) (l : list Z) : M core () :=
  match l with
  | [] => mret ()
  | v :: l' => zoom (store_word p v) ;; store_words (p + 4) l'
  end.

(** [push] and [pop] of two words in a handler. *)
Definition push_main (v w : Z) : M core () :=
  modify (λ c, c <| main_stack := v :: w :: main_stack c |> <| msp := msp c - 8 |>).
Definition pop_main : M core (Z * Z) :=
  l ← gets main_stack;
  match l with
  | v :: w :: l' => modify (λ c, c <| main_stack := l' |> <| msp := msp c + 8 |>) ;; mret (v, w)
  | _ => fault
  end.

(** ** Exception entry and return

    IPSR holds the number of the exception being handled; lr holds EXC_RETURN:
    bit 2 says which stack the frame is on, bit 4 is clear if it has a
    floating-point part. *)

Definition SPSEL : Z := 1.
Definition FPCA : Z := 2.
Definition EXC_RETURN_THREAD_MSP_FPU : Z := 0xFFFFFFE9.
(** The exception numbers of SVCall and PendSV. *)
Definition SVCALL : Z := 11.
Definition PENDSV : Z := 14.

Definition with_ipsr (n : Z) (k : kernel) : kernel :=
  k <| k_sched := k_sched k <| cpu := cpu (k_sched k) <| ipsr := n |> |> |>.

Definition on_psp (c : core) : bool := Z.testbit (control c) SPSEL.
Definition fp_context (c : core) : bool := Z.testbit (control c) FPCA.

Definition exc_return (c : core) : Z :=
  if on_psp c
  then if fp_context c then EXC_RETURN_THREAD_PSP_FPU else EXC_RETURN_THREAD_PSP
  else if fp_context c then EXC_RETURN_THREAD_MSP_FPU else EXC_RETURN_THREAD_MSP.

(** What EXC_RETURN [l] says: the stack of the frame, and its parts. *)
Definition from_psp (l : Z) : bool := Z.testbit l 2.
Definition has_fp (l : Z) : bool := negb (Z.testbit l 4).
Definition frame_size (l : Z) : Z := if has_fp l then 104 else 32.

(** The stack pointer an exception with EXC_RETURN [l] finds and leaves. *)
Definition frame_ptr (l : Z) (c : core) : Z := if from_psp l then psp c else msp c.
Definition set_frame_ptr (l p : Z) (c : core) : core := if from_psp l then c <| psp := p |> else c <| msp := p |>.

(** [hw_stack_frame_t], and the floating-point part above it: s0-s15, FPSCR
    and a reserved word. *)
Definition hw_stack_frame (c : core) : list Z := [r0 c; r1 c; r2 c; r3 c; r12 c; lr c; pc c; xpsr c].
Definition fp_stack_frame (c : core) : list Z := s0_s15 c ++ [fpscr c; 0].
Definition exception_frame (c : core) : list Z :=
  hw_stack_frame c ++ (if fp_context c then fp_stack_frame c else []).

Definition exception_entry (number : Z) : M core () :=
  c ← gets (λ c, c);
  let l := exc_return c in
  let p := frame_ptr l c - frame_size l in
  store_words p (exception_frame c) ;;
  modify (λ c, set_frame_ptr l p c <| lr := l |> <| control := Z.ldiff (control c) 6 |>
                 <| kst := with_ipsr number (kst c) |>).

(** CONTROL after the return: SPSEL and FPCA as EXC_RETURN says. *)
Definition thread_control (l ctl : Z) : Z :=
  Z.lor (Z.ldiff ctl 6) ((if from_psp l then 2 else 0) + (if has_fp l then 4 else 0)).

Definition restore_fp (p : Z) : M core () :=
  f ← load_words 16 p;
  v ← load_word (p + 64);
  modify (λ c, c <| s0_s15 := f |> <| fpscr := v |>).

Definition exception_return : M core () :=
  l ← gets lr;
  p ← gets (frame_ptr l);
  a0 ← load_word p; a1 ← load_word (p + 4); a2 ← load_word (p + 8); a3 ← load_word (p + 12);
  a12 ← load_word (p + 16); alr ← load_word (p + 20); apc ← load_word (p + 24); axpsr ← load_word (p + 28);
  when (has_fp l) (restore_fp (p + 32)) ;;
  modify (λ c, set_frame_ptr l (p + frame_size l) c <| kst := with_ipsr 0 (kst c) |>
    <| r0 := a0 |> <| r1 := a1 |> <| r2 := a2 |> <| r3 := a3 |> <| r12 := a12 |>
    <| lr := alr |> <| pc := apc |> <| xpsr := axpsr |> <| control := thread_control l (control c) |>).

Definition is_exc_return (l : Z) : bool :=
  (l =? EXC_RETURN_THREAD_PSP) || (l =? EXC_RETURN_THREAD_PSP_FPU) ||
  (l =? EXC_RETURN_THREAD_MSP) || (l =? EXC_RETURN_THREAD_MSP_FPU).

(** [bx lr]: a return from the exception, or a jump. *)
Definition bx_lr : M core () :=
  l ← gets lr;
  if is_exc_return l then exception_return
  else modify (set_field pc l).

(** ** The first task

    The inline assembly of [scheduler_start] (lines 106-115): the first task's
    stack becomes the process stack, and thread mode uses it from here on. *)
Definition use_process_stack : M core () :=
  first ← zoom (zoom (S := sched) (W := kernel) (gets current_task));
  t ← zoom (zoom (S := sched) (W := kernel) (deref first));
  modify (set_field psp (Task.sp t)) ;;
  modify (λ c, c <| r1 := Z.lor (control c) 2 |>) ;;
  modify (λ c, c <| control := r1 c |>).

(** [kernel_start] to the first instruction of the task: [first->entry(first->arg)]
    is a call, with [ra] as its return address. *)
Definition start_first_task (ra : Z) : M core () :=
  '(entry, arg) ← zoom kernel_start;
  use_process_stack ;;
  modify (λ c, c <| r0 := arg |> <| lr := ra |> <| pc := entry |>).

(** ** PendSV *)

(** The processor takes the exception, which clears PENDSVSET. *)
Definition pendsv_entry : M core () :=
  zoom (zoom (S := sched) (W := kernel) (zoom (S := cpu_t)
    (modify (λ c, c <| icsr := Z.ldiff (icsr c) (bit PENDSVSET) |>)))) ;;
  exception_entry PENDSV.

Section pendsv.
Context (current_task_addr : ptr) (clobber : core → core).

(** [bl scheduler_select_next_task] *)
Definition call_select : M core () :=
  n ← zoom (zoom (S := sched) (W := kernel) scheduler_select_next_task);
  modify (λ c, clobber c <| r0 := n |>).

(** [str r0, [r3]]: a word of the memory of the tasks may be hit if r3 does not
    hold the address of [current_task] any more. *)
Definition store_through_r3 : M core () :=
  a ← gets r3;
  v ← gets r0;
  if a =? current_task_addr
  then zoom (zoom (S := sched) (W := kernel) (modify (set_field current_task v)))
  else load_word a ;; zoom (store_word a v).

(** [sw_stack_frame_t]: r4 to r11 and EXC_RETURN. *)
Definition sw_stack_frame (c : core) : list Z := r4_r11 c ++ [lr c].

(** Lines 42-44: r4-r11 and EXC_RETURN go on the task's stack, whose pointer
    goes into its TCB. *)
Definition save_context : M core () :=
  c ← gets (λ c, c);
  store_words (r0 c - 36) (sw_stack_frame c) ;;
  modify (λ c, c <| r0 := r0 c - 36 |>) ;;
  zoom (zoom (S := sched) (W := kernel) (upd (r2 c) (set_field Task.sp (r0 c - 36)))).

(** Lines 51-54. *)
Definition restore_context : M core () :=
  n ← gets r0;
  t ← zoom (zoom (S := sched) (W := kernel) (deref n));
  f ← load_words 8 (Task.sp t);
  alr ← load_word (Task.sp t + 32);
  modify (λ c, c <| r1 := Task.sp t + 36 |> <| r4_r11 := f |> <| lr := alr |> <| psp := Task.sp t + 36 |>).

Definition set_primask_to (v : Z) : M core () :=
  zoom (zoom (S := sched) (W := kernel) (zoom (S := cpu_t) (modify (set_field primask v)))).

(** Up to the call of the scheduler. *)
Definition PendSV_select : M core () :=
  set_primask_to 1 ;;
  cur ← zoom (zoom (S := sched) (W := kernel) (gets current_task));
  modify (λ c, c <| r0 := psp c |> <| r3 := current_task_addr |> <| r2 := cur |>) ;;
  when (negb (cur =? 0)) save_context ;;
  call_select.

(** From there to [bx lr]. *)
Definition PendSV_resume : M core () :=
  n ← gets r0;
  when (negb (n =? 0)) restore_context ;;
  set_primask_to 0.

Definition PendSV_Handler : M core () :=
  PendSV_select ;; store_through_r3 ;; PendSV_resume ;; bx_lr.

(** The exception as a whole. *)
Definition pendsv_exception : M core () := pendsv_entry ;; PendSV_Handler.
End pendsv.

(** The entry kept for compatibility only returns. *)
Definition task_start_first : M core () := bx_lr.

(** ** SVC *)

Section svc.
Context (dispatch : Z → Z → Z → Z → M kernel Z) (code : Z → Z).

(** [code] is the byte at an address of the program: the immediate of an SVC
    instruction is two bytes before the stacked pc. *)
Definition SVC_Handler : M core () :=
  l ← gets lr;
  frame ← gets (frame_ptr l);             (* tst lr, #4; msp or psp *)
  stacked_pc ← load_word (frame + 24);
  let svc_num := code (stacked_pc - 2) in
  a0 ← load_word frame;
  a1 ← load_word (frame + 4);
  a2 ← load_word (frame + 8);
  push_main frame l ;;
  r ← zoom (dispatch svc_num a0 a1 a2);
  '(frame, l) ← pop_main;
  zoom (store_word frame r) ;;
  modify (set_field lr l) ;;
  bx_lr.
End svc.
