(* ===== verification/KernelProps.v ===== *)
(** * What the kernel does

    Task creation and the other task management calls: what they return, what
    they do to the tasks, and the initial stack of a task, which the context
    switch turns into a call of the task's function. *)
From S2P Require Import Prelude Config Task Critical Bitmap TcbList Scheduler SchedSpec.
From S2P Require Import SchedRefine SchedInv SchedEffect SchedIface Sync Checker Example.
From S2P Require Import SchedProps Kernel Context.

(** ** A new TCB in the store *)

Lemma linked_insert h lls p t : linked h lls → p ≠ NULL → ¬ listed p lls → next t = NULL → prev t = NULL →
  linked (<[p := t]> h) lls.
Proof.
  intros [Hn Hd Hnd Hdj Hf] Hp Hl Ht1 Ht2.
  assert (∀ x, x ≠ p → links (<[p := t]> h) x = links h x) as Hne.
  { intros x Hx. unfold links. by rewrite lookup_insert_ne by congruence. }
  split; [by rewrite lookup_insert_ne| |done|done|].
  - intros i l Hi. eapply dseg_ext; [|by apply (Hd i)]. intros x Hx. apply Hne. intros ->.
    apply Hl, listed_lookup. eauto.
  - intros x n q Hx Hxl. destruct (decide (x = p)) as [->|Hxp]; [|rewrite Hne in Hx by done; by apply (Hf x)].
    unfold links in Hx. rewrite lookup_insert_eq in Hx. simpl in Hx. split; congruence.
Qed.

(** [p] is no task, or one that is on no queue. *)
Definition dormant (p : ptr) (a : asched) : Prop :=
  match a_tasks a !! p with Some t => queue_kind (state t) = None | None => True end.

Definition with_task (p : ptr) (t : task_tcb) (a : asched) : asched := a <| a_tasks := <[p := t]> (a_tasks a) |>.

Lemma dormant_unlisted p a : wf a → dormant p a → ¬ a_listed p a.
Proof.
  intros Hwf Hd [Hx|(l & Hl & Hx)%Exists_exists]%Exists_cons; unfold dormant in Hd.
  - apply (wf_blocked _ _ Hwf) in Hx as (_ & t & Ht & Hst). rewrite Ht, Hst in Hd. done.
  - apply list_elem_of_lookup in Hl as [i Hi].
    apply (wf_ready _ _ Hwf _ _ _ Hi) in Hx as (_ & t & Ht & Hst & _). rewrite Ht in Hd.
    apply runnable_kind in Hst. congruence.
Qed.

Lemma with_task_abstracts s a p t : abstracts s a → wf a → p ≠ NULL → dormant p a →
  next t = NULL → prev t = NULL →
  abstracts (s <| tcbs := <[p := t]> (tcbs s) |>) (with_task p (unlink t) a).
Proof.
  intros HR Hwf Hp Hd Ht1 Ht2. pose proof (dormant_unlisted _ _ Hwf Hd). same_abs HR.
  - by apply linked_insert.
  - by rewrite fmap_insert; congruence.
Qed.

Lemma with_task_wf a p t : wf a → p ≠ NULL → dormant p a → task_ok t → wf_out (Some p) (with_task p t a).
Proof.
  intros Hwf Hp Hd Hok. pose proof (wf_ready _ _ Hwf) as Hrd. pose proof (wf_blocked _ _ Hwf) as Hb.
  assert (∀ q, null_or_task q a → null_or_task q (with_task p t a)) as Hnt.
  { intros q [->|Hq]; [by left|]. right. simpl. by rewrite lookup_insert_is_Some'; right. }
  pose proof (wf_current _ _ Hwf) as Hc. pose proof (wf_next _ _ Hwf) as Hnx.
  destruct Hwf. split; simpl; try done; eauto.
  - by rewrite lookup_insert_ne.
  - intros i l y Hi. rewrite (Hrd _ _ _ Hi). destruct (decide (y = p)) as [->|Hy].
    + split; [|naive_solver]. intros (_ & u & Hu & Hr & _). unfold dormant in Hd. rewrite Hu in Hd.
      apply runnable_kind in Hr. congruence.
    + rewrite lookup_insert_ne by congruence. split; [intros [_ ?]; split; [congruence|done]|intros [_ ?]; done].
  - intros y. rewrite Hb. destruct (decide (y = p)) as [->|Hy].
    + split; [|naive_solver]. intros (_ & u & Hu & Hst). unfold dormant in Hd. rewrite Hu, Hst in Hd. done.
    + rewrite lookup_insert_ne by congruence. split; [intros [_ ?]; split; [congruence|done]|intros [_ ?]; done].
  - intros y u. destruct (decide (p = y)) as [<-|]; [rewrite lookup_insert_eq; by intros [= <-]|].
    rewrite lookup_insert_ne by done. eauto.
Qed.

(** ** The stack of a new task *)

Lemma push_ret sp v k m : push sp v (k <| ram := m |>) = Ret (sp - 4) (k <| ram := <[sp - 4 := v]> m |>).
Proof. done. Qed.

(** The frame [task_init_stack] builds, lowest address first: r4 to r11 and
    EXC_RETURN, then the hardware frame. *)
Definition init_frame (entry arg exit_func : ptr) : list Z :=
  [0; 0; 0; 0; 0; 0; 0; 0; EXC_RETURN_THREAD_PSP; arg; 0; 0; 0; 0; exit_func; entry; 0x01000000].

(** The words at [p], [p + 4], ... *)
Fixpoint words_at (p : Z) (l : list Z) (m : gmap Z Z) : Prop :=
  match l with [] => True | v :: l' => m !! p = Some v ∧ words_at (p + 4) l' m end.

(** Finds the word at an address in a memory written word by word. *)
Ltac lookup_word :=
  repeat rewrite lookup_insert_ne by lia;
  match goal with |- <[?a := _]> _ !! ?q = _ => replace q with a by lia; apply lookup_insert_eq end.

Lemma init_stack_ret stack_top entry arg exit_func k :
  ∃ m, task_init_stack stack_top entry arg exit_func k = Ret (stack_top - 68) (k <| ram := m |>) ∧
    words_at (stack_top - 68) (init_frame entry arg exit_func) m ∧
    ∀ q, q < stack_top - 68 ∨ stack_top ≤ q → m !! q = ram k !! q.
Proof.
  eexists. split; [|split].
  - unfold task_init_stack. replace k with (k <| ram := ram k |>) at 1 by (by destruct k).
    repeat (erewrite bind_ret by apply push_ret; cbv beta). rewrite push_ret. f_equal. lia.
  - cbn [words_at init_frame]. repeat split; lookup_word.
  - intros q Hq. by rewrite !lookup_insert_ne by lia.
Qed.

Lemma fill_stack_ret n i stack k :
  ∃ m, fill_stack n i stack k = Ret () (k <| ram := m |>) ∧
    (∀ j, i ≤ j < i + Z.of_nat n → m !! (stack + 4 * j) = Some TASK_STACK_FILL) ∧
    ∀ q, q < stack + 4 * i ∨ stack + 4 * (i + Z.of_nat n) ≤ q → m !! q = ram k !! q.
Proof.
  revert i k. induction n as [|n IH]; intros i k.
  - exists (ram k). split; [by destruct k|]. split; [lia|done].
  - destruct (IH (i + 1) (k <| ram := <[stack + 4 * i := TASK_STACK_FILL]> (ram k) |>)) as (m & E & Hin & Hout).
    exists m. split; [exact E|]. split.
    + intros j Hj. destruct (decide (j = i)) as [->|]; [|apply Hin; lia].
      rewrite Hout by lia. apply lookup_insert_eq.
    + intros q Hq. rewrite Hout by lia. simpl. by rewrite lookup_insert_ne by lia.
Qed.

(** ** Slots *)

(** The first free slot. *)
Definition free_index (used : list Z) : option nat := fst <$> list_find (λ v, v = 0) used.

Lemma alloc_slot_from_spec n i used : (i + n = length used)%nat → (∀ j, (j < i)%nat → used !! j ≠ Some 0) →
  alloc_slot_from n i used = match free_index used with
                             | Some j => (Z.of_nat j, <[j := 1]> used) | None => (-1, used) end.
Proof.
  revert i. induction n as [|n IH]; intros i Hlen Hlow; simpl.
  - unfold free_index. destruct (list_find _ used) as [[j v]|] eqn:E; [|done].
    apply list_find_Some in E as (Hj & -> & _). exfalso. apply (Hlow j); [|done].
    apply lookup_lt_Some in Hj. lia.
  - destruct (lookup_lt_is_Some_2 used i) as [v Hv]; [lia|]. rewrite Hv. simpl.
    destruct (Z.eqb_spec v 0) as [->|Hne].
    + unfold free_index. assert (list_find (λ v, v = 0) used = Some (i, 0)) as ->; [|done].
      apply list_find_Some. split_and!; [done..|]. intros j y Hy Hj ->. by apply (Hlow j).
    + apply IH; [lia|]. intros j Hj. destruct (decide (j = i)) as [->|]; [rewrite Hv; congruence|apply Hlow; lia].
Qed.

Lemma alloc_slot_spec used : length used = Z.to_nat CONFIG_MAX_TASKS →
  alloc_slot used CONFIG_MAX_TASKS = match free_index used with
                                     | Some j => (Z.of_nat j, <[j := 1]> used) | None => (-1, used) end.
Proof. intros Hl. apply alloc_slot_from_spec; [lia|]. intros j. lia. Qed.

Lemma free_index_Some used j : free_index used = Some j → used !! j = Some 0 ∧ (j < length used)%nat.
Proof.
  unfold free_index. intros ([j' v] & E & ->)%fmap_Some. apply list_find_Some in E as (Hj & -> & _).
  split; [done|]. by eapply lookup_lt_Some.
Qed.

(** Releasing the slot just taken. *)
Lemma free_slot_alloc used j : used !! j = Some 0 → free_slot (<[j := 1]> used) (Z.of_nat j) = used.
Proof.
  intros Hj. unfold free_slot. rewrite (proj2 (Z.leb_le _ _)) by lia.
  rewrite Nat2Z.id, list_insert_insert_eq. by apply list_insert_id.
Qed.

(** ** Names *)

(** The number of characters copied: up to the NUL, at most 15. *)
Fixpoint name_length (n : nat) (i : nat) (ch : Z → Z) : nat :=
  match n with
  | O => i
  | Datatypes.S n' => if ch (Z.of_nat i) =? 0 then i else name_length n' (Datatypes.S i) ch
  end.

Lemma name_length_range n i ch : (i ≤ name_length n i ch ≤ i + n)%nat.
Proof.
  revert i. induction n as [|n IH]; intros i; simpl; [lia|]. destruct (_ =? 0); [lia|].
  specialize (IH (Datatypes.S i)). lia.
Qed.

Lemma name_length_stops n i ch : (name_length n i ch < i + n)%nat → ch (Z.of_nat (name_length n i ch)) = 0.
Proof.
  revert i. induction n as [|n IH]; intros i; simpl; [lia|]. destruct (Z.eqb_spec (ch (Z.of_nat i)) 0); [done|].
  intros H. apply IH. lia.
Qed.

Lemma copy_name_loop_spec n i ch dst : (i + n = 15)%nat → length dst = 16%nat →
  ∃ dst', copy_name_loop (Datatypes.S n) i ch dst = (name_length n i ch, dst') ∧ length dst' = 16%nat ∧
    (∀ j, (j < i)%nat → dst' !! j = dst !! j) ∧
    (∀ j, (i ≤ j < name_length n i ch)%nat → dst' !! j = Some (ch (Z.of_nat j)) ∧ ch (Z.of_nat j) ≠ 0).
Proof.
  revert i dst. induction n as [|n IH]; intros i dst Hi Hlen.
  - replace i with 15%nat by lia. simpl. exists dst. split_and!; [done..|intros j; lia].
  - cbn [copy_name_loop name_length]. unfold TASK_NAME_MAX.
    rewrite (proj2 (Z.ltb_lt _ _)) by lia. destruct (Z.eqb_spec (ch (Z.of_nat i)) 0) as [E|E]; cbn [negb andb].
    + exists dst. split_and!; [done..|intros j; lia].
    + destruct (IH (Datatypes.S i) (<[i := ch (Z.of_nat i)]> dst)) as (dst' & E' & Hl & Hlow & Hcp);
        [lia|by rewrite length_insert|].
      exists dst'. split_and!; [exact E'|done| |].
      * intros j Hj. rewrite Hlow by lia. apply list_lookup_insert_ne. lia.
      * intros j Hj. destruct (decide (j = i)) as [->|]; [|apply Hcp; lia].
        split; [|done]. rewrite Hlow by lia. apply list_lookup_insert_eq. lia.
Qed.

(** [dst] holds the string at [src], cut to 15 characters. *)
Definition named (rodata : Z → Z) (src : ptr) (dst : list Z) : Prop :=
  let ch := src_char rodata src in
  let n := name_length 15 0 ch in
  length dst = 16%nat ∧ (n ≤ 15)%nat ∧ dst !! n = Some 0 ∧ ((n < 15)%nat → ch (Z.of_nat n) = 0) ∧
  ∀ j, (j < n)%nat → dst !! j = Some (ch (Z.of_nat j)) ∧ ch (Z.of_nat j) ≠ 0.

Lemma copy_task_name_spec rodata dst src : length dst = 16%nat → named rodata src (copy_task_name rodata dst src).
Proof.
  intros Hlen. unfold named. set (ch := src_char rodata src). set (n := name_length 15 0 ch). destruct (copy_name_loop_spec 15 0 ch dst) as (d & E & Hl & _ & Hcp); [done..|].
  unfold copy_task_name. change (Z.to_nat TASK_NAME_MAX) with 16%nat. fold ch. rewrite E. fold n.
  pose proof (name_length_range 15 0 ch) as Hr. fold n in Hr.
  split_and!.
  - by rewrite length_insert.
  - lia.
  - apply list_lookup_insert_eq. lia.
  - intros. by apply (name_length_stops 15 0 ch).
  - intros j Hj. rewrite list_lookup_insert_ne by lia. apply Hcp. fold n. lia.
Qed.

(** ** Taking a task off the scheduler *)

Lemma zoom_sched {X} (m : M sched X) k r s' : m (k_sched k) = Ret r s' →
  zoom m k = Ret r (k <| k_sched := s' |>).
Proof. intros E. exact (zoom_ret (L := kernel_lens) m k r s' E). Qed.

(** [retire] on the scheduler alone, and its specification. *)
Definition sched_retire (x : ptr) (st : task_state_t) : M sched () :=
  irq_state ← zoom critical_enter;
  scheduler_remove_task x ;;
  upd x (set_field state st) ;;
  zoom (critical_exit irq_state).
Definition a_retire (x : ptr) (st : task_state_t) : M asched () :=
  irq_state ← zoom critical_enter;
  a_remove_task x ;;
  a_upd x (set_field state st) ;;
  zoom (critical_exit irq_state).
Definition eff_retire (x : ptr) (st : task_state_t) (a : asched) : asched :=
  set_task x (set_field state st) (eff_remove x a).

Lemma retire_sched x st k : retire x st k = zoom (sched_retire x st) k.
Proof.
  unfold sched_retire. rewrite zoom_bind. unfold retire. apply bind_ext. intros p k1 _.
  rewrite zoom_bind. apply bind_ext. intros [] k2 _. by rewrite zoom_bind.
Qed.

Lemma refines_retire x st : refines abstracts (sched_retire x st) (a_retire x st).
Proof. unfold sched_retire, a_retire. refine_sched; apply refines_remove_task. Qed.

Lemma wf_retired x t st a : wf_out (Some x) a → a_tasks a !! x = Some t → queue_kind st = None →
  wf (set_task x (set_field state st) a).
Proof.
  intros Hwf Ht Hk. apply (wf_settle x (set_field state st t)); simpl.
  - apply wf_set_task; [done|]. intros u _ Hu. split; [by destruct Hu|by left].
  - by rewrite lookup_alter_eq, Ht.
  - by destruct st.
  - by destruct st.
Qed.

Lemma retire_eff x t st a : wf a → a_tasks a !! x = Some t → state t ≠ TASK_STATE_BLOCKED →
  queue_kind st = None →
  a_retire x st a = Ret () (eff_retire x st a) ∧ wf (eff_retire x st a).
Proof.
  intros Hwf Ht Hb Hk. unfold a_retire.
  destruct (remove_eff x t (mask a) (wf_mask _ _ Hwf) Ht Hb) as [Er Hwf1].
  destruct (remove_eff x t a Hwf Ht Hb) as [_ Hwf2].
  assert (wf (eff_retire x st a)) as Hwf3 by (by apply (wf_retired x t)).
  split; [|done]. rewrite enter_ret. run Er.
  run (a_upd_ret (eff_remove x (mask a)) x (set_field state st) (mk_is_Some _ _ Ht)).
  by eapply exit_eff.
Qed.

Lemma retire_ret x t st k a : stands_for (k_sched k) a → a_tasks a !! x = Some t →
  state t ≠ TASK_STATE_BLOCKED → queue_kind st = None →
  ∃ s', retire x st k = Ret () (k <| k_sched := s' |>) ∧ stands_for s' (eff_retire x st a).
Proof.
  intros Hs Ht Hb Hk.
  destruct (refined _ _ _ _ _ _ (refines_retire x st) Hs (retire_eff x t st a (proj2 Hs) Ht Hb Hk))
    as (s' & E & Hs').
  exists s'. split; [|done]. rewrite retire_sched. by apply zoom_sched.
Qed.

Lemma yield_ret k a : stands_for (k_sched k) a →
  ∃ s', zoom scheduler_yield k = Ret () (k <| k_sched := s' |>) ∧ stands_for s' (eff_yield a).
Proof.
  intros Hs. destruct (refined _ _ _ _ _ _ refines_yield Hs (yield_eff a (proj2 Hs))) as (s' & E & Hs').
  exists s'. split; [|done]. by apply zoom_sched.
Qed.

(** The task a call with argument [tcb] is about. *)
Definition target (tcb : ptr) (a : asched) : ptr := if tcb =? NULL then a_current_task a else tcb.

Lemma or_current_ret tcb k a : stands_for (k_sched k) a → or_current tcb k = Ret (target tcb a) k.
Proof.
  intros Hs. unfold or_current, target. destruct (tcb =? NULL); [|done].
  unfold task_get_current. rewrite <- (stands_for_current _ _ Hs). by apply zoom_ret_same.
Qed.

Lemma get_current_kernel k a : stands_for (k_sched k) a → task_get_current k = Ret (a_current_task a) k.
Proof.
  intros Hs. unfold task_get_current. rewrite <- (stands_for_current _ _ Hs). by apply zoom_ret_same.
Qed.

(** ** The task management calls *)

(** Deletion and suspension: off the queues, in the new state; the running task
    asks for a switch. *)
Definition eff_leave (x : ptr) (st : task_state_t) (a : asched) : asched :=
  if x =? a_current_task a then eff_yield (eff_retire x st a) else eff_retire x st a.
Definition eff_resume (x : ptr) (a : asched) : asched := eff_add x (set_task x (set_field state TASK_STATE_READY) a).

(** [x] may be deleted or suspended. *)
Definition can_leave (x : ptr) (a : asched) : Prop :=
  ∃ t, a_tasks a !! x = Some t ∧ state t ≠ TASK_STATE_BLOCKED.

Lemma can_leave_ne x a : wf a → can_leave x a → x ≠ NULL.
Proof. intros Hwf (t & Ht & _). eapply wf_deref; eauto. Qed.

Lemma leave_ret x st k a : stands_for (k_sched k) a → can_leave x a → queue_kind st = None →
  ∃ s1, retire x st k = Ret () (k <| k_sched := s1 |>) ∧ stands_for s1 (eff_retire x st a) ∧
    ∃ s2, (x = a_current_task a → zoom scheduler_yield (k <| k_sched := s1 |>) = Ret () (k <| k_sched := s2 |>)) ∧
      (x ≠ a_current_task a → s2 = s1) ∧ stands_for s2 (eff_leave x st a).
Proof.
  intros Hs (t & Ht & Hb) Hk. destruct (retire_ret x t st k a Hs Ht Hb Hk) as (s1 & E1 & Hs1).
  exists s1. split_and!; [done..|]. unfold eff_leave.
  destruct (Z.eqb_spec x (a_current_task a)) as [Ex|Ex].
  - assert (stands_for (k_sched (k <| k_sched := s1 |>)) (eff_retire x st a)) as Hs1' by done.
    destruct (yield_ret _ _ Hs1') as (s2 & E2 & Hs2). by exists s2.
  - by exists s1.
Qed.

Lemma task_delete_ret tcb k a : stands_for (k_sched k) a → can_leave (target tcb a) a →
  ∃ s', stands_for s' (eff_leave (target tcb a) TASK_STATE_DELETED a) ∧
    task_delete tcb k = if target tcb a =? a_current_task a then Spin (k <| k_sched := s' |>)
                        else Ret KERNEL_OK (k <| k_sched := s' |>).
Proof.
  intros Hs Hl. pose proof (can_leave_ne _ _ (proj2 Hs) Hl) as Hne.
  destruct (leave_ret _ TASK_STATE_DELETED k a Hs Hl eq_refl) as (s1 & E1 & Hs1 & s2 & Ey & Esame & Hs2).
  exists s2. split; [done|]. unfold task_delete. run (or_current_ret tcb _ _ Hs).
  rewrite (proj2 (Z.eqb_neq _ _) Hne). run E1.
  erewrite bind_ret by (apply get_current_kernel; exact Hs1).
  change (a_current_task (eff_retire ?x ?st a)) with (a_current_task a).
  destruct (Z.eqb_spec (target tcb a) (a_current_task a)) as [Ex|Ex].
  - by run (Ey Ex).
  - by rewrite (Esame Ex).
Qed.

Lemma task_suspend_ret switch tcb k a : stands_for (k_sched k) a → can_leave (target tcb a) a →
  ∃ s', stands_for s' (eff_leave (target tcb a) TASK_STATE_SUSPENDED a) ∧
    task_suspend switch tcb k =
      (when (target tcb a =? a_current_task a) (switch_point switch) ;; mret KERNEL_OK) (k <| k_sched := s' |>).
Proof.
  intros Hs Hl. pose proof (can_leave_ne _ _ (proj2 Hs) Hl) as Hne.
  destruct (leave_ret _ TASK_STATE_SUSPENDED k a Hs Hl eq_refl) as (s1 & E1 & Hs1 & s2 & Ey & Esame & Hs2).
  exists s2. split; [done|]. unfold task_suspend. run (or_current_ret tcb _ _ Hs).
  rewrite (proj2 (Z.eqb_neq _ _) Hne). run E1.
  erewrite bind_ret by (apply get_current_kernel; exact Hs1).
  change (a_current_task (eff_retire ?x ?st a)) with (a_current_task a).
  destruct (Z.eqb_spec (target tcb a) (a_current_task a)) as [Ex|Ex]; simpl when.
  - rewrite bind_assoc. by run (Ey Ex).
  - by rewrite (Esame Ex).
Qed.

(** [scheduler_add_task] for a task in transit: no well-formed state needed
    before the call. *)
Lemma add_abs_ret x k a : abstracts (k_sched k) a → wf_out (Some x) a → is_Some (a_tasks a !! x) →
  ∃ s', zoom (scheduler_add_task x) k = Ret () (k <| k_sched := s' |>) ∧ stands_for s' (eff_add x a).
Proof.
  intros HR Hwf Hx. destruct (add_eff x a Hwf Hx) as [E Hwf'].
  destruct (refines_apply _ _ _ _ _ _ _ (refines_add_task x) HR E) as (s' & E' & HR').
  exists s'. split; [by apply zoom_sched|done].
Qed.

Lemma task_resume_ret tcb k a : stands_for (k_sched k) a → (tcb ≠ NULL → is_Some (a_tasks a !! tcb)) →
  if bool_decide (state_of a tcb = Some TASK_STATE_SUSPENDED)
  then ∃ s', task_resume tcb k = Ret KERNEL_OK (k <| k_sched := s' |>) ∧ stands_for s' (eff_resume tcb a)
  else task_resume tcb k = Ret KERNEL_ERR_PARAM k.
Proof.
  intros Hs Hx. unfold task_resume, state_of.
  destruct (Z.eqb_spec tcb NULL) as [->|Hne].
  { rewrite (wf_null _ _ (proj2 Hs)). done. }
  destruct (Hx Hne) as [t Ht]. destruct (same_task_inv _ _ _ _ Hs Ht) as (u & Hu & ->).
  rewrite Ht. simpl. 
  assert (zoom (deref tcb) k = Ret u k) as Ed by (apply zoom_ret_same; simpl; unfold deref; by rewrite Hu).
  rewrite bind_assoc. run Ed. step. change (state (unlink u)) with (state u).
  case_bool_decide as E1; case_bool_decide as E2; simpl; try congruence; [|done].
  assert (link_free (set_field state TASK_STATE_READY)) as Hf by solve_link_free.
  destruct (refines_apply _ _ _ _ _ _ _ (refines_upd tcb _ Hf) (proj1 Hs)
    (a_upd_ret a tcb (set_field state TASK_STATE_READY) (mk_is_Some _ _ Ht))) as (s1 & Eu & HR1).
  run (zoom_sched _ k _ _ Eu).
  assert (wf_out (Some tcb) (set_task tcb (set_field state TASK_STATE_READY) a)) as Hwf1.
  { apply wf_set_task; [|intros v _ Hv; split; [by destruct Hv|by left]].
    apply (wf_unsettle tcb (unlink u)); [apply Hs|done|]. simpl. by rewrite E2. }
  assert (abstracts (k_sched (k <| k_sched := s1 |>)) (set_task tcb (set_field state TASK_STATE_READY) a)) as HR1' by done.
  destruct (add_abs_ret tcb _ _ HR1' Hwf1) as (s2 & E & Hs2).
  { apply set_task_is_Some. by rewrite Ht. }
  exists s2. split; [|done]. by run E.
Qed.

Lemma task_set_priority_ret tcb p k a : stands_for (k_sched k) a → 0 ≤ p < CONFIG_MAX_PRIORITY →
  is_Some (a_tasks a !! target tcb a) →
  ∃ s', task_set_priority tcb p k = Ret KERNEL_OK (k <| k_sched := s' |>) ∧
    stands_for s' (eff_set_priority (target tcb a) p a).
Proof.
  intros Hs Hp Hx. unfold task_set_priority. rewrite (proj2 (Z.leb_gt _ _)) by lia.
  run (or_current_ret tcb _ _ Hs).
  rewrite (proj2 (Z.eqb_neq _ _)) by (eapply wf_deref; [apply Hs|done]).
  destruct (refined _ _ _ _ _ _ (refines_set_priority (target tcb a) p) Hs
    (set_priority_eff (target tcb a) p a (proj2 Hs) ltac:(lia) (λ _, Hx))) as (s' & E & Hs').
  exists s'. split; [|done]. run (zoom_sched _ k _ _ E). done.
Qed.

(** ** Task creation *)

(** The object a creation uses: the caller's, or the first free one of a pool. *)
Definition pick (pool : Z → ptr) (used : list Z) (p : ptr) : option (Z * ptr * list Z) :=
  if p =? NULL
  then (λ j, (Z.of_nat j, pool (Z.of_nat j), <[j := 1]> used)) <$> free_index used
  else Some (-1, p, used).

(** The same for the stack; one of the pool has the default size. *)
Definition pick_stack (pool : Z → ptr) (used : list Z) (p size : Z) : option (ptr * Z * list Z) :=
  if p =? NULL then
    if CONFIG_DEFAULT_STACK_SIZE <? size then None
    else (λ '(_, q, used), (q, CONFIG_DEFAULT_STACK_SIZE, used)) <$> pick pool used p
  else Some (p, size, used).

Definition slots_ok (used : list Z) : Prop := length used = Z.to_nat CONFIG_MAX_TASKS.

Section creation.
Context (g_task_pool g_stack_pool : Z → ptr) (task_exit_trampoline_addr : ptr) (rodata : Z → Z)
  (stale_name : ptr → list Z).

Lemma set_task_slots_same k : k <| g_task_slot_used := g_task_slot_used k |> = k.
Proof using Type. by destruct k. Qed.
Lemma set_stack_slots_same k : k <| g_stack_slot_used := g_stack_slot_used k |> = k.
Proof using Type. by destruct k. Qed.

Lemma create_pick_tcb_ret tcb k : slots_ok (g_task_slot_used k) →
  create_pick_tcb g_task_pool tcb k = match pick g_task_pool (g_task_slot_used k) tcb with
    | Some (slot, p, used) => Ret (inr (slot, p)) (k <| g_task_slot_used := used |>)
    | None => Ret (inl KERNEL_ERR_NO_MEM) k
    end.
Proof using Type.
  intros Hl. unfold create_pick_tcb, pick. destruct (tcb =? NULL).
  - step. rewrite (alloc_slot_spec _ Hl). destruct (free_index _) as [j|]; simpl; step.
    + by rewrite (proj2 (Z.ltb_ge _ _)) by lia.
    + by rewrite set_task_slots_same.
  - by rewrite set_task_slots_same.
Qed.

Lemma create_release_ret slot k : create_release_tcb slot k =
  Ret () (if 0 <=? slot then k <| g_task_slot_used := free_slot (g_task_slot_used k) slot |> else k).
Proof using Type. unfold create_release_tcb. by destruct (0 <=? slot). Qed.

Lemma create_pick_stack_ret slot stack size k : slots_ok (g_stack_slot_used k) →
  create_pick_stack g_stack_pool slot stack size k =
  match pick_stack g_stack_pool (g_stack_slot_used k) stack size with
  | Some (q, sz, used) => Ret (inr (q, sz)) (k <| g_stack_slot_used := used |>)
  | None => (create_release_tcb slot ;; mret (inl KERNEL_ERR_NO_MEM)) k
  end.
Proof using Type.
  intros Hl. unfold create_pick_stack, pick_stack, pick. destruct (stack =? NULL).
  - destruct (_ <? size); [done|]. step. rewrite (alloc_slot_spec _ Hl).
    destruct (free_index _) as [j|]; simpl; step.
    + by rewrite (proj2 (Z.ltb_ge _ _)) by lia.
    + by rewrite set_stack_slots_same.
  - by rewrite set_stack_slots_same.
Qed.

(** Arguments [task_create] accepts. *)
Definition create_args_ok (entry priority stack_size : Z) : bool :=
  negb (entry =? NULL) && (priority <? CONFIG_MAX_PRIORITY) &&
  (CONFIG_MIN_STACK_SIZE <=? stack_size) && (Z.land stack_size 7 =? 0).

Lemma task_create_cases tcb name entry arg priority stack size k :
  slots_ok (g_task_slot_used k) → slots_ok (g_stack_slot_used k) →
  task_create g_task_pool g_stack_pool task_exit_trampoline_addr rodata stale_name
    tcb name entry arg priority stack size k =
  if negb (create_args_ok entry priority size) then Ret KERNEL_ERR_PARAM k else
  match pick g_task_pool (g_task_slot_used k) tcb, pick_stack g_stack_pool (g_stack_slot_used k) stack size with
  | Some (_, p, ut), Some (q, sz, us) =>
      (create_init task_exit_trampoline_addr rodata stale_name p name entry arg priority q sz ;; mret KERNEL_OK)
        (k <| g_task_slot_used := ut |> <| g_stack_slot_used := us |>)
  | _, _ => Ret KERNEL_ERR_NO_MEM k
  end.
Proof using Type.
  intros Ht Hst. unfold task_create, create_args_ok.
  rewrite Z.leb_antisym, (Z.ltb_antisym CONFIG_MIN_STACK_SIZE).
  destruct (entry =? NULL); [done|]. destruct (priority <? _); [|done]. cbn [negb orb andb].
  destruct (_ <=? size); [|done]. cbn [negb orb andb]. destruct (Z.land size 7 =? 0); [|done]. cbn [negb orb andb].
  unfold mbind at 1, M_bind at 1. rewrite (create_pick_tcb_ret _ _ Ht).
  destruct (pick g_task_pool _ tcb) as [[[slot p] ut]|] eqn:Ep; [|done].
  unfold mbind at 1, M_bind at 1. rewrite create_pick_stack_ret by exact Hst.
  change (g_stack_slot_used (k <| g_task_slot_used := ut |>)) with (g_stack_slot_used k).
  destruct (pick_stack _ _ _ _) as [[[q sz] us]|]; [done|].
  rewrite (bind_ret _ _ _ _ _ (create_release_ret _ _)). simpl.
  unfold pick in Ep. destruct (tcb =? NULL).
  - destruct (free_index _) as [j|] eqn:Ej; [|done]. injection Ep as <- <- <-.
    apply free_index_Some in Ej as [Hj _]. rewrite (proj2 (Z.leb_le _ _)) by lia. simpl.
    rewrite free_slot_alloc by done. by destruct k.
  - injection Ep as <- <- <-. simpl. by destruct k.
Qed.

(** A store with a TCB just written. *)
Lemma upd_insert p f t (s : sched) :
  upd p f (s <| tcbs := <[p := t]> (tcbs s) |>) = Ret () (s <| tcbs := <[p := f t]> (tcbs s) |>).
Proof using Type.
  unfold upd. simpl. rewrite lookup_insert_eq, alter_insert_eq. by rewrite set_tcbs_twice.
Qed.

(** The queues after a new task has been added. *)
Lemma eff_add_queues p t a l : a_ready a !! Z.to_nat (priority t) = Some l → fresh_slice t = t →
  let a' := eff_add p (with_task p t a) in
  a_tasks a' !! p = Some t ∧ (∀ y, y ≠ p → a_tasks a' !! y = a_tasks a !! y) ∧
  (a_ready a' = <[Z.to_nat (priority t) := l ++ [p]]> (a_ready a) ∧ a_blocked a' = a_blocked a ∧
   a_current_task a' = a_current_task a ∧ a_tick a' = a_tick a ∧ a_lock a' = a_lock a) ∧
  (∀ v, a_current_task a ≠ p → a_tasks a !! a_current_task a = Some v → a_current_task a ≠ NULL →
    priority t < priority v → pendsv_pending (a_cpu a') = true).
Proof using Type.
  intros Hl Hfresh a'. assert (prio_of (with_task p t a) p = priority t) as Epr by (unfold prio_of; simpl; by rewrite lookup_insert_eq).
  unfold a', eff_add. set (a1 := enqueue _ _ _). set (b := higher a1 p).
  destruct (pend_if_rest b a1) as (-> & -> & -> & -> & -> & ->).
  unfold a1. rewrite Epr. split_and!; try done.
  - simpl. by rewrite lookup_alter_eq, lookup_insert_eq, <- Hfresh.
  - intros y Hy. simpl. by rewrite lookup_alter_ne, lookup_insert_ne.
  - simpl. apply list_eq. intros i. destruct (decide (i = Z.to_nat (priority t))) as [->|].
    + rewrite list_lookup_alter_eq, Hl, list_lookup_insert_eq; [done|by eapply lookup_lt_Some].
    + by rewrite list_lookup_alter_ne, list_lookup_insert_ne.
  - intros v Hc Hv Hn Hlt. assert (b = true) as ->; [|apply trigger_switch_pends].
    unfold b, higher, a1, prio_of. simpl. rewrite (proj2 (Z.eqb_neq _ _)) by done.
    rewrite lookup_alter_eq, lookup_insert_eq, lookup_alter_ne, lookup_insert_ne, Hv by done.
    simpl. by apply Z.ltb_lt.
Qed.

(** What the memory holds after the creation of a task whose stack is the
    [size] bytes at [q]: the initial frame at the top, the fill pattern below,
    and everything else as it was. *)
Definition fresh_stack (q size entry arg : ptr) (m m' : gmap Z Z) : Prop :=
  let top := stack_top_of q size in
  words_at (top - 68) (init_frame entry arg task_exit_trampoline_addr) m' ∧
  (∀ j, 0 ≤ j < size / 4 → q + 4 * j < top - 68 → m' !! (q + 4 * j) = Some TASK_STACK_FILL) ∧
  ∀ x, (x < q ∨ q + 4 * (size / 4) ≤ x) → (x < top - 68 ∨ top ≤ x) → m' !! x = m !! x.

Definition created_tcb (k : kernel) (p name entry arg priority q size : Z) : task_tcb :=
  new_tcb (g_next_task_id k)
    (copy_task_name rodata (match tcbs (k_sched k) !! p with Some t => Task.name t | None => stale_name p end) name)
    entry arg priority q (stack_top_of q size) size <| sp := stack_top_of q size - 68 |>.

Lemma new_task_ok k p name entry arg priority q size : 0 ≤ priority < CONFIG_MAX_PRIORITY →
  task_ok (created_tcb k p name entry arg priority q size).
Proof using Type. intros Hp. split_and!; simpl; try done; unfold CONFIG_TIME_SLICE; lia. Qed.

Lemma create_init_ret k a p name entry arg priority q size : stands_for (k_sched k) a → p ≠ NULL →
  dormant p a → 0 ≤ priority < CONFIG_MAX_PRIORITY → 0 ≤ size →
  ∃ s' m, create_init task_exit_trampoline_addr rodata stale_name p name entry arg priority q size k =
      Ret () (k <| g_next_task_id := u32 (g_next_task_id k + 1) |> <| ram := m |> <| k_sched := s' |>) ∧
    stands_for s' (eff_add p (with_task p (created_tcb k p name entry arg priority q size) a)) ∧
    fresh_stack q size entry arg (ram k) m.
Proof using Type.
  intros Hs Hp Hd Hprio Hsize. set (t := created_tcb k p name entry arg priority q size).
  destruct (fill_stack_ret (Z.to_nat (size / 4)) 0 q k) as (m1 & E1 & Hfill & Hout1).
  set (k1 := k <| ram := m1 |> <| g_next_task_id := u32 (g_next_task_id k + 1) |>
               <| k_sched := k_sched k <| tcbs := <[p := t <| sp := 0 |>]> (tcbs (k_sched k)) |> |>).
  destruct (init_stack_ret (stack_top_of q size) entry arg task_exit_trampoline_addr k1) as (m2 & E2 & Hfr & Hout2).
  assert (abstracts (k_sched k <| tcbs := <[p := t]> (tcbs (k_sched k)) |>) (with_task p t a)) as HR.
  { apply (with_task_abstracts _ _ p t (proj1 Hs) (proj2 Hs)); done. }
  assert (wf_out (Some p) (with_task p t a)) as Hwf.
  { apply with_task_wf; [apply Hs|done..|]. by apply new_task_ok. }
  set (k2 := k1 <| ram := m2 |> <| k_sched := k_sched k <| tcbs := <[p := t]> (tcbs (k_sched k)) |> |>).
  change (abstracts (k_sched k2) (with_task p t a)) in HR.
  destruct (add_abs_ret p k2 (with_task p t a) HR Hwf) as (s' & E3 & Hs').
  { simpl. rewrite lookup_insert_eq. eauto. }
  exists s', m2. split; [|split; [exact Hs'|split; [exact Hfr|]]].
  - unfold create_init. run E1. step. step. rewrite (bind_ret _ _ _ () k1) by done. run E2.
    erewrite bind_ret by (apply zoom_sched; exact (upd_insert p _ _ (k_sched k))). exact E3.
  - assert (0 ≤ size / 4) by (apply Z.div_pos; lia). split.
    + intros j Hj Hlow. rewrite Hout2 by lia. apply Hfill. lia.
    + intros x Hx1 Hx2. rewrite Hout2 by done. apply Hout1. lia.
Qed.

(** What the name field of a TCB holds before the name is copied. *)
Definition old_name (k : kernel) (p : ptr) : list Z :=
  match tcbs (k_sched k) !! p with Some t => Task.name t | None => stale_name p end.

(** C21: A successful [task_create]: the TCB (the caller's or the first free one
    of the pool) is filled in, with the next task id, the name, and the stack
    (the caller's or the first free one of the pool), the stack holds the initial
    frame above the fill pattern, and the task goes to the tail of the ready list
    of its priority, with a switch due if it is more urgent than the running
    task.  No other TCB changes but for its links, no other queue, no memory
    outside the stack and no other variable of the kernel. *)
Theorem task_create_spec tcb name entry arg priority stack size k a slot p ut q sz us l :
  stands_for (k_sched k) a → slots_ok (g_task_slot_used k) → slots_ok (g_stack_slot_used k) →
  create_args_ok entry priority size = true → 0 ≤ priority → 0 ≤ sz →
  pick g_task_pool (g_task_slot_used k) tcb = Some (slot, p, ut) →
  pick_stack g_stack_pool (g_stack_slot_used k) stack size = Some (q, sz, us) →
  p ≠ NULL → dormant p a → a_ready a !! Z.to_nat priority = Some l →
  ∃ k' a' u, task_create g_task_pool g_stack_pool task_exit_trampoline_addr rodata stale_name
      tcb name entry arg priority stack size k = Ret KERNEL_OK k' ∧
    stands_for (k_sched k') a' ∧ tcbs (k_sched k') !! p = Some u ∧
    (Task.id u = g_next_task_id k ∧ Task.entry u = entry ∧ Task.arg u = arg ∧ Task.priority u = priority ∧
     base_priority u = priority ∧ state u = TASK_STATE_READY ∧ stack_base u = q ∧ stack_size u = sz ∧
     stack_top u = stack_top_of q sz ∧ Task.sp u = stack_top_of q sz - 68 ∧ time_slice u = CONFIG_TIME_SLICE ∧
     block_reason u = BLOCK_NONE ∧ block_object u = NULL) ∧
    (length (old_name k p) = 16%nat → named rodata name (Task.name u)) ∧
    (∀ y, y ≠ p → unlink <$> tcbs (k_sched k') !! y = unlink <$> tcbs (k_sched k) !! y) ∧
    (a_ready a' = <[Z.to_nat priority := l ++ [p]]> (a_ready a) ∧ a_blocked a' = a_blocked a ∧
     a_current_task a' = a_current_task a ∧ a_tick a' = a_tick a ∧ a_lock a' = a_lock a) ∧
    (∀ v, current_task (k_sched k) ≠ p → tcbs (k_sched k) !! current_task (k_sched k) = Some v →
      priority < Task.priority v → pendsv_pending (cpu (k_sched k')) = true) ∧
    fresh_stack q sz entry arg (ram k) (ram k') ∧
    k' = k <| g_task_slot_used := ut |> <| g_stack_slot_used := us |> <| g_next_task_id := u32 (g_next_task_id k + 1) |>
           <| ram := ram k' |> <| k_sched := k_sched k' |>.
Proof using Type.
  intros Hs Ht Hst Hargs Hp0 Hsz Ep Eq Hp Hd Hl.
  assert (0 ≤ priority < CONFIG_MAX_PRIORITY) as Hpr.
  { unfold create_args_ok in Hargs. apply andb_prop in Hargs as [[[_ H]%andb_prop _]%andb_prop _].
    apply Z.ltb_lt in H. lia. }
  pose proof (task_create_cases tcb name entry arg priority stack size k Ht Hst) as E.
  rewrite Hargs, Ep, Eq in E. cbn [negb] in E. set (k1 := k <| g_task_slot_used := ut |> <| g_stack_slot_used := us |>) in *.
  destruct (create_init_ret k1 a p name entry arg priority q sz Hs Hp Hd Hpr Hsz) as (s' & m & E1 & Hs' & Hfr).
  rewrite (bind_ret _ _ _ _ _ E1) in E. set (t := created_tcb k1 p name entry arg priority q sz) in *.
  destruct (eff_add_queues p t a l Hl eq_refl) as (Ha & Hother & Hq & Hpend).
  destruct (same_task_inv _ _ _ _ Hs' Ha) as (u & Hu & Eu).
  eexists _, _, u. split; [exact E|]. split; [exact Hs'|]. split; [exact Hu|].
  assert (∀ {B} (f : task_tcb → B), (∀ v, f (unlink v) = f v) → f u = f t) as Hf.
  { intros B f Hf. by rewrite <- Hf, <- Eu. }
  split; [split_and!; by (rewrite Hf; [|done])|].
  split; [intros Hlen; rewrite Hf by done; by apply copy_task_name_spec|].
  split; [|split; [exact Hq|split; [|split; [exact Hfr|done]]]].
  - intros y Hy. pose proof (abs_lookup _ _ y (proj1 Hs')) as E2. pose proof (abs_lookup _ _ y (proj1 Hs)) as E3.
    change (k_sched (k1 <| g_next_task_id := _ |> <| ram := _ |> <| k_sched := s' |>)) with s'. rewrite <- E2, <- E3.
    by apply Hother.
  - intros v Hc Hv Hlt. change (k_sched (k1 <| g_next_task_id := _ |> <| ram := _ |> <| k_sched := s' |>)) with s'.
    rewrite (abs_cpu _ _ (proj1 Hs')). rewrite (stands_for_current _ _ Hs) in *. apply (Hpend (unlink v)); try done.
    + by apply (same_task (k_sched k)).
    + intros En. pose proof (same_task _ _ _ _ Hs Hv) as Hva. by rewrite En, (wf_null _ _ (proj2 Hs)) in Hva.
Qed.

(** C22: A failed [task_create] changes nothing.  It fails with
    [KERNEL_ERR_PARAM] for a null entry, a priority out of range or a stack
    size that is too small or not a multiple of 8, and otherwise with
    [KERNEL_ERR_NO_MEM] when it needs a TCB or a stack of a pool and has none
    left, or needs a stack larger than those of the pool; a TCB taken before
    the stack turned out to be missing is given back. *)
Theorem task_create_errors tcb name entry arg priority stack size k :
  slots_ok (g_task_slot_used k) → slots_ok (g_stack_slot_used k) →
  let call := task_create g_task_pool g_stack_pool task_exit_trampoline_addr rodata stale_name
    tcb name entry arg priority stack size in
  let full used := ∀ j, used !! j ≠ Some 0 in
  ((entry = NULL ∨ CONFIG_MAX_PRIORITY ≤ priority ∨ size < CONFIG_MIN_STACK_SIZE ∨ Z.land size 7 ≠ 0) →
    call k = Ret KERNEL_ERR_PARAM k) ∧
  (create_args_ok entry priority size = true →
    (tcb = NULL ∧ full (g_task_slot_used k)) ∨
    (stack = NULL ∧ (CONFIG_DEFAULT_STACK_SIZE < size ∨ full (g_stack_slot_used k))) →
    call k = Ret KERNEL_ERR_NO_MEM k).
Proof using Type.
  intros Ht Hst call full. unfold call. rewrite task_create_cases by done.
  assert (∀ used, full used → free_index used = None) as Hfull.
  { intros used Hf. destruct (free_index used) as [j|] eqn:E; [|done].
    apply free_index_Some in E as [Hj _]. by destruct (Hf j). }
  split.
  - intros H. replace (create_args_ok entry priority size) with false; [done|]. symmetry.
    unfold create_args_ok. rewrite !andb_false_iff, negb_false_iff, Z.eqb_eq, Z.ltb_ge, Z.leb_gt, Z.eqb_neq. tauto.
  - intros -> H. cbn [negb]. unfold pick, pick_stack.
    destruct H as [[-> Hf]|[-> [Hlt|Hf]]]; simpl.
    + by rewrite (Hfull _ Hf).
    + rewrite (proj2 (Z.ltb_lt _ _)) by done. by destruct (if tcb =? NULL then _ else _) as [[[]]|].
    + unfold pick. simpl. rewrite (Hfull _ Hf). simpl. destruct (_ <? size), (if tcb =? NULL then _ else _) as [[[]]|]; done.
Qed.
End creation.

(** ** Where the initial frame is *)

Lemma land_mask7 x : 0 ≤ x < 2 ^ 32 → Z.land x (not32 7) = 8 * (x / 8).
Proof.
  intros Hx. transitivity (Z.ldiff x (Z.ones 3)).
  - apply Z.bits_inj'. intros i Hi. rewrite Z.land_spec, Z.ldiff_spec, testbit_not32 by lia.
    destruct (decide (i < 32)); [by rewrite bool_decide_true|].
    rewrite bool_decide_false, andb_false_r by done. rewrite <- (u32_small x), testbit_u32 by lia.
    by rewrite bool_decide_false.
  - rewrite Z.ldiff_ones_r, Z.shiftl_mul_pow2, Z.shiftr_div_pow2 by lia. apply Z.mul_comm.
Qed.

(** The stack of a task [task_create] accepts (at least 256 bytes, a
    multiple of 8, not past the end of memory) has its top 8-byte aligned
    within it, at most 7 bytes below its end, and the initial frame of 68 bytes
    fits above its base; a stack aligned to 8 bytes is used to its end. *)
Theorem stack_top_bounds q size entry priority : create_args_ok entry priority size = true →
  0 ≤ q → q + size < 2 ^ 32 →
  let top := stack_top_of q size in
  top mod 8 = 0 ∧ q + size - 7 ≤ top ≤ q + size ∧ q < top - 68 ∧ (q mod 8 = 0 → top = q + size).
Proof.
  unfold create_args_ok, CONFIG_MIN_STACK_SIZE. intros [[_ Hs]%andb_prop Hm]%andb_prop Hq Hend.
  apply Z.leb_le in Hs. apply Z.eqb_eq in Hm. change 7 with (Z.ones 3) in Hm. rewrite Z.land_ones in Hm by lia.
  change (2 ^ 3) with 8 in Hm. unfold stack_top_of.
  apply Z.mod_divide in Hm as [m ->]; [|done].
  assert (4 * (m * 8 / 4) = m * 8) as -> by (replace (m * 8) with (2 * m * 4) by lia; rewrite Z.div_mul; lia).
  rewrite u32_small, land_mask7 by lia. cbv zeta.
  pose proof (Z.div_mod (q + m * 8) 8 ltac:(lia)). pose proof (Z.mod_pos_bound (q + m * 8) 8 ltac:(lia)).
  rewrite (Z.mul_comm 8), Z.mod_mul by lia. split_and!; [done|lia..|]. intros Hq8.
  rewrite Z.mod_add in * by lia. lia.
Qed.

(** ** Delays in milliseconds *)

(** C39: [task_delay_ms] delays by [ms] ticks up to 4294967 ms (about 72 minutes).
    Beyond that the product wraps around and the delay is shorter than asked
    for, at most 4294967 ticks; 4294968 ms is no delay at all. *)
Theorem task_delay_ms_bounds switch ms : 0 ≤ ms < 2 ^ 32 →
  (ms ≤ 4294967 → task_delay_ms switch ms = task_delay switch ms) ∧
  (4294967 < ms → ∃ n, 0 ≤ n ≤ 4294967 ∧ n < ms ∧ task_delay_ms switch ms = task_delay switch n) ∧
  task_delay_ms switch 4294968 = task_delay switch 0.
Proof.
  change (2 ^ 32) with 4294967296. intros Hms. unfold task_delay_ms, CONFIG_TICK_RATE_HZ. split_and!.
  - intros Hle. rewrite u32_small by lia. by rewrite Z.div_mul.
  - intros Hlt. exists (u32 (ms * 1000) / 1000). split_and!; [| | |done].
    + apply Z.div_pos; [apply u32_range|lia].
    + pose proof (u32_range (ms * 1000)). change (2 ^ 32) with 4294967296 in *.
      pose proof (Z.div_lt_upper_bound (u32 (ms * 1000)) 1000 4294968). lia.
    + pose proof (u32_range (ms * 1000)). change (2 ^ 32) with 4294967296 in *.
      apply Z.div_lt_upper_bound; lia.
  - done.
Qed.

(** ** Instances *)

Definition NEW : ptr := 0x400.
Definition NEW_STACK : ptr := 0x20240000.
Definition example_running : kernel :=
  mkKernel example_boot KERNEL_STATE_RUNNING (replicate 16 0) (replicate 16 0) 4 ∅ 0 0 0 0 CONFIG_CPU_CLOCK_HZ.
Definition example_create (tcb stack size : Z) : M kernel Z :=
  task_create (λ i, 0x20210000 + 0x100 * i) (λ i, 0x20220000 + 1024 * i) 0x60004001 (λ _, 0)
    (λ _, replicate 16 0xFF) tcb NULL 0x60005001 7 3 stack size.

Lemma task_create_spec_witness : ∃ k' u, example_create NEW NEW_STACK 512 example_running = Ret KERNEL_OK k' ∧
  tcbs (k_sched k') !! NEW = Some u ∧ Task.entry u = 0x60005001 ∧ Task.priority u = 3 ∧
  Task.sp u = stack_top_of NEW_STACK 512 - 68.
Proof.
  assert (a_ready example_boot_abs !! Z.to_nat 3 = Some [LOW]) as Hl by (vm_compute; reflexivity).
  assert (dormant NEW example_boot_abs) as Hd.
  { assert (a_tasks example_boot_abs !! NEW = None) as E by (vm_compute; reflexivity). unfold dormant. by rewrite E. }
  destruct (task_create_spec (λ i, 0x20210000 + 0x100 * i) (λ i, 0x20220000 + 1024 * i) 0x60004001 (λ _, 0)
    (λ _, replicate 16 0xFF) NEW NULL 0x60005001 7 3 NEW_STACK 512 example_running example_boot_abs
    (-1) NEW (replicate 16 0) NEW_STACK 512 (replicate 16 0) [LOW] example_boot_stands eq_refl eq_refl eq_refl
    ltac:(lia) ltac:(lia) eq_refl eq_refl ltac:(done) Hd Hl)
    as (k' & _ & u & E & _ & Hu & (_ & Ee & _ & Ep & _ & _ & _ & _ & _ & Es & _) & _).
  exists k', u. split; [exact E|]. split; [exact Hu|]. split; [exact Ee|]. split; [exact Ep|exact Es].
Defined.

(** A stack of 2048 bytes does not come from the pool; the TCB taken first is
    given back. *)
Lemma task_create_errors_witness : example_create NULL NULL 2048 example_running = Ret KERNEL_ERR_NO_MEM example_running ∧
  example_create NEW NEW_STACK 255 example_running = Ret KERNEL_ERR_PARAM example_running.
Proof.
  split.
  - apply (task_create_errors (λ i, 0x20210000 + 0x100 * i) (λ i, 0x20220000 + 1024 * i) 0x60004001 (λ _, 0)
      (λ _, replicate 16 0xFF) NULL NULL 0x60005001 7 3 NULL 2048 example_running eq_refl eq_refl); [reflexivity|].
    right. split; [reflexivity|]. left. reflexivity.
  - apply (task_create_errors (λ i, 0x20210000 + 0x100 * i) (λ i, 0x20220000 + 1024 * i) 0x60004001 (λ _, 0)
      (λ _, replicate 16 0xFF) NEW NULL 0x60005001 7 3 NEW_STACK 255 example_running eq_refl eq_refl).
    right. right. left. reflexivity.
Defined.

Lemma stack_top_bounds_witness : stack_top_of NEW_STACK 512 = NEW_STACK + 512.
Proof.
  apply (stack_top_bounds NEW_STACK 512 0x60005001 3); [reflexivity|discriminate|reflexivity|reflexivity].
Defined.

Lemma task_delay_ms_bounds_witness : task_delay_ms (mret ()) 500 = task_delay (mret ()) 500 ∧
  task_delay_ms (mret ()) 4294968 = task_delay (mret ()) 0.
Proof.
  destruct (task_delay_ms_bounds (mret ()) 500) as (H & _ & H'); [split; [discriminate|reflexivity]|].
  split; [apply H; discriminate|exact H'].
Defined.
