(* ===== verification/SystemSpec.v ===== *)
(** * The calls of the kernel and what they mean

    The calls that make up a running kernel, and what each of them does to the
    abstract scheduler state, as a function. *)
From S2P Require Import Prelude Config Task Critical Bitmap TcbList Scheduler SchedSpec.
From S2P Require Import SchedInv SchedEffect SchedFrame SchedProps Kernel KernelProps.

Inductive call : Type :=
| Create (tcb name entry arg : ptr) (priority stack stack_size : Z)
| Delete (tcb : ptr)
| Suspend (tcb : ptr)
| Retire (tcb : ptr) (st : task_state_t)
| Resume (tcb : ptr)
| SetPriority (tcb : ptr) (priority : Z)
| Yield
| Block (reason : block_reason_t) (object : ptr) (timeout : Z)
| Unblock (tcb : ptr) (result : Z)
| UnblockOne (reason : block_reason_t) (object : ptr) (result : Z)
| UnblockAll (reason : block_reason_t) (object : ptr) (result : Z)
| Lock
| Unlock
| Start
| Tick
| Switch.

(** A creation is left out: its effect is [acall_create] below. *)
Definition eff_call (c : call) (a : asched) : asched :=
  match c with
  | Create _ _ _ _ _ _ _ => a
  | Delete tcb => eff_leave (target tcb a) TASK_STATE_DELETED a
  | Suspend tcb => eff_leave (target tcb a) TASK_STATE_SUSPENDED a
  | Retire tcb st => eff_retire tcb st a
  | Resume tcb => if bool_decide (state_of a tcb = Some TASK_STATE_SUSPENDED) then eff_resume tcb a else a
  | SetPriority tcb p => if CONFIG_MAX_PRIORITY <=? p then a else eff_set_priority (target tcb a) p a
  | Yield => eff_yield a
  | Block reason object timeout => eff_block reason object timeout a
  | Unblock tcb result => if bool_decide (tcb ∈ a_blocked a) then eff_unblock tcb result a else a
  | UnblockOne reason object result => eff_unblock_one reason object result a
  | UnblockAll reason object result => eff_unblock_all reason object result a
  | Lock => eff_lock a
  | Unlock => eff_unlock a
  | Start => eff_start a
  | Tick => eff_tick a
  | Switch => eff_switch a
  end.

(** The task a call may stop. *)
Definition stopped (c : call) (a : asched) : option ptr :=
  match c with
  | Delete tcb | Suspend tcb => Some (target tcb a)
  | Retire tcb _ => Some tcb
  | Block _ _ _ => Some (a_current_task a)
  | _ => None
  end.

(** The steps of the abstract system: a call that stops a task names one that is
    not blocked; a creation is refused, or it adds a task. *)
Inductive acall : call → asched → asched → Prop :=
| acall_eff c a : (∀ x, stopped c a = Some x → can_leave x a) → acall c a (eff_call c a)
| acall_create tcb name entry arg priority stack size p t a : dormant p a → fresh_slice t = t →
    acall (Create tcb name entry arg priority stack size) a (eff_add p (with_task p t a)).

Lemma evolves_retire x st a : evolves (Some x) a (eff_retire x st a).
Proof.
  transitivity (eff_remove x a); [by apply evolves_tasks|]. apply evolves_set_task; [done|by left].
Qed.

Lemma evolves_leave x st a : evolves (Some x) a (eff_leave x st a).
Proof.
  unfold eff_leave. pose proof (evolves_retire x st a).
  destruct (_ =? _); [|done]. etransitivity; [done|apply evolves_yield].
Qed.

Lemma evolves_resume o x a : evolves o a (eff_resume x a).
Proof.
  etransitivity; [|apply evolves_add]. apply evolves_set_task; [done|by right].
Qed.

Lemma evolves_switch o a : evolves o a (eff_switch a).
Proof. by apply evolves_tasks. Qed.

#[export] Hint Resolve evolves_retire evolves_leave evolves_resume evolves_switch : evolves.

(** No call creates or destroys a task, and none but the running task or the one
    named by a deletion or suspension stops being runnable. *)
Lemma evolves_call c a : evolves (stopped c a) a (eff_call c a).
Proof.
  destruct c; simpl; try done; auto with evolves.
  - by case_bool_decide; auto with evolves.
  - by destruct (_ <=? _); auto with evolves.
  - by case_bool_decide; auto with evolves.
Qed.

Lemma eff_add_tick x a : a_tick (eff_add x a) = a_tick a.
Proof. unfold eff_add. by destruct (higher _ _). Qed.

Lemma eff_unblock_tick x r a : a_tick (eff_unblock x r a) = a_tick a.
Proof. unfold eff_unblock. by destruct (higher _ _). Qed.

Lemma eff_yield_tick a : a_tick (eff_yield a) = a_tick a.
Proof. apply eff_yield_tasks. Qed.

(** Only ticks count. *)
Lemma eff_call_tick c a : wf a → a_tick (eff_call c a) = match c with Tick => u32 (a_tick a + 1) | _ => a_tick a end.
Proof.
  intros Hwf. destruct c; simpl; try done.
  - unfold eff_leave. by destruct (_ =? _); rewrite ?eff_yield_tick.
  - unfold eff_leave. by destruct (_ =? _); rewrite ?eff_yield_tick.
  - case_bool_decide; [unfold eff_resume; by rewrite eff_add_tick|done].
  - destruct (_ <=? _); [done|]. unfold eff_set_priority. destruct (_ || _); [done|].
    case_bool_decide; [by rewrite eff_add_tick|done].
  - apply eff_yield_tick.
  - case_bool_decide; [apply eff_unblock_tick|done].
  - unfold eff_unblock_one. destruct (_ =? _); [done|apply eff_unblock_tick].
  - unfold eff_unblock_all, wake_waiters. set (b := 0 <? _).
    destruct (pend_if_rest b (wake_many (waits a reason object) (λ _, woken result) (a_blocked a) a)) as (_&_&->&_).
    by destruct (wake_many_rest (waits a reason object) (λ _, woken result) (a_blocked a) a) as (?&_).
  - unfold eff_unlock. by destruct (_ && _).
  - by destruct (eff_tick_rest a Hwf).
Qed.
