(* ===== verification/System.v ===== *)
(** * The kernel as a system

    The tasks and interrupts of a running kernel as a transition system: a step
    is one call of the kernel's interface, up to the point where it gives up
    the processor, one timer tick, or one context switch.  The calls come in
    any order, subject to what the code needs of its callers ([allowed]): a TCB
    argument is a task, and nobody suspends or deletes a blocked task or the
    idle task ([suspend_blocked_loses_sleepers] shows what happens otherwise).
    The invariant [kernel_ok] holds in every state reachable from [kernel_init],
    and every allowed call has an outcome. *)
From S2P Require Import Prelude Config Task Critical Bitmap TcbList Scheduler SchedSpec.
From S2P Require Import SchedRefine SchedInv SchedEffect SchedFrame SchedIface Sync Checker Example.
From S2P Require Import SchedProps Kernel Context KernelProps SystemSpec.

(** The objects the linker places: pools of distinct TCBs and stacks, apart
    from the idle task's. *)
Record layout_ok (g_task_pool g_stack_pool : Z → ptr) (g_idle_tcb g_idle_stack : ptr) : Prop := {
  idle_tcb_null : g_idle_tcb ≠ NULL;
  idle_stack_null : g_idle_stack ≠ NULL;
  task_pool_null i : 0 ≤ i < CONFIG_MAX_TASKS → g_task_pool i ≠ NULL;
  task_pool_idle i : 0 ≤ i < CONFIG_MAX_TASKS → g_task_pool i ≠ g_idle_tcb;
  task_pool_inj i j : 0 ≤ i < CONFIG_MAX_TASKS → 0 ≤ j < CONFIG_MAX_TASKS →
    g_task_pool i = g_task_pool j → i = j;
  stack_pool_null i : 0 ≤ i < CONFIG_MAX_TASKS → g_stack_pool i ≠ NULL;
  stack_pool_idle i : 0 ≤ i < CONFIG_MAX_TASKS → g_stack_pool i ≠ g_idle_stack;
  stack_pool_inj i j : 0 ≤ i < CONFIG_MAX_TASKS → 0 ≤ j < CONFIG_MAX_TASKS →
    g_stack_pool i = g_stack_pool j → i = j;
}.

(** ** Calls *)

Section system.
Context (g_task_pool g_stack_pool : Z → ptr) (g_idle_tcb g_idle_stack : ptr).
Context (task_exit_trampoline_addr idle_task_addr idle_name : ptr) (rodata : Z → Z) (stale_name : ptr → list Z).

(** The code of a call.  A switch it asks for is a step of its own, and so is
    the first of the two critical sections of [task_suspend] and [task_delete]:
    a task that suspends or deletes itself may be interrupted and preempted
    between [Retire] and the [Yield] that follows. *)
Definition exec (c : call) : M kernel () :=
  match c with
  | Create tcb name entry arg priority stack size =>
      task_create g_task_pool g_stack_pool task_exit_trampoline_addr rodata stale_name
        tcb name entry arg priority stack size ;; mret ()
  | Delete tcb => task_delete tcb ;; mret ()
  | Suspend tcb => task_suspend (mret ()) tcb ;; mret ()
  | Retire tcb st => retire tcb st
  | Resume tcb => task_resume tcb ;; mret ()
  | SetPriority tcb p => task_set_priority tcb p ;; mret ()
  | Yield => task_yield (mret ())
  | Block reason object timeout => zoom (block_task_enter reason object timeout) ;; mret ()
  | Unblock tcb result => zoom (scheduler_unblock_task tcb result)
  | UnblockOne reason object result => zoom (scheduler_unblock_one reason object result) ;; mret ()
  | UnblockAll reason object result => zoom (scheduler_unblock_all reason object result) ;; mret ()
  | Lock => zoom scheduler_lock
  | Unlock => zoom scheduler_unlock
  | Start => kernel_start ;; mret ()
  | Tick => zoom scheduler_tick
  | Switch => zoom switch_context
  end.

(** The call returns, or waits in [k'] for a switch that takes the processor
    away for good ([task_delete] of the running task). *)
Definition ends (m : M kernel ()) (k k' : kernel) : Prop := m k = Ret () k' ∨ m k = Spin k'.

Definition tcb_at (k : kernel) (x : ptr) : option task_tcb := tcbs (k_sched k) !! x.
Definition state_at (k : kernel) (x : ptr) : option task_state_t := state <$> tcb_at k x.
Definition running (k : kernel) : ptr := current_task (k_sched k).
Definition target_of (k : kernel) (tcb : ptr) : ptr := if tcb =? NULL then running k else tcb.

(** [x] may be taken off the queues: a task other than the idle task that is
    not blocked. *)
Definition may_leave (k : kernel) (x : ptr) : Prop :=
  x ≠ g_idle_tcb ∧ ∃ t, tcb_at k x = Some t ∧ state t ≠ TASK_STATE_BLOCKED.

(** What the code needs of its callers: the TCBs named are tasks, a TCB handed to
    [task_create] is not in use, TCBs and stacks handed to it are not those of
    the pools, and no call takes a blocked task or the idle task off its queue. *)
Definition allowed (k : kernel) (c : call) : Prop :=
  match c with
  | Create tcb _ _ _ priority stack size => 0 ≤ priority ∧ 0 ≤ size ∧
      (tcb ≠ NULL → (∀ t, tcb_at k tcb = Some t → queue_kind (state t) = None) ∧
        ∀ i, 0 ≤ i < CONFIG_MAX_TASKS → tcb ≠ g_task_pool i) ∧
      (stack ≠ NULL → ∀ i, 0 ≤ i < CONFIG_MAX_TASKS → stack ≠ g_stack_pool i)
  | Delete tcb | Suspend tcb => may_leave k (target_of k tcb)
  | Retire tcb st => may_leave k tcb ∧ queue_kind st = None
  | Resume tcb | Unblock tcb _ => tcb ≠ NULL → is_Some (tcb_at k tcb)
  | SetPriority tcb p => 0 ≤ p ∧ is_Some (tcb_at k (target_of k tcb))
  | Block _ _ _ => may_leave k (running k)
  | Start => g_kernel_state k = KERNEL_STATE_INIT
  | Yield | UnblockOne _ _ _ | UnblockAll _ _ _ | Lock | Unlock | Tick | Switch => True
  end.

Inductive step (k k' : kernel) : Prop :=
| step_call c : allowed k c → ends (exec c) k k' → step k k'.

(** Memory as it is before [kernel_init]. *)
Record cold (k : kernel) : Prop := {
  cold_state : g_kernel_state k = KERNEL_STATE_UNINIT;
  cold_tcbs : tcbs (k_sched k) = ∅;
  cold_task_slots : g_task_slot_used k = replicate (Z.to_nat CONFIG_MAX_TASKS) 0;
  cold_stack_slots : g_stack_slot_used k = replicate (Z.to_nat CONFIG_MAX_TASKS) 0;
  cold_cpu : cpu_wf (cpu (k_sched k));
}.

Definition boot : M kernel Z :=
  kernel_init g_task_pool g_stack_pool g_idle_tcb g_idle_stack task_exit_trampoline_addr idle_task_addr
    idle_name rodata stale_name.

Definition reachable (k : kernel) : Prop := ∃ k0 r k1, cold k0 ∧ boot k0 = Ret r k1 ∧ rtc step k1 k.

(** ** The invariant *)

Record kernel_ok (k : kernel) : Prop := {
  ok_sched : ∃ a, stands_for (k_sched k) a;
  ok_idle : ∃ t, tcb_at k g_idle_tcb = Some t ∧ runnable (state t) = true;
  ok_task_slots : slots_ok (g_task_slot_used k);
  ok_stack_slots : slots_ok (g_stack_slot_used k);
  ok_free_task j : g_task_slot_used k !! j = Some 0 → tcb_at k (g_task_pool (Z.of_nat j)) = None;
  ok_free_stack j x t : g_stack_slot_used k !! j = Some 0 → tcb_at k x = Some t →
    stack_base t ≠ g_stack_pool (Z.of_nat j);
  ok_stacks i x y t u : 0 ≤ i < CONFIG_MAX_TASKS → tcb_at k x = Some t → tcb_at k y = Some u →
    stack_base t = g_stack_pool i → stack_base u = g_stack_pool i → x = y;
}.

(** An operation of the scheduler keeps the invariant. *)
Lemma stands_evolves s s' a a' o x : stands_for s a → stands_for s' a' → evolves o a a' →
  task_evolves (bool_decide (o = Some x)) (tcbs s !! x) (tcbs s' !! x).
Proof using Type.
  intros [HR _] [HR' _] He. specialize (He x). rewrite (abs_lookup _ _ _ HR), (abs_lookup _ _ _ HR') in He.
  by destruct (tcbs s !! x), (tcbs s' !! x).
Qed.

Lemma kernel_ok_evolves k s' a a' o : kernel_ok k → stands_for (k_sched k) a → stands_for s' a' →
  evolves o a a' → o ≠ Some g_idle_tcb → kernel_ok (k <| k_sched := s' |>).
Proof using Type.
  intros [_ (t0 & Ht0 & Hr0) Hts Hss Hft Hfs Hst] Hs Hs' He Ho.
  pose proof (λ x, stands_evolves _ _ _ _ o x Hs Hs' He) as Hev. unfold tcb_at in *.
  assert (∀ x t', tcbs s' !! x = Some t' → ∃ t, tcbs (k_sched k) !! x = Some t ∧ stack_base t' = stack_base t) as Hback.
  { intros x t' Ht'. specialize (Hev x). rewrite Ht' in Hev. destruct (tcbs (k_sched k) !! x) as [t|]; [|done].
    destruct Hev as [Hid _]. exists t. split; [done|]. by injection Hid. }
  split; unfold tcb_at; simpl; try done.
  - eauto.
  - specialize (Hev g_idle_tcb). rewrite Ht0, bool_decide_false in Hev by done.
    destruct (tcbs s' !! g_idle_tcb) as [t|]; [|done]. exists t. split; [done|]. by apply Hev.
  - intros j Hj. specialize (Hev (g_task_pool (Z.of_nat j))). rewrite (Hft _ Hj) in Hev.
    by destruct (tcbs s' !! _).
  - intros j x t Hj (u & Hu & ->)%Hback. by eapply Hfs.
  - intros i x y t u Hi (t' & Ht & ->)%Hback (u' & Hu & ->)%Hback. by eapply Hst.
Qed.

(** ** Every allowed call has an outcome and keeps the invariant *)

Lemma may_leave_target k a tcb : stands_for (k_sched k) a → may_leave k (target_of k tcb) →
  target tcb a = target_of k tcb ∧ can_leave (target tcb a) a ∧ target tcb a ≠ g_idle_tcb.
Proof using Type.
  intros Hs [Hi (t & Ht & Hb)].
  assert (target tcb a = target_of k tcb) as E.
  { unfold target, target_of, running. by rewrite (stands_for_current _ _ Hs). }
  rewrite E. split_and!; [done| |done]. exists (unlink t). split; [|done]. by apply (same_task _ _ _ _ Hs).
Qed.

(** A call that only works on the scheduler does what [eff_call] says. *)
Definition sched_outcome (c : call) (k : kernel) (a : asched) : Prop := ∃ s',
  ends (exec c) k (k <| k_sched := s' |>) ∧ stands_for s' (eff_call c a).

Lemma sched_call {X} (m : M sched X) (am : M asched X) c k a r :
  exec c = (zoom m ;; mret ()) → refines abstracts m am → stands_for (k_sched k) a →
  am a = Ret r (eff_call c a) ∧ wf (eff_call c a) → sched_outcome c k a.
Proof using Type.
  intros Ec Hm Hs Ha. destruct (refined _ _ _ _ _ _ Hm Hs Ha) as (s' & E & Hs').
  exists s'. split; [|done]. left. rewrite Ec. by run (zoom_sched _ k _ _ E).
Qed.

(** The same for a routine without a result. *)
Lemma sched_call_unit (m : M sched ()) (am : M asched ()) c k a :
  exec c = zoom m → refines abstracts m am → stands_for (k_sched k) a →
  am a = Ret () (eff_call c a) ∧ wf (eff_call c a) → sched_outcome c k a.
Proof using Type.
  intros Ec Hm Hs Ha. destruct (refined _ _ _ _ _ _ Hm Hs Ha) as (s' & E & Hs').
  exists s'. split; [|done]. left. rewrite Ec. by apply zoom_sched.
Qed.

(** A call that changes nothing. *)
Lemma sched_call_same c k a : stands_for (k_sched k) a → ends (exec c) k k → eff_call c a = a → sched_outcome c k a.
Proof using Type. intros Hs He Ea. exists (k_sched k). rewrite Ea. split; [by destruct k|done]. Qed.

Lemma known_task k a x : stands_for (k_sched k) a → is_Some (tcb_at k x) → is_Some (a_tasks a !! x).
Proof using Type. intros Hs [t Ht]. rewrite (same_task _ _ _ _ Hs Ht). eauto. Qed.

(** With nobody to switch to, a switch point does nothing. *)
Lemma switch_point_idle (k : kernel) : switch_point (mret ()) k = Ret () k.
Proof using Type.
  unfold switch_point. erewrite bind_ret by (apply (zoom_ret_same (S := sched)); reflexivity).
  by destruct (pendsv_taken _).
Qed.

Lemma when_switch_idle b (k : kernel) : when b (switch_point (mret ())) k = Ret () k.
Proof using Type. destruct b; [apply switch_point_idle|done]. Qed.

Lemma wf_unblock_call x r a : wf a → wf (if bool_decide (x ∈ a_blocked a) then eff_unblock x r a else a).
Proof using Type. intros Hwf. case_bool_decide; [by apply wf_eff_unblock|done]. Qed.

(** The calls that change more than the scheduler. *)
Definition beyond_sched (c : call) : bool :=
  match c with Create _ _ _ _ _ _ _ | Start => true | _ => false end.

Lemma exec_outcome c k a : stands_for (k_sched k) a → allowed k c → beyond_sched c = false → sched_outcome c k a.
Proof using Type.
  intros Hs Hal Hnc. destruct c as [|tcb|tcb|tcb st|tcb|tcb p| |reason obj timeout|tcb r|reason obj r|reason obj r| | | | |]; try done;
    cbn [allowed] in Hal.
  - destruct (may_leave_target _ _ _ Hs Hal) as (_ & Hl & Hi).
    destruct (task_delete_ret tcb k a Hs Hl) as (s' & Hs' & E).
    exists s'. split; [|done]. unfold ends. cbn [exec].
    unfold mbind, M_bind. rewrite E. destruct (_ =? _); [by right|by left].
  - destruct (may_leave_target _ _ _ Hs Hal) as (_ & Hl & Hi).
    destruct (task_suspend_ret (mret ()) tcb k a Hs Hl) as (s' & Hs' & E).
    exists s'. split; [|done]. left. cbn [exec].
    unfold mbind at 1, M_bind at 1. rewrite E. by run (when_switch_idle (target tcb a =? a_current_task a) (k <| k_sched := s' |>)).
  - destruct Hal as [[Hi (t & Ht & Hb)] Hq]. pose proof (same_task _ _ _ _ Hs Ht) as Ha.
    destruct (retire_ret tcb (unlink t) st k a Hs Ha Hb Hq) as (s' & E & Hs').
    exists s'. split; [by left|done].
  - pose proof (task_resume_ret tcb k a Hs (λ H, known_task _ _ _ Hs (Hal H))) as Hr.
    unfold sched_outcome. simpl eff_call. case_bool_decide.
    + destruct Hr as (s' & E & Hs'). exists s'. split; [|done]. left. cbn [exec]. by run E.
    + exists (k_sched k). split; [|done]. left. cbn [exec]. run Hr. by destruct k.
  - destruct Hal as [Hp Hx]. assert (target tcb a = target_of k tcb) as Et.
    { unfold target, target_of, running. by rewrite (stands_for_current _ _ Hs). }
    rewrite <- Et in Hx. apply (known_task _ _ _ Hs) in Hx.
    destruct (Z.leb_spec CONFIG_MAX_PRIORITY p) as [Hge|Hlt].
    + apply sched_call_same; [done|left|]; cbn [exec eff_call]; unfold task_set_priority;
        by rewrite (proj2 (Z.leb_le _ _)) by done.
    + destruct (task_set_priority_ret tcb p k a Hs (conj Hp Hlt) Hx) as (s' & E & Hs').
      exists s'. cbn [eff_call]. rewrite (proj2 (Z.leb_gt _ _)) by done. split; [|done].
      left. cbn [exec]. by run E.
  - destruct (yield_ret k a Hs) as (s' & E & Hs'). exists s'.
    split; [|done]. left. cbn [exec]. unfold task_yield. run E.
    exact (switch_point_idle (k <| k_sched := s' |>)).
  - pose proof (stands_for_current _ _ Hs) as Ec. destruct Hal as [Hi (t & Ht & Hb)]. unfold running in *.
    rewrite Ec in *. pose proof (same_task _ _ _ _ Hs Ht) as Ha.
    eapply sched_call; [done|apply (refines_block_task_enter reason obj timeout)|done|].
    exact (block_eff reason obj timeout a _ (proj2 Hs) Ha Hb).
  - eapply sched_call_unit; [done|apply (refines_unblock_task tcb r)|done|split; [|apply wf_unblock_call, Hs]].
    apply unblock_task_eff; [apply Hs|]. intros H. by apply (known_task _ _ _ Hs), Hal.
  - eapply sched_call; [done|apply refines_unblock_one|done|apply unblock_one_eff, Hs].
  - eapply sched_call; [done|apply refines_unblock_all|done|apply unblock_all_eff, Hs].
  - eapply sched_call_unit; [done|apply refines_lock|done|apply lock_eff, Hs].
  - eapply sched_call_unit; [done|apply refines_unlock|done|apply unlock_eff, Hs].
  - eapply sched_call_unit; [done|apply refines_tick|done|apply tick_eff, Hs].
  - destruct (switch_stands _ _ Hs) as (s' & E & Hs'). exists s'.
    split; [|done]. left. cbn [exec]. by apply zoom_sched.
Qed.

(** No call stops the idle task, or a blocked one. *)
Lemma stopped_leaves c k a x : stands_for (k_sched k) a → allowed k c → stopped c a = Some x →
  can_leave x a ∧ x ≠ g_idle_tcb.
Proof using Type.
  intros Hs Hal. pose proof (stands_for_current _ _ Hs) as Ec.
  assert (∀ y, may_leave k y → can_leave y a ∧ y ≠ g_idle_tcb) as Hmay.
  { intros y [Hi (t & Ht & Hb)]. split; [|done]. exists (unlink t). split; [by apply (same_task _ _ _ _ Hs)|done]. }
  destruct c; cbn [allowed stopped] in *; intros [= <-].
  - destruct (may_leave_target _ _ _ Hs Hal) as (_ & ? & ?). done.
  - destruct (may_leave_target _ _ _ Hs Hal) as (_ & ? & ?). done.
  - apply Hmay, Hal.
  - rewrite <- Ec. by apply Hmay.
Qed.

(** *** Creation *)

(** What a creation takes: the caller's object, or a free one of the pool. *)
Definition taken_from (pool : Z → ptr) (used : list Z) (p q : ptr) (used' : list Z) : Prop :=
  (p ≠ NULL ∧ q = p ∧ used' = used) ∨
  (p = NULL ∧ ∃ j, (j < Z.to_nat CONFIG_MAX_TASKS)%nat ∧ used !! j = Some 0 ∧ q = pool (Z.of_nat j) ∧
    used' = <[j := 1]> used).

Lemma pick_taken pool used p slot q used' : slots_ok used → pick pool used p = Some (slot, q, used') →
  slots_ok used' ∧ taken_from pool used p q used'.
Proof using Type.
  unfold pick, slots_ok. intros Hl. destruct (Z.eqb_spec p NULL) as [->|Hp].
  - intros (j & Ej & [= -> -> ->])%fmap_Some. apply free_index_Some in Ej as [Hj Hlt]. split.
    + by rewrite length_insert.
    + right. split; [done|]. exists j. split_and!; [lia|done..].
  - intros [= <- <- <-]. split; [done|by left].
Qed.

Lemma pick_stack_taken pool used p size q sz used' : slots_ok used → 0 ≤ size →
  pick_stack pool used p size = Some (q, sz, used') →
  slots_ok used' ∧ taken_from pool used p q used' ∧ 0 ≤ sz.
Proof using Type.
  unfold pick_stack. intros Hl Hs. destruct (Z.eqb_spec p NULL) as [->|Hp].
  - destruct (_ <? size); [done|]. intros ([[slot r] u] & E & [= -> -> ->])%fmap_Some.
    destruct (pick_taken _ _ _ _ _ _ Hl E). by split_and!.
  - intros [= <- <- <-]. split_and!; [done|by left|done].
Qed.

(** A slot still free after the taking was free before, and its object is not
    the one taken. *)
Lemma taken_free pool used p q used' j : slots_ok used → taken_from pool used p q used' →
  (∀ i i', 0 ≤ i < CONFIG_MAX_TASKS → 0 ≤ i' < CONFIG_MAX_TASKS → pool i = pool i' → i = i') →
  (p ≠ NULL → ∀ i, 0 ≤ i < CONFIG_MAX_TASKS → p ≠ pool i) →
  used' !! j = Some 0 → used !! j = Some 0 ∧ q ≠ pool (Z.of_nat j).
Proof using Type.
  intros Hl [(Hp & -> & ->)|(-> & j0 & Hlt & Hj0 & -> & ->)] Hinj Hne Hj; unfold slots_ok, CONFIG_MAX_TASKS in *.
  - split; [done|]. apply Hne; [done|]. apply lookup_lt_Some in Hj. lia.
  - destruct (decide (j = j0)) as [->|Hjj]; [rewrite list_lookup_insert_eq in Hj; [done|lia]|].
    rewrite list_lookup_insert_ne in Hj by done. split; [done|]. intros E.
    pose proof (lookup_lt_Some _ _ _ Hj). apply Hjj, Nat2Z.inj. symmetry. apply Hinj; [lia..|done].
Qed.

(** The object taken, if it is one of the pool, was free. *)
Lemma taken_pool pool used p q used' i : taken_from pool used p q used' →
  (∀ i i', 0 ≤ i < CONFIG_MAX_TASKS → 0 ≤ i' < CONFIG_MAX_TASKS → pool i = pool i' → i = i') →
  (p ≠ NULL → ∀ i, 0 ≤ i < CONFIG_MAX_TASKS → p ≠ pool i) →
  0 ≤ i < CONFIG_MAX_TASKS → q = pool i → ∃ j, i = Z.of_nat j ∧ used !! j = Some 0.
Proof using Type.
  intros [(Hp & -> & _)|(-> & j0 & Hlt & Hj0 & -> & _)] Hinj Hne Hi E; unfold CONFIG_MAX_TASKS in *.
  - by destruct (Hne Hp i Hi).
  - exists j0. split; [|done]. symmetry. apply Hinj; [lia..|done].
Qed.

Section create.
Context (HL : layout_ok g_task_pool g_stack_pool g_idle_tcb g_idle_stack).

(** The TCB a creation takes is not in use. *)
Lemma taken_dormant k a tcb p ut : kernel_ok k → stands_for (k_sched k) a →
  taken_from g_task_pool (g_task_slot_used k) tcb p ut →
  (tcb ≠ NULL → ∀ t, tcb_at k tcb = Some t → queue_kind (state t) = None) →
  p ≠ NULL ∧ p ≠ g_idle_tcb ∧ dormant p a.
Proof using HL.
  intros Hk Hs Htk Hd. unfold dormant. rewrite (abs_lookup _ _ _ (proj1 Hs)).
  destruct Htk as [(Hp & -> & _)|(-> & j & Hlt & Hj & -> & _)].
  - split_and!; [done| |].
    + intros ->. destruct (ok_idle _ Hk) as (t & Ht & Hr). apply (Hd Hp) in Ht.
      apply runnable_kind in Hr. congruence.
    + destruct (tcbs (k_sched k) !! tcb) as [t|] eqn:Ht; [|done]. exact (Hd Hp t Ht).
  - assert (0 ≤ Z.of_nat j < CONFIG_MAX_TASKS) by (unfold CONFIG_MAX_TASKS in *; lia).
    split_and!; [by eapply task_pool_null|by eapply task_pool_idle|].
    pose proof (ok_free_task _ Hk _ Hj) as E. unfold tcb_at in E. by rewrite E.
Qed.

(** The tasks after the creation of [p]. *)
Lemma created_task p a t : fresh_slice t = t → a_tasks (eff_add p (with_task p t a)) !! p = Some t.
Proof using Type.
  intros Ht. unfold eff_add, pend_if. destruct (higher _ _); simpl; by rewrite lookup_alter_eq, lookup_insert_eq; simpl; rewrite Ht.
Qed.

Lemma created_other p a t x : x ≠ p → a_tasks (eff_add p (with_task p t a)) !! x = a_tasks a !! x.
Proof using Type.
  intros Hx. unfold eff_add, pend_if. destruct (higher _ _); simpl; by rewrite lookup_alter_ne, lookup_insert_ne.
Qed.

(** The state after the creation of [p]. *)
Lemma created_tcbs s' s a p t : stands_for s a → stands_for s' (eff_add p (with_task p t a)) →
  ∀ x, task_evolves false (if decide (x = p) then Some t else tcbs s !! x) (tcbs s' !! x).
Proof using Type.
  intros [HR _] [HR' _] x. pose proof (evolves_add None p (with_task p t a) x) as He.
  rewrite (abs_lookup _ _ _ HR'), bool_decide_false in He by done. unfold with_task in He at 1. simpl in He.
  case_decide as E.
  - subst x. rewrite lookup_insert_eq in He. by destruct (tcbs s' !! p).
  - rewrite lookup_insert_ne, (abs_lookup _ _ _ HR) in He by done.
    by destruct (tcbs s !! x), (tcbs s' !! x).
Qed.

(** The invariant after a creation. *)
Lemma created_kernel_ok k k' a tcb stack p q ut us t s' : kernel_ok k → stands_for (k_sched k) a →
  k_sched k' = s' → g_task_slot_used k' = ut → g_stack_slot_used k' = us →
  taken_from g_task_pool (g_task_slot_used k) tcb p ut → slots_ok ut →
  taken_from g_stack_pool (g_stack_slot_used k) stack q us → slots_ok us →
  (tcb ≠ NULL → ∀ i, 0 ≤ i < CONFIG_MAX_TASKS → tcb ≠ g_task_pool i) →
  (stack ≠ NULL → ∀ i, 0 ≤ i < CONFIG_MAX_TASKS → stack ≠ g_stack_pool i) →
  stack_base t = q → p ≠ g_idle_tcb → stands_for s' (eff_add p (with_task p t a)) → kernel_ok k'.
Proof using HL.
  intros Hk Hs <- <- <- Htk Hut Hstk Hus Hnt Hns Hq Hpi Hs'.
  pose proof (created_tcbs _ _ a p t Hs Hs') as Hev.
  pose proof (task_pool_inj _ _ _ _ HL) as Hti. pose proof (stack_pool_inj _ _ _ _ HL) as Hsi.
  assert (∀ x u, tcb_at k' x = Some u → (x = p ∧ stack_base u = q) ∨
    (x ≠ p ∧ ∃ v, tcb_at k x = Some v ∧ stack_base u = stack_base v)) as Hback.
  { intros x u Hu. specialize (Hev x). unfold tcb_at in Hu. rewrite Hu in Hev. case_decide as Ex.
    - left. destruct Hev as [Hid _]. split; [done|]. injection Hid. congruence.
    - right. unfold tcb_at. destruct (tcbs (k_sched k) !! x) as [v|]; [|done]. destruct Hev as [Hid _].
      split; [done|]. exists v. split; [done|]. by injection Hid. }
  split; try done.
  - by exists (eff_add p (with_task p t a)).
  - destruct (ok_idle _ Hk) as (t0 & Ht0 & Hr0). specialize (Hev g_idle_tcb). unfold tcb_at in *.
    rewrite decide_False, Ht0 in Hev by done. destruct (tcbs (k_sched k') !! g_idle_tcb) as [u|]; [|done].
    exists u. split; [done|]. by apply Hev.
  - intros j Hj. destruct (taken_free _ _ _ _ _ _ (ok_task_slots _ Hk) Htk Hti Hnt Hj) as [Hj0 Hne].
    pose proof (ok_free_task _ Hk _ Hj0) as E. specialize (Hev (g_task_pool (Z.of_nat j))). unfold tcb_at in *.
    rewrite decide_False, E in Hev by done. by destruct (tcbs (k_sched k') !! _).
  - intros j x u Hj Hu. destruct (taken_free _ _ _ _ _ _ (ok_stack_slots _ Hk) Hstk Hsi Hns Hj) as [Hj0 Hne].
    destruct (Hback _ _ Hu) as [[_ ->]|(_ & v & Hv & ->)]; [done|]. by eapply (ok_free_stack _ Hk).
  - assert (∀ i y u, 0 ≤ i < CONFIG_MAX_TASKS → tcb_at k y = Some u → q = g_stack_pool i →
      stack_base u ≠ g_stack_pool i) as Hfresh.
    { intros i y u Hi Hu Eq. destruct (taken_pool _ _ _ _ _ _ Hstk Hsi Hns Hi Eq) as (j & -> & Hj).
      by eapply (ok_free_stack _ Hk). }
    intros i x y u v Hi Hu Hv Eu Ev.
    destruct (Hback _ _ Hu) as [[-> Eu']|(_ & u' & Hu' & Eu')], (Hback _ _ Hv) as [[-> Ev']|(_ & v' & Hv' & Ev')].
    + done.
    + destruct (Hfresh i y v' Hi Hv'); congruence.
    + destruct (Hfresh i x u' Hi Hu'); congruence.
    + eapply (ok_stacks _ Hk i); [done..| |]; congruence.
Qed.

Lemma create_ok k a tcb name entry arg priority stack size :
  let c := Create tcb name entry arg priority stack size in
  kernel_ok k → stands_for (k_sched k) a → allowed k c →
  ∃ k' a', ends (exec c) k k' ∧ kernel_ok k' ∧ stands_for (k_sched k') a' ∧ acall c a a'.
Proof using HL.
  intros c Hk Hs (Hprio & Hsize & Htcb & Hstack). cbn [exec c]. unfold ends.
  pose proof (task_create_cases g_task_pool g_stack_pool task_exit_trampoline_addr rodata stale_name
    tcb name entry arg priority stack size k (ok_task_slots _ Hk) (ok_stack_slots _ Hk)) as E.
  assert (∀ r, task_create g_task_pool g_stack_pool task_exit_trampoline_addr rodata stale_name
      tcb name entry arg priority stack size k = Ret r k →
    ∃ k' a', ends (exec c) k k' ∧ kernel_ok k' ∧ stands_for (k_sched k') a' ∧ acall c a a') as Hrefused.
  { intros r Er. exists k, a. split_and!; [left; cbn [exec c]; by run Er|done|done|by apply (acall_eff c)]. }
  destruct (create_args_ok entry priority size) eqn:Eargs; cbn [negb] in E; [|by eapply Hrefused].
  destruct (pick g_task_pool _ tcb) as [[[slot p] ut]|] eqn:Ep; [|by eapply Hrefused].
  destruct (pick_stack g_stack_pool _ stack size) as [[[q sz] us]|] eqn:Eq; [|by eapply Hrefused].
  destruct (pick_taken _ _ _ _ _ _ (ok_task_slots _ Hk) Ep) as [Hut Htk].
  destruct (pick_stack_taken _ _ _ _ _ _ _ (ok_stack_slots _ Hk) Hsize Eq) as (Hus & Hstk & Hsz).
  destruct (taken_dormant k a tcb p ut Hk Hs Htk (λ H, proj1 (Htcb H))) as (Hp0 & Hpi & Hpd).
  assert (0 ≤ priority < CONFIG_MAX_PRIORITY) as Hpr.
  { unfold create_args_ok in Eargs. apply andb_prop in Eargs as [[[_ H]%andb_prop _]%andb_prop _].
    apply Z.ltb_lt in H. lia. }
  set (k1 := k <| g_task_slot_used := ut |> <| g_stack_slot_used := us |>) in *.
  destruct (create_init_ret task_exit_trampoline_addr rodata stale_name k1 a p name entry arg priority q sz
    Hs Hp0 Hpd Hpr Hsz) as (s' & m & E1 & Hs' & _).
  set (t := created_tcb rodata stale_name k1 p name entry arg priority q sz) in *.
  rewrite (bind_ret _ _ _ _ _ E1) in E. eexists _, (eff_add p (with_task p t a)).
  split_and!; [left; by run E| |done|by apply acall_create].
  apply (created_kernel_ok k (k1 <| g_next_task_id := u32 (g_next_task_id k1 + 1) |> <| ram := m |> <| k_sched := s' |>)
    a tcb stack p q ut us t s'); done || (intros; by apply Htcb).
Qed.

(** A task with a TCB and a stack of its own, the TCB being a new one. *)
Lemma static_created k tcb name entry arg priority stack size : kernel_ok k →
  create_args_ok entry priority size = true → 0 ≤ priority →
  tcb ≠ NULL → tcb_at k tcb = None → (∀ i, 0 ≤ i < CONFIG_MAX_TASKS → tcb ≠ g_task_pool i) →
  stack ≠ NULL → (∀ i, 0 ≤ i < CONFIG_MAX_TASKS → stack ≠ g_stack_pool i) →
  ∃ k', task_create g_task_pool g_stack_pool task_exit_trampoline_addr rodata stale_name
      tcb name entry arg priority stack size k = Ret KERNEL_OK k' ∧
    kernel_ok k' ∧ g_kernel_state k' = g_kernel_state k ∧ SystemCoreClock k' = SystemCoreClock k ∧
    (∃ u, tcb_at k' tcb = Some u ∧ Task.entry u = entry ∧ Task.arg u = arg ∧ Task.priority u = priority ∧
      state u = TASK_STATE_READY) ∧
    ∀ x, x ≠ tcb → unlink <$> tcb_at k' x = unlink <$> tcb_at k x.
Proof using HL.
  intros Hk Hargs Hp0 Htcb Hnew Hpool Hstack Hspool. destruct (ok_sched _ Hk) as [a Hs].
  pose proof (task_create_cases g_task_pool g_stack_pool task_exit_trampoline_addr rodata stale_name
    tcb name entry arg priority stack size k (ok_task_slots _ Hk) (ok_stack_slots _ Hk)) as E.
  rewrite Hargs in E. unfold pick, pick_stack in E. apply Z.eqb_neq in Htcb as Htcb', Hstack as Hstack'.
  rewrite Htcb', Hstack' in E. cbn [negb] in E. set (k1 := k <| g_task_slot_used := _ |> <| g_stack_slot_used := _ |>) in E.
  assert (0 ≤ priority < CONFIG_MAX_PRIORITY ∧ 0 ≤ size) as [Hpr Hsz].
  { unfold create_args_ok, CONFIG_MIN_STACK_SIZE in *.
    apply andb_prop in Hargs as [[[_ H]%andb_prop H2]%andb_prop _]. apply Z.ltb_lt in H. apply Z.leb_le in H2. lia. }
  assert (a_tasks a !! tcb = None) as Ha.
  { rewrite (abs_lookup _ _ _ (proj1 Hs)). unfold tcb_at in Hnew. by rewrite Hnew. }
  assert (dormant tcb a) as Hd by (unfold dormant; by rewrite Ha).
  destruct (create_init_ret task_exit_trampoline_addr rodata stale_name k1 a tcb name entry arg priority stack size
    Hs Htcb Hd Hpr Hsz) as (s' & m & E1 & Hs' & _).
  set (t := created_tcb rodata stale_name k1 tcb name entry arg priority stack size) in *.
  rewrite (bind_ret _ _ _ _ _ E1) in E. eexists. split; [exact E|].
  destruct (same_task_inv _ _ _ _ Hs' (created_task tcb a t eq_refl)) as (u & Hu & Eu). split_and!; [|done|done| |].
  - apply (created_kernel_ok k _ a tcb stack tcb stack (g_task_slot_used k) (g_stack_slot_used k) t s');
      try done; try (by left); try apply Hk. intros ->. destruct (ok_idle _ Hk) as (v & Hv & _). congruence.
  - exists u. split; [exact Hu|]. apply (f_equal (λ v, (Task.entry v, Task.arg v, Task.priority v, state v))) in Eu.
    simpl in Eu. injection Eu. intros. split_and!; congruence.
  - intros x Hx. unfold tcb_at. rewrite <- (abs_lookup _ _ _ (proj1 Hs)), <- (created_other tcb a t x) by done.
    symmetry. apply (abs_lookup _ _ _ (proj1 Hs')).
Qed.

(** *** Start *)

Lemma wf_init c : cpu_wf c → wf (a_init ∅ c).
Proof using Type.
  intros Hc. split; simpl; try done; try by left.
  - intros i l x Hl. apply (lookup_replicate 32) in Hl as [-> _]. split; [by intros ?%not_elem_of_nil|].
    intros (_ & t & Ht & _). done.
  - intros x. split; [by intros ?%not_elem_of_nil|]. intros (_ & t & Ht & _). done.
  - intros i l Hl. apply (lookup_replicate 32) in Hl as [-> _]. constructor.
Qed.

Lemma slots_ok_cold : slots_ok (replicate (Z.to_nat CONFIG_MAX_TASKS) 0).
Proof using Type. done. Qed.

(** After [kernel_init] the idle task is ready, and the only task. *)
Lemma boot_ok k0 : cold k0 → idle_task_addr ≠ NULL →
  ∃ k1, boot k0 = Ret KERNEL_OK k1 ∧ kernel_ok k1 ∧ g_kernel_state k1 = KERNEL_STATE_INIT ∧
    (∀ x, is_Some (tcb_at k1 x) → x = g_idle_tcb) ∧
    (∃ t, tcb_at k1 g_idle_tcb = Some t ∧ entry t = idle_task_addr ∧ base_priority t = CONFIG_MAX_PRIORITY - 1 ∧
      priority t = CONFIG_MAX_PRIORITY - 1) ∧
    SystemCoreClock k1 = SystemCoreClock k0.
Proof using HL.
  intros [Hst Htc Hts Hss Hcpu] Hidle.
  destruct (init_abstracts (k_sched k0)) as (s0 & E0 & HR0); [by rewrite Htc|by rewrite Htc|].
  rewrite Htc, fmap_empty in HR0.
  assert (stands_for s0 (a_init ∅ (cpu (k_sched k0)))) as Hs0 by (split; [done|by apply wf_init]).
  unfold boot, kernel_init. step. rewrite Hst. rewrite bool_decide_true by done. cbn [negb].
  run (zoom_sched _ k0 _ _ E0). step.
  set (k1 := k0 <| k_sched := s0 |> <| scb_shpr3 := _ |>).
  pose proof (task_create_cases g_task_pool g_stack_pool task_exit_trampoline_addr rodata stale_name
    g_idle_tcb idle_name idle_task_addr NULL (CONFIG_MAX_PRIORITY - 1) g_idle_stack CONFIG_IDLE_STACK_SIZE k1) as E.
  replace (create_args_ok _ _ _) with true in E.
  2: { unfold create_args_ok. by rewrite (proj2 (Z.eqb_neq _ _) Hidle). }
  cbn [negb] in E. unfold pick, pick_stack in E.
  rewrite (proj2 (Z.eqb_neq _ _) (idle_tcb_null _ _ _ _ HL)), (proj2 (Z.eqb_neq _ _) (idle_stack_null _ _ _ _ HL)) in E.
  set (k2 := k1 <| g_task_slot_used := _ |> <| g_stack_slot_used := _ |>) in E.
  assert (0 ≤ CONFIG_MAX_PRIORITY - 1 < CONFIG_MAX_PRIORITY) as Hpr by (unfold CONFIG_MAX_PRIORITY; lia).
  destruct (create_init_ret task_exit_trampoline_addr rodata stale_name k2 (a_init ∅ (cpu (k_sched k0)))
    g_idle_tcb idle_name idle_task_addr NULL (CONFIG_MAX_PRIORITY - 1) g_idle_stack CONFIG_IDLE_STACK_SIZE
    Hs0 (idle_tcb_null _ _ _ _ HL) I Hpr ltac:(done)) as (s' & m & E1 & Hs' & _).
  set (t := created_tcb _ _ _ _ _ _ _ _ _ _) in *.
  rewrite (bind_ret _ _ _ _ _ E1) in E.
  assert (slots_ok (g_task_slot_used k1) ∧ slots_ok (g_stack_slot_used k1)) as [Hok1 Hok2].
  { change (g_task_slot_used k1) with (g_task_slot_used k0). change (g_stack_slot_used k1) with (g_stack_slot_used k0).
    by rewrite Hts, Hss. }
  run (E Hok1 Hok2). rewrite Z.eqb_refl. cbn [negb]. step.
  eexists. split; [reflexivity|].
  pose proof (created_tcbs _ _ _ _ t Hs0 Hs') as Hev.
  assert (tcbs s0 = ∅) as Htc0.
  { apply map_eq. intros x. pose proof (abs_lookup _ _ x HR0) as Hx. simpl in Hx. rewrite lookup_empty in *.
    by destruct (tcbs s0 !! x). }
  rewrite Htc0 in Hev.
  assert (∀ x u, tcbs s' !! x = Some u → x = g_idle_tcb ∧ stack_base u = g_idle_stack) as Hback.
  { intros x u Hu. specialize (Hev x). rewrite Hu in Hev. case_decide; [|by rewrite lookup_empty in Hev].
    destruct Hev as [Hid _]. split; [done|]. by injection Hid. }
  destruct (same_task_inv _ _ _ _ Hs' (created_task _ _ t eq_refl)) as (u & Hu & Eu).
  split_and!; [|done| | |done].
  - split; try done.
    + by eexists.
    + exists u. split; [exact Hu|]. change (state u) with (state (unlink u)). by rewrite <- Eu.
    + intros j Hj. unfold tcb_at. simpl. destruct (tcbs s' !! g_task_pool (Z.of_nat j)) as [v|] eqn:Ev; [|done].
      apply Hback in Ev as [Ev _]. change (g_task_slot_used k0 !! j = Some 0) in Hj. 
      destruct (task_pool_idle _ _ _ _ HL (Z.of_nat j)); [|done].
      apply lookup_lt_Some in Hj. rewrite Hts, length_replicate in Hj. unfold CONFIG_MAX_TASKS in *. lia.
    + intros j x v Hj [_ ->]%Hback. change (g_stack_slot_used k0 !! j = Some 0) in Hj.
      apply not_eq_sym, (stack_pool_idle _ _ _ _ HL).
      apply lookup_lt_Some in Hj. rewrite Hss, length_replicate in Hj. unfold CONFIG_MAX_TASKS in *. lia.
    + intros i x y v w _ [-> _]%Hback [-> _]%Hback. done.
  - by intros x [v [-> _]%Hback].
  - exists u. split; [exact Hu|]. apply (f_equal (λ v, (entry v, base_priority v, priority v))) in Eu. by injection Eu.
Qed.

(** *** Reachable states *)

Lemma ends_unique m k k' k'' : ends m k k' → ends m k k'' → k' = k''.
Proof using Type. unfold ends. intros [->| ->] [?|?]; congruence. Qed.

Lemma kernel_ok_same k k' : k_sched k' = k_sched k → g_task_slot_used k' = g_task_slot_used k →
  g_stack_slot_used k' = g_stack_slot_used k → kernel_ok k → kernel_ok k'.
Proof using Type.
  intros E1 E2 E3 [Hs Hi Ht Hst Hft Hfs Hst2]. unfold tcb_at in *.
  split; unfold tcb_at; rewrite ?E1, ?E2, ?E3; done.
Qed.

(** A runnable task exists, so selection finds one. *)
Lemma top_task k a : kernel_ok k → stands_for (k_sched k) a → ∃ t, tcb_at k (top a) = Some t ∧
  runnable (state t) = true ∧ top a ≠ NULL ∧
  ∀ x u, tcb_at k x = Some u → runnable (state u) = true → priority t ≤ priority u.
Proof using Type.
  intros Hk Hs. destruct (ok_idle _ Hk) as (t0 & Ht0 & Hr0). pose proof (same_task _ _ _ _ Hs Ht0) as Ha0.
  destruct (top_spec a (proj2 Hs)) as [[_ Hno]|(t & Ht & Hrt & Hn & Hmin)].
  { specialize (Hno _ _ Ha0). change (state (unlink t0)) with (state t0) in Hno. congruence. }
  destruct (same_task_inv _ _ _ _ Hs Ht) as (u & Hu & ->). exists u. split_and!; [done..|].
  intros x v Hv Hrv. by apply (Hmin x (unlink v)); [apply (same_task _ _ _ _ Hs)|].
Qed.

(** [kernel_start], as far as the call of the first task. *)
Definition started (k : kernel) (s' : sched) : kernel :=
  k <| systick_rvr := u32 (SystemCoreClock k / CONFIG_TICK_RATE_HZ - 1) |> <| systick_cvr := 0 |>
    <| systick_csr := SYSTICK_CSR_RUN |> <| g_kernel_state := KERNEL_STATE_RUNNING |> <| k_sched := s' |>.

Lemma start_ret k a : kernel_ok k → stands_for (k_sched k) a → g_kernel_state k = KERNEL_STATE_INIT →
  ∃ s' t, kernel_start k = Ret (entry t, arg t) (started k s') ∧ stands_for s' (eff_start a) ∧
    tcb_at k (top a) = Some t ∧ kernel_ok (started k s').
Proof using Type.
  intros Hk Hs Hst. destruct (top_task k a Hk Hs) as (t & Ht & _).
  pose proof (same_task _ _ _ _ Hs Ht) as Ha.
  destruct (refined _ _ _ _ _ _ refines_start Hs (start_eff a _ (proj2 Hs) Ha)) as (s' & E & Hs').
  exists s', t. split_and!; [|done..|].
  - unfold kernel_start. step. rewrite Hst, bool_decide_true by done. cbn [negb]. do 4 step.
    by apply (zoom_sched scheduler_start).
  - apply (kernel_ok_same (k <| k_sched := s' |>)); [done..|].
    by apply (kernel_ok_evolves k s' a (eff_start a) None); [..|apply evolves_start|].
Qed.

Lemma exec_abstract c k a : kernel_ok k → stands_for (k_sched k) a → allowed k c →
  ∃ k' a', ends (exec c) k k' ∧ kernel_ok k' ∧ stands_for (k_sched k') a' ∧ acall c a a'.
Proof using HL.
  intros Hk Hs Hal. destruct (beyond_sched c) eqn:Ec.
  - destruct c; try done; [by apply create_ok|].
    destruct (start_ret k a Hk Hs Hal) as (s' & t & E & Hs' & _ & Hk'). exists (started k s'), (eff_start a).
    split_and!; [|done..|by apply (acall_eff Start)]. left. cbn [exec]. by run E.
  - destruct (exec_outcome c k a Hs Hal Ec) as (s' & He & Hs').
    exists (k <| k_sched := s' |>), (eff_call c a). split_and!; [done| |done|].
    + eapply kernel_ok_evolves; [done..|apply evolves_call|]. intros Ei.
      by destruct (stopped_leaves _ _ _ _ Hs Hal Ei).
    + constructor. intros x Hx. apply (stopped_leaves _ _ _ _ Hs Hal Hx).
Qed.

Lemma exec_ok c k : kernel_ok k → allowed k c → ∃ k', ends (exec c) k k' ∧ kernel_ok k'.
Proof using HL.
  intros Hk Hal. destruct (ok_sched _ Hk) as [a Hs].
  destruct (exec_abstract c k a Hk Hs Hal) as (k' & _ & ? & ? & _). by exists k'.
Qed.

Lemma step_ok k k' : kernel_ok k → step k k' → kernel_ok k'.
Proof using HL.
  intros Hk [c Hal He]. destruct (exec_ok c k Hk Hal) as (k'' & He' & Hk'').
  by rewrite (ends_unique _ _ _ _ He He').
Qed.

Lemma steps_ok k k' : rtc step k k' → kernel_ok k → kernel_ok k'.
Proof using HL. induction 1; eauto using step_ok. Qed.

Lemma reachable_ok k : idle_task_addr ≠ NULL → reachable k → kernel_ok k.
Proof using HL.
  intros Hi (k0 & r & k1 & Hc & Hb & Hs). destruct (boot_ok k0 Hc Hi) as (k1' & Hb' & Hk1 & _).
  rewrite Hb in Hb'. injection Hb' as _ ->. by eapply steps_ok.
Qed.

(** C1: System invariant: whatever allowed calls, ticks and context switches
    happen after [kernel_init], in whatever order (no call suspends or deletes a
    blocked task, see [suspend_blocked_loses_sleepers], or the idle task), the
    queues in memory spell a well-formed scheduler state, the idle task is runnable, the slot tables
    describe the pools (a free slot is no task's TCB and no task's stack), and
    no two tasks share a stack of the pool. *)
Theorem system_invariant k : idle_task_addr ≠ NULL → reachable k → kernel_ok k.
Proof using HL. apply reachable_ok. Qed.

(** C2: Progress: in every reachable state every allowed call has an outcome:
    no call touches memory that is not a TCB, gets lost in a list, or waits in
    a state the system cannot leave; and the outcome is reachable. *)
Theorem system_progress k c : idle_task_addr ≠ NULL → reachable k → allowed k c →
  ∃ k', ends (exec c) k k' ∧ reachable k'.
Proof using HL.
  intros Hi Hr Hal. destruct (exec_ok c k (reachable_ok _ Hi Hr) Hal) as (k' & He & _).
  exists k'. split; [done|]. destruct Hr as (k0 & r & k1 & Hc & Hb & Hs).
  exists k0, r, k1. split_and!; [done..|]. eapply rtc_r; [done|]. by econstructor.
Qed.

(** The switch changes no TCB. *)
Lemma keeps_tcbs_switch : keeps tcbs switch_context.
Proof using Type.
  unfold switch_context, scheduler_select_next_task, scheduler_get_next, ready_head. keeps_auto.
  intros u y u'. case_match; congruence.
Qed.

(** C3: There is always a task to run: in every reachable state the next context
    switch makes a runnable task current, one that no runnable task precedes
    in priority.  ([PendSV_Handler] never finds [NULL].) *)
Theorem switch_always_finds_task k : idle_task_addr ≠ NULL → reachable k →
  ∃ k' t, exec Switch k = Ret () k' ∧ running k' ≠ NULL ∧ tcb_at k' (running k') = Some t ∧
    runnable (state t) = true ∧
    ∀ x u, tcb_at k' x = Some u → runnable (state u) = true → priority t ≤ priority u.
Proof using HL.
  intros Hi Hr. pose proof (reachable_ok _ Hi Hr) as Hk. destruct (ok_sched _ Hk) as [a Hs].
  destruct (switch_stands _ _ Hs) as (s' & E & Hs').
  destruct (top_task k a Hk Hs) as (t & Ht & Hrt & Hn & Hmin).
  assert (tcbs s' = tcbs (k_sched k)) as Etcb by exact (keeps_tcbs_switch _ _ _ E).
  exists (k <| k_sched := s' |>), t. unfold running, tcb_at. simpl. rewrite (stands_for_current _ _ Hs'), Etcb.
  split_and!; [by apply zoom_sched|done..].
Qed.

(** Boot: [kernel_init] on cleared memory succeeds once (a second call is
    refused and changes nothing), creates the idle task at the lowest priority
    as the only task, and establishes the invariant; the PendSV priority is the
    lowest and SysTick's is just above it. *)
Theorem kernel_boots k0 : idle_task_addr ≠ NULL → cold k0 →
  ∃ k1, boot k0 = Ret KERNEL_OK k1 ∧ kernel_ok k1 ∧ g_kernel_state k1 = KERNEL_STATE_INIT ∧
    boot k1 = Ret KERNEL_ERR_STATE k1 ∧
    (∃ t, tcb_at k1 g_idle_tcb = Some t ∧ entry t = idle_task_addr ∧ base_priority t = CONFIG_MAX_PRIORITY - 1) ∧
    ∀ x, is_Some (tcb_at k1 x) → x = g_idle_tcb.
Proof using HL.
  intros Hi Hc. destruct (boot_ok k0 Hc Hi) as (k1 & E & Hk & Hst & Hall & (t & Ht & He & Hb & _) & _).
  exists k1. split_and!; [done..| |by exists t|done]. unfold boot, kernel_init. step. by rewrite Hst.
Qed.

End create.
End system.

(** ** Instances *)

Definition EX_POOL (i : Z) : ptr := 0x20210000 + 0x100 * i.
Definition EX_STACKS (i : Z) : ptr := 0x20220000 + 1024 * i.
Definition EX_IDLE : ptr := 0x20000100.
Definition EX_IDLE_STACK : ptr := 0x20230000.
Definition EX_IDLE_TASK : ptr := 0x60004101.
Definition ex_stale (p : ptr) : list Z := replicate 16 0xFF.

Lemma example_layout : layout_ok EX_POOL EX_STACKS EX_IDLE EX_IDLE_STACK.
Proof.
  split; unfold EX_POOL, EX_STACKS, EX_IDLE, EX_IDLE_STACK, NULL, CONFIG_MAX_TASKS; intros; lia.
Qed.

Definition example_cold : kernel :=
  mkKernel (mkSched (mkScheduler 0 [] NULL 0 false) 0 NULL NULL NULL ∅ cpu_reset) KERNEL_STATE_UNINIT
    (replicate 16 0) (replicate 16 0) 1 ∅ 0 0 0 0 CONFIG_CPU_CLOCK_HZ.

Lemma example_is_cold : cold example_cold.
Proof. split; try reflexivity. vm_compute. intuition congruence. Qed.

Definition ex_exec : call → M kernel () := exec EX_POOL EX_STACKS 0x60004001 (λ _, 0) ex_stale.
Definition ex_boot : M kernel Z :=
  boot EX_POOL EX_STACKS EX_IDLE EX_IDLE_STACK 0x60004001 EX_IDLE_TASK 0x60008000 (λ _, 0) ex_stale.
Definition ex_reachable : kernel → Prop :=
  reachable EX_POOL EX_STACKS EX_IDLE EX_IDLE_STACK 0x60004001 EX_IDLE_TASK 0x60008000 (λ _, 0) ex_stale.
Definition ex_ok : kernel → Prop := kernel_ok EX_POOL EX_STACKS EX_IDLE.

Lemma example_idle_task : EX_IDLE_TASK ≠ NULL.
Proof. done. Qed.

Lemma example_booted : ∃ k, ex_reachable k ∧ ex_ok k ∧ g_kernel_state k = KERNEL_STATE_INIT.
Proof.
  destruct (boot_ok _ _ _ _ 0x60004001 EX_IDLE_TASK 0x60008000 (λ _, 0) ex_stale example_layout example_cold
    example_is_cold example_idle_task) as (k & E & Hk & Hst & _).
  exists k. split_and!; [|done|done]. exists example_cold, KERNEL_OK, k. split_and!; [apply example_is_cold|done|].
  apply rtc_refl.
Qed.

Lemma system_invariant_witness : ∃ k, ex_reachable k ∧ ex_ok k.
Proof.
  destruct example_booted as (k & Hr & _). exists k. split; [exact Hr|].
  exact (system_invariant _ _ _ _ _ _ _ _ _ example_layout k example_idle_task Hr).
Defined.

(** A task created from the pools, in a reachable state. *)
Lemma system_progress_witness : ∃ k k', ex_reachable k ∧
  ends (ex_exec (Create NULL 0x60009000 0x60005001 7 2 NULL 1024)) k k' ∧ ex_reachable k'.
Proof.
  destruct example_booted as (k & Hr & _). exists k.
  destruct (system_progress _ _ _ _ _ _ _ _ _ example_layout k
    (Create NULL 0x60009000 0x60005001 7 2 NULL 1024) example_idle_task Hr) as (k' & He & Hr').
  { split_and!; [lia|lia|done|done]. }
  exists k'. split; [exact Hr|]. split; [exact He|exact Hr'].
Defined.

Lemma switch_always_finds_task_witness : ∃ k k', ex_reachable k ∧ ex_exec Switch k = Ret () k' ∧ running k' ≠ NULL.
Proof.
  destruct example_booted as (k & Hr & _). exists k.
  destruct (switch_always_finds_task _ _ _ _ _ _ _ _ _ example_layout k example_idle_task Hr) as (k' & t & E & Hn & _).
  exists k'. split; [exact Hr|]. split; [exact E|exact Hn].
Defined.

Lemma kernel_boots_witness : ∃ k1, ex_boot example_cold = Ret KERNEL_OK k1 ∧ ex_ok k1 ∧
  ex_boot k1 = Ret KERNEL_ERR_STATE k1.
Proof.
  destruct (kernel_boots _ _ _ _ 0x60004001 EX_IDLE_TASK 0x60008000 (λ _, 0) ex_stale example_layout example_cold
    example_idle_task example_is_cold) as (k & E & Hk & _ & E2 & _).
  exists k. split; [exact E|]. split; [exact Hk|exact E2].
Defined.


(** ** Why a blocked task may not leave

    [HIGH] and then [LOW] start a delay of 5 ticks, so that the blocked list is
    [LOW; HIGH]; the running idle task suspends [LOW]. *)
Definition example_sleepers : kernel :=
  example_running <| k_sched := final (
    example_switch ;; block_task_enter BLOCK_DELAY NULL 5 ;; example_switch ;;
    block_task_enter BLOCK_DELAY NULL 5 ;; example_switch) example_boot |>.

Fixpoint tick_times (n : nat) : M sched () :=
  match n with O => mret () | Datatypes.S n => scheduler_tick ;; tick_times n end.

(** [task_suspend] on a blocked task uses [scheduler_remove_task], which is made
    for the ready lists: the blocked list keeps the task and loses everything
    behind it.  The suspended task is woken by its timeout, and the tasks
    behind it sleep for ever. *)
Example suspend_blocked_loses_sleepers :
  let k := final (task_suspend (mret ()) LOW) example_sleepers in
  let k' := k <| k_sched := final (tick_times 6) (k_sched k) |> in
  running example_sleepers = IDLE ∧
  state_at k LOW = Some TASK_STATE_SUSPENDED ∧ state_at k HIGH = Some TASK_STATE_BLOCKED ∧
  state_at k' LOW = Some TASK_STATE_READY ∧ state_at k' HIGH = Some TASK_STATE_BLOCKED.
Proof. vm_compute. intuition reflexivity. Qed.

(** ** Pools are not refilled

    A task created from the pools is deleted; its TCB and its stack stay
    allocated. *)
Example delete_keeps_slots :
  let k := final (ex_exec (Create NULL 0x60009000 0x60005001 7 2 NULL 1024)) example_running in
  let k' := final (ex_exec (Delete (EX_POOL 0))) k in
  state_at k (EX_POOL 0) = Some TASK_STATE_READY ∧ state_at k' (EX_POOL 0) = Some TASK_STATE_DELETED ∧
  g_task_slot_used k' !! 0%nat = Some 1 ∧ g_stack_slot_used k' !! 0%nat = Some 1.
Proof. vm_compute. intuition reflexivity. Qed.

(** ** Resuming is not atomic

    [task_resume] tests the state before its critical section.  [HIGH] is about
    to resume [LOW] and has passed the test when an interrupt handler resumes
    [LOW]; then [HIGH] goes on and queues [LOW] again, behind itself.  The next
    task to be queued at that priority follows the links for ever, with
    interrupts masked. *)
Definition resume_after_test (tcb : ptr) : M kernel () :=
  zoom (upd tcb (set_field state TASK_STATE_READY)) ;; zoom (scheduler_add_task tcb).

Example resume_not_atomic :
  let k0 := final (task_suspend (mret ()) LOW) example_running in
  let k1 := final (task_resume LOW) k0 in
  let k2 := final (resume_after_test LOW) k1 in
  running k0 = HIGH ∧ state_at k0 LOW = Some TASK_STATE_SUSPENDED ∧
  task_resume LOW k0 = (resume_after_test LOW ;; mret KERNEL_OK) k0 ∧
  next <$> tcb_at k1 LOW = Some NULL ∧ next <$> tcb_at k2 LOW = Some LOW ∧
  ready_list (g_sched (k_sched k2)) !! 3%nat = Some LOW ∧ task_set_priority IDLE 3 k2 = Diverge.
Proof. vm_compute. intuition reflexivity. Qed.

(** ** Creating is not atomic

    [task_create] searches the pools and links the new task's TCB without a
    critical section around the search.  A first caller has found slot 0 free
    when a second one takes it; the first goes on, marks the slot and uses the
    same TCB.  Both calls succeed, the second caller's task is gone, and the
    TCB is queued behind itself. *)
Definition create_in_slot (slot : Z) (name entry arg : ptr) (priority stack_size : Z) : M kernel Z :=
  modify (λ k, k <| g_task_slot_used := <[Z.to_nat slot := 1]> (g_task_slot_used k) |>) ;;
  r ← create_pick_stack EX_STACKS slot NULL stack_size;
  match r with
  | inl e => mret e
  | inr (stack, stack_size) =>
      create_init 0x60004001 (λ _, 0) ex_stale (EX_POOL slot) name entry arg priority stack stack_size ;;
      mret KERNEL_OK
  end.

Definition ex_create (entry : ptr) : M kernel Z :=
  task_create EX_POOL EX_STACKS 0x60004001 (λ _, 0) ex_stale NULL 0x60009000 entry 7 2 NULL 1024.
Definition ex_go_on (entry : ptr) : M kernel Z := create_in_slot 0 0x60009000 entry 7 2 1024.

Lemma create_finds_slot entry k : entry ≠ NULL → g_task_slot_used k !! 0%nat = Some 0 →
  ex_create entry k = ex_go_on entry k.
Proof.
  intros He H0. unfold ex_create, task_create. rewrite (proj2 (Z.eqb_neq entry NULL)) by done.
  unfold ex_go_on, create_in_slot. change (CONFIG_MAX_PRIORITY <=? 2) with false.
  change ((1024 <? CONFIG_MIN_STACK_SIZE) || negb (Z.land 1024 7 =? 0)) with false. cbn [orb].
  assert (create_pick_tcb EX_POOL NULL k = Ret (inr (0, EX_POOL 0)) (k <| g_task_slot_used := <[0%nat := 1]> (g_task_slot_used k) |>)) as E.
  { unfold create_pick_tcb, alloc_slot. change (Z.to_nat CONFIG_MAX_TASKS) with 16%nat. change (NULL =? NULL) with true. cbn iota. step.
    cbn [alloc_slot_from]. by rewrite H0. }
  by run E.
Qed.

Definition succeeds (m : M kernel Z) (k : kernel) : bool :=
  match m k with Ret r _ => r =? KERNEL_OK | _ => false end.
Definition diverges (m : M kernel Z) (k : kernel) : bool := match m k with Diverge => true | _ => false end.

Example create_not_atomic :
  let k1 := final (ex_create 0x60006001) example_running in
  let k2 := final (ex_go_on 0x60005001) k1 in
  g_task_slot_used example_running !! 0%nat = Some 0 ∧
  succeeds (ex_create 0x60006001) example_running = true ∧ succeeds (ex_go_on 0x60005001) k1 = true ∧
  entry <$> tcb_at k1 (EX_POOL 0) = Some 0x60006001 ∧ entry <$> tcb_at k2 (EX_POOL 0) = Some 0x60005001 ∧
  g_task_slot_used k2 !! 1%nat = Some 0 ∧ next <$> tcb_at k2 (EX_POOL 0) = Some (EX_POOL 0) ∧
  diverges (task_set_priority IDLE 2) k2 = true.
Proof. vm_compute. intuition reflexivity. Qed.
