(* ===== verification/Deadline.v ===== *)
(** * Deadlines

    Histories of allowed calls of the whole kernel are histories of the abstract
    system, and in each of them a blocked task sleeps until its deadline or until it is woken,
    and no longer. *)
From S2P Require Import Prelude Config Task Critical Bitmap TcbList Scheduler SchedSpec.
From S2P Require Import SchedRefine SchedInv SchedEffect SchedFrame SchedIface Sync Trace Checker Example.
From S2P Require Import SchedProps Kernel Context KernelProps SystemSpec System.

(** ** One call and a sleeping task *)

(** What a blocked task waits for, and until when. *)
Definition asleep (t : task_tcb) : task_state_t * block_reason_t * ptr * Z * Z :=
  (state t, block_reason t, block_object t, block_timeout t, wake_tick t).

(** The call is made to wake [x], or someone who waits as [t] does. *)
Definition may_wake (c : call) (x : ptr) (t : task_tcb) : Prop :=
  match c with
  | Unblock y _ => y = x
  | UnblockOne reason object _ | UnblockAll reason object _ => block_reason t = reason ∧ block_object t = object
  | _ => False
  end.

Definition sleeps_through (x : ptr) (a a' : asched) : Prop := ∀ t, a_tasks a !! x = Some t →
  ∃ t', a_tasks a' !! x = Some t' ∧ asleep t' = asleep t.

Lemma sleeps_same x a a' : a_tasks a' !! x = a_tasks a !! x → sleeps_through x a a'.
Proof. intros E t Ht. exists t. by rewrite E. Qed.

Lemma sleeps_leave x y st a : x ≠ y → sleeps_through x a (eff_leave y st a).
Proof.
  intros Hxy. apply sleeps_same. unfold eff_leave, eff_retire.
  destruct (y =? _); [destruct (eff_yield_tasks (set_task y (set_field state st) (eff_remove y a))) as [-> _]|];
    simpl; by rewrite lookup_alter_ne.
Qed.

Lemma eff_add_other x y a : x ≠ y → a_tasks (eff_add y a) !! x = a_tasks a !! x.
Proof.
  intros Hxy. unfold eff_add. set (b := higher _ _). set (a1 := enqueue _ _ _).
  destruct (pend_if_rest b a1) as [-> _]. simpl. by rewrite lookup_alter_ne.
Qed.

Lemma sleeps_resume x y a : x ≠ y → sleeps_through x a (eff_resume y a).
Proof. intros Hxy. apply sleeps_same. unfold eff_resume. rewrite eff_add_other by done. simpl. by rewrite lookup_alter_ne. Qed.

Lemma sleeps_set_priority x y p a t : a_tasks a !! x = Some t → state t = TASK_STATE_BLOCKED →
  sleeps_through x a (eff_set_priority y p a).
Proof.
  intros Ht Hst. destruct (decide (y = x)) as [->|Hyx]; [|by apply sleeps_same, eff_set_priority_other].
  intros t0 Ht0. assert (t0 = t) as -> by congruence. unfold eff_set_priority. destruct (_ || _); [by exists t|].
  rewrite bool_decide_false; [|unfold state_of; rewrite Ht; simpl; rewrite Hst; naive_solver].
  simpl. rewrite lookup_alter_eq, Ht. by eexists.
Qed.

Lemma but_slice_asleep t t' : but_slice t t' → asleep t' = asleep t.
Proof. intros Hb. apply (f_equal asleep Hb). Qed.

(** A call leaves a blocked task asleep, wakes it on purpose, or is the tick of
    its deadline. *)
Lemma call_sleeper c a a' x t : wf a → acall c a a' → a_tasks a !! x = Some t → state t = TASK_STATE_BLOCKED →
  ∃ t', a_tasks a' !! x = Some t' ∧
    (asleep t' = asleep t ∧ (c = Tick → ¬ ripe (a_tick a') t) ∨
     runnable (state t') = true ∧ (may_wake c x t ∨ c = Tick ∧ ripe (a_tick a') t)).
Proof.
  intros Hwf Hc Ht Hst.
  assert (∀ b, sleeps_through x a b → c ≠ Tick → ∃ t', a_tasks b !! x = Some t' ∧
    (asleep t' = asleep t ∧ (c = Tick → ¬ ripe (a_tick b) t) ∨
     runnable (state t') = true ∧ (may_wake c x t ∨ c = Tick ∧ ripe (a_tick b) t))) as Hsame.
  { intros b Hs Hn. destruct (Hs t Ht) as (t' & ? & ?). exists t'. split; [done|]. left. done. }
  assert (x ∈ a_blocked a) as Hin by (apply (wf_blocked _ _ Hwf); eauto).
  destruct Hc as [c a Hstop|tcb name entry arg priority stack size p u a Hd Hu].
  2: { apply Hsame; [|done]. apply sleeps_same, created_other. intros ->. unfold dormant in Hd.
       rewrite Ht in Hd. by rewrite Hst in Hd. }
  assert (stopped c a ≠ Some x) as Hnx.
  { intros E. destruct (Hstop x E) as (u & Hu & ?). congruence. }
  destruct c as [|y|y|y st|y|y p| |reason obj timeout|y r|reason obj r|reason obj r| | | | |]; simpl eff_call in *; simpl stopped in *.
  - by apply Hsame; [apply sleeps_same|].
  - apply Hsame; [|done]. apply sleeps_leave. congruence.
  - apply Hsame; [|done]. apply sleeps_leave. congruence.
  - apply Hsame; [|done]. apply sleeps_same. simpl. rewrite lookup_alter_ne; [done|congruence].
  - apply Hsame; [|done]. case_bool_decide as E; [|by apply sleeps_same]. apply sleeps_resume.
    intros ->. unfold state_of in E. rewrite Ht in E. simpl in E. congruence.
  - apply Hsame; [|done]. destruct (_ <=? _); [by apply sleeps_same|by eapply sleeps_set_priority].
  - apply Hsame; [|done]. apply sleeps_same. by destruct (eff_yield_tasks a) as [-> _].
  - apply Hsame; [|done]. apply sleeps_same. simpl. rewrite lookup_alter_ne; [done|congruence].
  - destruct (decide (y = x)) as [->|Hyx].
    + rewrite bool_decide_true by done. rewrite eff_unblock_tasks, decide_True, Ht by done.
      eexists. split; [done|]. right. split; [done|]. by left.
    + apply Hsame; [|done]. apply sleeps_same. case_bool_decide; [|done].
      by rewrite eff_unblock_tasks, decide_False by congruence.
  - unfold eff_unblock_one. destruct (best_waiter_spec a reason obj Hwf) as [[-> _]|(Hb & Hn & Hw & _)].
    { apply Hsame; [|done]. by apply sleeps_same. }
    rewrite (proj2 (Z.eqb_neq _ _) Hn). set (b := best_waiter a reason obj) in *.
    destruct (decide (x = b)) as [E|Hxb].
    + rewrite <- E in *. rewrite eff_unblock_tasks, decide_True, Ht by done.
      eexists. split; [done|]. right. split; [done|]. left. by apply (waits_spec a reason obj x t Ht).
    + apply Hsame; [|done]. apply sleeps_same. by rewrite eff_unblock_tasks, decide_False.
  - destruct (waits a reason obj x) eqn:Ew.
    + rewrite (unblock_all_woken _ _ _ _ _ _ Hwf Hin Ew Ht). eexists. split; [done|]. right. split; [done|]. left.
      by apply (waits_spec a reason obj x t Ht).
    + apply Hsame; [|done]. by apply sleeps_same, unblock_all_others.
  - by apply Hsame; [apply sleeps_same|].
  - apply Hsame; [|done]. apply sleeps_same. unfold eff_unlock. by destruct (_ && _).
  - apply Hsame; [|done]. apply sleeps_same. simpl. rewrite lookup_alter_ne; [done|]. intros E.
    destruct (top_spec a Hwf) as [[En _]|(u & Hu & Hr & _)].
    + rewrite E in En. rewrite En, (wf_null _ _ Hwf) in Ht. done.
    + rewrite E, Ht in Hu. injection Hu as ->. by rewrite Hst in Hr.
  - destruct (eff_tick_task a x t Hwf Ht) as (t' & Ht' & Hb). exists t'. split; [done|].
    rewrite (after_tick_ripe a x t Hwf Ht) in Hb. destruct (eff_tick_rest a Hwf) as [-> _].
    case_decide as Hr.
    + right. split; [|by right]. by rewrite (but_slice_state _ _ Hb), expired_state.
    + left. split; [by apply but_slice_asleep|done].
  - by apply Hsame; [apply sleeps_same|].
Qed.

(** ** The tick of a deadline *)

(** The most urgent task of all is ripe: the tick makes it ready, asks for a
    switch, and the next switch runs it. *)
Lemma tick_urgent a x t : wf a → a_tasks a !! x = Some t → ripe (u32 (a_tick a + 1)) t →
  a_current_task a ≠ NULL → a_current_task a ≠ x →
  (∀ y u, y ≠ x → a_tasks a !! y = Some u → priority t < priority u) →
  pendsv_pending (a_cpu (eff_tick a)) = true ∧ top (eff_tick a) = x.
Proof.
  intros Hwf Ht Hr Hc Hcx Hmost. destruct (tick_eff a Hwf) as [_ Hwf'].
  destruct (eff_tick_task a x t Hwf Ht) as (t' & Ht' & Hb). rewrite (after_tick_ripe a x t Hwf Ht), decide_True in Hb by done.
  assert (runnable (state t') = true) as Hrun by (by rewrite (but_slice_state _ _ Hb), expired_state).
  assert (priority t' = priority t) as Ep.
  { rewrite (but_slice_priority _ _ Hb). apply expired_priority. }
  assert (∀ y u, y ≠ x → a_tasks (eff_tick a) !! y = Some u → priority t < priority u) as Hmost'.
  { intros y u Hy Hu. pose proof (evolves_tick None a y) as He. rewrite Hu in He.
    destruct (a_tasks a !! y) as [v|] eqn:Ev; [|done]. destruct (tick_priority a y v Hwf Ev) as (u' & Hu' & Epu).
    assert (u' = u) as -> by congruence. rewrite Epu. by eapply Hmost. }
  split.
  - unfold eff_tick in *. set (b := eff_slice (eff_wake_expired (advance a))) in *. set (g := urgent b) in *.
    destruct (pend_if_rest g b) as (Etk & _ & _ & Ecur & Erd & _).
    assert (g = true) as ->; [|apply trigger_switch_pends].
    destruct (eff_tick_rest a Hwf) as (_ & Ec & _). unfold eff_tick in Ec. fold b g in Ec.
    destruct (wf_current _ _ Hwf) as [|[v Hv]]; [done|]. destruct (tick_priority a _ v Hwf Hv) as (v' & Hv' & _).
    unfold eff_tick in Hv'. fold b g in Hv'. pose proof (Hmost' _ _ Hcx Hv') as Hlt.
    pose proof (first_nonempty_min _ x t' Hwf' Ht' Hrun) as Hle. rewrite Erd in Hle. rewrite Etk in Hv'.
    rewrite Ecur in Ec. unfold g, urgent. rewrite Ec, (proj2 (Z.eqb_neq _ _) Hc). cbn [negb andb].
    apply Z.ltb_lt. unfold prio_of. rewrite Hv'. lia.
  - destruct (top_spec _ Hwf') as [[_ Hno]|(u & Hu & _ & _ & Hmin)].
    + rewrite (Hno _ _ Ht') in Hrun. done.
    + destruct (decide (top (eff_tick a) = x)) as [|Hne]; [done|].
      specialize (Hmin _ _ Ht' Hrun). specialize (Hmost' _ _ Hne Hu). lia.
Qed.

(** ** Histories *)

Definition is_tick (c : call) : Prop := match c with Tick => True | _ => False end.
#[export] Instance is_tick_dec c : Decision (is_tick c).
Proof. destruct c; simpl; apply _. Defined.
Definition ticks_in (cs : list call) : Z := Z.of_nat (length (filter is_tick cs)).

Lemma ticks_in_app cs1 cs2 : ticks_in (cs1 ++ cs2) = ticks_in cs1 + ticks_in cs2.
Proof. unfold ticks_in. rewrite filter_app, length_app. lia. Qed.

Lemma ticks_in_pos cs : 0 ≤ ticks_in cs.
Proof. unfold ticks_in. lia. Qed.

Lemma acall_tick c a a' : wf a → acall c a a' → a_tick a' = u32 (a_tick a + ticks_in [c]).
Proof.
  intros Hwf Hc. pose proof (wf_tick _ _ Hwf) as Ht.
  assert (u32 (a_tick a + 0) = a_tick a) as Hsame by (rewrite Z.add_0_r; by apply u32_small).
  destruct Hc as [c a _|].
  - rewrite eff_call_tick by done. destruct c; done || (symmetry; exact Hsame).
  - rewrite eff_add_tick. symmetry. exact Hsame.
Qed.

(** The task wakes up by itself some day. *)
Definition timed (t : task_tcb) : Prop :=
  block_reason t = BLOCK_DELAY ∨ block_timeout t ≠ 0 ∧ block_timeout t ≠ UINT32_MAX.

Lemma asleep_ripe now t t' : asleep t' = asleep t → ripe now t' ↔ ripe now t.
Proof. intros E. injection E as E1 E2 E3 E4 E5. unfold ripe. by rewrite E1, E2, E4, E5. Qed.

Section histories.
Context (g_task_pool g_stack_pool : Z → ptr) (g_idle_tcb g_idle_stack : ptr).
Context (task_exit_trampoline_addr idle_task_addr idle_name : ptr) (rodata : Z → Z) (stale_name : ptr → list Z).
Context (HL : layout_ok g_task_pool g_stack_pool g_idle_tcb g_idle_stack).

Notation allowed := (allowed g_task_pool g_stack_pool g_idle_tcb).
Notation exec := (exec g_task_pool g_stack_pool task_exit_trampoline_addr rodata stale_name).
Notation kernel_ok := (kernel_ok g_task_pool g_stack_pool g_idle_tcb).
Notation reachable := (reachable g_task_pool g_stack_pool g_idle_tcb g_idle_stack task_exit_trampoline_addr
  idle_task_addr idle_name rodata stale_name).

(** A step of the kernel, with its call. *)
Definition kstep (c : call) (k k' : kernel) : Prop := allowed k c ∧ ends (exec c) k k'.

Lemma kstep_abstract c k k' a : kernel_ok k → stands_for (k_sched k) a → kstep c k k' →
  ∃ a', kernel_ok k' ∧ stands_for (k_sched k') a' ∧ acall c a a'.
Proof using HL.
  intros Hk Hs [Hal He].
  destruct (exec_abstract _ _ _ _ task_exit_trampoline_addr rodata stale_name HL c k a Hk Hs Hal)
    as (k'' & a' & He' & ? & ? & ?).
  rewrite (ends_unique _ _ _ _ He He'). by exists a'.
Qed.

(** The tick count is the number of ticks. *)
Definition tick_of (k : kernel) : Z := g_tick_count (k_sched k).

Lemma kstep_tick c k k' : kernel_ok k → kstep c k k' → tick_of k' = u32 (tick_of k + ticks_in [c]).
Proof using HL.
  intros Hk Hc. destruct (ok_sched _ _ _ _ Hk) as [a Hs].
  destruct (kstep_abstract c k k' a Hk Hs Hc) as (a' & _ & Hs' & Ha). unfold tick_of.
  rewrite (abs_tick _ _ (proj1 Hs')), (abs_tick _ _ (proj1 Hs)). by apply acall_tick; [apply Hs|].
Qed.

Lemma history_ok cs k k' : kernel_ok k → trace kstep cs k k' →
  kernel_ok k' ∧ tick_of k' = u32 (tick_of k + ticks_in cs).
Proof using HL.
  intros Hk Ht. induction Ht as [k|cs c k k1 k' _ IH Hc].
  - split; [done|]. destruct (ok_sched _ _ _ _ Hk) as [a [HR Hwf]]. unfold tick_of. rewrite (abs_tick _ _ HR), Z.add_0_r.
    symmetry. apply u32_small, (wf_tick _ _ Hwf).
  - destruct (IH Hk) as [Hk1 E1]. destruct (ok_sched _ _ _ _ Hk1) as [a Hs].
    destruct (kstep_abstract c k1 k' a Hk1 Hs Hc) as (_ & Hk' & _). split; [done|].
    rewrite (kstep_tick c k1 k' Hk1 Hc), E1, ticks_in_app. unfold u32. rewrite Zplus_mod_idemp_l. f_equal. lia.
Qed.

(** [x], which sleeps as [t] does, still sleeps, and its deadline has not come. *)
Definition still_asleep (x : ptr) (t : task_tcb) (k : kernel) (cs : list call) (k' : kernel) : Prop :=
  ∃ t', tcb_at k' x = Some t' ∧ asleep t' = asleep t ∧
    (timed t → 0 < ticks_in cs → tick_of k + ticks_in cs < wake_tick t).

(** It was woken by one of the calls: on purpose, or by the tick of its deadline. *)
Definition woken_up (x : ptr) (t : task_tcb) (k : kernel) (cs : list call) (k' : kernel) : Prop :=
  ∃ cs1 c cs2 k1 k2 t2, cs = cs1 ++ [c] ++ cs2 ∧ trace kstep cs1 k k1 ∧ still_asleep x t k cs1 k1 ∧
    kstep c k1 k2 ∧ tcb_at k2 x = Some t2 ∧ runnable (state t2) = true ∧ trace kstep cs2 k2 k' ∧
    (may_wake c x t ∨ c = Tick ∧ timed t ∧ wake_tick t ≤ tick_of k + ticks_in (cs1 ++ [c])).

Lemma sleeper_history cs k k' x t : kernel_ok k → tcb_at k x = Some t → state t = TASK_STATE_BLOCKED →
  trace kstep cs k k' → tick_of k + ticks_in cs < 2 ^ 32 →
  still_asleep x t k cs k' ∨ woken_up x t k cs k'.
Proof using HL.
  intros Hk Ht Hst Htr. induction Htr as [k|cs c k k1 k2 Htr IH Hc]; intros Hw.
  { left. exists t. split_and!; [done..|]. unfold ticks_in. simpl. lia. }
  rewrite ticks_in_app in Hw. pose proof (ticks_in_pos [c]) as Hp.
  destruct (history_ok cs k k1 Hk Htr) as [Hk1 E1].
  assert (0 ≤ tick_of k) as Hp0.
  { destruct (ok_sched _ _ _ _ Hk) as [a [HR Hwf]]. unfold tick_of. rewrite (abs_tick _ _ HR). apply (wf_tick _ _ Hwf). }
  pose proof (ticks_in_pos cs) as Hpc. rewrite u32_small in E1 by lia.
  destruct (IH Hk Ht) as [Hsl|(cs1 & c0 & cs2 & k3 & k4 & t4 & -> & H1 & H2 & H3 & H4 & H5 & H6 & H7)]; [lia| |].
  2: { right. exists cs1, c0, (cs2 ++ [c]), k3, k4, t4. split_and!; try done; [by rewrite <- !app_assoc|].
       by eapply trace_snoc. }
  pose proof Hsl as (t1 & Ht1 & Ea & Hd). destruct (ok_sched _ _ _ _ Hk1) as [a Hs].
  destruct (kstep_abstract c k1 k2 a Hk1 Hs Hc) as (a' & _ & Hs' & Hac).
  pose proof (kstep_tick c k1 k2 Hk1 Hc) as E2. rewrite E1, u32_small in E2 by lia.
  assert (state (unlink t1) = TASK_STATE_BLOCKED) as Hst1.
  { injection Ea as Es _. change (state (unlink t1)) with (state t1). congruence. }
  destruct (call_sleeper c a a' x (unlink t1) (proj2 Hs) Hac (same_task _ _ _ _ Hs Ht1) Hst1) as (t2 & Ht2 & Hor).
  destruct (same_task_inv _ _ _ _ Hs' Ht2) as (u2 & Hu2 & ->).
  assert (∀ now, ripe now (unlink t1) ↔ ripe now t) as Hripe by (intros now; by apply asleep_ripe).
  assert (a_tick a' = tick_of k + ticks_in (cs ++ [c])) as Etick.
  { rewrite <- (abs_tick _ _ (proj1 Hs')). unfold tick_of in E2. rewrite E2, ticks_in_app. unfold tick_of. lia. }
  rewrite Etick in Hor. destruct Hor as [[Es Hnr]|[Hrun Hwhy]].
  - left. exists u2. split; [done|]. split; [by etrans|]. intros Htm Hpos.
    assert (c = Tick ∨ ticks_in [c] = 0) as [->|E0] by (destruct c; (by left) || (by right)).
    + specialize (Hnr eq_refl). rewrite Hripe in Hnr.
      destruct (Z.lt_ge_cases (tick_of k + ticks_in (cs ++ [Tick])) (wake_tick t)); [done|]. by destruct Hnr.
    + rewrite ticks_in_app, E0, Z.add_0_r in *. by apply Hd.
  - right. exists cs, c, [], k1, k2, u2. split_and!; try done; [apply trace_nil|].
    destruct Hwhy as [Hm|[-> Hr]].
    + left. injection Ea as _ Er Eo _ _. destruct c; simpl in *; try done; by rewrite <- Er, <- Eo.
    + right. apply Hripe in Hr as (_ & ? & ?). done.
Qed.

Lemma history_abstract cs k k' a : kernel_ok k → stands_for (k_sched k) a → trace kstep cs k k' →
  ∃ a', trace acall cs a a' ∧ stands_for (k_sched k') a'.
Proof using HL.
  intros Hk Hs Ht. revert Hs. induction Ht as [k|cs c k k1 k' Htr IH Hc]; intros Hs.
  { exists a. split; [apply trace_nil|done]. }
  destruct (IH Hk Hs) as (a1 & Ha1 & Hs1). destruct (history_ok cs k k1 Hk Htr) as [Hk1 _].
  destruct (kstep_abstract c k1 k' a1 Hk1 Hs1 Hc) as (a' & _ & Hs' & Hac).
  exists a'. split; [by eapply trace_snoc|done].
Qed.

Lemma history_reachable cs k k' : reachable k → trace kstep cs k k' → reachable k'.
Proof using Type.
  intros Hr Ht. induction Ht as [k|cs c k k1 k' _ IH [Hal He]]; [done|].
  destruct (IH Hr) as (k0 & r & k2 & ? & ? & ?). exists k0, r, k2. split_and!; [done..|].
  eapply rtc_r; [done|by econstructor].
Qed.

(** ** Properties *)

(** C4: The kernel refines its specification: whatever history of allowed calls
    (none suspends or deletes a blocked task), ticks and switches the kernel goes
    through, on linked TCBs, bitmap and pools, the
    abstract system, on queues that are lists of tasks, goes through the same
    calls, and its state is what the kernel's memory spells at the end. *)
Theorem kernel_refines_spec cs k k' a : idle_task_addr ≠ NULL → reachable k → stands_for (k_sched k) a →
  trace kstep cs k k' → ∃ a', trace acall cs a a' ∧ stands_for (k_sched k') a'.
Proof using HL.
  intros Hi Hr. apply history_abstract. by eapply reachable_ok.
Qed.

(** C5: A blocked task sleeps until its deadline, whatever allowed calls are made
    meanwhile, as long as the tick count does not wrap.  (Suspending or deleting
    a blocked task is not allowed: it may leave others asleep for ever,
    [suspend_blocked_loses_sleepers].)  It does not oversleep: in a history
    with a tick at or after its deadline there is a call that woke it, the tick of
    the deadline at the latest.  It does not wake early: without a call that
    wakes it on purpose, it sleeps on while its deadline has not come, and for
    ever if it has none. *)
Theorem sleeps_until_deadline cs k k' x t : idle_task_addr ≠ NULL → reachable k →
  tcb_at k x = Some t → state t = TASK_STATE_BLOCKED → trace kstep cs k k' → tick_of k + ticks_in cs < 2 ^ 32 →
  (timed t → 0 < ticks_in cs → wake_tick t ≤ tick_of k + ticks_in cs → woken_up x t k cs k') ∧
  (Forall (λ c, ¬ may_wake c x t) cs → (timed t → tick_of k + ticks_in cs < wake_tick t) →
    ∃ t', tcb_at k' x = Some t' ∧ asleep t' = asleep t).
Proof using HL.
  intros Hi Hr Ht Hst Htr Hw.
  assert (kernel_ok k) as Hk by (by eapply reachable_ok).
  destruct (sleeper_history cs k k' x t Hk Ht Hst Htr Hw) as [(t' & Ht' & Ea & Hd)|Hwk].
  - split; [|by exists t']. intros Htm Hpos Hle. specialize (Hd Htm Hpos). lia.
  - split; [done|]. intros Hno Hlt.
    destruct Hwk as (cs1 & c & cs2 & k1 & k2 & t2 & -> & _ & _ & _ & _ & _ & _ & [Hm|(_ & Htm & Hle)]).
    + apply Forall_app in Hno as [_ [[Hno _]%Forall_cons _]%Forall_app]. by destruct (Hno Hm).
    + specialize (Hlt Htm). rewrite app_assoc, ticks_in_app in Hlt. pose proof (ticks_in_pos cs2). lia.
Qed.

(** C6: The most urgent task gets the processor on time: the tick of its deadline
    finds it asleep, makes it ready and asks for a switch, and that switch runs
    it. *)
Theorem urgent_sleeper_runs k x t : idle_task_addr ≠ NULL → reachable k → tcb_at k x = Some t →
  ripe (u32 (tick_of k + 1)) t → running k ≠ NULL → running k ≠ x →
  (∀ y u, y ≠ x → tcb_at k y = Some u → priority t < priority u) →
  ∃ k1 k2 t2, kstep Tick k k1 ∧ pendsv_pending (cpu (k_sched k1)) = true ∧ kstep Switch k1 k2 ∧
    running k2 = x ∧ tcb_at k2 x = Some t2 ∧ runnable (state t2) = true ∧ reachable k2.
Proof using HL.
  intros Hi Hr Ht Hrp Hc Hcx Hmost. assert (kernel_ok k) as Hk by exact (reachable_ok _ _ _ _ _ _ _ _ _ HL k Hi Hr).
  destruct (ok_sched _ _ _ _ Hk) as [a Hs]. pose proof (stands_for_current _ _ Hs) as Ec. unfold running in Hc, Hcx.
  rewrite Ec in Hc, Hcx.
  destruct (tick_urgent a x (unlink t) (proj2 Hs) (same_task _ _ _ _ Hs Ht)) as [Hpend Htop]; [|done|done| |].
  { unfold tick_of in Hrp. by rewrite (abs_tick _ _ (proj1 Hs)) in Hrp. }
  { intros y u Hy Hu. destruct (same_task_inv _ _ _ _ Hs Hu) as (v & Hv & ->). by apply (Hmost y v). }
  destruct (exec_outcome g_task_pool g_stack_pool g_idle_tcb task_exit_trampoline_addr rodata stale_name Tick k a Hs I eq_refl) as (s1 & E1 & Hs1).
  cbn [eff_call] in Hs1. set (k1 := k <| k_sched := s1 |>) in *.
  change s1 with (k_sched k1) in Hs1.
  destruct (exec_outcome g_task_pool g_stack_pool g_idle_tcb task_exit_trampoline_addr rodata stale_name Switch k1
    (eff_tick a) Hs1 I eq_refl) as (s2 & E2 & Hs2).
  cbn [eff_call] in Hs2. set (k2 := k1 <| k_sched := s2 |>) in *. change s2 with (k_sched k2) in Hs2.
  assert (kstep Tick k k1) as H1 by done. assert (kstep Switch k1 k2) as H2 by done.
  pose proof (stands_for_current _ _ Hs2) as Ec2.
  change (a_current_task (eff_switch (eff_tick a))) with (top (eff_tick a)) in Ec2. rewrite Htop in Ec2.
  destruct (eff_tick_task a x _ (proj2 Hs) (same_task _ _ _ _ Hs Ht)) as (u & Hu & Hb).
  destruct (same_task_inv _ _ x u Hs2 Hu) as (t2 & Ht2 & ->).
  exists k1, k2, t2. split_and!; [done| |done|done|exact Ht2| |].
  - by rewrite (abs_cpu _ _ (proj1 Hs1)).
  - rewrite (after_tick_ripe a x _ (proj2 Hs) (same_task _ _ _ _ Hs Ht)), decide_True in Hb.
    + apply (f_equal state) in Hb. simpl in Hb. by rewrite Hb.
    + unfold tick_of in Hrp. by rewrite (abs_tick _ _ (proj1 Hs)) in Hrp.
  - eapply (history_reachable [Tick; Switch]); [exact Hr|].
    apply (trace_app _ [Tick] [Switch] _ k1); by apply trace_one.
Qed.
End histories.

(** ** The theorems on an example *)

Definition has_end {A} (m : M kernel A) (k : kernel) : bool :=
  match m k with Ret _ _ | Spin _ => true | _ => false end.

Lemma ends_final (m : M kernel ()) k : has_end m k = true → ends m k (final m k).
Proof. unfold has_end, ends, final. destruct (m k) as [[] ?|?| |]; intros; [by left|by right|done..]. Qed.

Notation ex_step := (kstep EX_POOL EX_STACKS EX_IDLE 0x60004001 (λ _, 0) ex_stale).

Lemma ex_step_final c k k' : k' = final (ex_exec c) k → allowed EX_POOL EX_STACKS EX_IDLE k c →
  has_end (ex_exec c) k = true → ex_step c k k'.
Proof. intros -> Hal Ho. split; [done|by apply ends_final]. Qed.

(** A task created after [kernel_init] runs and starts a delay of five ticks. *)
Definition ex_creation : call := Create NULL 0x60009000 0x60005001 7 2 NULL 1024.
Definition ex_k0 : kernel := final ex_boot example_cold.
Definition ex_k1 : kernel := final (ex_exec ex_creation) ex_k0.
Definition ex_k2 : kernel := final (ex_exec Start) ex_k1.
Definition ex_k3 : kernel := final (ex_exec (Block BLOCK_DELAY NULL 5)) ex_k2.
Definition ex_sleeper : ptr := EX_POOL 0.

Lemma ex_step1 : ex_step ex_creation ex_k0 ex_k1.
Proof.
  apply ex_step_final; [unfold ex_k1; reflexivity| |vm_compute; reflexivity]. split_and!; [lia|lia|done|done].
Qed.

Lemma ex_step2 : ex_step Start ex_k1 ex_k2.
Proof. apply ex_step_final; [unfold ex_k2; reflexivity|vm_compute; reflexivity|vm_compute; reflexivity]. Qed.

Lemma ex_step3 : ex_step (Block BLOCK_DELAY NULL 5) ex_k2 ex_k3.
Proof.
  apply ex_step_final; [unfold ex_k3; reflexivity| |vm_compute; reflexivity].
  split; [vm_compute; discriminate|]. eexists. split; [vm_compute; reflexivity|]. discriminate.
Qed.

Lemma ex_to_k3 : trace ex_step ([ex_creation] ++ [Start] ++ [Block BLOCK_DELAY NULL 5]) ex_k0 ex_k3.
Proof.
  apply (trace_app _ _ _ _ ex_k1); [apply trace_one, ex_step1|].
  apply (trace_app _ _ _ _ ex_k2); apply trace_one; [apply ex_step2|apply ex_step3].
Qed.

Lemma ex_k3_reachable : ex_reachable ex_k3.
Proof.
  refine (history_reachable _ _ _ _ _ EX_IDLE_TASK 0x60008000 _ _ _ ex_k0 ex_k3 _ ex_to_k3).
  destruct (boot_ok _ _ _ _ 0x60004001 EX_IDLE_TASK 0x60008000 (λ _, 0) ex_stale example_layout example_cold
    example_is_cold example_idle_task) as (k & E & _).
  exists example_cold, KERNEL_OK, ex_k0. split_and!; [apply example_is_cold| |done].
  unfold ex_k0, final, ex_boot. by rewrite E.
Qed.

Lemma ends_is_final (m : M kernel ()) k k' : ends m k k' → k' = final m k.
Proof. unfold ends, final. by intros [-> | ->]. Qed.

(** Ticks are always allowed. *)
Lemma ex_tick k : ex_ok k → ex_step Tick k (final (ex_exec Tick) k) ∧ ex_ok (final (ex_exec Tick) k).
Proof.
  intros Hk. destruct (exec_ok _ _ _ _ 0x60004001 (λ _, 0) ex_stale example_layout Tick k Hk I) as (k2 & He & Hk2).
  assert (final (ex_exec Tick) k = k2) as -> by (symmetry; exact (ends_is_final _ _ _ He)).
  split; [split; [exact I|exact He]|exact Hk2].
Qed.

Lemma ex_ticks n k : ex_ok k → trace ex_step (replicate n Tick) k (Nat.iter n (final (ex_exec Tick)) k) ∧
  ex_ok (Nat.iter n (final (ex_exec Tick)) k).
Proof.
  intros Hk. induction n as [|n [Ht Hk1]]; [split; [apply trace_nil|done]|].
  destruct (ex_tick _ Hk1) as [Hs Hk2]. split; [|exact Hk2]. rewrite replicate_S_end. eapply trace_snoc; [exact Ht|exact Hs].
Qed.

(** Five ticks after it fell asleep the task has been woken. *)
Lemma sleeps_until_deadline_witness : ∃ k' t, tcb_at ex_k3 ex_sleeper = Some t ∧ wake_tick t = 5 ∧
  trace ex_step (replicate 5 Tick) ex_k3 k' ∧
  woken_up EX_POOL EX_STACKS EX_IDLE 0x60004001 (λ _, 0) ex_stale ex_sleeper t ex_k3 (replicate 5 Tick) k'.
Proof.
  assert (ex_ok ex_k3) as Hk by exact (reachable_ok _ _ _ _ _ _ _ _ _ example_layout ex_k3 example_idle_task ex_k3_reachable).
  destruct (ex_ticks 5 ex_k3 Hk) as [Htr _]. set (k' := Nat.iter 5 _ ex_k3) in *.
  assert (∃ t, tcb_at ex_k3 ex_sleeper = Some t ∧ state t = TASK_STATE_BLOCKED ∧ wake_tick t = 5 ∧ block_reason t = BLOCK_DELAY)
    as (t & Ht & Hst & Hwk & Hrs).
  { eexists. split; [vm_compute; reflexivity|]. split_and!; reflexivity. }
  assert (tick_of ex_k3 = 0) as E0 by (vm_compute; reflexivity).
  destruct (sleeps_until_deadline EX_POOL EX_STACKS EX_IDLE EX_IDLE_STACK 0x60004001 EX_IDLE_TASK 0x60008000
    (λ _, 0) ex_stale example_layout (replicate 5 Tick) ex_k3 k' ex_sleeper t example_idle_task ex_k3_reachable
    Ht Hst Htr) as [Hwake _].
  - rewrite E0. reflexivity.
  - exists k', t. split_and!; [exact Ht|exact Hwk|exact Htr|]. apply Hwake.
    + left. exact Hrs.
    + reflexivity.
    + rewrite Hwk, E0. vm_compute. discriminate.
Defined.

Lemma kernel_refines_spec_witness : ∃ k' a a', trace ex_step (replicate 5 Tick) ex_k3 k' ∧
  trace acall (replicate 5 Tick) a a' ∧ stands_for (k_sched k') a'.
Proof.
  assert (ex_ok ex_k3) as Hk by exact (reachable_ok _ _ _ _ _ _ _ _ _ example_layout ex_k3 example_idle_task ex_k3_reachable).
  destruct (ex_ticks 5 ex_k3 Hk) as [Htr _]. set (k' := Nat.iter 5 _ ex_k3) in *. destruct (ok_sched _ _ _ _ Hk) as [a Hs].
  destruct (kernel_refines_spec EX_POOL EX_STACKS EX_IDLE EX_IDLE_STACK 0x60004001 EX_IDLE_TASK 0x60008000
    (λ _, 0) ex_stale example_layout (replicate 5 Tick) ex_k3 k' a example_idle_task ex_k3_reachable Hs Htr)
    as (a' & Ha & Hs').
  exists k', a, a'. split_and!; [exact Htr|exact Ha|exact Hs'].
Defined.

(** At tick 4, with the idle task running. *)
Definition ex_k4 : kernel := final (ex_exec Switch) ex_k3.
Definition ex_k8 : kernel := Nat.iter 4 (final (ex_exec Tick)) ex_k4.

Lemma ex_step4 : ex_step Switch ex_k3 ex_k4.
Proof. apply ex_step_final; [unfold ex_k4; reflexivity|exact I|vm_compute; reflexivity]. Qed.

Lemma ex_k8_reachable : ex_reachable ex_k8.
Proof.
  assert (ex_reachable ex_k4) as Hr4.
  { exact (history_reachable _ _ _ _ _ EX_IDLE_TASK 0x60008000 _ _ _ ex_k3 ex_k4 ex_k3_reachable (trace_one _ _ _ _ ex_step4)). }
  assert (ex_ok ex_k4) as Hk by exact (reachable_ok _ _ _ _ _ _ _ _ _ example_layout ex_k4 example_idle_task Hr4).
  destruct (ex_ticks 4 ex_k4 Hk) as [Htr _].
  exact (history_reachable _ _ _ _ _ EX_IDLE_TASK 0x60008000 _ _ _ ex_k4 ex_k8 Hr4 Htr).
Qed.

Lemma all_tcbs (P : ptr → task_tcb → Prop) k y u : map_Forall P (tcbs (k_sched k)) → tcb_at k y = Some u → P y u.
Proof. intros HP Hu. exact (HP y u Hu). Qed.

Lemma ex_k8_others : map_Forall (λ y u, y = ex_sleeper ∨ 2 < priority u) (tcbs (k_sched ex_k8)).
Proof. apply (bool_decide_unpack _). vm_compute. exact I. Qed.

Lemma urgent_sleeper_runs_witness : ∃ k1 k2, ex_step Tick ex_k8 k1 ∧ ex_step Switch k1 k2 ∧ running k2 = ex_sleeper.
Proof.
  assert (∃ t, tcb_at ex_k8 ex_sleeper = Some t ∧ ripe (u32 (tick_of ex_k8 + 1)) t ∧ priority t = 2) as (t & Ht & Hr & Hp).
  { eexists. split; [vm_compute; reflexivity|]. split; [|reflexivity]. split; [reflexivity|].
    split; [vm_compute; discriminate|left; reflexivity]. }
  destruct (urgent_sleeper_runs EX_POOL EX_STACKS EX_IDLE EX_IDLE_STACK 0x60004001 EX_IDLE_TASK 0x60008000
    (λ _, 0) ex_stale example_layout ex_k8 ex_sleeper t example_idle_task ex_k8_reachable Ht Hr) as (k1 & k2 & _ & H1 & _ & H2 & Hc & _).
  - vm_compute. discriminate.
  - vm_compute. discriminate.
  - intros y u Hy Hu. rewrite Hp.
    destruct (all_tcbs _ _ _ _ ex_k8_others Hu) as [E|E]; [exact (False_ind _ (Hy E))|exact E].
  - exists k1, k2. split_and!; [exact H1|exact H2|exact Hc].
Defined.
