(* ===== verification/Inversion.v ===== *)
(** * Priority inversion

    What the inheritance of [kernel/sync/mutex.c] achieves together with the
    scheduler: while a task waits for a mutex and the owner is let alone, every
    context switch runs a task at least as urgent as the one that waits; and
    where inheritance falls short. *)
From S2P Require Import Prelude Config Task Critical Bitmap TcbList Scheduler SchedSpec.
From S2P Require Import SchedRefine SchedInv SchedEffect SchedFrame SchedIface Sync Trace Checker Example.
From S2P Require Import SchedProps Mutex Kernel KernelProps SystemSpec System Deadline.

(** ** Calls and priorities *)

(** No priority changes. *)
Definition same_prio (a a' : asched) : Prop := ∀ x, priority <$> a_tasks a' !! x = priority <$> a_tasks a !! x.

#[export] Instance same_prio_preorder : PreOrder same_prio.
Proof. split; [done|]. intros a b c H1 H2 x. by rewrite H2, H1. Qed.

Lemma same_prio_tasks a a' : a_tasks a' = a_tasks a → same_prio a a'.
Proof. intros E x. by rewrite E. Qed.

Lemma same_prio_set x f a : (∀ t, priority (f t) = priority t) → same_prio a (set_task x f a).
Proof.
  intros Hf y. simpl. destruct (decide (x = y)) as [<-|Hne]; [|by rewrite lookup_alter_ne].
  rewrite lookup_alter_eq. destruct (a_tasks a !! x); [|done]. simpl. by rewrite Hf.
Qed.

Lemma same_prio_pend_if b a : same_prio a (pend_if b a).
Proof. by destruct b. Qed.

Lemma same_prio_add x a : same_prio a (eff_add x a).
Proof.
  unfold eff_add. etransitivity; [|apply same_prio_pend_if].
  transitivity (set_task x fresh_slice a); [by apply same_prio_set|by apply same_prio_tasks].
Qed.

Lemma same_prio_yield a : same_prio a (eff_yield a).
Proof. apply same_prio_tasks, eff_yield_tasks. Qed.

Lemma same_prio_retire x st a : same_prio a (eff_retire x st a).
Proof. transitivity (eff_remove x a); [by apply same_prio_tasks|by apply same_prio_set]. Qed.

Lemma same_prio_leave x st a : same_prio a (eff_leave x st a).
Proof.
  unfold eff_leave. destruct (_ =? _); [|apply same_prio_retire].
  etransitivity; [apply same_prio_retire|apply same_prio_yield].
Qed.

Lemma same_prio_wake_many q f l a : (∀ x t, priority (f x t) = priority t) → same_prio a (wake_many q f l a).
Proof.
  intros Hf. revert a. induction l as [|x l IH]; intros a; [done|]. simpl. etransitivity; [|apply IH].
  destruct (q x); [|done]. transitivity (set_task x (f x) (unblocked x a)); [|by apply same_prio_tasks].
  transitivity (unblocked x a); [by apply same_prio_tasks|by apply same_prio_set].
Qed.

Lemma same_prio_tick a : wf a → same_prio a (eff_tick a).
Proof.
  intros Hwf x. destruct (a_tasks a !! x) as [t|] eqn:E.
  - destruct (tick_priority a x t Hwf E) as (t' & -> & Ep). simpl. by rewrite Ep.
  - pose proof (evolves_tick None a x) as He. rewrite E in He. by destruct (a_tasks (eff_tick a) !! x).
Qed.

Lemma same_prio_block reason object timeout a : same_prio a (eff_block reason object timeout a).
Proof.
  transitivity (eff_remove (a_current_task a) a); [by apply same_prio_tasks|].
  transitivity (set_task (a_current_task a) (waiting (a_tick a) reason object timeout) (eff_remove (a_current_task a) a));
    [by apply same_prio_set|by apply same_prio_tasks].
Qed.

Lemma same_prio_unblock x r a : same_prio a (eff_unblock x r a).
Proof. intros y. rewrite eff_unblock_tasks. case_decide; [|done]. by destruct (a_tasks a !! y). Qed.

#[local] Hint Resolve same_prio_add same_prio_yield same_prio_retire same_prio_leave same_prio_block
  same_prio_unblock same_prio_tick : same_prio.

(** Priorities change only where a call says so. *)
Lemma call_prio c a : wf a → (∀ tcb p, c ≠ SetPriority tcb p) → same_prio a (eff_call c a).
Proof.
  intros Hwf Hc. destruct c; simpl; eauto with same_prio; try (by apply same_prio_tasks).
  - case_bool_decide; [|done]. unfold eff_resume. etransitivity; [|apply same_prio_add]. by apply same_prio_set.
  - by destruct (Hc tcb priority).
  - case_bool_decide; [|done]. apply same_prio_unblock.
  - unfold eff_unblock_one. destruct (_ =? _); [done|apply same_prio_unblock].
  - unfold eff_unblock_all. etransitivity; [|apply same_prio_pend_if]. by apply same_prio_wake_many.
  - unfold eff_unlock. destruct (_ && _); by apply same_prio_tasks.
  - unfold eff_start. etransitivity; [|by apply same_prio_set]. by apply same_prio_tasks.
Qed.

(** ** A task that backs a priority *)

(** [y] can run and is as urgent as [p]. *)
Definition backs (y : ptr) (p : Z) (a : asched) : Prop :=
  ∃ t, a_tasks a !! y = Some t ∧ runnable (state t) = true ∧ priority t ≤ p.

(** A call that does not stop [y] nor make it less urgent than [p]. *)
Definition spares (y : ptr) (p : Z) (c : call) (k : kernel) : Prop :=
  match c with
  | Delete tcb | Suspend tcb => target_of k tcb ≠ y
  | Retire tcb _ => tcb ≠ y
  | Block _ _ _ => running k ≠ y
  | SetPriority tcb q => target_of k tcb = y → q ≤ p
  | _ => True
  end.

Lemma top_backed y p a : wf a → backs y p a → ∃ t, a_tasks a !! top a = Some t ∧ runnable (state t) = true ∧ priority t ≤ p.
Proof.
  intros Hwf (t & Ht & Hr & Hp). destruct (top_spec a Hwf) as [[_ Hno]|(u & Hu & Hru & _ & Hmin)].
  - by rewrite (Hno _ _ Ht) in Hr.
  - exists u. specialize (Hmin y t Ht Hr). split_and!; [done..|lia].
Qed.

Lemma call_backs y p c k a a' : stands_for (k_sched k) a → acall c a a' → wf a' → spares y p c k →
  (∀ tcb q, c = SetPriority tcb q → 0 ≤ q) → backs y p a → backs y p a'.
Proof.
  intros Hs Hc Hwf' Hsp Hq (t & Ht & Hr & Hp). pose proof (proj2 Hs) as Hwf.
  pose proof (stands_for_current _ _ Hs) as Ec.
  destruct Hc as [c a _|tcb name entry arg priority stack size x u a Hd Hu].
  2: { exists t. split_and!; [|done..]. rewrite created_other; [done|]. intros ->. unfold dormant in Hd.
       rewrite Ht in Hd. apply runnable_kind in Hr. congruence. }
  assert (stopped c a ≠ Some y) as Hns.
  { assert (∀ tcb, target_of k tcb = target tcb a) as Et by (intros tcb; unfold target_of, running; by rewrite Ec).
    intros E. destruct c; cbn [spares stopped] in *; unfold running in Hsp; rewrite ?Et in Hsp; congruence. }
  pose proof (evolves_call c a y) as He. rewrite Ht, bool_decide_false in He by done.
  destruct (a_tasks (eff_call c a) !! y) as [t'|] eqn:Ht'; [|done]. destruct He as [_ Hr'].
  exists t'. split_and!; [done|auto|].
  assert ((∃ tcb q, c = SetPriority tcb q) ∨ ∀ tcb q, c ≠ SetPriority tcb q) as [(tcb & q & ->)|Hn]
    by (destruct c; eauto; right; congruence).
  - cbn [eff_call] in Ht'. destruct (Z.leb_spec CONFIG_MAX_PRIORITY q) as [|Hlt]; [congruence|].
    destruct (decide (target tcb a = y)) as [<-|Hne]; [|rewrite eff_set_priority_other in Ht' by done; congruence].
    assert (target tcb a ≠ NULL) as Hy by (eapply wf_deref; [exact Hwf|eauto]).
    destruct (eff_set_priority_task (target tcb a) q a t Hy (conj (Hq _ _ eq_refl) Hlt) Ht) as (u & Hu & Ep & _).
    assert (u = t') as -> by congruence. rewrite Ep. apply Hsp. unfold target_of, running. by rewrite Ec.
  - pose proof (call_prio c a Hwf Hn y) as E. rewrite Ht, Ht' in E. simpl in E. injection E as ->. done.
Qed.

(** ** Histories *)

(** The caller of a mutex runs undisturbed until it gives the processor away,
    and the run ends there. *)
Definition until_asleep : others (world sched mutex_t) := mkOthers (mret ()) spin.

(** The caller has lent its priority and sleeps: the owner backs it. *)
Lemma lent_backs self mtx timeout m a : thread self a → owner m ≠ self →
  (∃ u, a_tasks a !! owner m = Some u ∧ runnable (state u) = true) →
  backs (owner m) (prio_of a self) (eff_block BLOCK_MUTEX mtx timeout (eff_inherit self m a)).
Proof.
  intros Hth Ho (u & Hu & Hru). pose proof Hth as [Hwf Hc _ _ (t & Ht & _)].
  assert (owner m ≠ NULL) as Hn by (eapply wf_deref; [exact Hwf|eauto]).
  destruct (inherit_thread self m a Hth (or_intror (mk_is_Some _ _ Hu))) as [_ Hc' _ _ _].
  unfold backs, eff_block. simpl. rewrite Hc', lookup_alter_ne by done.
  change (a_tasks (eff_remove self ?b)) with (a_tasks b).
  assert (prio_of a self = priority t) as Ep by (unfold prio_of; by rewrite Ht).
  destruct (wf_task _ _ Hwf _ _ Ht) as (Hpt & _). unfold eff_inherit.
  rewrite (proj2 (Z.eqb_neq _ _) Hn), Ep. cbn [negb andb].
  assert (prio_of a (owner m) = priority u) as Epu by (unfold prio_of; by rewrite Hu). rewrite Epu.
  destruct (Z.ltb_spec (priority t) (priority u)).
  - destruct (eff_set_priority_task (owner m) (priority t) a u Hn Hpt Hu) as (u' & Hu' & Hp' & _ & Hq).
    exists u'. split_and!; [done| |lia]. apply runnable_kind. by rewrite Hq, <- runnable_kind.
  - exists u. split_and!; [done..|lia].
Qed.

Lemma evolves_inherit o self m a : evolves o a (eff_inherit self m a).
Proof. unfold eff_inherit. destruct (_ && _); [apply evolves_set_priority|done]. Qed.

(** The way of a call to a mutex that is taken until the caller sleeps. *)
Lemma lock_sleeps fuel self mtx timeout w a m : abstracts (kern w) a → thread self a → mtx ≠ NULL →
  objs w !! mtx = Some m → lockable self m = false → owner_known m a → timeout ≠ TIMEOUT_NONE →
  ∃ w', mutex_lock until_asleep (S fuel) mtx timeout w = Spin w' ∧ objs w' = objs w ∧
    stands_for (kern w') (eff_block BLOCK_MUTEX mtx timeout (eff_inherit self m a)).
Proof.
  intros HR Hth Hn Hm Hlk Hk Hto. pose proof Hth as [Hwf Hc Hi Hmask (t & Ht & Hrt)].
  destruct (mutex_lock_loop (K := sched) self until_asleep (S fuel) mtx timeout w a Hn HR Hth) as (w0 & -> & HR0 & Ho0).
  rewrite <- Ho0 in Hm.
  destruct (mutex_trylock_runs mtx self a (objs w0) m t Hwf Hi Hc Ht Hn Hm w0 HR0 eq_refl) as (w1 & E1 & HR1 & Ho1).
  rewrite Hlk in E1, Ho1. rewrite <- Ho1 in Hm. change (rep (kern w1) a) in HR1.
  destruct (mutex_inherit_runs (K := sched) self until_asleep mtx a _ m eq_refl Hth Hn Hm Hk w1 HR1 eq_refl) as (w2 & E2 & HR2 & Ho2).
  pose proof (inherit_thread self m a Hth Hk) as Hth2. set (a2 := eff_inherit self m a) in *.
  pose proof Hth2 as [Hwf2 Hc2 Hi2 Hmask2 (t2 & Ht2 & Hrt2)]. rewrite <- Hc2 in Ht2.
  assert (state t2 ≠ TASK_STATE_BLOCKED) as Hnb by (by destruct (state t2)).
  destruct (runs_kern (O := mutex_t) _ _ _ _ _ (spec_block_enter a2 BLOCK_MUTEX mtx timeout t2 Hwf2 Ht2 Hnb) w2 HR2 eq_refl)
    as (w3 & E3 & HR3 & Ho3).
  destruct (block_eff BLOCK_MUTEX mtx timeout a2 t2 Hwf2 Ht2 Hnb) as [_ Hwf3].
  exists w3. split_and!; [|congruence|done].
  simpl. apply bind_spin. unfold mutex_lock_round. run E1. change (KERNEL_ERR_TIMEOUT =? KERNEL_OK) with false. cbn iota.
  rewrite (proj2 (Z.eqb_neq timeout TIMEOUT_NONE)) by done. cbn [between until_asleep]. step. cbn [CONFIG_PRIORITY_INHERITANCE when].
  run E2. step. apply bind_spin. unfold scheduler_block_task. run E3. apply bind_spin.
  unfold switch_point.
  assert (zoom op_switch_due w3 = Ret true w3) as Edue.
  { apply (zoom_ret_same (S := sched)). change (Ret (pendsv_taken (cpu (kern w3))) (kern w3) = Ret (S := sched) true (kern w3)).
    rewrite (abs_cpu _ _ HR3). f_equal. by apply pend_taken. }
  run Edue. done.
Qed.

Section histories.
Context (g_task_pool g_stack_pool : Z → ptr) (g_idle_tcb g_idle_stack : ptr).
Context (task_exit_trampoline_addr : ptr) (rodata : Z → Z) (stale_name : ptr → list Z).
Context (HL : layout_ok g_task_pool g_stack_pool g_idle_tcb g_idle_stack).

Notation kernel_ok := (kernel_ok g_task_pool g_stack_pool g_idle_tcb).
Notation kstep := (kstep g_task_pool g_stack_pool g_idle_tcb task_exit_trampoline_addr rodata stale_name).

(** A step of the kernel that spares [y]. *)
Definition sparing (y : ptr) (p : Z) (c : call) (k k' : kernel) : Prop := kstep c k k' ∧ spares y p c k.

Lemma step_backs y p c k k' a : kernel_ok k → stands_for (k_sched k) a → sparing y p c k k' → backs y p a →
  kernel_ok k' ∧ ∃ a', stands_for (k_sched k') a' ∧ backs y p a'.
Proof using HL.
  intros Hk Hs [Hc Hsp] Hy.
  destruct (kstep_abstract _ _ _ g_idle_stack task_exit_trampoline_addr rodata stale_name HL c k k' a Hk Hs Hc)
    as (a' & Hk' & Hs' & Hac).
  split; [done|]. exists a'. split; [done|]. eapply call_backs; [exact Hs|exact Hac|apply Hs'|done| |done].
  intros tcb q ->. destruct Hc as [[Hq _] _]. done.
Qed.

Lemma history_backs y p cs k k' a : kernel_ok k → stands_for (k_sched k) a → trace (sparing y p) cs k k' → backs y p a →
  kernel_ok k' ∧ ∃ a', stands_for (k_sched k') a' ∧ backs y p a'.
Proof using HL.
  intros Hk Hs Htr Hy. induction Htr as [k|cs c k k1 k' _ IH Hc]; [eauto|].
  destruct (IH Hk Hs) as (Hk1 & a1 & Hs1 & Hy1). by eapply step_backs.
Qed.

(** The next switch runs a task as urgent as the one backed. *)
Lemma switch_backed y p k a : kernel_ok k → stands_for (k_sched k) a → backs y p a → ∃ k' t, kstep Switch k k' ∧
  tcb_at k' (running k') = Some t ∧ runnable (state t) = true ∧ priority t ≤ p.
Proof using Type.
  intros Hk Hs Hy. destruct (exec_outcome g_task_pool g_stack_pool g_idle_tcb task_exit_trampoline_addr rodata stale_name
    Switch k a Hs I eq_refl) as (s' & E & Hs'). cbn [eff_call] in Hs'.
  destruct (top_backed y p a (proj2 Hs) Hy) as (u & Hu & Hr & Hp).
  pose proof (stands_for_current _ _ Hs') as Ec. change (a_current_task (eff_switch a)) with (top a) in Ec.
  destruct (same_task_inv _ _ (top a) u Hs' Hu) as (t & Ht & ->).
  exists (k <| k_sched := s' |>), t. split_and!; [by split|unfold tcb_at, running; simpl; by rewrite Ec|done..].
Qed.

(** C29: No priority inversion: a task that finds a mutex taken lends its
    priority to the owner, which can run, and goes to sleep; from then on,
    whatever history of calls, ticks and switches the kernel goes through,
    every context switch runs a task at least as urgent as the one that waits,
    as long as none of the calls stops the owner or makes it less urgent than
    the waiter (as its own unlock does). *)
Theorem mutex_bounds_inversion fuel self mtx timeout k mutexes a m : kernel_ok k → self ≠ g_idle_tcb →
  stands_for (k_sched k) a → thread self a → mtx ≠ NULL → mutexes !! mtx = Some m →
  lockable self m = false → owner m ≠ self →
  (∃ u, tcb_at k (owner m) = Some u ∧ runnable (state u) = true) → timeout ≠ TIMEOUT_NONE →
  ∃ w t, mutex_lock until_asleep (S fuel) mtx timeout (mkWorld (k_sched k) mutexes) = Spin w ∧ objs w = mutexes ∧
    tcbs (kern w) !! self = Some t ∧ state t = TASK_STATE_BLOCKED ∧ block_object t = mtx ∧
    kernel_ok (k <| k_sched := kern w |>) ∧
    ∀ cs k2, trace (sparing (owner m) (prio_of a self)) cs (k <| k_sched := kern w |>) k2 →
      ∃ k3 u, kstep Switch k2 k3 ∧ tcb_at k3 (running k3) = Some u ∧ runnable (state u) = true ∧
        priority u ≤ prio_of a self.
Proof using HL.
  intros Hk Hidle Hs Hth Hn Hm Hlk Ho (u & Hu & Hru) Hto.
  assert (∃ u, a_tasks a !! owner m = Some u ∧ runnable (state u) = true) as Hua.
  { exists (unlink u). split; [by apply (same_task _ _ _ _ Hs)|done]. }
  assert (owner_known m a) as Hkn by (destruct Hua as (v & Hv & _); right; eauto).
  destruct (lock_sleeps fuel self mtx timeout (mkWorld (k_sched k) mutexes) a m (proj1 Hs) Hth Hn Hm Hlk Hkn Hto)
    as (w & E & Ho' & Hs').
  pose proof (lent_backs self mtx timeout m a Hth Ho Hua) as Hy.
  set (a2 := eff_inherit self m a) in *.
  destruct (inherit_thread self m a Hth Hkn) as [_ Hc2 _ _ (t2 & Ht2 & _)]. fold a2 in Hc2, Ht2.
  assert (a_tasks (eff_block BLOCK_MUTEX mtx timeout a2) !! self = Some (waiting (a_tick a2) BLOCK_MUTEX mtx timeout t2)) as Hself.
  { unfold eff_block. simpl. by rewrite Hc2, lookup_alter_eq, Ht2. }
  destruct (same_task_inv _ _ _ _ Hs' Hself) as (t & Ht & Et).
  pose proof (f_equal (λ v, (state v, block_object v)) Et) as Ef. simpl in Ef. injection Ef as Ef1 Ef2.
  assert (kernel_ok (k <| k_sched := kern w |>)) as Hk1.
  { eapply (kernel_ok_evolves _ _ _ k (kern w) a _ (Some self)); [done..| |by intros [= ]].
    transitivity a2; [apply evolves_inherit|]. rewrite <- Hc2. apply evolves_block. }
  exists w, t. split_and!; [done|done|exact Ht|done|done|done|].
  intros cs k2 Htr. destruct (history_backs _ _ _ _ _ _ Hk1 Hs' Htr Hy) as (Hk2 & a' & Hs2 & Hy2).
  by eapply switch_backed.
Qed.
End histories.

(** ** The theorem on an example

    The created task of [Deadline.v] runs and waits for a mutex of the idle
    task; seven ticks later the next switch runs a task as urgent as it is. *)
Lemma ex_k2_reachable : ex_reachable ex_k2.
Proof.
  refine (history_reachable _ _ _ _ _ EX_IDLE_TASK 0x60008000 _ _ ([ex_creation] ++ [Start]) ex_k0 ex_k2 _ _).
  - destruct (boot_ok _ _ _ _ 0x60004001 EX_IDLE_TASK 0x60008000 (λ _, 0) ex_stale example_layout example_cold
      example_is_cold example_idle_task) as (k & E & _).
    exists example_cold, KERNEL_OK, ex_k0. split_and!; [apply example_is_cold| |done].
    unfold ex_k0, final, ex_boot. by rewrite E.
  - apply (trace_app _ _ _ _ ex_k1); apply trace_one; [apply ex_step1|apply ex_step2].
Qed.

Definition idle_owns : gmap ptr mutex_t := {[OBJ := mutex_example EX_IDLE]}.

Lemma sparing_ticks n y p k : ex_ok k →
  trace (sparing EX_POOL EX_STACKS EX_IDLE 0x60004001 (λ _, 0) ex_stale y p) (replicate n Tick) k
    (Nat.iter n (final (ex_exec Tick)) k).
Proof.
  intros Hk. induction n as [|n IH]; [apply trace_nil|]. rewrite replicate_S_end.
  eapply trace_snoc; [exact IH|]. split; [|exact I]. by apply ex_tick, ex_ticks.
Qed.

Lemma ex_k2_ok : ex_ok ex_k2.
Proof. exact (reachable_ok _ _ _ _ _ _ _ _ _ example_layout ex_k2 example_idle_task ex_k2_reachable). Qed.

Lemma ex_k2_task : ∃ t, tcb_at ex_k2 ex_sleeper = Some t ∧ runnable (state t) = true ∧ priority t = 2.
Proof. eexists. split; [vm_compute; reflexivity|]. split; reflexivity. Qed.

Lemma ex_k2_idle : ∃ t, tcb_at ex_k2 (owner (mutex_example EX_IDLE)) = Some t ∧ runnable (state t) = true.
Proof. eexists. split; [vm_compute; reflexivity|reflexivity]. Qed.

Lemma ex_k2_runs : running ex_k2 = ex_sleeper ∧ ipsr (cpu (k_sched ex_k2)) = 0 ∧ primask (cpu (k_sched ex_k2)) = 0.
Proof. vm_compute. repeat split. Qed.

Lemma thread_of k a x t : stands_for (k_sched k) a → running k = x → ipsr (cpu (k_sched k)) = 0 →
  primask (cpu (k_sched k)) = 0 → tcb_at k x = Some t → runnable (state t) = true →
  thread x a ∧ prio_of a x = priority t.
Proof.
  intros Hs Hc Hi Hm Ht Hr. pose proof (same_task _ _ _ _ Hs Ht) as Ha. pose proof (abs_cpu _ _ (proj1 Hs)) as Ecpu.
  split; [|unfold prio_of; by rewrite Ha]. split; [apply Hs| | | |by exists (unlink t)].
  - by rewrite <- (stands_for_current _ _ Hs).
  - by rewrite <- Ecpu.
  - unfold irq_mask. by rewrite <- Ecpu.
Qed.

Lemma ex_idle_apart : ex_sleeper ≠ EX_IDLE ∧ lockable ex_sleeper (mutex_example EX_IDLE) = false.
Proof. vm_compute. split; [discriminate|reflexivity]. Qed.

Lemma mutex_bounds_inversion_witness : ∃ w k2 k3 u,
  mutex_lock until_asleep 1 OBJ 100 (mkWorld (k_sched ex_k2) idle_owns) = Spin w ∧
  trace ex_step (replicate 7 Tick) (ex_k2 <| k_sched := kern w |>) k2 ∧ ex_step Switch k2 k3 ∧
  tcb_at k3 (running k3) = Some u ∧ priority u ≤ 2.
Proof.
  destruct (ok_sched _ _ _ _ ex_k2_ok) as [a Hs]. destruct ex_k2_task as (tx & Htx & Hrx & Hpx), ex_k2_runs as (Hc & Hi & Hm).
  destruct (thread_of ex_k2 a ex_sleeper tx Hs Hc Hi Hm Htx Hrx) as [Hth Epr]. rewrite Hpx in Epr.
  destruct ex_idle_apart as [Hne Hlk].
  destruct (mutex_bounds_inversion EX_POOL EX_STACKS EX_IDLE EX_IDLE_STACK 0x60004001 (λ _, 0) ex_stale example_layout
    0 ex_sleeper OBJ 100 ex_k2 idle_owns a (mutex_example EX_IDLE) ex_k2_ok Hne Hs Hth ltac:(discriminate) (lookup_singleton_eq _ _) Hlk
    (not_eq_sym Hne) ex_k2_idle ltac:(discriminate)) as (w & t & E & _ & _ & _ & _ & Hk1 & Hrun).
  destruct (Hrun (replicate 7 Tick) _ (sparing_ticks 7 _ _ _ Hk1)) as (k3 & u & H3 & Hu & _ & Hle).
  destruct (ex_ticks 7 _ Hk1) as [Htr _]. rewrite Epr in Hle.
  exists w, (Nat.iter 7 (final (ex_exec Tick)) (ex_k2 <| k_sched := kern w |>)), k3, u.
  split; [exact E|]. split; [exact Htr|]. split; [exact H3|]. split; [exact Hu|exact Hle].
Defined.

(** ** Where inheritance falls short *)

(** The processor is given away to whom the scheduler chooses, [n] ticks pass,
    and the run ends there. *)
Definition looking (n : nat) : others (world sched mutex_t) :=
  mkOthers (mret ()) (zoom (switch_context ;; tick_and_switch n) ;; spin).

Definition OBJ2 : ptr := 0x940.

Definition prio_at (w : world sched mutex_t) (x : ptr) : option Z := priority <$> tcbs (kern w) !! x.
Definition waits_on (w : world sched mutex_t) (x mtx : ptr) : Prop :=
  (λ t, (state t, block_reason t, block_object t)) <$> tcbs (kern w) !! x = Some (TASK_STATE_BLOCKED, BLOCK_MUTEX, mtx).
Definition owner_at (w : world sched mutex_t) (mtx : ptr) : option ptr := owner <$> objs w !! mtx.

(** [LOW] owns two mutexes and [HIGH] waits for the second, [IDLE] being at
    priority 2.  When [LOW] unlocks the first it drops to its base priority, and
    from the next tick on [IDLE] runs while [HIGH] waits. *)
Example unlock_drops_inheritance :
  let w0 := mkWorld (final (scheduler_set_priority IDLE 2) example_boot) {[OBJ := mutex_example LOW; OBJ2 := mutex_example LOW]} in
  let w1 := final (mutex_lock (looking 0) 1 OBJ2 TIMEOUT_FOREVER) w0 in
  let w2 := final (mutex_unlock OBJ ;; zoom (tick_and_switch 1)) w1 in
  prio_at w1 LOW = Some 1 ∧ current_task (kern w1) = LOW ∧ waits_on w1 HIGH OBJ2 ∧
  owner_at w2 OBJ2 = Some LOW ∧ waits_on w2 HIGH OBJ2 ∧ prio_at w2 LOW = Some 3 ∧ current_task (kern w2) = IDLE.
Proof. vm_compute. intuition reflexivity. Qed.

(** [LOW] waits for a mutex of [IDLE] and owns one that [HIGH] comes to want:
    [LOW] inherits, but [IDLE], for whom both wait, does not. *)
Example inheritance_not_transitive :
  let w0 := mkWorld (example_blocked BLOCK_DELAY) {[OBJ := mutex_example LOW; OBJ2 := mutex_example IDLE]} in
  let w1 := final (mutex_lock (looking 5) 1 OBJ2 TIMEOUT_FOREVER) w0 in
  let w2 := final (mutex_lock (looking 0) 1 OBJ TIMEOUT_FOREVER) w1 in
  waits_on w1 LOW OBJ2 ∧ current_task (kern w1) = HIGH ∧ waits_on w2 HIGH OBJ ∧
  prio_at w2 LOW = Some 1 ∧ prio_at w2 IDLE = Some 3 ∧ current_task (kern w2) = IDLE.
Proof. vm_compute. intuition reflexivity. Qed.

(** [scheduler_set_priority], which is what [task_set_priority] calls, leaves the
    base priority alone: [HIGH] moves itself to priority 2, and the first
    mutex it unlocks takes it back to 1. *)
Example unlock_forgets_set_priority :
  let w0 := mkWorld (final (scheduler_set_priority HIGH 2) example_boot) {[OBJ := mutex_example NULL]} in
  let w1 := final (mutex_trylock OBJ ;; mutex_unlock OBJ) w0 in
  current_task (kern w0) = HIGH ∧ prio_at w0 HIGH = Some 2 ∧ prio_at w1 HIGH = Some 1 ∧ owner_at w1 OBJ = Some NULL.
Proof. vm_compute. intuition reflexivity. Qed.

(** Between comparing the priorities and lending, the caller may be preempted.
    [LOW] finds the mutex with [IDLE] and is about to lend it priority 3 when
    [HIGH] wakes up, wants the mutex too, lends 1, and gets it from [IDLE].
    When [LOW] goes on, it lends to [IDLE] all the same: the owner is [HIGH]
    now, and [IDLE], which owns nothing, stays at priority 3. *)
Definition while_low_lends : M (world sched mutex_t) () :=
  let idle_unlocks := zoom switch_context ;; mutex_unlock OBJ ;; zoom switch_context in
  zoom (scheduler_unblock_task HIGH KERNEL_OK) ;; zoom switch_context ;;
  mutex_lock (mkOthers (mret ()) idle_unlocks) 2 OBJ TIMEOUT_FOREVER ;;
  zoom (block_task_enter BLOCK_DELAY NULL 100) ;; zoom switch_context.

Example inherit_stale_owner :
  let w0 := mkWorld (example_blocked BLOCK_DELAY) {[OBJ := mutex_example IDLE]} in
  let w1 := final (mutex_inherit (mkOthers while_low_lends (mret ())) OBJ LOW) w0 in
  current_task (kern w0) = LOW ∧ prio_at w0 IDLE = Some 31 ∧
  current_task (kern w1) = LOW ∧ owner_at w1 OBJ = Some HIGH ∧ prio_at w1 HIGH = Some 1 ∧
  prio_at w1 IDLE = Some 3 ∧ prio_at (final (zoom (tick_and_switch 50)) w1) IDLE = Some 3.
Proof. vm_compute. intuition reflexivity. Qed.

(** If the compiler reads [mtx->owner] again after the comparison with NULL,
    [LOW] may find it NULL there: [HIGH] owns the mutex, wakes up, unlocks it
    and sleeps again in between, and the priority of no task is read.  Read once,
    the owner is that of the first look. *)
Definition while_low_looks : M (world sched mutex_t) () :=
  zoom (scheduler_unblock_task HIGH KERNEL_OK) ;; zoom switch_context ;;
  mutex_unlock OBJ ;;
  zoom (block_task_enter BLOCK_DELAY NULL 100) ;; zoom switch_context.

Example inherit_rereads_null_owner :
  let env := mkOthers while_low_looks (mret ()) in
  let w0 := mkWorld (example_blocked BLOCK_DELAY) {[OBJ := mutex_example HIGH]} in
  current_task (kern w0) = LOW ∧ owner_at (final while_low_looks w0) OBJ = Some NULL ∧
  current_task (kern (final while_low_looks w0)) = LOW ∧
  mutex_inherit_rereading env OBJ LOW w0 = Fault ∧ mutex_inherit env OBJ LOW w0 = Ret () w0.
Proof. vm_compute. intuition reflexivity. Qed.
