(* ===== verification/Main.v ===== *)
(** * The application

    [src/main.c] on the machine of [Startup.v], whose program state is the
    kernel's: the board's pins, the two tasks, and the way to the
    first task.  The static objects and the strings are placed by the linker. *)
From S2P Require Import Prelude Config Task Critical Imxrt1062 Bus Hal Startup.
From S2P Require Import Bitmap TcbList Scheduler SchedSpec SchedRefine SchedInv SchedEffect SchedFrame SchedIface.
From S2P Require Import Sync Checker Example SchedProps Kernel KernelProps System.

Definition LED_PIN : Z := 3.
Definition BLINK_STACK_SIZE : Z := 1024.
Definition HEARTBEAT_STACK_SIZE : Z := 1024.

(** [SystemCoreClock] is a variable of the kernel. *)
#[program] Definition core_clock : Lens Z (machine kernel) := {|
  view w := SystemCoreClock (m_app w);
  over f w := mkMachine (m_bus w) (m_mem w) (m_app w <| SystemCoreClock := f |>);
|}.
Next Obligation. done. Qed.
Next Obligation. by intros [??[]]. Qed.
Next Obligation. done. Qed.

Section main.
Context (dev : device).
Context (g_task_pool g_stack_pool : Z → ptr) (g_idle_tcb g_idle_stack : ptr).
Context (task_exit_trampoline_addr idle_task_addr idle_name : ptr) (rodata : Z → Z) (stale_name : ptr → list Z).
Context (blink_tcb blink_stack heartbeat_tcb heartbeat_stack : ptr).
Context (blink_task_addr heartbeat_task_addr blink_name hb_name : ptr).

(** The LED's pin: ALT5, its pad, output, low. *)
Definition board_gpio_init : M (list event) () :=
  write W32 0x401F814C 5 ;;
  write W32 0x401F833C (Z.lor (Z.lor (IOMUXC_PAD_DSE 6) (IOMUXC_PAD_SPEED 2)) IOMUXC_PAD_SRE) ;;
  gpio_set_mode dev GPIO2 LED_PIN GPIO_MODE_OUTPUT ;;
  gpio_clear GPIO2 LED_PIN.

(** One round of each task's loop; [switch] stands for the other tasks. *)
Definition blink_round (switch : M kernel ()) : M (machine kernel) () :=
  zoom (gpio_toggle GPIO2 LED_PIN) ;;
  zoom (task_delay_ms switch 500).
Definition heartbeat_round (switch : M kernel ()) : M (machine kernel) () :=
  zoom (task_delay_ms switch 100).

(** [while (1)]: a loop that its body never leaves. *)
Definition blink_task (switch : M kernel ()) (fuel : nat) : M (machine kernel) () :=
  loop fuel (λ _ : (), blink_round switch ;; mret (inl ())) ().
Definition heartbeat_task (switch : M kernel ()) (fuel : nat) : M (machine kernel) () :=
  loop fuel (λ _ : (), heartbeat_round switch ;; mret (inl ())) ().

Definition create : ptr → ptr → ptr → ptr → Z → Z → Z → M kernel Z :=
  task_create g_task_pool g_stack_pool task_exit_trampoline_addr rodata stale_name.

(** [main], up to the call of the first task. *)
Definition main : M (machine kernel) (ptr * ptr) :=
  clock_init dev core_clock ;;
  zoom board_gpio_init ;;
  r ← zoom (kernel_init g_task_pool g_stack_pool g_idle_tcb g_idle_stack task_exit_trampoline_addr idle_task_addr
    idle_name rodata stale_name);
  if negb (r =? KERNEL_OK) then spin else
  zoom (create blink_tcb blink_name blink_task_addr NULL 2 blink_stack BLINK_STACK_SIZE) ;;
  zoom (create heartbeat_tcb hb_name heartbeat_task_addr NULL 3 heartbeat_stack HEARTBEAT_STACK_SIZE) ;;
  zoom kernel_start.

(** ** From reset to the first task *)

(** The static objects: apart from each other, from the idle task's and from
    the pools. *)
Record static_ok : Prop := {
  layout : layout_ok g_task_pool g_stack_pool g_idle_tcb g_idle_stack;
  tcbs_apart : NoDup [NULL; g_idle_tcb; blink_tcb; heartbeat_tcb];
  tcbs_pool i : 0 ≤ i < CONFIG_MAX_TASKS → blink_tcb ≠ g_task_pool i ∧ heartbeat_tcb ≠ g_task_pool i;
  stacks_null : blink_stack ≠ NULL ∧ heartbeat_stack ≠ NULL;
  stacks_pool i : 0 ≤ i < CONFIG_MAX_TASKS → blink_stack ≠ g_stack_pool i ∧ heartbeat_stack ≠ g_stack_pool i;
  entries_null : idle_task_addr ≠ NULL ∧ blink_task_addr ≠ NULL ∧ heartbeat_task_addr ≠ NULL;
}.

(** What [main] writes to the pins: nothing but the LED's. *)
Definition led_setup (l : list event) : Prop := ∃ v v',
  l = [Wr W32 0x401F814C 5; Wr W32 0x401F833C 0xB1; Rd W32 (GPIO_Type_GDIR GPIO2) v;
       Wr W32 (GPIO_Type_GDIR GPIO2) v'; Wr W32 (GPIO_Type_DR_CLEAR GPIO2) 8] ∧
  ∀ i, 0 ≤ i < 32 → Z.testbit v' i = bool_decide (i = LED_PIN) || Z.testbit v i.

Lemma board_gpio_init_ret t : ∃ l, board_gpio_init t = Ret () (t ++ l) ∧ led_setup l.
Proof using Type.
  destruct (gpio_set_mode_ret dev GPIO2 LED_PIN GPIO_MODE_OUTPUT (t ++ [Wr W32 0x401F814C 5; Wr W32 0x401F833C 0xB1])
    ltac:(unfold LED_PIN; lia)) as (v & v' & E & Hv).
  eexists. split; [|exists v, v'; split; [reflexivity|]].
  - unfold board_gpio_init. run (write_ret W32 0x401F814C 5 t).
    erewrite bind_ret by apply write_ret. rewrite <- app_assoc. run E. unfold gpio_clear. rewrite write_ret.
    by rewrite <- !app_assoc.
  - intros i Hi. rewrite (Hv i Hi). unfold LED_PIN. destruct (decide (i = 3)) as [Hi3|Hi3].
    + by rewrite (bool_decide_true (i = 3)).
    + by rewrite bool_decide_false.
Qed.

(** The clock routine, on the machine. *)
Lemma clock_init_ret w : ∃ l, clock_init dev core_clock w =
  Ret () (mkMachine (m_bus w ++ l) (m_mem w) (m_app w <| SystemCoreClock := CLOCK_CORE_FREQ |>)) ∧ clock_setup l.
Proof using Type.
  destruct (rmw_gate dev CCM_CCGR0 30 (m_bus w)) as (l0 & E0 & H0); [lia..|].
  destruct (rmw_gate dev CCM_CCGR1 30 (m_bus w ++ l0)) as (l1 & E1 & H1); [lia..|].
  destruct (rmw_gate dev CCM_CCGR6 24 ((m_bus w ++ l0) ++ l1)) as (l6 & E6 & H6); [lia..|].
  exists (l0 ++ l1 ++ l6). split; [|by exists l0, l1, l6]. unfold clock_init, enable_gates.
  erewrite bind_ret by (apply (zoom_ret (L := core_clock)); reflexivity).
  erewrite bind_ret by (apply (zoom_ret (L := machine_bus)); exact E0).
  erewrite bind_ret by (apply (zoom_ret (L := machine_bus)); exact E1).
  erewrite (zoom_ret (L := machine_bus)) by exact E6.
  simpl. by rewrite <- !app_assoc.
Qed.

(** After both creations: three tasks, at their priorities. *)
Definition three_tasks (k : kernel) : Prop :=
  (∃ t, tcb_at k g_idle_tcb = Some t ∧ priority t = CONFIG_MAX_PRIORITY - 1) ∧
  (∃ t, tcb_at k blink_tcb = Some t ∧ priority t = 2 ∧ entry t = blink_task_addr ∧ arg t = NULL) ∧
  (∃ t, tcb_at k heartbeat_tcb = Some t ∧ priority t = 3 ∧ entry t = heartbeat_task_addr ∧ arg t = NULL) ∧
  ∀ x, is_Some (tcb_at k x) → x ∈ [g_idle_tcb; blink_tcb; heartbeat_tcb].

Notation ok := (kernel_ok g_task_pool g_stack_pool g_idle_tcb).

Lemma unlinked_at k k' x : unlink <$> tcb_at k' x = unlink <$> tcb_at k x →
  match tcb_at k x with Some t => ∃ t', tcb_at k' x = Some t' ∧ unlink t' = unlink t | None => tcb_at k' x = None end.
Proof using Type.
  intros E. destruct (tcb_at k x) as [t|]; [|by destruct (tcb_at k' x)].
  apply fmap_Some in E as (t' & Ht' & Et). eauto.
Qed.

Lemma created_tasks k : static_ok → ok k → g_kernel_state k = KERNEL_STATE_INIT →
  (∀ x, is_Some (tcb_at k x) → x = g_idle_tcb) →
  (∃ t, tcb_at k g_idle_tcb = Some t ∧ priority t = CONFIG_MAX_PRIORITY - 1) →
  ∃ k1 k2, create blink_tcb blink_name blink_task_addr NULL 2 blink_stack BLINK_STACK_SIZE k = Ret KERNEL_OK k1 ∧
    create heartbeat_tcb hb_name heartbeat_task_addr NULL 3 heartbeat_stack HEARTBEAT_STACK_SIZE k1 = Ret KERNEL_OK k2 ∧
    ok k2 ∧ g_kernel_state k2 = KERNEL_STATE_INIT ∧ SystemCoreClock k2 = SystemCoreClock k ∧ three_tasks k2 ∧
    ∃ t, tcb_at k2 blink_tcb = Some t ∧ runnable (state t) = true.
Proof using Type.
  intros [HL Hnd Hpool [Hs1 Hs2] Hspool (_ & He1 & He2)] Hk Hst Hall (t0 & Ht0 & Hp0).
  assert (blink_tcb ≠ NULL ∧ heartbeat_tcb ≠ NULL ∧ blink_tcb ≠ g_idle_tcb ∧ heartbeat_tcb ≠ g_idle_tcb ∧
    blink_tcb ≠ heartbeat_tcb) as (Hb0 & Hh0 & Hbi & Hhi & Hbh).
  { rewrite !NoDup_cons, !not_elem_of_cons in Hnd. naive_solver. }
  assert (∀ x, x ≠ g_idle_tcb → tcb_at k x = None) as Hnone.
  { intros x Hx. destruct (tcb_at k x) eqn:E; [|done]. destruct Hx. apply Hall. by rewrite E. }
  assert (∀ e p, e ≠ NULL → 0 ≤ p < 32 → create_args_ok e p 1024 = true) as Hargs.
  { intros e p He Hp. unfold create_args_ok. rewrite (proj2 (Z.eqb_neq _ _) He), (proj2 (Z.ltb_lt p CONFIG_MAX_PRIORITY)); [done|].
    unfold CONFIG_MAX_PRIORITY. lia. }
  destruct (static_created g_task_pool g_stack_pool g_idle_tcb g_idle_stack task_exit_trampoline_addr rodata stale_name HL
    k blink_tcb blink_name blink_task_addr NULL 2 blink_stack BLINK_STACK_SIZE Hk (Hargs _ 2 He1 ltac:(lia)) ltac:(lia)
    Hb0 (Hnone _ Hbi) (λ i Hi, proj1 (Hpool i Hi)) Hs1 (λ i Hi, proj1 (Hspool i Hi)))
    as (k1 & E1 & Hk1 & S1 & C1 & (u1 & Hu1 & Hent1 & Harg1 & Hpr1 & Hst1) & O1).
  assert (tcb_at k1 heartbeat_tcb = None) as Hn1.
  { pose proof (unlinked_at _ _ _ (O1 heartbeat_tcb (not_eq_sym Hbh))) as H. by rewrite (Hnone _ Hhi) in H. }
  destruct (static_created g_task_pool g_stack_pool g_idle_tcb g_idle_stack task_exit_trampoline_addr rodata stale_name HL
    k1 heartbeat_tcb hb_name heartbeat_task_addr NULL 3 heartbeat_stack HEARTBEAT_STACK_SIZE Hk1 (Hargs _ 3 He2 ltac:(lia)) ltac:(lia)
    Hh0 Hn1 (λ i Hi, proj2 (Hpool i Hi)) Hs2 (λ i Hi, proj2 (Hspool i Hi)))
    as (k2 & E2 & Hk2 & S2 & C2 & (u2 & Hu2 & Hent2 & Harg2 & Hpr2 & Hst2) & O2).
  pose proof (unlinked_at _ _ _ (O2 blink_tcb Hbh)) as Hb. rewrite Hu1 in Hb. destruct Hb as (b & Hb & Eb).
  pose proof (f_equal (λ v, (priority v, entry v, arg v, state v)) Eb) as Ef. simpl in Ef. injection Ef as F1 F2 F3 F4.
  pose proof (unlinked_at _ _ _ (O1 g_idle_tcb (not_eq_sym Hbi))) as Hi. rewrite Ht0 in Hi. destruct Hi as (i1 & Hi1 & Ei1).
  pose proof (unlinked_at _ _ _ (O2 g_idle_tcb (not_eq_sym Hhi))) as Hi. rewrite Hi1 in Hi. destruct Hi as (i2 & Hi2 & Ei2).
  exists k1, k2. split_and!; [done..|congruence|congruence| |].
  - split_and!.
    + exists i2. split; [done|]. rewrite <- Hp0. apply (f_equal priority) in Ei1, Ei2. simpl in *. congruence.
    + exists b. split_and!; congruence.
    + by exists u2.
    + intros x Hx. rewrite !elem_of_cons. destruct (decide (x = heartbeat_tcb)) as [|Hxh]; [tauto|].
      destruct (decide (x = blink_tcb)) as [|Hxb]; [tauto|]. left. apply Hall.
      pose proof (O2 x Hxh) as P2. rewrite (O1 x Hxb) in P2. destruct Hx as [v Hv]. rewrite Hv in P2.
      destruct (tcb_at k x); [eauto|done].
  - exists b. split; [done|]. by rewrite F4, Hst1.
Qed.

(** What identifies the tasks survives the start. *)
Definition profile (t : task_tcb) : Z * ptr * ptr := (priority t, entry t, arg t).

Lemma start_profile k s' a x : stands_for (k_sched k) a → stands_for s' (eff_start a) →
  profile <$> tcb_at (started k s') x = profile <$> tcb_at k x.
Proof using Type.
  intros [HR _] [HR' _]. pose proof (abs_lookup _ _ x HR) as E. pose proof (abs_lookup _ _ x HR') as E'.
  change (profile <$> tcbs s' !! x = profile <$> tcbs (k_sched k) !! x).
  assert (∀ o : option task_tcb, profile <$> o = profile <$> (unlink <$> o)) as Hp by (by intros [t|]).
  rewrite (Hp (tcbs s' !! x)), (Hp (tcbs (k_sched k) !! x)), <- E, <- E'. unfold eff_start. simpl.
  destruct (decide (top a = x)) as [<-|Hx]; [rewrite lookup_alter_eq|by rewrite lookup_alter_ne].
  by destruct (a_tasks a !! top a).
Qed.

Lemma three_tasks_profile k k' : (∀ x, profile <$> tcb_at k' x = profile <$> tcb_at k x) →
  three_tasks k → three_tasks k'.
Proof using Type.
  intros Hp (H1 & H2 & H3 & H4). unfold three_tasks.
  assert (∀ x t, tcb_at k x = Some t → ∃ t', tcb_at k' x = Some t' ∧ profile t' = profile t) as Hx.
  { intros x t Ht. specialize (Hp x). rewrite Ht in Hp. destruct (tcb_at k' x) as [t'|]; [|done].
    exists t'. split; [done|]. by apply (inj Some) in Hp. }
  split_and!.
  - destruct H1 as (t & (t' & Ht' & [= E _ _])%Hx & Hpr). exists t'. split; [done|congruence].
  - destruct H2 as (t & (t' & Ht' & [= E1 E2 E3])%Hx & ? & ? & ?). exists t'. split_and!; [done|congruence..].
  - destruct H3 as (t & (t' & Ht' & [= E1 E2 E3])%Hx & ? & ? & ?). exists t'. split_and!; [done|congruence..].
  - intros x [t Ht]. apply H4. specialize (Hp x). rewrite Ht in Hp. destruct (tcb_at k x); [eauto|done].
Qed.

(** From reset to the first task: on a cold kernel [main] returns from its
    set-up with three clock gates opened and no other register of the clock
    touched, the LED's pin as the only pin configured, output and low, the
    three tasks idle, blink and heartbeat at priorities 31, 2 and 3, SysTick
    programmed for 1000 ticks per second of the 600 MHz core clock, and the
    invariant of the kernel; the function it calls is the blink task's, with
    [NULL], that task being the running one. *)
Theorem main_starts_blink w : static_ok → cold (m_app w) →
  ∃ w' clock led, main w = Ret (blink_task_addr, NULL) w' ∧
    m_bus w' = m_bus w ++ clock ++ led ∧ clock_setup clock ∧ led_setup led ∧
    ok (m_app w') ∧ three_tasks (m_app w') ∧ running (m_app w') = blink_tcb ∧
    state_at (m_app w') blink_tcb = Some TASK_STATE_RUNNING ∧
    g_kernel_state (m_app w') = KERNEL_STATE_RUNNING ∧
    SystemCoreClock (m_app w') = 600000000 ∧ systick_rvr (m_app w') = 599999 ∧ systick_csr (m_app w') = 7 ∧
    m_mem w' = m_mem w.
Proof using Type.
  intros Hok Hc. destruct (clock_init_ret w) as (lc & E1 & Hlc).
  destruct (board_gpio_init_ret (m_bus w ++ lc)) as (lg & E2 & Hlg).
  set (k0 := m_app w <| SystemCoreClock := CLOCK_CORE_FREQ |>) in *.
  assert (cold k0) as Hc0 by (destruct Hc; by split).
  destruct (boot_ok g_task_pool g_stack_pool g_idle_tcb g_idle_stack task_exit_trampoline_addr idle_task_addr idle_name
    rodata stale_name (layout Hok) k0 Hc0 ltac:(apply Hok)) as (k1 & E3 & Hk1 & Hst1 & Hall & (t & Ht & _ & _ & Hpt) & Hclk).
  destruct (created_tasks k1 Hok Hk1 Hst1 Hall ltac:(eauto)) as (k2 & k3 & E4 & E5 & Hk3 & Hst3 & Hclk3 & Htasks & (b & Hb & Hrb)).
  destruct (ok_sched _ _ _ _ Hk3) as [a Hs].
  destruct (start_ret g_task_pool g_stack_pool g_idle_tcb k3 a Hk3 Hs Hst3) as (s' & u & E6 & Hs' & Hu & Hk').
  destruct (top_task g_task_pool g_stack_pool g_idle_tcb k3 a Hk3 Hs) as (u' & Hu' & _ & _ & Hmin).
  assert (u' = u) as -> by congruence.
  assert (top a = blink_tcb) as Htop.
  { pose proof (Hmin _ _ Hb Hrb) as Hle. destruct Htasks as ((ti & Hti & Pi) & (tb & Htb & Pb & _) & (th & Hth & Ph & _) & Hx).
    assert (top a ∈ [g_idle_tcb; blink_tcb; heartbeat_tcb]) as Hin by eauto.
    unfold CONFIG_MAX_PRIORITY in *. rewrite !elem_of_cons in Hin. assert (b = tb) as -> by congruence.
    destruct Hin as [E|[E|[E|[]%not_elem_of_nil]]]; [|done|]; rewrite E in Hu.
    - assert (u = ti) as -> by congruence. lia.
    - assert (u = th) as -> by congruence. lia. }
  rewrite Htop in Hu. destruct (proj1 (proj2 Htasks)) as (tb & Htb & _ & Eent & Earg).
  assert (u = tb) as -> by congruence. rewrite Eent, Earg in E6.
  exists (mkMachine ((m_bus w ++ lc) ++ lg) (m_mem w) (started k3 s')), lc, lg. split_and!.
  - unfold main. run E1. erewrite bind_ret by (apply (zoom_ret (L := machine_bus)); exact E2).
    erewrite bind_ret by (apply (zoom_ret (L := machine_app)); exact E3). cbn [negb Z.eqb KERNEL_OK].
    erewrite bind_ret by (apply (zoom_ret (L := machine_app)); exact E4).
    erewrite bind_ret by (apply (zoom_ret (L := machine_app)); exact E5).
    exact (zoom_ret (L := machine_app) _ (mkMachine ((m_bus w ++ lc) ++ lg) (m_mem w) k3) _ _ E6).
  - simpl. by rewrite <- app_assoc.
  - done.
  - done.
  - done.
  - apply (three_tasks_profile k3); [|done]. intros x. by apply start_profile with a.
  - unfold running. simpl. by rewrite (stands_for_current _ _ Hs').
  - assert (a_tasks (eff_start a) !! blink_tcb = Some (first_run (unlink tb))) as Ha.
    { unfold eff_start. simpl. by rewrite Htop, lookup_alter_eq, (same_task _ _ _ _ Hs Hu). }
    destruct (same_task_inv _ _ _ _ Hs' Ha) as (v & Hv & Ev). unfold state_at, tcb_at. simpl. rewrite Hv. simpl.
    change (state v) with (state (unlink v)). by rewrite <- Ev.
  - done.
  - simpl. by rewrite Hclk3, Hclk.
  - simpl. by rewrite Hclk3, Hclk.
  - done.
  - done.
Qed.

(** ** The tasks *)

(** A delay in thread mode with interrupts enabled, as far as the point where
    the processor is given away. *)
Lemma task_delay_away n k a t : stands_for (k_sched k) a → tcbs (k_sched k) !! current_task (k_sched k) = Some t →
  state t ≠ TASK_STATE_BLOCKED → primask (a_cpu a) = 0 → ipsr (a_cpu a) = 0 → n ≠ 0 →
  ∃ s' t', task_delay spin n k = Spin (k <| k_sched := s' |>) ∧ stands_for s' (eff_block BLOCK_DELAY NULL n a) ∧
    tcbs s' !! current_task (k_sched k) = Some t' ∧
    unlink t' = waiting (g_tick_count (k_sched k)) BLOCK_DELAY NULL n (unlink t).
Proof using Type.
  intros Hs Ht Hb Hm Hi Hn. destruct (block_stands BLOCK_DELAY NULL n _ a t Hs Ht Hb) as (s' & t' & E & Hs' & _ & Ht' & Eu).
  exists s', t'. split_and!; [|done..]. unfold task_delay. rewrite (proj2 (Z.eqb_neq n 0)) by done.
  apply bind_spin. unfold scheduler_block_task. rewrite (bind_ret _ _ _ _ _ (zoom_sched _ k _ _ E)).
  set (k1 := k <| k_sched := s' |>). apply bind_spin. unfold switch_point.
  rewrite (bind_ret _ _ _ true k1); [done|].
  apply (zoom_ret_same (S := sched)). change (Ret (pendsv_taken (cpu s')) s' = Ret (S := sched) true s').
  rewrite (abs_cpu _ _ (proj1 Hs')). f_equal. by apply pend_taken.
Qed.

(** The state in which a round of a task gives the processor away. *)
Definition asleep (ticks : Z) (k k' : kernel) : Prop :=
  ∃ t, tcb_at k' (running k) = Some t ∧ running k' = running k ∧ state t = TASK_STATE_BLOCKED ∧
    block_reason t = BLOCK_DELAY ∧ wake_tick t = block_wake_tick (g_tick_count (k_sched k)) ticks.

Lemma delay_asleep ms k a t : stands_for (k_sched k) a → tcb_at k (running k) = Some t →
  state t ≠ TASK_STATE_BLOCKED → primask (a_cpu a) = 0 → ipsr (a_cpu a) = 0 → 0 < ms ≤ 4294967 →
  ∃ k', task_delay_ms spin ms k = Spin k' ∧ (∃ a', stands_for (k_sched k') a') ∧ asleep ms k k'.
Proof using Type.
  intros Hs Ht Hb Hm Hi Hms. destruct (task_delay_away ms k a t Hs Ht Hb Hm Hi ltac:(lia)) as (s' & t' & E & Hs' & Ht' & Eu).
  assert (task_delay_ms spin ms = task_delay spin ms) as ->.
  { unfold task_delay_ms, CONFIG_TICK_RATE_HZ. rewrite u32_small by (change (2 ^ 32) with 4294967296; lia).
    by rewrite Z.div_mul. }
  exists (k <| k_sched := s' |>). split_and!; [exact E|by eexists|]. exists t'.
  pose proof (f_equal (λ v, (state v, block_reason v, wake_tick v)) Eu) as Ef. simpl in Ef. injection Ef as F1 F2 F3.
  split_and!; [exact Ht'| |done..]. unfold running. simpl.
  by rewrite (stands_for_current _ _ Hs'), (stands_for_current _ _ Hs).
Qed.

(** A round of the blink task toggles the LED's pin once, and only that, and
    then gives the processor away, asleep for 500 ticks; a round of the
    heartbeat task touches no peripheral and sleeps for 100 ticks.  (With [spin]
    for the other tasks the round ends where it gives the processor away.) *)
Theorem tasks_toggle_and_sleep (w : machine kernel) a t : stands_for (k_sched (m_app w)) a →
  tcb_at (m_app w) (running (m_app w)) = Some t → state t ≠ TASK_STATE_BLOCKED →
  primask (a_cpu a) = 0 → ipsr (a_cpu a) = 0 →
  (∃ k', blink_round spin w = Spin (mkMachine (m_bus w ++ [Wr W32 (GPIO_Type_DR_TOGGLE GPIO2) 8]) (m_mem w) k') ∧
    (∃ a', stands_for (k_sched k') a') ∧ asleep 500 (m_app w) k') ∧
  (∃ k', heartbeat_round spin w = Spin (mkMachine (m_bus w) (m_mem w) k') ∧
    (∃ a', stands_for (k_sched k') a') ∧ asleep 100 (m_app w) k').
Proof using Type.
  intros Hs Ht Hb Hm Hi. split.
  - destruct (delay_asleep 500 _ a t Hs Ht Hb Hm Hi ltac:(lia)) as (k' & E & Hs' & Ha).
    exists k'. split_and!; [|done..]. unfold blink_round, gpio_toggle.
    erewrite bind_ret by (apply (zoom_ret (L := machine_bus)); apply write_ret).
    unfold zoom. change (view (over ?t w)) with (m_app w). simpl. by rewrite E.
  - destruct (delay_asleep 100 _ a t Hs Ht Hb Hm Hi ltac:(lia)) as (k' & E & Hs' & Ha).
    exists k'. split_and!; [|done..]. unfold heartbeat_round, zoom. simpl. by rewrite E.
Qed.
End main.

(** ** Instances *)

Definition BLINK : ptr := 0x20000200.
Definition HEARTBEAT : ptr := 0x20000300.
Definition BLINK_STACK : ptr := 0x20250000.
Definition HEARTBEAT_STACK : ptr := 0x20251000.

Lemma example_static : static_ok EX_POOL EX_STACKS EX_IDLE EX_IDLE_STACK EX_IDLE_TASK BLINK BLINK_STACK HEARTBEAT
  HEARTBEAT_STACK 0x60005001 0x60006001.
Proof.
  split; try done.
  - apply example_layout.
  - apply (bool_decide_unpack _). by vm_compute.
  - unfold EX_POOL, BLINK, HEARTBEAT, CONFIG_MAX_TASKS. lia.
  - unfold EX_STACKS, BLINK_STACK, HEARTBEAT_STACK, CONFIG_MAX_TASKS. lia.
Qed.

Definition example_machine (k : kernel) : machine kernel := mkMachine [] ∅ k.

Lemma main_starts_blink_witness : ∃ w',
  main example_device EX_POOL EX_STACKS EX_IDLE EX_IDLE_STACK 0x60004001 EX_IDLE_TASK 0x60008000 (λ _, 0) ex_stale
    BLINK BLINK_STACK HEARTBEAT HEARTBEAT_STACK 0x60005001 0x60006001 0x60009000 0x60009010 (example_machine example_cold) =
    Ret (0x60005001, NULL) w' ∧
  running (m_app w') = BLINK ∧ systick_rvr (m_app w') = 599999.
Proof.
  destruct (main_starts_blink example_device EX_POOL EX_STACKS EX_IDLE EX_IDLE_STACK 0x60004001 EX_IDLE_TASK 0x60008000
    (λ _, 0) ex_stale BLINK BLINK_STACK HEARTBEAT HEARTBEAT_STACK 0x60005001 0x60006001 0x60009000 0x60009010
    (example_machine example_cold) example_static example_is_cold)
    as (w' & clock & led & E & _ & _ & _ & _ & _ & Hr & _ & _ & _ & Ht & _ & _).
  exists w'. split; [exact E|]. split; [exact Hr|exact Ht].
Defined.

Lemma tasks_toggle_and_sleep_witness : ∃ k', blink_round spin (example_machine example_running) =
    Spin (mkMachine [Wr W32 0x401BC08C 8] ∅ k') ∧ asleep 500 example_running k'.
Proof.
  destruct (proj1 (tasks_toggle_and_sleep (example_machine example_running) example_boot_abs _ example_boot_stands
    eq_refl ltac:(discriminate) eq_refl eq_refl)) as (k' & E & _ & Ha).
  exists k'. split; [exact E|exact Ha].
Defined.
