(* ===== verification/PowerOn.v ===== *)
(** * Power-on

    The reset handler of [Startup.v] and [main] of [Main.v] on one machine.  The
    reset handler works on words of memory, the kernel on its variables: what
    joins them is where the linker puts the variables, and how C reads them. *)
From S2P Require Import Prelude Config Task Critical Imxrt1062 Bus Hal Startup.
From S2P Require Import Bitmap TcbList Scheduler SchedSpec SchedRefine SchedInv SchedEffect SchedFrame SchedIface.
From S2P Require Import Sync Checker Example SchedProps Kernel KernelProps System Main.

(** ** Variables in memory *)

(** The addresses of the variables of [kernel.c] and [scheduler.c]. *)
Record symbols : Set := mkSymbols {
  at_g_kernel_state : ptr;
  at_g_task_slot_used : ptr;
  at_g_stack_slot_used : ptr;
  at_g_next_task_id : ptr;
  at_SystemCoreClock : ptr;
  at_g_sched : ptr;
  at_g_tick_count : ptr;
  at_g_blocked_head : ptr;
  at_current_task : ptr;
  at_next_task : ptr;
}.

(** An aligned word, and a byte of little-endian memory. *)
Definition word_at (m : gmap Z Z) (p : ptr) : Z := default 0 (m !! p).
Definition byte_at (m : gmap Z Z) (p : ptr) : Z := byte_of (p mod 4) (word_at m (p - p mod 4)).

Definition kernel_state_of (b : Z) : kernel_state_t :=
  if b =? 0 then KERNEL_STATE_UNINIT else if b =? 1 then KERNEL_STATE_INIT
  else if b =? 2 then KERNEL_STATE_RUNNING else KERNEL_STATE_STOPPED.

(** The enumerators fit in a byte. *)
Lemma kernel_state_of_all st : ∃ b, 0 ≤ b < 4 ∧ kernel_state_of b = st.
Proof. destruct st; [exists 0|exists 1|exists 2|exists 3]; done. Qed.

Section power_on.
Context (dev : device) (polls fuel : nat) (ld : linker) (sym : symbols).
(** What reset leaves in the registers and the stack memory. *)
Context (ram0 : gmap Z Z) (shpr3 rvr cvr csr : Z).

(** [scheduler_t], 4 bytes each but for the flag. *)
Definition scheduler_at (m : gmap Z Z) (p : ptr) : scheduler_t := {|
  priority_bitmap := word_at m p;
  ready_list := (λ i, word_at m (p + 4 + 4 * i)) <$> seqZ 0 CONFIG_MAX_PRIORITY;
  current := word_at m (p + 132);
  lock_count := word_at m (p + 136);
  reschedule_pending := negb (byte_at m (p + 140) =? 0);
|}.

(** The kernel's variables as the program reads them.  No TCB exists yet. *)
Definition sched_at (m : gmap Z Z) : sched := {|
  g_sched := scheduler_at m (at_g_sched sym);
  g_tick_count := word_at m (at_g_tick_count sym);
  g_blocked_head := word_at m (at_g_blocked_head sym);
  current_task := word_at m (at_current_task sym);
  next_task := word_at m (at_next_task sym);
  tcbs := ∅;
  cpu := cpu_reset;
|}.
Definition slots_at (m : gmap Z Z) (p : ptr) : list Z := (λ i, byte_at m (p + i)) <$> seqZ 0 CONFIG_MAX_TASKS.
Definition kernel_at (m : gmap Z Z) : kernel := {|
  k_sched := sched_at m;
  g_kernel_state := kernel_state_of (byte_at m (at_g_kernel_state sym));
  g_task_slot_used := slots_at m (at_g_task_slot_used sym);
  g_stack_slot_used := slots_at m (at_g_stack_slot_used sym);
  g_next_task_id := word_at m (at_g_next_task_id sym);
  ram := ram0;
  scb_shpr3 := shpr3; systick_rvr := rvr; systick_cvr := cvr; systick_csr := csr;
  SystemCoreClock := word_at m (at_SystemCoreClock sym);
|}.

(** The program's variables are what memory holds. *)
Definition enter_program : M (machine kernel) () :=
  modify (λ w, mkMachine (m_bus w) (m_mem w) (kernel_at (m_mem w))).

Context (g_task_pool g_stack_pool : Z → ptr) (g_idle_tcb g_idle_stack : ptr).
Context (task_exit_trampoline_addr idle_task_addr idle_name : ptr) (rodata : Z → Z) (stale_name : ptr → list Z).
Context (blink_tcb blink_stack heartbeat_tcb heartbeat_stack : ptr).
Context (blink_task_addr heartbeat_task_addr blink_name hb_name : ptr).

(** From the reset vector to the first task, which [first] runs. *)
Definition power_on (first : ptr * ptr → M (machine kernel) ()) : M (machine kernel) () :=
  Reset_Handler dev polls fuel ld (
    enter_program ;;
    task ← main dev g_task_pool g_stack_pool g_idle_tcb g_idle_stack task_exit_trampoline_addr idle_task_addr idle_name
      rodata stale_name blink_tcb blink_stack heartbeat_tcb heartbeat_stack blink_task_addr heartbeat_task_addr
      blink_name hb_name;
    first task).

(** ** Cleared memory is a cold kernel *)

(** The words of the [n] bytes from [p] on are in .bss. *)
Definition in_bss (nb : Z) (p : ptr) (n : Z) : Prop := ∀ i, 0 ≤ i < n →
  in_section (__bss_start ld) nb (p + i - (p + i) mod 4).

Record zeroed_variables (nb : Z) : Prop := {
  state_in_bss : in_bss nb (at_g_kernel_state sym) 1;
  task_slots_in_bss : in_bss nb (at_g_task_slot_used sym) CONFIG_MAX_TASKS;
  stack_slots_in_bss : in_bss nb (at_g_stack_slot_used sym) CONFIG_MAX_TASKS;
}.

Lemma byte_of_zero i : byte_of i 0 = 0.
Proof using Type. unfold byte_of. by rewrite Z.shiftr_0_l. Qed.

Lemma cleared_byte nd nf nb m m' p n i : memory_ready ld nd nf nb m m' → in_bss nb p n → 0 ≤ i < n →
  byte_at m' (p + i) = 0.
Proof using Type.
  intros (_ & _ & Hz & _) Hp Hi. destruct (Hp i Hi) as (j & Hj & E). unfold byte_at, word_at.
  rewrite E, (Hz j Hj). apply byte_of_zero.
Qed.

Lemma cleared_slots nd nf nb m m' p : memory_ready ld nd nf nb m m' → in_bss nb p CONFIG_MAX_TASKS →
  slots_at m' p = replicate (Z.to_nat CONFIG_MAX_TASKS) 0.
Proof using Type.
  intros Hm Hp. symmetry. apply replicate_as_Forall. unfold slots_at. split; [by rewrite length_fmap, length_seqZ|].
  apply Forall_fmap, Forall_forall. intros i Hi%elem_of_seqZ. symmetry.
  by apply (cleared_byte nd nf nb m m' p CONFIG_MAX_TASKS i Hm Hp).
Qed.

Lemma cleared_cold nd nf nb m m' : memory_ready ld nd nf nb m m' → zeroed_variables nb → cold (kernel_at m').
Proof using Type.
  intros Hm [Hst Hts Hss]. split; simpl; [|done|by eapply cleared_slots..|].
  - pose proof (cleared_byte nd nf nb m m' _ 1 0 Hm Hst) as E. rewrite Z.add_0_r in E. by rewrite E.
  - unfold cpu_reset, cpu_wf. simpl. lia.
Qed.

(** ** From reset to the first task *)

(** C23: From power-on to the first task: whatever memory and the registers hold
    at reset, the program switches off the watchdogs, enables the
    floating-point unit, sets up memory and the vector table, opens the clock
    gates of the two GPIO ports and the LPUART, makes the LED's pin an output,
    low, touches nothing else on the bus (SysTick and the priority of PendSV are
    in the kernel's state), and calls the blink task's function with [NULL].
    The kernel then satisfies its invariant, with its three tasks
    idle, blink and heartbeat at their priorities and blink running, and SysTick
    ticks 1000 times per second of the 600 MHz core clock. *)
Theorem power_on_starts_blink nd nf nb first w :
  ready_within dev polls (RTWDOG_Type_CS RTWDOG) RTWDOG_CS_ULK → image_ok ld nd nf nb (m_mem w) →
  0 ≤ __vectors_start ld < 2 ^ 32 → nd < Z.of_nat fuel → nf < Z.of_nat fuel → nb < Z.of_nat fuel →
  zeroed_variables nb →
  static_ok g_task_pool g_stack_pool g_idle_tcb g_idle_stack idle_task_addr blink_tcb blink_stack heartbeat_tcb
    heartbeat_stack blink_task_addr heartbeat_task_addr →
  ∃ w' dogs fpu clock led, power_on first w = (first (blink_task_addr, NULL) ;; spin) w' ∧
    m_bus w' = m_bus w ++ dogs ++ fpu ++ vectors_on (__vectors_start ld) ++ clock ++ led ∧
    watchdogs_off dogs ∧ fpu_on fpu ∧ clock_setup clock ∧ led_setup led ∧ memory_ready ld nd nf nb (m_mem w) (m_mem w') ∧
    kernel_ok g_task_pool g_stack_pool g_idle_tcb (m_app w') ∧
    three_tasks g_idle_tcb blink_tcb heartbeat_tcb blink_task_addr heartbeat_task_addr (m_app w') ∧
    running (m_app w') = blink_tcb ∧ g_kernel_state (m_app w') = KERNEL_STATE_RUNNING ∧
    SystemCoreClock (m_app w') = 600000000 ∧ systick_rvr (m_app w') = 599999 ∧ systick_csr (m_app w') = 7.
Proof using Type.
  intros Hr Him Hv Fd Ff Fb Hz Hok. unfold power_on.
  match goal with |- context [Reset_Handler _ _ _ _ ?x] => set (program := x) end.
  destruct (reset_ret dev polls fuel ld nd nf nb program w Hr Him Hv Fd Ff Fb)
    as (dogs & fpu & w1 & E1 & B1 & Hdogs & Hfpu & Hm & _).
  set (w2 := mkMachine (m_bus w1) (m_mem w1) (kernel_at (m_mem w1))).
  destruct (main_starts_blink dev g_task_pool g_stack_pool g_idle_tcb g_idle_stack task_exit_trampoline_addr
    idle_task_addr idle_name rodata stale_name blink_tcb blink_stack heartbeat_tcb heartbeat_stack blink_task_addr
    heartbeat_task_addr blink_name hb_name w2 Hok (cleared_cold _ _ _ _ _ Hm Hz))
    as (w3 & clock & led & E2 & B2 & Hclock & Hled & Hk & H3 & Hrun & _ & Hst & Hclk & Hrvr & Hcsr & Hmem).
  exists w3, dogs, fpu, clock, led. split_and!; try done.
  - rewrite E1. unfold program. rewrite bind_assoc. rewrite (bind_ret enter_program _ w1 () w2) by done.
    rewrite bind_assoc. by run E2.
  - rewrite B2. simpl. by rewrite B1, <- !app_assoc.
  - by rewrite Hmem.
Qed.
End power_on.

(** ** An instance *)

(** Two words of data, one of fast code, and .bss with the variables in the order
    of [kernel.c] and [scheduler.c], full of garbage at reset. *)
Definition power_on_linker : linker :=
  mkLinker 0x60001000 0 4 0x60008000 0x20000000 0x20000008 0x60008004 0x20000100 0x200001C4.
Definition power_on_symbols : symbols :=
  mkSymbols 0x20000100 0x20000104 0x20000114 0x20000000 0x20000004 0x20000124 0x200001B4 0x200001B8 0x200001BC 0x200001C0.
Definition power_on_memory : gmap Z Z := list_to_map (
  [(0, 99); (0x60008000, 11); (0x60008004, 1); (0x60008008, 600000000); (0x20000000, 99); (0x20000004, 99)] ++
  ((λ i, (0x20000100 + 4 * i, 0xA5A5A5A5)) <$> seqZ 0 49)).
Definition power_on_machine : machine kernel := mkMachine [] power_on_memory example_cold.

Lemma power_on_image : image_ok power_on_linker 2 1 49 power_on_memory.
Proof.
  split; try (apply mapped_check; [lia|by vm_compute]); unfold section_at, disjoint_sections, in_section; simpl; try lia.
  all: intros p (i & Hi & ->) (j & Hj & E); lia.
Qed.

Lemma power_on_zeroed : zeroed_variables power_on_linker power_on_symbols 49.
Proof.
  split; intros i Hi; unfold CONFIG_MAX_TASKS in *; simpl in *.
  - exists 0. Z.div_mod_to_equations. lia.
  - exists (1 + i / 4). Z.div_mod_to_equations. lia.
  - exists (5 + i / 4). Z.div_mod_to_equations. lia.
Qed.

Lemma power_on_starts_blink_witness : ∃ w', power_on ones_device 1 64 power_on_linker power_on_symbols ∅ 0 7 7 0
    EX_POOL EX_STACKS EX_IDLE EX_IDLE_STACK 0x60004001 EX_IDLE_TASK 0x60008000 (λ _, 0) ex_stale
    BLINK BLINK_STACK HEARTBEAT HEARTBEAT_STACK 0x60005001 0x60006001 0x60009000 0x60009010 (λ _, mret ())
    power_on_machine = Spin w' ∧ running (m_app w') = BLINK ∧ systick_rvr (m_app w') = 599999.
Proof.
  destruct (power_on_starts_blink ones_device 1 64 power_on_linker power_on_symbols ∅ 0 7 7 0
    EX_POOL EX_STACKS EX_IDLE EX_IDLE_STACK 0x60004001 EX_IDLE_TASK 0x60008000 (λ _, 0) ex_stale
    BLINK BLINK_STACK HEARTBEAT HEARTBEAT_STACK 0x60005001 0x60006001 0x60009000 0x60009010 2 1 49 (λ _, mret ())
    power_on_machine) as (w' & dogs & fpu & clock & led & E & _ & _ & _ & _ & _ & _ & _ & _ & Hrun & _ & _ & Hrvr & _).
  - intros t. exists 0%nat. split; [lia|discriminate].
  - exact power_on_image.
  - simpl. lia.
  - lia.
  - lia.
  - lia.
  - exact power_on_zeroed.
  - exact example_static.
  - exists w'. split; [exact E|]. split; [exact Hrun|exact Hrvr].
Defined.
