(* ===== verification/ContextProps.v ===== *)
(** * What the context switch does

    PendSV saves the outgoing task's registers on its stack, makes the task the
    scheduler selects current and loads the registers from that task's stack; a
    task that is switched out and in again finds its registers as it left them,
    s16-s31 excepted, and a new task starts at its entry point. *)
From stdpp Require Import vector.
From S2P Require Import Prelude Config Task Critical Bitmap TcbList Scheduler SchedSpec.
From S2P Require Import SchedRefine SchedInv SchedEffect SchedIface Sync Checker Example.
From S2P Require Import SchedProps Kernel Context KernelProps System.

(** ** Words in memory *)

Fixpoint store_all (p : Z) (l : list Z) (m : gmap Z Z) : gmap Z Z :=
  match l with [] => m | v :: l' => store_all (p + 4) l' (<[p := v]> m) end.

Lemma store_all_outside p l m q : q < p ∨ p + 4 * Z.of_nat (length l) ≤ q → store_all p l m !! q = m !! q.
Proof.
  revert p m. induction l as [|v l IH]; intros p m Hq; [done|]. simpl in *. rewrite IH by lia.
  by rewrite lookup_insert_ne by lia.
Qed.

Lemma store_all_words p l m : words_at p l (store_all p l m).
Proof.
  revert p m. induction l as [|v l IH]; intros p m; [done|]. simpl. split; [|apply IH].
  rewrite store_all_outside by lia. apply lookup_insert_eq.
Qed.

Lemma words_at_ext p l m m' :
  (∀ q, p ≤ q < p + 4 * Z.of_nat (length l) → m' !! q = m !! q) → words_at p l m → words_at p l m'.
Proof.
  revert p. induction l as [|v l IH]; intros p Hm; [done|]. simpl in *. intros [Hv Hl].
  split; [rewrite Hm by lia; done|]. apply IH; [|done]. intros q Hq. apply Hm. lia.
Qed.

Lemma store_words_ret p l c :
  store_words p l c = Ret () (c <| kst := kst c <| ram := store_all p l (ram (kst c)) |> |>).
Proof.
  revert p c. induction l as [|v l IH]; intros p c; [by destruct c as [[]]|].
  cbn [store_words store_all]. erewrite bind_ret by reflexivity. by rewrite IH.
Qed.

Lemma words_at_app p l1 l2 m : words_at p (l1 ++ l2) m ↔ words_at p l1 m ∧ words_at (p + 4 * Z.of_nat (length l1)) l2 m.
Proof.
  revert p. induction l1 as [|v l1 IH]; intros p; simpl.
  - rewrite Z.add_0_r. tauto.
  - rewrite IH. replace (p + 4 + 4 * Z.of_nat (length l1)) with (p + 4 * Z.of_nat (S (length l1))) by lia. tauto.
Qed.

Lemma words_at_lookup p l m i v : words_at p l m → l !! i = Some v → m !! (p + 4 * Z.of_nat i) = Some v.
Proof.
  revert p i. induction l as [|w l IH]; intros p i; [done|]. intros [Hv Hl]. destruct i as [|i]; simpl.
  - intros [= ->]. by rewrite Z.add_0_r.
  - intros E. rewrite <- (IH _ _ Hl E). f_equal. lia.
Qed.

Lemma load_word_ret p v c : ram (kst c) !! p = Some v → load_word p c = Ret v c.
Proof. intros E. unfold load_word. by rewrite E. Qed.

Lemma load_words_ret {n} p (l : vec Z n) c : words_at p l (ram (kst c)) → load_words n p c = Ret l c.
Proof.
  revert p. induction l as [|v n l IH]; intros p; [done|]. intros [Hv Hl]. cbn [load_words].
  run (load_word_ret _ _ _ Hv). by run (IH _ Hl).
Qed.

Lemma store_all_some p l m q : is_Some (m !! q) → is_Some (store_all p l m !! q).
Proof.
  revert p m. induction l as [|v l IH]; intros p m Hq; [done|]. simpl. apply IH.
  destruct (decide (p = q)) as [->|]; [rewrite lookup_insert_eq; eauto|by rewrite lookup_insert_ne].
Qed.

(** ** Exception entry and return *)

Notation sched_of c := (k_sched (kst c)).

Lemma from_psp_exc c : from_psp (exc_return c) = on_psp c.
Proof. unfold exc_return. by destruct (on_psp c), (fp_context c). Qed.
Lemma has_fp_exc c : has_fp (exc_return c) = fp_context c.
Proof. unfold exc_return. by destruct (on_psp c), (fp_context c). Qed.
Lemma is_exc_return_exc c : is_exc_return (exc_return c) = true.
Proof. unfold exc_return. by destruct (on_psp c), (fp_context c). Qed.

Lemma thread_control_bits l ctl i : 0 ≤ i → Z.testbit (thread_control l ctl) i =
  if decide (i = SPSEL) then from_psp l else if decide (i = FPCA) then has_fp l else Z.testbit ctl i.
Proof.
  intros Hi. unfold thread_control, SPSEL, FPCA. rewrite Z.lor_spec, Z.ldiff_spec.
  destruct (decide (i = 1)) as [->|]; [|destruct (decide (i = 2)) as [->|]].
  - destruct (from_psp l), (has_fp l), (Z.testbit ctl 1); done.
  - destruct (from_psp l), (has_fp l), (Z.testbit ctl 2); done.
  - assert (∀ m, m = 0 ∨ m = 2 ∨ m = 4 ∨ m = 6 → Z.testbit m i = false) as Hm.
    { intros m Hm. destruct (decide (i = 0)) as [->|]; [by destruct Hm as [->|[->|[->| ->]]]|].
      apply (Z.testbit_false m i Hi). rewrite Z.div_small; [done|].
      assert (2 ^ 3 ≤ 2 ^ i) by (apply Z.pow_le_mono_r; lia). lia. }
    rewrite (Hm 6) by lia. rewrite (Hm (_ + _)) by (destruct (from_psp l), (has_fp l); simpl; lia).
    by rewrite andb_true_r, orb_false_r.
Qed.

Lemma thread_control_return c : thread_control (exc_return c) (Z.ldiff (control c) 6) = control c.
Proof.
  apply Z.bits_inj'. intros i Hi. rewrite thread_control_bits, from_psp_exc, has_fp_exc by done.
  unfold on_psp, fp_context. case_decide as H1; [by rewrite H1|]. case_decide as H2; [by rewrite H2|].
  pose proof (thread_control_bits 16 (control c) i Hi) as E. unfold thread_control in E. simpl in E.
  rewrite Z.lor_0_r in E. by rewrite E, !decide_False.
Qed.

(** The core once an exception is taken. *)
Definition entered (number : Z) (c : core) : core :=
  let l := exc_return c in
  let p := frame_ptr l c - frame_size l in
  set_frame_ptr l p c <| lr := l |> <| control := Z.ldiff (control c) 6 |>
    <| kst := with_ipsr number (kst c <| ram := store_all p (exception_frame c) (ram (kst c)) |>) |>.

Lemma exception_entry_ret number c : exception_entry number c = Ret () (entered number c).
Proof.
  unfold exception_entry. step. cbv zeta. erewrite bind_ret by apply store_words_ret.
  unfold entered, set_frame_ptr, frame_ptr. by destruct (from_psp _).
Qed.

Lemma entered_lr n c : lr (entered n c) = exc_return c.
Proof. done. Qed.

Lemma entered_frame n c :
  frame_ptr (lr (entered n c)) (entered n c) = frame_ptr (exc_return c) c - frame_size (exc_return c) ∧
  words_at (frame_ptr (lr (entered n c)) (entered n c)) (exception_frame c) (ram (kst (entered n c))).
Proof.
  rewrite entered_lr. set (p := frame_ptr _ c - _).
  assert (frame_ptr (exc_return c) (entered n c) = p) as E; [|split; [done|]].
  - unfold entered. cbv zeta. fold p. clearbody p. unfold frame_ptr, set_frame_ptr.
    by destruct (from_psp _).
  - rewrite E. apply store_all_words.
Qed.

Lemma entered_keeps n c : r0 (entered n c) = r0 c ∧ r4_r11 (entered n c) = r4_r11 c ∧
  s0_s15 (entered n c) = s0_s15 c ∧ fpscr (entered n c) = fpscr c ∧
  s16_s31 (entered n c) = s16_s31 c ∧ main_stack (entered n c) = main_stack c.
Proof. unfold entered, set_frame_ptr. by destruct (from_psp _). Qed.

Lemma frame_size_nonneg l : 0 ≤ frame_size l.
Proof. unfold frame_size. by case_match. Qed.

Lemma exception_frame_length c : Z.of_nat (length (exception_frame c)) * 4 = frame_size (exc_return c).
Proof.
  unfold exception_frame, frame_size, fp_stack_frame. rewrite has_fp_exc.
  destruct (fp_context c); [|done]. by rewrite !length_app, length_vec_to_list.
Qed.

(** The registers of the exception frame of [c0] are those of [c]. *)
Definition frame_loaded (c0 c : core) : Prop :=
  r0 c = r0 c0 ∧ r1 c = r1 c0 ∧ r2 c = r2 c0 ∧ r3 c = r3 c0 ∧ r12 c = r12 c0 ∧
  lr c = lr c0 ∧ pc c = pc c0 ∧ xpsr c = xpsr c0 ∧
  (fp_context c0 = true → s0_s15 c = s0_s15 c0 ∧ fpscr c = fpscr c0).

(** The return to the frame of [c0]. *)
Lemma exception_return_ret c0 c : has_fp (lr c) = fp_context c0 →
  words_at (frame_ptr (lr c) c) (exception_frame c0) (ram (kst c)) →
  ∃ c', exception_return c = Ret () c' ∧ frame_loaded c0 c' ∧ kst c' = with_ipsr 0 (kst c) ∧
    r4_r11 c' = r4_r11 c ∧ s16_s31 c' = s16_s31 c ∧ main_stack c' = main_stack c ∧
    (fp_context c0 = false → s0_s15 c' = s0_s15 c ∧ fpscr c' = fpscr c) ∧
    control c' = thread_control (lr c) (control c) ∧
    psp c' = (if from_psp (lr c) then psp c + frame_size (lr c) else psp c) ∧
    msp c' = (if from_psp (lr c) then msp c else msp c + frame_size (lr c)).
Proof.
  intros Hfp Hw. set (p := frame_ptr (lr c) c) in *. unfold exception_frame in Hw.
  apply words_at_app in Hw as [Hw Hf]. change (Z.of_nat (length (hw_stack_frame c0))) with 8 in Hf.
  assert (∀ i v, hw_stack_frame c0 !! i = Some v → load_word (p + 4 * Z.of_nat i) c = Ret v c) as Hl.
  { intros i v E. by apply load_word_ret, (words_at_lookup _ _ _ _ _ Hw). }
  pose proof (Hl 0%nat _ eq_refl) as H0. rewrite Z.add_0_r in H0.
  unfold exception_return. step. erewrite bind_ret by reflexivity. fold p.
  run H0.
  run (Hl 1%nat _ eq_refl : load_word (p + 4) c = _). run (Hl 2%nat _ eq_refl : load_word (p + 8) c = _).
  run (Hl 3%nat _ eq_refl : load_word (p + 12) c = _). run (Hl 4%nat _ eq_refl : load_word (p + 16) c = _).
  run (Hl 5%nat _ eq_refl : load_word (p + 20) c = _). run (Hl 6%nat _ eq_refl : load_word (p + 24) c = _).
  run (Hl 7%nat _ eq_refl : load_word (p + 28) c = _). rewrite Hfp.
  assert (p = frame_ptr (lr c) c) as Ep by done. clearbody p. clear H0 Hl. unfold frame_ptr in Ep.
  destruct (fp_context c0) eqn:Hc0; cbn [when].
  - unfold fp_stack_frame in Hf. apply words_at_app in Hf as [Hs [Hv _]].
    rewrite length_vec_to_list in Hv. unfold restore_fp. rewrite bind_assoc. run (load_words_ret _ _ _ Hs).
    rewrite bind_assoc. change (4 * Z.of_nat 16) with 64 in Hv. run (load_word_ret _ _ _ Hv). step.
    eexists. split; [reflexivity|]. unfold frame_loaded, set_frame_ptr.
    destruct (from_psp (lr c)); rewrite Ep; split_and!; try done; intros; by rewrite ?Hc0 in *.
  - step. eexists. split; [reflexivity|]. unfold frame_loaded, set_frame_ptr.
    destruct (from_psp (lr c)); rewrite Ep; split_and!; try done; intros; by rewrite ?Hc0 in *.
Qed.

(** ** The two halves of the handler *)

(** Running a scheduler routine on the core. *)
Lemma on_sched {X} (m : M sched X) c x s' : m (sched_of c) = Ret x s' →
  zoom (zoom (S := sched) (W := kernel) m) c = Ret x (c <| kst := kst c <| k_sched := s' |> |>).
Proof. intros E. unfold zoom. simpl. by rewrite E. Qed.

Definition after_save (c : core) : core :=
  c <| kst := kst c <| ram := store_all (r0 c - 36) (sw_stack_frame c) (ram (kst c)) |>
      <| k_sched := sched_of c <| tcbs := alter (set_field Task.sp (r0 c - 36)) (r2 c) (tcbs (sched_of c)) |> |> |>
    <| r0 := r0 c - 36 |>.

Lemma save_context_ret c : is_Some (tcbs (sched_of c) !! r2 c) → save_context c = Ret () (after_save c).
Proof.
  intros Hx. unfold save_context. step. erewrite bind_ret by apply store_words_ret. step.
  unfold after_save, sw_stack_frame. erewrite on_sched by (by apply upd_ret). by destruct c as [[]].
Qed.

Lemma restore_context_ret c t f (a4 : vec Z 8) : tcbs (sched_of c) !! r0 c = Some t →
  words_at (Task.sp t) (a4 ++ [f]) (ram (kst c)) →
  restore_context c = Ret () (c <| r1 := Task.sp t + 36 |> <| r4_r11 := a4 |> <| lr := f |>
    <| psp := Task.sp t + 36 |>).
Proof.
  intros Ht [Hw [Hf _]]%words_at_app. rewrite length_vec_to_list in Hf. change (4 * Z.of_nat 8) with 32 in Hf.
  unfold restore_context. step. erewrite bind_ret.
  2:{ etrans; [apply on_sched, (deref_ret _ _ _ Ht)|]. reflexivity. }
  replace (c <| kst := kst c <| k_sched := sched_of c |> |>) with c by (by destruct c as [[]]).
  run (load_words_ret _ _ _ Hw). by run (load_word_ret _ _ _ Hf).
Qed.

(** What the C function called from the handler leaves alone, by the procedure
    call standard: s16 to s31 and, apart from what it does to the scheduler, the
    memory. *)
Record callee_ok (clobber : core → core) : Prop := {
  callee_memory c : kst (clobber c) = kst c;
  callee_fp c : s16_s31 (clobber c) = s16_s31 c;
}.

(** ** The scheduler's part *)

Lemma stands_for_ipsr s a n : stands_for s a → 0 ≤ n < 512 →
  stands_for (s <| cpu := cpu s <| ipsr := n |> |>) (a <| a_cpu := a_cpu a <| ipsr := n |> |>).
Proof.
  intros [HR Hwf] Hn. split.
  - pose proof (abs_cpu _ _ HR) as E. same_abs HR. by rewrite E.
  - apply wf_cpu; [done|]. destruct (wf_cpu_ok _ _ Hwf) as (?&?&_&?). split; [|split; [|split]]; simpl; try done; lia.
Qed.

Lemma stands_for_served s a : stands_for s a →
  stands_for (s <| cpu := cpu s <| icsr := Z.ldiff (icsr (cpu s)) (bit PENDSVSET) |> |>)
    (a <| a_cpu := a_cpu a <| icsr := Z.ldiff (icsr (a_cpu a)) (bit PENDSVSET) |> |>).
Proof.
  intros [HR Hwf]. split.
  - pose proof (abs_cpu _ _ HR) as E. same_abs HR. by rewrite E.
  - apply wf_cpu; [done|]. destruct (wf_cpu_ok _ _ Hwf) as (?&?&?&?).
    pose proof (ldiff_range (icsr (a_cpu a)) (bit PENDSVSET)). split; [|split]; try done. split; [done|]. eauto.
Qed.

Lemma stands_for_primask s a p : stands_for s a → p = 0 ∨ p = 1 →
  stands_for (s <| cpu := cpu s <| primask := p |> |>) (a <| a_cpu := a_cpu a <| primask := p |> |>).
Proof.
  intros [HR Hwf] Hp. split.
  - pose proof (abs_cpu _ _ HR) as E. same_abs HR. by rewrite E.
  - apply wf_cpu; [done|]. apply cpu_wf_primask; [apply (wf_cpu_ok _ _ Hwf)|done].
Qed.

Lemma stands_for_upd s a x f : stands_for s a → is_Some (tcbs s !! x) → link_free f →
  (∀ t, task_ok t → task_ok (f t)) → (∀ t, state (f t) = state t ∧ priority (f t) = priority t) →
  stands_for (s <| tcbs := alter f x (tcbs s) |>) (set_task x f a).
Proof.
  intros [HR Hwf] Hx Hf Hok Hsp.
  assert (is_Some (a_tasks a !! x)) as Hax by (rewrite (abs_lookup _ _ _ HR); by apply fmap_is_Some).
  destruct (refines_apply _ _ _ _ _ _ _ (refines_upd x f Hf) HR (a_upd_ret a x f Hax)) as (s' & E & HR').
  rewrite upd_ret in E by done. injection E as <-. split; [done|].
  apply wf_set_task; [done|]. intros t _ Ht. split; [by apply Hok|]. right.
  by destruct (Hsp t) as [-> ->].
Qed.

Lemma stands_for_current_task s a n : stands_for s a → null_or_task n a →
  stands_for (s <| current_task := n |>) (a <| a_current_task := n |>).
Proof. intros [HR Hwf] Hn. split; [by same_abs HR|]. by destruct Hwf. Qed.

Lemma select_stands s a : stands_for s a →
  ∃ s', scheduler_select_next_task s = Ret (top a) s' ∧ stands_for s' (eff_select a) ∧ tcbs s' = tcbs s ∧
    current_task s' = current_task s.
Proof.
  intros Hs. destruct (refined _ _ _ _ _ _ refines_select_next_task Hs (select_eff a (proj2 Hs))) as (s' & E & Hs').
  exists s'. split_and!; [done..| |].
  - assert (keeps tcbs scheduler_select_next_task) as Hk; [|exact (Hk _ _ _ E)].
    unfold scheduler_select_next_task, scheduler_get_next, ready_head. keeps_auto.
    intros u y u'. case_match; congruence.
  - assert (keeps current_task scheduler_select_next_task) as Hk; [|exact (Hk _ _ _ E)].
    unfold scheduler_select_next_task, scheduler_get_next, ready_head. keeps_auto.
    intros u y u'. case_match; congruence.
Qed.

(** Masked, with the stack pointer of [x] saved. *)
Definition switch_out (x : ptr) (p : Z) (s : sched) : sched :=
  s <| cpu := cpu s <| primask := 1 |> |> <| tcbs := alter (set_field Task.sp p) x (tcbs s) |>.
(** [n] made current, and unmasked. *)
Definition switch_in (n : ptr) (s : sched) : sched :=
  s <| current_task := n |> <| cpu := cpu s <| primask := 0 |> |>.

Lemma switch_chain s a x p : stands_for s a → is_Some (tcbs s !! x) →
  ∃ s' a', scheduler_select_next_task (switch_out x p s) = Ret (top a) s' ∧
    stands_for (switch_in (top a) s') a' ∧ tcbs s' = alter (set_field Task.sp p) x (tcbs s) ∧
    current_task s' = current_task s.
Proof.
  intros Hs Hx. pose proof (stands_for_primask _ _ 1 Hs (or_intror eq_refl)) as Hs1.
  assert (∀ t, task_ok t → task_ok (set_field Task.sp p t)) as Hok by done.
  assert (∀ t, state (set_field Task.sp p t) = state t ∧ priority (set_field Task.sp p t) = priority t) as Hsp by done.
  assert (link_free (set_field Task.sp p)) as Hlf by solve_link_free.
  pose proof (stands_for_upd _ _ x _ Hs1 Hx Hlf Hok Hsp) as Hs2.
  destruct (select_stands _ _ Hs2) as (s3 & E3 & Hs3 & Etcb & Ecur).
  pose proof (stands_for_current_task _ _ _ Hs3 (top_null_or_task _ (proj2 Hs2))) as Hs4.
  pose proof (stands_for_primask _ _ 0 Hs4 (or_introl eq_refl)) as Hs5.
  exists s3. eexists. split; [exact E3|]. split; [exact Hs5|]. split; [exact Etcb|exact Ecur].
Qed.

Section handler.
Context (current_task_addr : ptr) (clobber : core → core) (Hcl : callee_ok clobber).

Lemma call_select_ret c n s' : scheduler_select_next_task (sched_of c) = Ret n s' →
  call_select clobber c = Ret () (clobber (c <| kst := kst c <| k_sched := s' |> |>) <| r0 := n |>).
Proof using Type. intros E. unfold call_select. by erewrite bind_ret by (by apply on_sched). Qed.

Lemma set_primask_ret v c : set_primask_to v c =
  Ret () (c <| kst := kst c <| k_sched := sched_of c <| cpu := cpu (sched_of c) <| primask := v |> |> |> |>).
Proof using Type. done. Qed.

Lemma get_current_ret c :
  zoom (zoom (S := sched) (W := kernel) (gets current_task)) c = Ret (current_task (sched_of c)) c.
Proof using Type. by destruct c as [[]]. Qed.

(** Up to the call of the scheduler, for the running task [x]. *)
Lemma PendSV_select_ret c a x : stands_for (sched_of c) a → current_task (sched_of c) = x → x ≠ NULL →
  is_Some (tcbs (sched_of c) !! x) →
  ∃ b a', PendSV_select current_task_addr clobber c = Ret () b ∧ r0 b = top a ∧
    ram (kst b) = store_all (psp c - 36) (sw_stack_frame c) (ram (kst c)) ∧
    tcbs (sched_of b) = alter (set_field Task.sp (psp c - 36)) x (tcbs (sched_of c)) ∧
    current_task (sched_of b) = x ∧ s16_s31 b = s16_s31 c ∧
    stands_for (switch_in (top a) (sched_of b)) a'.
Proof using Hcl.
  intros Hs Hx Hx0 Hsome.
  destruct (switch_chain _ _ x (psp c - 36) Hs Hsome) as (s' & a' & E & Hs' & Etcb & Ecur).
  unfold PendSV_select. run (set_primask_ret 1 c). run (get_current_ret
    (c <| kst := kst c <| k_sched := sched_of c <| cpu := cpu (sched_of c) <| primask := 1 |> |> |> |>)).
  change (current_task (sched_of (c <| kst := ?k |>))) with (current_task (k_sched k)).
  change (current_task (k_sched (kst c <| k_sched := ?s |>))) with (current_task s).
  change (current_task (sched_of c <| cpu := ?s |>)) with (current_task (sched_of c)).
  step. rewrite Hx, (proj2 (Z.eqb_neq x 0)) by done. cbn [negb when].
  erewrite bind_ret by (by apply save_context_ret).
  eexists _, a'. split; [apply call_select_ret; exact E|]. simpl. rewrite (callee_memory _ Hcl), (callee_fp _ Hcl). simpl.
  split_and!; try done. by rewrite Ecur, <- Hx.
Qed.

(** After [str r0, [r3]]. *)
Definition stored (b : core) : core :=
  b <| kst := if r3 b =? current_task_addr
              then kst b <| k_sched := sched_of b <| current_task := r0 b |> |>
              else kst b <| ram := <[r3 b := r0 b]> (ram (kst b)) |> |>.

Lemma store_ret b : r3 b = current_task_addr ∨ is_Some (ram (kst b) !! r3 b) →
  store_through_r3 current_task_addr b = Ret () (stored b).
Proof using Type.
  intros Hb. unfold store_through_r3, stored. step. step.
  destruct (Z.eqb_spec (r3 b) current_task_addr) as [E|E]; [done|].
  destruct Hb as [|[v Hv]]; [done|]. by run (load_word_ret _ _ _ Hv).
Qed.

Lemma stored_tcbs b : tcbs (sched_of (stored b)) = tcbs (sched_of b).
Proof using Type. unfold stored. simpl. by destruct (_ =? _). Qed.

Lemma stored_current b : current_task (sched_of (stored b)) =
  if r3 b =? current_task_addr then r0 b else current_task (sched_of b).
Proof using Type. unfold stored. simpl. by destruct (_ =? _). Qed.

Lemma stored_ram b q : r3 b = current_task_addr ∨ q ≠ r3 b → ram (kst (stored b)) !! q = ram (kst b) !! q.
Proof using Type.
  intros Hq. unfold stored. simpl. destruct (Z.eqb_spec (r3 b) current_task_addr); [done|].
  simpl. destruct Hq; [done|]. by rewrite lookup_insert_ne.
Qed.

Lemma PendSV_resume_ret b t (f : vec Z 8) l : r0 b ≠ NULL → tcbs (sched_of b) !! r0 b = Some t →
  words_at (Task.sp t) (f ++ [l]) (ram (kst b)) →
  PendSV_resume b = Ret () (b <| r1 := Task.sp t + 36 |> <| r4_r11 := f |> <| lr := l |>
    <| psp := Task.sp t + 36 |>
    <| kst := kst b <| k_sched := sched_of b <| cpu := cpu (sched_of b) <| primask := 0 |> |> |> |>).
Proof using Type.
  intros Hn Ht Hw. unfold PendSV_resume. step. rewrite (proj2 (Z.eqb_neq _ 0)) by done. cbn [negb when].
  by run (restore_context_ret _ _ _ _ Ht Hw).
Qed.

(** Where the stack pointer of [y] points once [x] is saved at [p]. *)
Definition frame_of (s : sched) (x p y : ptr) : Z :=
  if decide (y = x) then p else match tcbs s !! y with Some t => Task.sp t | None => 0 end.

(** The handler up to [bx lr], called for the running task [x]: if the C
    function leaves r3 alone, PendSV puts r4-r11 and EXC_RETURN of [x] below its
    stack pointer and records the new stack pointer in its TCB, makes the task
    the scheduler selects current, loads that task's registers from the stack
    recorded in its TCB, and leaves with interrupts enabled and a well-formed
    scheduler. *)
Theorem PendSV_switches c a x (f4 : vec Z 8) flr : stands_for (sched_of c) a → current_task (sched_of c) = x →
  x ≠ NULL → is_Some (tcbs (sched_of c) !! x) → top a ≠ NULL →
  r3 (final (PendSV_select current_task_addr clobber) c) = current_task_addr →
  words_at (frame_of (sched_of c) x (psp c - 36) (top a)) (f4 ++ [flr])
    (store_all (psp c - 36) (r4_r11 c ++ [lr c]) (ram (kst c))) →
  ∃ c' a', (PendSV_select current_task_addr clobber ;; store_through_r3 current_task_addr ;; PendSV_resume) c = Ret () c' ∧
    stands_for (sched_of c') a' ∧ current_task (sched_of c') = top a ∧ primask (cpu (sched_of c')) = 0 ∧
    ram (kst c') = store_all (psp c - 36) (r4_r11 c ++ [lr c]) (ram (kst c)) ∧
    tcbs (sched_of c') = alter (set_field Task.sp (psp c - 36)) x (tcbs (sched_of c)) ∧
    r4_r11 c' = f4 ∧ lr c' = flr ∧ psp c' = frame_of (sched_of c) x (psp c - 36) (top a) + 36.
Proof using Hcl.
  intros Hs Hx Hx0 Hsome Hn Hr3 Hw.
  destruct (PendSV_select_ret c a x Hs Hx Hx0 Hsome) as (b & a' & E & Hr0 & Hram & Htcb & _ & _ & Hs').
  unfold final in Hr3. rewrite E in Hr3. run E. erewrite bind_ret by (apply store_ret; by left).
  destruct (top_spec a (proj2 Hs)) as [[? _]|(u & Hu & _)]; [done|].
  destruct (same_task_inv _ _ _ _ Hs Hu) as (ty & Hty & _).
  assert (∃ t', tcbs (sched_of (stored b)) !! r0 (stored b) = Some t' ∧
    Task.sp t' = frame_of (sched_of c) x (psp c - 36) (top a)) as (t' & Ht' & Esp).
  { rewrite stored_tcbs. change (r0 (stored b)) with (r0 b). rewrite Htcb, Hr0. unfold frame_of. case_decide as E1.
    - rewrite E1 in *. rewrite lookup_alter_eq, Hty. simpl. eauto.
    - rewrite lookup_alter_ne by congruence. rewrite Hty. eauto. }
  assert (kst (stored b) = kst b <| k_sched := sched_of b <| current_task := r0 b |> |>) as Ek.
  { unfold stored. simpl. by rewrite Hr3, Z.eqb_refl. }
  eexists _, a'. split; [apply (PendSV_resume_ret (stored b) t' f4 flr); [by change (r0 (stored b)) with (r0 b); rewrite Hr0|exact Ht'|]|].
  { rewrite Esp, Ek. simpl. by rewrite Hram. }
  cbn -[stored]. rewrite Ek, Esp. cbn. rewrite Hr0. split_and!; done.
Qed.

(** *** Out and in again *)

(** The core when the C function has returned, and where r3 points then: at
    [current_task], or at a word of memory outside of the range given. *)
Definition before_store (c : core) : core :=
  final (pendsv_entry ;; PendSV_select current_task_addr clobber) c.

Definition store_clear (lo hi : Z) (c : core) : Prop :=
  r3 (before_store c) = current_task_addr ∨
  is_Some (ram (kst (before_store c)) !! r3 (before_store c)) ∧
  (r3 (before_store c) + 4 ≤ lo ∨ hi ≤ r3 (before_store c)).

(** The stack pointer in the TCB of [x]. *)
Definition saved_sp (x : ptr) (c : core) : option Z := Task.sp <$> tcbs (sched_of c) !! x.

(** The address of the saved context of a task interrupted in [c]. *)
Definition context_ptr (c : core) : Z := psp c - frame_size (exc_return c) - 36.

Lemma store_clear_ok lo hi c : store_clear lo hi c →
  r3 (before_store c) = current_task_addr ∨ is_Some (ram (kst (before_store c)) !! r3 (before_store c)).
Proof using Type. unfold store_clear. tauto. Qed.

(** The exception up to [str r0, [r3]]. *)
Lemma pendsv_taken_ret c a x lo hi : stands_for (sched_of c) a → current_task (sched_of c) = x → x ≠ NULL →
  is_Some (tcbs (sched_of c) !! x) → on_psp c = true → store_clear lo hi c →
  let b := before_store c in
  pendsv_exception current_task_addr clobber c = (PendSV_resume ;; bx_lr) (stored b) ∧
  r0 b = top a ∧ s16_s31 b = s16_s31 c ∧ current_task (sched_of b) = x ∧
  ram (kst b) = store_all (context_ptr c) (r4_r11 c ++ [exc_return c])
    (store_all (context_ptr c + 36) (exception_frame c) (ram (kst c))) ∧
  tcbs (sched_of b) = alter (set_field Task.sp (context_ptr c)) x (tcbs (sched_of c)).
Proof using Hcl.
  intros Hs Hx Hx0 Hsome Hpsp Hst%store_clear_ok b.
  set (c0 := c <| kst := kst c <| k_sched := sched_of c <| cpu := cpu (sched_of c)
    <| icsr := Z.ldiff (icsr (cpu (sched_of c))) (bit PENDSVSET) |> |> |> |>).
  set (e := entered PENDSV c0).
  assert (pendsv_entry c = Ret () e) as Ee by exact (exception_entry_ret PENDSV c0).
  pose proof (stands_for_ipsr _ _ PENDSV (stands_for_served _ _ Hs) ltac:(unfold PENDSV; lia)) as Hse.
  destruct (PendSV_select_ret e _ x Hse Hx Hx0 Hsome) as (b' & a' & E & Hr0 & Hram & Htcb & Hcur & Hfp & _).
  assert (b = b') as Eb. { unfold b, before_store, final. by rewrite (bind_ret _ _ _ _ _ Ee), E. }
  assert (from_psp (exc_return c0) = true) as Hp by (rewrite from_psp_exc; exact Hpsp).
  assert (psp e = psp c - frame_size (exc_return c)) as Ep.
  { unfold e, entered, set_frame_ptr, frame_ptr. by rewrite Hp. }
  destruct (entered_keeps PENDSV c0) as (_ & E4 & _ & _ & E16 & _). fold e in E4, E16.
  change (r4_r11 c0) with (r4_r11 c) in E4. change (s16_s31 c0) with (s16_s31 c) in E16.
  assert (sw_stack_frame e = r4_r11 c ++ [exc_return c]) as Ef by (unfold sw_stack_frame; by rewrite E4).
  assert (ram (kst e) = store_all (context_ptr c + 36) (exception_frame c) (ram (kst c))) as Er.
  { replace (context_ptr c + 36) with (psp c - frame_size (exc_return c)) by (unfold context_ptr; lia).
    unfold e, entered, frame_ptr. by rewrite Hp. }
  split; [|subst b'; rewrite Hr0, Hfp, Hcur, Hram, Htcb, Ef, Er, Ep, E16; unfold context_ptr; done].
  unfold pendsv_exception. run Ee. unfold PendSV_Handler. run E. fold b in Hst. rewrite <- Eb.
  by run (store_ret b Hst).
Qed.

(** The rest of the handler changes neither the memory nor the TCBs. *)
Definition mem (c : core) : gmap Z Z * gmap ptr task_tcb := (ram (kst c), tcbs (sched_of c)).

Lemma keeps_load_word p : keeps mem (load_word p).
Proof using Type. intros c v c'. unfold load_word. case_match; [|done]. by intros [= _ <-]. Qed.

Lemma keeps_load_words n p : keeps mem (load_words n p).
Proof using Type.
  revert p. induction n as [|n IH]; intros p; [apply keeps_ret|].
  apply keeps_bind; [apply keeps_load_word|]. intros v. apply keeps_bind; [apply IH|]. intros l. apply keeps_ret.
Qed.
#[local] Hint Resolve keeps_load_word keeps_load_words : keeps.

Lemma keeps_get_tcb n : keeps mem (zoom (zoom (S := sched) (W := kernel) (deref n))).
Proof using Type.
  intros c t c'. unfold zoom, deref. simpl. destruct (tcbs (sched_of c) !! n); [|done]. by intros [= _ <-].
Qed.
#[local] Hint Resolve keeps_get_tcb : keeps.

Lemma keeps_resume : keeps mem PendSV_resume.
Proof using Type.
  unfold PendSV_resume, restore_context. keeps_auto. by intros c [] c' [= <-].
Qed.

Lemma keeps_bx_lr : keeps mem bx_lr.
Proof using Type.
  unfold bx_lr, exception_return, restore_fp. keeps_auto.
Qed.

(** The context on the stack of [x], and the stack pointer in its TCB, when the
    exception is over. *)
Lemma switched_out c a x c1 : stands_for (sched_of c) a → current_task (sched_of c) = x → x ≠ NULL →
  is_Some (tcbs (sched_of c) !! x) → on_psp c = true → store_clear (context_ptr c) (psp c) c →
  pendsv_exception current_task_addr clobber c = Ret () c1 →
  saved_sp x c1 = Some (context_ptr c) ∧
  words_at (context_ptr c) (r4_r11 c ++ [exc_return c]) (ram (kst c1)) ∧
  words_at (context_ptr c + 36) (exception_frame c) (ram (kst c1)).
Proof using Hcl.
  intros Hs Hx Hx0 Hsome Hpsp Hst E1.
  destruct (pendsv_taken_ret c a x _ _ Hs Hx Hx0 Hsome Hpsp Hst) as (E & _ & _ & _ & Hram & Htcb).
  set (b := before_store c) in *. rewrite E in E1.
  apply bind_ret_inv in E1 as ([] & c' & Ec' & E1). pose proof (keeps_bx_lr _ _ _ E1) as Hm.
  rewrite (keeps_resume _ _ _ Ec') in Hm. apply pair_equal_spec in Hm as [Hr Ht].
  pose proof (exception_frame_length c) as Hlen. pose proof (frame_size_nonneg (exc_return c)) as H0.
  assert (∀ q, context_ptr c ≤ q < psp c → ram (kst c1) !! q = ram (kst b) !! q) as Hq.
  { intros q Hq. rewrite Hr. apply stored_ram. unfold store_clear in Hst. fold b in Hst.
    destruct Hst as [|[_ ?]]; [by left|right; lia]. }
  split; [|split].
  - unfold saved_sp. rewrite Ht, stored_tcbs, Htcb, lookup_alter_eq. by destruct Hsome as [? ->].
  - eapply words_at_ext; [|apply store_all_words]. rewrite length_app, length_vec_to_list. simpl.
    intros q ?. rewrite Hq by (unfold context_ptr in *; lia). by rewrite Hram.
  - eapply words_at_ext; [|apply (store_all_words _ _ (ram (kst c)))].
    intros q ?. rewrite Hq by (unfold context_ptr in *; lia). rewrite Hram.
    apply store_all_outside. rewrite length_app, length_vec_to_list. simpl. lia.
Qed.

(** C19: Context round trip: let PendSV switch the task [x] out, and let the
    other tasks run in any way that leaves alone the context saved on the stack
    of [x] and the stack pointer in its TCB.  When PendSV, taken in another task
    whose own context does not overlap, selects [x] again, then [x] continues
    at the instruction where it was interrupted with the stack pointer and all
    the core registers it had, and, if it had a floating-point context, with
    s0-s15 and FPSCR; s16-s31 are those of the other task.  [current_task] names
    [x] exactly if the C function left r3 alone.  The store through r3 is
    supposed to hit [current_task], or memory outside of the saved context. *)
Theorem context_round_trip c a x c1 c2 a2 z :
  stands_for (sched_of c) a → current_task (sched_of c) = x → x ≠ NULL →
  is_Some (tcbs (sched_of c) !! x) → on_psp c = true → store_clear (context_ptr c) (psp c) c →
  pendsv_exception current_task_addr clobber c = Ret () c1 →
  (∀ q, context_ptr c ≤ q < psp c → ram (kst c2) !! q = ram (kst c1) !! q) →
  saved_sp x c2 = saved_sp x c1 →
  stands_for (sched_of c2) a2 → current_task (sched_of c2) = z → z ≠ NULL → z ≠ x →
  is_Some (tcbs (sched_of c2) !! z) → on_psp c2 = true → top a2 = x →
  psp c2 ≤ context_ptr c ∨ psp c ≤ context_ptr c2 → store_clear (context_ptr c) (psp c) c2 →
  ∃ c3, pendsv_exception current_task_addr clobber c2 = Ret () c3 ∧ frame_loaded c c3 ∧
    r4_r11 c3 = r4_r11 c ∧ psp c3 = psp c ∧ on_psp c3 = true ∧ fp_context c3 = fp_context c ∧
    current_task (sched_of c3) = (if r3 (before_store c2) =? current_task_addr then x else z) ∧
    s16_s31 c3 = s16_s31 c2.
Proof using Hcl.
  intros Hs Hx Hx0 Hsome Hpsp Hst E1 Hsame Hsp Hs2 Hz Hz0 Hzx Hzs Hpsp2 Etop Hdj Hst2.
  destruct (switched_out c a x c1 Hs Hx Hx0 Hsome Hpsp Hst E1) as (Hsp1 & Hw1 & Hw2). rewrite Hsp1 in Hsp.
  destruct (pendsv_taken_ret c2 a2 z _ _ Hs2 Hz Hz0 Hzs Hpsp2 Hst2) as (E & Hr0 & Hfp & Hcur & Hram & Htcb).
  set (b := before_store c2) in *. rewrite Etop in Hr0.
  pose proof (exception_frame_length c) as Hlen. pose proof (exception_frame_length c2) as Hlen2.
  pose proof (frame_size_nonneg (exc_return c)) as H0. pose proof (frame_size_nonneg (exc_return c2)) as H02.
  assert (∀ q, context_ptr c ≤ q < psp c → ram (kst (stored b)) !! q = ram (kst c1) !! q) as Hq.
  { intros q Hq. rewrite stored_ram, Hram.
    - unfold context_ptr in *.
      rewrite !store_all_outside; [by apply Hsame|lia|rewrite length_app, length_vec_to_list; simpl; lia].
    - unfold store_clear in Hst2. fold b in Hst2. destruct Hst2 as [|[_ ?]]; [by left|right; lia]. }
  unfold saved_sp in Hsp. destruct (tcbs (sched_of c2) !! x) as [t|] eqn:Ht; [|done]. injection Hsp as Hsp.
  assert (tcbs (sched_of (stored b)) !! r0 (stored b) = Some t) as Ht'.
  { rewrite stored_tcbs. change (r0 (stored b)) with (r0 b). by rewrite Hr0, Htcb, lookup_alter_ne. }
  set (c' := stored b <| r1 := Task.sp t + 36 |> <| r4_r11 := r4_r11 c |> <| lr := exc_return c |>
    <| psp := Task.sp t + 36 |>
    <| kst := kst (stored b) <| k_sched := sched_of (stored b) <| cpu := cpu (sched_of (stored b)) <| primask := 0 |> |> |> |>).
  assert (PendSV_resume (stored b) = Ret () c') as Er.
  { apply PendSV_resume_ret; [by change (r0 (stored b)) with (r0 b); rewrite Hr0|done|].
    rewrite Hsp. eapply words_at_ext; [|exact Hw1]. rewrite length_app, length_vec_to_list. simpl.
    intros q ?. apply Hq. unfold context_ptr in *. lia. }
  rewrite E. run Er. unfold bx_lr. step. change (lr c') with (exc_return c). rewrite is_exc_return_exc.
  destruct (exception_return_ret c c') as (c3 & E3 & Hl & Hk & H4 & H16 & _ & _ & Hctl & Hp & _).
  { apply has_fp_exc. }
  { change (lr c') with (exc_return c). unfold frame_ptr. rewrite from_psp_exc, Hpsp.
    change (psp c') with (Task.sp t + 36). rewrite Hsp. eapply words_at_ext; [|exact Hw2].
    intros q ?. apply Hq. unfold context_ptr in *. lia. }
  exists c3. split; [done|]. change (lr c') with (exc_return c) in Hp, Hctl. rewrite from_psp_exc, Hpsp in Hp.
  split_and!; [done|done| | | | |].
  - rewrite Hp. change (psp c') with (Task.sp t + 36). rewrite Hsp. unfold context_ptr. lia.
  - unfold on_psp. by rewrite Hctl, thread_control_bits, from_psp_exc.
  - unfold fp_context at 1. by rewrite Hctl, thread_control_bits, has_fp_exc.
  - rewrite Hk. change (current_task (sched_of (stored b)) = if r3 b =? current_task_addr then x else z).
    by rewrite stored_current, Hr0, Hcur.
  - rewrite H16. exact Hfp.
Qed.
End handler.

(** ** The first run of a task *)

(** C20: The stack [task_init_stack] prepares is what PendSV and the exception
    return take apart: the first time a task is switched in it runs its entry
    function, in Thumb state, with its argument in r0, the exit routine as
    return address and an empty stack. *)
Theorem task_first_run stack_top entry arg exit_func k p k1 c x t :
  task_init_stack stack_top entry arg exit_func k = Ret p k1 →
  (∀ q, p ≤ q < stack_top → ram (kst c) !! q = ram k1 !! q) →
  r0 c = x → tcbs (sched_of c) !! x = Some t → Task.sp t = p →
  ∃ c', (restore_context ;; set_primask_to 0 ;; bx_lr) c = Ret () c' ∧
    pc c' = entry ∧ r0 c' = arg ∧ lr c' = exit_func ∧ psp c' = stack_top ∧ xpsr c' = 0x01000000.
Proof.
  intros Ei Hram Hx Ht Hp. destruct (init_stack_ret stack_top entry arg exit_func k) as (m & E & Hw & _).
  rewrite Ei in E. injection E as Ep Ek. subst k1. simpl in Hram. rewrite Ep in *.
  apply (words_at_ext _ _ m (ram (kst c))) in Hw; [|intros q Hq; apply Hram; simpl in Hq; lia].
  change (init_frame entry arg exit_func) with
    (([0; 0; 0; 0; 0; 0; 0; 0] ++ [EXC_RETURN_THREAD_PSP]) ++
     [arg; 0; 0; 0; 0; exit_func; entry; 0x01000000]) in Hw.
  apply words_at_app in Hw as [Hw1 Hw2]. change (Z.of_nat (length _)) with 9 in Hw2.
  rewrite <- Hx in Ht. rewrite <- Hp in Hw1.
  run (restore_context_ret c t _ (vreplicate 8 0) Ht Hw1). run (set_primask_ret 0
    (c <| r1 := Task.sp t + 36 |> <| r4_r11 := vreplicate 8 0 |> <| lr := EXC_RETURN_THREAD_PSP |>
       <| psp := Task.sp t + 36 |>)).
  set (c' := c <| r1 := _ |> <| r4_r11 := _ |> <| lr := _ |> <| psp := _ |> <| kst := _ |>).
  set (c0 := c <| r0 := arg |> <| r1 := 0 |> <| r2 := 0 |> <| r3 := 0 |> <| r12 := 0 |> <| lr := exit_func |>
    <| pc := entry |> <| xpsr := 0x01000000 |> <| control := 0 |>).
  destruct (exception_return_ret c0 c' eq_refl) as (c1 & E & Hl & _ & _ & _ & _ & _ & _ & Hpsp & _).
  { change (words_at (Task.sp t + 36) [arg; 0; 0; 0; 0; exit_func; entry; 0x01000000] (ram (kst c))).
    rewrite Hp. replace (stack_top - 68 + 36) with (stack_top - 68 + 4 * 9) by lia. exact Hw2. }
  exists c1. split; [exact E|]. destruct Hl as (H0 & _ & _ & _ & _ & Hlr & Hpc & Hx' & _).
  split_and!; [done..| |done]. rewrite Hpsp. change (psp c') with (Task.sp t + 36).
  change (frame_size (lr c')) with 32. simpl. lia.
Qed.

(** The first task is called, not switched to: [kernel_start] makes a most
    urgent task current and jumps to its entry function in thread mode, on the
    process stack at the top of the task's stack, with the task's argument in
    r0 and a return address in [scheduler_start]. *)
Theorem first_task_called pool stacks idle ra c : kernel_ok pool stacks idle (kst c) →
  g_kernel_state (kst c) = KERNEL_STATE_INIT →
  ∃ c' t, start_first_task ra c = Ret () c' ∧ tcb_at (kst c) (running (kst c')) = Some t ∧
    (∀ x u, tcb_at (kst c) x = Some u → runnable (state u) = true → priority t ≤ priority u) ∧
    pc c' = entry t ∧ r0 c' = arg t ∧ lr c' = ra ∧ psp c' = stack_top t ∧
    Z.testbit (control c') 1 = true ∧ r4_r11 c' = r4_r11 c ∧ kernel_ok pool stacks idle (kst c').
Proof.
  intros Hk Hst. destruct (ok_sched _ _ _ _ Hk) as [a Hs].
  destruct (start_ret _ _ _ (kst c) a Hk Hs Hst) as (s' & t & E & Hs' & Ht & Hk').
  destruct (top_task _ _ _ (kst c) a Hk Hs) as (t' & Ht' & _ & _ & Hmin). assert (t' = t) as -> by congruence.
  assert (a_tasks (eff_start a) !! top a = Some (first_run (unlink t))) as Ha.
  { unfold eff_start. simpl. by rewrite lookup_alter_eq, (same_task _ _ _ _ Hs Ht). }
  destruct (same_task_inv _ _ _ _ Hs' Ha) as (u & Hu & Eu).
  pose proof (stands_for_current _ _ Hs') as Hcur. change (a_current_task (eff_start a)) with (top a) in Hcur.
  assert (Task.sp u = stack_top t) as Hsp.
  { change (Task.sp u) with (Task.sp (unlink u)). by rewrite <- Eu. }
  eexists _, t. split_and!.
  - unfold start_first_task. erewrite bind_ret by (unfold zoom; simpl; by rewrite E). cbv beta iota.
    unfold use_process_stack. erewrite bind_ret; [reflexivity|].
    erewrite bind_ret by reflexivity. simpl. rewrite Hcur.
    erewrite bind_ret by (unfold zoom, deref; simpl; by rewrite Hu). reflexivity.
  - simpl. unfold running. simpl. by rewrite Hcur.
  - done.
  - done.
  - done.
  - done.
  - done.
  - simpl. rewrite Z.lor_spec. apply orb_true_r.
  - done.
  - exact Hk'.
Qed.

(** ** System calls *)

(** The handler up to the call of the dispatcher: [c0] holds the registers of
    the caller as they are on its stack. *)
Definition pushed (c : core) : core :=
  c <| main_stack := frame_ptr (lr c) c :: lr c :: main_stack c |> <| msp := msp c - 8 |>.

Lemma svc_loads dispatch code c0 c :
  words_at (frame_ptr (lr c) c) (exception_frame c0) (ram (kst c)) →
  SVC_Handler dispatch code c =
  (r ← zoom (dispatch (code (pc c0 - 2)) (r0 c0) (r1 c0) (r2 c0));
   '(frame, l) ← pop_main;
   zoom (store_word frame r) ;; modify (set_field lr l) ;; bx_lr) (pushed c).
Proof.
  intros [Hw _]%words_at_app. unfold SVC_Handler. step. erewrite bind_ret by reflexivity.
  assert (∀ i v, hw_stack_frame c0 !! i = Some v → load_word (frame_ptr (lr c) c + 4 * Z.of_nat i) c = Ret v c) as Hl.
  { intros i v E. by apply load_word_ret, (words_at_lookup _ _ _ _ _ Hw). }
  pose proof (Hl 0%nat _ eq_refl) as H0. rewrite Z.add_0_r in H0.
  run (Hl 6%nat _ eq_refl : load_word (frame_ptr (lr c) c + 24) c = _). cbv zeta. run H0.
  run (Hl 1%nat _ eq_refl : load_word (frame_ptr (lr c) c + 4) c = _).
  run (Hl 2%nat _ eq_refl : load_word (frame_ptr (lr c) c + 8) c = _). by step.
Qed.

(** A dispatcher that does not return. *)
Lemma svc_dispatch_spin dispatch code c0 c k' :
  words_at (frame_ptr (lr c) c) (exception_frame c0) (ram (kst c)) →
  dispatch (code (pc c0 - 2)) (r0 c0) (r1 c0) (r2 c0) (kst c) = Spin k' →
  SVC_Handler dispatch code c = Spin (pushed c <| kst := k' |>).
Proof.
  intros Hw Hd. rewrite (svc_loads dispatch code c0 c Hw). apply bind_spin. unfold zoom. simpl. by rewrite Hd.
Qed.

(** The SVC handler, entered from [c0]: it passes the caller's r0-r2 and the
    immediate of the SVC instruction to the dispatcher, and the caller continues
    behind its SVC instruction with the dispatcher's result in r0 and all its
    other registers, CONTROL and both stack pointers as they were. *)
Lemma svc_ret dispatch code c0 r k' (c := entered SVCALL c0) :
  dispatch (code (pc c0 - 2)) (r0 c0) (r1 c0) (r2 c0) (kst c) = Ret r k' →
  (∀ q, frame_ptr (lr c) c ≤ q → ram k' !! q = ram (kst c) !! q) →
  ∃ c', SVC_Handler dispatch code c = Ret () c' ∧ frame_loaded (c0 <| r0 := r |>) c' ∧
    r4_r11 c' = r4_r11 c0 ∧ s0_s15 c' = s0_s15 c0 ∧ fpscr c' = fpscr c0 ∧ s16_s31 c' = s16_s31 c0 ∧
    psp c' = psp c0 ∧ msp c' = msp c0 ∧ control c' = control c0 ∧ main_stack c' = main_stack c0 ∧
    k_sched (kst c') = k_sched (with_ipsr 0 k').
Proof.
  intros Hd Hram. destruct (entered_frame SVCALL c0) as [Ep Hw]. fold c in Ep, Hw. set (p := frame_ptr (lr c) c) in *.
  destruct (entered_keeps SVCALL c0) as (_ & E4 & E015 & Efp & E16 & Ems). fold c in E4, E015, Efp, E16, Ems.
  rewrite (svc_loads dispatch code c0 c Hw). erewrite bind_ret by (apply zoom_ret; exact Hd).
  set (c1 := pushed c <| kst := k' |>).
  assert (pop_main c1 = Ret (p, lr c) (c1 <| main_stack := main_stack c |> <| msp := msp c - 8 + 8 |>)) as Epop by done.
  erewrite bind_ret by exact Epop. cbv beta iota. erewrite bind_ret by reflexivity. step.
  match goal with |- context [bx_lr ?x] => set (c2 := x) end.
  assert (frame_ptr (lr c2) c2 = p) as Ep2.
  { change (lr c2) with (lr c). unfold p, frame_ptr. change (psp c2) with (psp c).
    change (msp c2) with (msp c - 8 + 8). case_match; lia. }
  assert (words_at p (exception_frame (c0 <| r0 := r |>)) (<[p := r]> (ram k'))) as Hw2.
  { change (exception_frame (c0 <| r0 := r |>)) with (r :: tail (exception_frame c0)).
    change (exception_frame c0) with (r0 c0 :: tail (exception_frame c0)) in Hw. destruct Hw as [_ Hw].
    split; [apply lookup_insert_eq|]. eapply words_at_ext; [|exact Hw].
    intros q Hq. rewrite lookup_insert_ne by lia. apply Hram. lia. }
  unfold bx_lr. step. change (lr c2) with (exc_return c0). rewrite is_exc_return_exc.
  destruct (exception_return_ret (c0 <| r0 := r |>) c2) as
    (c3 & E & Hl & Hk & H4 & H16 & Hms & Hnofp & Hctl & Hpsp & Hmsp).
  { exact (has_fp_exc c0). }
  { rewrite Ep2. exact Hw2. }
  exists c3. split; [exact E|]. split; [exact Hl|]. change (lr c2) with (exc_return c0) in Hctl, Hpsp, Hmsp.
  change (control c2) with (Z.ldiff (control c0) 6) in Hctl. rewrite thread_control_return in Hctl.
  assert (psp c = (if from_psp (exc_return c0) then psp c0 - frame_size (exc_return c0) else psp c0) ∧
    msp c = (if from_psp (exc_return c0) then msp c0 else msp c0 - frame_size (exc_return c0))) as [Hp1 Hp2].
  { unfold c, entered, set_frame_ptr, frame_ptr. by destruct (from_psp _). }
  change (psp c2) with (psp c) in Hpsp. change (msp c2) with (msp c - 8 + 8) in Hmsp.
  destruct (fp_context c0) eqn:Hfp.
  - destruct Hl as (_ & _ & _ & _ & _ & _ & _ & _ & Hl). destruct (Hl Hfp) as [-> ->].
    rewrite H4, H16, Hms, Hctl, Hpsp, Hmsp, Hp1, Hp2, Hk. split_and!; try done; case_match; lia.
  - destruct (Hnofp Hfp) as [-> ->].
    rewrite H4, H16, Hms, Hctl, Hpsp, Hmsp, Hp1, Hp2, Hk. split_and!; try done; case_match; lia.
Qed.

(** ** The theorems on an example

    [HIGH] runs, its peer [LOW] is ready, and both have yielded once. *)

Definition CURRENT_TASK_ADDR : ptr := 0x20001000.
Definition TOP_HIGH : Z := 0x20008000.
Definition TOP_LOW : Z := 0x20009000.

(** The called function destroys r1, r2, r12, lr and s0-s15, and keeps r3. *)
Definition example_clobber (c : core) : core :=
  c <| r1 := 7 |> <| r2 := 8 |> <| r12 := 9 |> <| lr := 0x60001235 |> <| s0_s15 := vreplicate 16 10 |>.

Lemma example_clobber_ok : callee_ok example_clobber.
Proof. by split. Qed.

Definition example_sp (x sp : Z) : M sched () := upd x (set_field Task.sp sp).

Definition example_kernel_of (s : sched) (m : gmap Z Z) : kernel :=
  mkKernel s KERNEL_STATE_RUNNING (replicate 16 0) (replicate 16 0) 4 m 0 0 0 0 600000000.

(** [HIGH] is about to be switched out, [LOW] has been behind it; both use the
    floating-point unit. *)
Definition example_out : sched :=
  final (example_sp LOW (TOP_LOW - 68) ;; scheduler_yield) example_peers.
Definition example_core (s : sched) (m : gmap Z Z) (p : Z) : core :=
  mkCore (example_kernel_of s m) 1 2 3 4 5 [# 14; 15; 16; 17; 18; 19; 20; 21] 0x60000421 0x60002000 0x01000000
    p 0x20080000 6 (vreplicate 16 50) (vreplicate 16 60) 0 [].

Lemma example_core_ram s m p x l l' : ram (kst (example_core s m p <| r0 := x |>)) = m ∧
  ram (kst (example_core s m p <| r4_r11 := l |> <| s16_s31 := l' |>)) = m.
Proof. split; reflexivity. Qed.

(** A word of memory between the stacks. *)
Definition STRAY : Z := 0x20008800.
Definition example_ram : gmap Z Z :=
  <[STRAY := 0]> (store_all (TOP_LOW - 68) (init_frame 0x60003001 42 0x60004001) ∅).
Definition example_c : core := example_core example_out example_ram TOP_HIGH.

Definition example_out_abs : asched :=
  abstraction (ready_lists [(1%nat, [LOW; HIGH]); (31%nat, [IDLE])]) [] example_out.

Lemma example_out_stands : stands_for example_out example_out_abs.
Proof.
  split; [apply abstracts_checked, (bool_decide_unpack _); vm_compute; exact I|].
  apply wf_checked, (bool_decide_unpack _). vm_compute. exact I.
Qed.

Lemma PendSV_switches_witness : ∃ c' a', (PendSV_select CURRENT_TASK_ADDR example_clobber ;;
    store_through_r3 CURRENT_TASK_ADDR ;; PendSV_resume) example_c = Ret () c' ∧
  stands_for (sched_of c') a' ∧ r4_r11 c' = vreplicate 8 0 ∧ lr c' = EXC_RETURN_THREAD_PSP.
Proof.
  destruct (PendSV_switches CURRENT_TASK_ADDR example_clobber example_clobber_ok example_c example_out_abs HIGH
    (vreplicate 8 0) EXC_RETURN_THREAD_PSP) as (c' & a' & E & Hs & _ & _ & _ & _ & Hr & Hl & _).
  - apply example_out_stands.
  - vm_compute. reflexivity.
  - vm_compute. discriminate.
  - vm_compute. eexists. reflexivity.
  - vm_compute. discriminate.
  - vm_compute. reflexivity.
  - vm_compute. repeat split; reflexivity.
  - exists c', a'. split; [exact E|]. split; [exact Hs|]. split; [exact Hr|exact Hl].
Defined.

(** [HIGH] is switched out, [LOW] runs, changes its registers and yields. *)
Definition example_c1 : core :=
  final (pendsv_exception CURRENT_TASK_ADDR example_clobber) example_c.
Definition example_back : sched := final scheduler_yield (k_sched (kst example_c1)).
Definition example_c2 : core :=
  example_core example_back (ram (kst example_c1)) TOP_LOW <| r4_r11 := vreplicate 8 1 |>
    <| s16_s31 := vreplicate 16 61 |>.
Definition example_back_abs : asched :=
  abstraction (ready_lists [(1%nat, [HIGH; LOW]); (31%nat, [IDLE])]) [] example_back.

Lemma example_back_stands : stands_for example_back example_back_abs.
Proof.
  split; [apply abstracts_checked, (bool_decide_unpack _); vm_compute; exact I|].
  apply wf_checked, (bool_decide_unpack _). vm_compute. exact I.
Qed.

Lemma context_round_trip_witness : ∃ c3, pendsv_exception CURRENT_TASK_ADDR example_clobber example_c2 = Ret () c3 ∧
  current_task (sched_of c3) = HIGH ∧ r4_r11 c3 = [# 14; 15; 16; 17; 18; 19; 20; 21] ∧
  pc c3 = 0x60002000 ∧ psp c3 = TOP_HIGH ∧ s0_s15 c3 = vreplicate 16 50.
Proof.
  destruct (context_round_trip CURRENT_TASK_ADDR example_clobber example_clobber_ok example_c example_out_abs HIGH
    example_c1 example_c2 example_back_abs LOW) as (c3 & E & Hl & H4 & Hp & _ & _ & Hc & _).
  - apply example_out_stands.
  - vm_compute. reflexivity.
  - vm_compute. discriminate.
  - vm_compute. eexists. reflexivity.
  - reflexivity.
  - left. vm_compute. reflexivity.
  - vm_compute. reflexivity.
  - intros q _. unfold example_c2. rewrite (proj2 (example_core_ram _ _ _ 0 _ _)). reflexivity.
  - vm_compute. reflexivity.
  - apply example_back_stands.
  - vm_compute. reflexivity.
  - vm_compute. discriminate.
  - vm_compute. discriminate.
  - vm_compute. eexists. reflexivity.
  - reflexivity.
  - vm_compute. reflexivity.
  - right. vm_compute. discriminate.
  - left. vm_compute. reflexivity.
  - destruct Hl as (_ & _ & _ & _ & _ & _ & Hpc & _ & Hf). exists c3. split; [exact E|].
    split; [rewrite Hc; vm_compute; reflexivity|]. split; [exact H4|]. split; [exact Hpc|].
    split; [exact Hp|exact (proj1 (Hf eq_refl))].
Defined.

(** The handler counts on r3, which the procedure call standard lets the called
    function destroy: if it does, the task pointer goes to a wrong address and
    [current_task] still names the task that was switched out. *)
Example PendSV_needs_r3 :
  (let c1 := final (pendsv_exception CURRENT_TASK_ADDR (λ c, example_clobber c <| r3 := STRAY |>)) example_c in
   current_task (sched_of c1) = HIGH ∧ ram (kst c1) !! STRAY = Some LOW) ∧
  current_task (sched_of example_c1) = LOW.
Proof. vm_compute. by repeat split. Qed.

(** The program is built for hard floating point ([Makefile]), where s16-s31
    are callee-saved, but PendSV does not save them: [HIGH] comes back with
    those of [LOW]. *)
Example PendSV_mixes_fp :
  let c3 := final (pendsv_exception CURRENT_TASK_ADDR example_clobber) example_c2 in
  current_task (sched_of c3) = HIGH ∧ s16_s31 example_c = vreplicate 16 60 ∧ s16_s31 c3 = vreplicate 16 61.
Proof. vm_compute. by repeat split. Qed.

Definition example_fresh : kernel := example_kernel_of example_out ∅.

Definition example_init : kernel := final (task_init_stack TOP_LOW 0x60003001 42 0x60004001) example_fresh.
Definition example_incoming : core := example_core example_out (ram example_init) 0 <| r0 := LOW |>.

Lemma task_first_run_witness : ∃ c', (restore_context ;; set_primask_to 0 ;; bx_lr) example_incoming = Ret () c' ∧
  pc c' = 0x60003001 ∧ r0 c' = 42 ∧ lr c' = 0x60004001 ∧ psp c' = TOP_LOW ∧ xpsr c' = 0x01000000.
Proof.
  apply (task_first_run TOP_LOW 0x60003001 42 0x60004001 example_fresh (TOP_LOW - 68)
    example_init example_incoming LOW (tcb_of example_out LOW)).
  - vm_compute. reflexivity.
  - intros q _. unfold example_incoming. rewrite (proj1 (example_core_ram _ _ _ _ (vreplicate 8 0) (vreplicate 16 0))). reflexivity.
  - reflexivity.
  - vm_compute. reflexivity.
  - vm_compute. reflexivity.
Defined.

(** The core at reset, but for the kernel. *)
Definition example_reset (k : kernel) : core :=
  mkCore k 0 0 0 0 0 (vreplicate 8 0) 0 0 0 0 0x20080000 0 (vreplicate 16 0) (vreplicate 16 0) 0 [].

Lemma first_task_called_witness : ∃ c c', start_first_task 0x60001001 c = Ret () c' ∧ lr c' = 0x60001001 ∧
  Z.testbit (control c') 1 = true.
Proof.
  destruct example_booted as (k & _ & Hk & Hst).
  destruct (first_task_called EX_POOL EX_STACKS EX_IDLE 0x60001001 (example_reset k) Hk Hst)
    as (c' & t & E & _ & _ & _ & _ & Hl & _ & Hc & _).
  exists (example_reset k), c'. split; [exact E|]. split; [exact Hl|exact Hc].
Defined.
