(* ===== verification/Syscall.v ===== *)
(** * System calls from user code

    The wrappers of [src/syscall.c] on the register file: they put their
    argument in r0, execute an SVC instruction and find the result in r0.  The
    dispatcher runs in handler mode, where PendSV does not preempt it: a call
    that blocks returns first and loses the processor when the exception
    returns, and a call that waits for a switch in handler mode waits for
    ever. *)
From S2P Require Import Prelude Config Task Critical Bitmap TcbList Scheduler SchedSpec.
From S2P Require Import SchedRefine SchedInv SchedEffect SchedIface Sync Checker Example.
From S2P Require Import SchedProps Kernel Context KernelProps ContextProps.

Section wrappers.
Context (dispatch : Z → Z → Z → Z → M kernel Z) (code : Z → Z).

(** The SVC instruction at [addr], two bytes long; [code addr] is its
    immediate. *)
Definition svc (addr : Z) : M core () :=
  modify (set_field pc (addr + 2)) ;;
  exception_entry SVCALL ;;
  SVC_Handler dispatch code.

Definition syscall_task_yield (addr : Z) : M core Z := svc addr ;; gets r0.
Definition syscall_task_delay (addr ticks : Z) : M core Z := modify (set_field r0 ticks) ;; svc addr ;; gets r0.
Definition syscall_task_suspend (addr : Z) (tcb : ptr) : M core Z := modify (set_field r0 tcb) ;; svc addr ;; gets r0.
Definition syscall_task_resume (addr : Z) (tcb : ptr) : M core Z := modify (set_field r0 tcb) ;; svc addr ;; gets r0.

(** Everything a system call leaves as it was: all registers but r0 and pc, both
    stack pointers and CONTROL. *)
Definition same_registers (c c' : core) : Prop :=
  r1 c' = r1 c ∧ r2 c' = r2 c ∧ r3 c' = r3 c ∧ r12 c' = r12 c ∧ r4_r11 c' = r4_r11 c ∧
  lr c' = lr c ∧ xpsr c' = xpsr c ∧ psp c' = psp c ∧ msp c' = msp c ∧ control c' = control c ∧
  s0_s15 c' = s0_s15 c ∧ s16_s31 c' = s16_s31 c ∧ fpscr c' = fpscr c ∧ main_stack c' = main_stack c.

(** The caller as the processor stacks it, and the kernel as the handler sees
    it: in handler mode, with the caller's frame in memory. *)
Definition at_svc (addr : Z) (c : core) : core := c <| pc := addr + 2 |>.
Definition handler_kernel (addr : Z) (c : core) : kernel := kst (entered SVCALL (at_svc addr c)).

Lemma svc_entered addr c : svc addr c = SVC_Handler dispatch code (entered SVCALL (at_svc addr c)).
Proof using Type. unfold svc. step. erewrite bind_ret by apply exception_entry_ret. done. Qed.

Lemma svc_call_ret addr c r k' :
  dispatch (code addr) (r0 c) (r1 c) (r2 c) (handler_kernel addr c) = Ret r k' →
  ram k' = ram (handler_kernel addr c) →
  ∃ c', svc addr c = Ret () c' ∧ r0 c' = r ∧ pc c' = addr + 2 ∧ same_registers c c' ∧
    k_sched (kst c') = k_sched (with_ipsr 0 k').
Proof using Type.
  intros Hd Hram. rewrite svc_entered.
  destruct (svc_ret dispatch code (at_svc addr c) r k') as (c' & E & Hl & H4 & H015 & Hf & H16 & Hp & Hm & Hc & Hs & Hk).
  { change (pc (at_svc addr c) - 2) with (addr + 2 - 2). replace (addr + 2 - 2) with addr by lia. exact Hd. }
  { intros q _. unfold handler_kernel in Hram. by rewrite Hram. }
  destruct Hl as (H0 & H1 & H2 & H3 & H12 & Hlr & Hpc & Hx & _).
  exists c'. unfold same_registers. split_and!; done.
Qed.

(** A call the dispatcher does not return from. *)
Lemma svc_spin addr c k' : dispatch (code addr) (r0 c) (r1 c) (r2 c) (handler_kernel addr c) = Spin k' →
  ∃ c', svc addr c = Spin c' ∧ kst c' = k'.
Proof using Type.
  intros Hd. rewrite svc_entered. exists (pushed (entered SVCALL (at_svc addr c)) <| kst := k' |>). split; [|done].
  apply (svc_dispatch_spin dispatch code (at_svc addr c)); [apply entered_frame|].
  change (pc (at_svc addr c) - 2) with (addr + 2 - 2). replace (addr + 2 - 2) with addr by lia. exact Hd.
Qed.
End wrappers.

(** ** Blocking in handler mode *)

Section handler_mode.
Context (switch : M kernel ()).

Lemma switch_point_handler k a : stands_for (k_sched k) a → ipsr (a_cpu a) ≠ 0 →
  switch_point switch k = Ret () k.
Proof using Type.
  intros Hs Hi. unfold switch_point. erewrite bind_ret by (apply (zoom_ret_same (S := sched)); reflexivity).
  change (view k) with (k_sched k). unfold pendsv_taken.
  by rewrite (abs_cpu _ _ (proj1 Hs)), (bool_decide_false (ipsr _ = 0)), andb_false_r by done.
Qed.

Lemma eff_block_ipsr reason object timeout a : ipsr (a_cpu (eff_block reason object timeout a)) = ipsr (a_cpu a).
Proof using Type. done. Qed.

Lemma eff_yield_ipsr a : ipsr (a_cpu (eff_yield a)) = ipsr (a_cpu a).
Proof using Type. unfold eff_yield. destruct (_ =? _); [done|]. by destruct (0 <? _). Qed.

Lemma delay_in_handler n k a : stands_for (k_sched k) a → can_leave (a_current_task a) a →
  ipsr (a_cpu a) ≠ 0 → n ≠ 0 →
  ∃ s', task_delay switch n k = Ret () (k <| k_sched := s' |>) ∧
    stands_for s' (eff_yield (eff_block BLOCK_DELAY NULL n a)).
Proof using Type.
  intros Hs (t & Ht & Hb) Hi Hn. unfold task_delay. rewrite (proj2 (Z.eqb_neq n 0)) by done.
  destruct (refined _ _ _ _ _ _ (refines_block_task_enter BLOCK_DELAY NULL n) Hs
    (block_eff BLOCK_DELAY NULL n a t (proj2 Hs) Ht Hb)) as (s1 & E1 & Hs1).
  set (k1 := k <| k_sched := s1 |>). change (stands_for (k_sched k1) (eff_block BLOCK_DELAY NULL n a)) in Hs1.
  destruct (yield_ret k1 _ Hs1) as (s2 & E2 & Hs2).
  set (k2 := k1 <| k_sched := s2 |>) in *. exists s2. split; [|done].
  change (stands_for (k_sched k2) (eff_yield (eff_block BLOCK_DELAY NULL n a))) in Hs2.
  unfold scheduler_block_task. rewrite bind_assoc. rewrite (bind_ret _ _ _ _ _ (zoom_sched _ k _ _ E1)). fold k1.
  rewrite bind_assoc. rewrite (bind_ret _ _ _ _ _ (switch_point_handler k1 _ Hs1 Hi)).
  rewrite bind_assoc. rewrite (bind_ret _ _ _ _ _ E2). fold k2.
  rewrite bind_assoc. erewrite bind_ret by (eapply switch_point_handler; [exact Hs2|by rewrite eff_yield_ipsr]).
  assert (a_tasks (eff_yield (eff_block BLOCK_DELAY NULL n a)) !! a_current_task a =
    Some (waiting (a_tick a) BLOCK_DELAY NULL n t)) as Ha.
  { rewrite (proj1 (eff_yield_tasks _)). simpl. by rewrite lookup_alter_eq, Ht. }
  destruct (same_task_inv _ _ _ _ Hs2 Ha) as (u & Hu & _).
  assert (get_block_result (a_current_task a) s2 = Ret (block_result u) s2) as Er.
  { unfold get_block_result. erewrite bind_ret; [done|]. unfold deref. change s2 with (k_sched k2). by rewrite Hu. }
  by run (zoom_ret_same (W := kernel) _ k2 _ Er).
Qed.
End handler_mode.

(** ** The wrappers with the kernel's dispatcher *)

(** A request made in a handler is served when it returns to thread mode. *)
Lemma pending_served s a : stands_for s a → pendsv_pending (a_cpu a) = true → primask (a_cpu a) = 0 →
  pendsv_taken (cpu s <| ipsr := 0 |>) = true.
Proof.
  intros Hs Hp Hm. unfold pendsv_taken. rewrite (abs_cpu _ _ (proj1 Hs)). simpl.
  change (pendsv_pending (a_cpu a <| ipsr := 0 |>)) with (pendsv_pending (a_cpu a)).
  by rewrite Hp, Hm.
Qed.

Lemma yield_pending a : pendsv_pending (a_cpu a) = true → pendsv_pending (a_cpu (eff_yield a)) = true.
Proof.
  intros Hp. unfold eff_yield. destruct (_ =? _); [done|]. destruct (0 <? _); [done|]. apply trigger_switch_pends.
Qed.

Lemma yield_primask a : primask (a_cpu (eff_yield a)) = primask (a_cpu a).
Proof. unfold eff_yield. destruct (_ =? _); [done|]. by destruct (0 <? _). Qed.

Section calls.
Context (g_task_pool g_stack_pool : Z → ptr) (task_exit_trampoline_addr : ptr) (rodata : Z → Z)
  (stale_name : ptr → list Z) (switch : M kernel ()) (code : Z → Z).

Definition kernel_dispatch : Z → Z → Z → Z → M kernel Z :=
  svc_dispatch g_task_pool g_stack_pool task_exit_trampoline_addr rodata stale_name switch.

(** C36: The delay system call: the caller gets [KERNEL_OK] in r0 and keeps all its
    other registers; when the exception returns it is blocked until its tick,
    off the ready list, and PendSV takes the processor away before its next
    instruction. *)
Theorem syscall_task_delay_blocks addr ticks c a t : stands_for (sched_of c) a → code addr = SVC_TASK_DELAY →
  ticks ≠ 0 → primask (a_cpu a) = 0 →
  tcbs (sched_of c) !! current_task (sched_of c) = Some t → state t ≠ TASK_STATE_BLOCKED →
  ∃ c' t', syscall_task_delay kernel_dispatch code addr ticks c = Ret KERNEL_OK c' ∧
    same_registers c c' ∧ pc c' = addr + 2 ∧
    tcbs (sched_of c') !! current_task (sched_of c) = Some t' ∧ state t' = TASK_STATE_BLOCKED ∧
    block_reason t' = BLOCK_DELAY ∧ wake_tick t' = block_wake_tick (g_tick_count (sched_of c)) ticks ∧
    pendsv_taken (cpu (sched_of c')) = true.
Proof using Type.
  intros Hs Hcode Hn Hm Ht Hb. pose proof (same_task _ _ _ _ Hs Ht) as Ha.
  rewrite (stands_for_current _ _ Hs) in *.
  set (c0 := c <| r0 := ticks |>). set (a1 := a <| a_cpu := a_cpu a <| ipsr := SVCALL |> |>).
  assert (stands_for (k_sched (handler_kernel addr c0)) a1) as Hs1 by (apply stands_for_ipsr; [done|unfold SVCALL; lia]).
  assert (can_leave (a_current_task a1) a1) as Hl by (by exists (unlink t)).
  destruct (delay_in_handler switch ticks _ a1 Hs1 Hl ltac:(done) Hn) as (s2 & E2 & Hs2).
  destruct (svc_call_ret kernel_dispatch code addr c0 KERNEL_OK (handler_kernel addr c0 <| k_sched := s2 |>))
    as (c' & E & H0 & Hpc & Hsame & Hk); [|done|].
  { unfold kernel_dispatch, svc_dispatch. rewrite Hcode. cbn [SVC_TASK_DELAY SVC_TASK_YIELD Z.eqb].
    simpl. by run E2. }
  assert (a_tasks (eff_yield (eff_block BLOCK_DELAY NULL ticks a1)) !! a_current_task a =
    Some (waiting (a_tick a) BLOCK_DELAY NULL ticks (unlink t))) as Hb2.
  { rewrite (proj1 (eff_yield_tasks _)). simpl. by rewrite lookup_alter_eq, Ha. }
  destruct (same_task_inv _ _ _ _ Hs2 Hb2) as (u & Hu & Eu).
  assert (∀ {B} (f : task_tcb → B), (∀ v, f (unlink v) = f v) →
    f u = f (waiting (a_tick a) BLOCK_DELAY NULL ticks (unlink t))) as Hf.
  { intros B f Hf. by rewrite <- Hf, <- Eu. }
  exists c', u. rewrite Hk. split_and!; [|done|done|exact Hu|by rewrite Hf|by rewrite Hf| |].
  - unfold syscall_task_delay. step. run E. unfold gets. by rewrite H0.
  - rewrite Hf by done. by rewrite (abs_tick _ _ (proj1 Hs)).
  - apply (pending_served s2 (eff_yield (eff_block BLOCK_DELAY NULL ticks a1))); [done| |].
    + apply yield_pending. apply trigger_switch_pends.
    + by rewrite yield_primask.
Qed.

(** A task cannot delete itself by a system call: [svc_dispatch] never returns
    and the processor stays in handler mode, where the switch [task_delete]
    waits for is not taken; no task runs again. *)
Theorem svc_delete_self_hangs addr c a t : stands_for (sched_of c) a → code addr = SVC_TASK_DELETE →
  r0 c = NULL → tcbs (sched_of c) !! current_task (sched_of c) = Some t → state t ≠ TASK_STATE_BLOCKED →
  ∃ c' t', svc kernel_dispatch code addr c = Spin c' ∧ ipsr (cpu (sched_of c')) = SVCALL ∧
    pendsv_taken (cpu (sched_of c')) = false ∧
    tcbs (sched_of c') !! current_task (sched_of c) = Some t' ∧ state t' = TASK_STATE_DELETED ∧
    current_task (sched_of c') = current_task (sched_of c).
Proof using Type.
  intros Hs Hcode Hr Ht Hb. pose proof (same_task _ _ _ _ Hs Ht) as Ha.
  rewrite (stands_for_current _ _ Hs) in *.
  set (a1 := a <| a_cpu := a_cpu a <| ipsr := SVCALL |> |>).
  assert (stands_for (k_sched (handler_kernel addr c)) a1) as Hs1 by (apply stands_for_ipsr; [done|unfold SVCALL; lia]).
  assert (can_leave (target NULL a1) a1) as Hl by (by exists (unlink t)).
  destruct (task_delete_ret NULL _ a1 Hs1 Hl) as (s2 & Hs2 & E2).
  change (target NULL a1) with (a_current_task a1) in E2, Hs2. rewrite Z.eqb_refl in E2.
  set (k2 := handler_kernel addr c <| k_sched := s2 |>) in *.
  assert (kernel_dispatch (code addr) (r0 c) (r1 c) (r2 c) (handler_kernel addr c) = Spin k2) as Ed.
  { unfold kernel_dispatch, svc_dispatch. rewrite Hcode, Hr. exact E2. }
  unfold eff_leave in Hs2. rewrite Z.eqb_refl in Hs2.
  assert (a_tasks (eff_yield (eff_retire (a_current_task a1) TASK_STATE_DELETED a1)) !! a_current_task a =
    Some (set_field state TASK_STATE_DELETED (unlink t))) as Hb2.
  { rewrite (proj1 (eff_yield_tasks _)). simpl. by rewrite lookup_alter_eq, Ha. }
  destruct (same_task_inv _ _ _ _ Hs2 Hb2) as (u & Hu & Eu).
  assert (ipsr (cpu s2) = SVCALL) as Hi.
  { rewrite (abs_cpu _ _ (proj1 Hs2)), eff_yield_ipsr. done. }
  destruct (svc_spin kernel_dispatch code addr c k2 Ed) as (c' & E & Hk).
  exists c', u. rewrite Hk. change (k_sched k2) with s2. split_and!; [done|done| |exact Hu| |].
  - unfold pendsv_taken. by rewrite (bool_decide_false (ipsr _ = 0)), andb_false_r by (by rewrite Hi).
  - change (state u) with (state (unlink u)). by rewrite <- Eu.
  - rewrite (stands_for_current _ _ Hs2).
    by destruct (eff_yield_tasks (eff_retire (a_current_task a1) TASK_STATE_DELETED a1)) as (_ & _ & _ & ->).
Qed.
End calls.

(** ** Instances

    [HIGH] of the example system runs and executes the instruction at
    0x60002000. *)
Definition example_user : core := example_core example_boot ∅ TOP_HIGH.
Definition example_deleter : core := example_user <| r0 := NULL |>.
Definition example_pool (i : Z) : ptr := 0x20210000 + 0x100 * i.
Definition example_stacks (i : Z) : ptr := 0x20220000 + 1024 * i.

Lemma example_user_current : ∃ t, tcbs (sched_of example_user) !! current_task (sched_of example_user) = Some t ∧
  state t ≠ TASK_STATE_BLOCKED.
Proof. eexists. split; [vm_compute; reflexivity|discriminate]. Qed.

Lemma syscall_task_delay_blocks_witness : ∃ c' t',
  syscall_task_delay (kernel_dispatch example_pool example_stacks 0x60004001 (λ _, 0) (λ _, []) fault)
    (λ _, SVC_TASK_DELAY) 0x60002000 5 example_user = Ret KERNEL_OK c' ∧
  tcbs (sched_of c') !! HIGH = Some t' ∧ state t' = TASK_STATE_BLOCKED ∧ pendsv_taken (cpu (sched_of c')) = true.
Proof.
  destruct example_user_current as (t & Ht & Hb).
  destruct (syscall_task_delay_blocks example_pool example_stacks 0x60004001 (λ _, 0) (λ _, []) fault
    (λ _, SVC_TASK_DELAY) 0x60002000 5 example_user example_boot_abs t example_boot_stands eq_refl
    ltac:(discriminate) ltac:(vm_compute; reflexivity) Ht Hb) as (c' & t' & E & _ & _ & Ht' & Hs & _ & _ & Hp).
  exists c', t'. split; [exact E|]. split; [exact Ht'|]. split; [exact Hs|exact Hp].
Defined.

Lemma svc_delete_self_hangs_witness : ∃ c',
  svc (kernel_dispatch example_pool example_stacks 0x60004001 (λ _, 0) (λ _, []) fault)
    (λ _, SVC_TASK_DELETE) 0x60002000 example_deleter = Spin c' ∧
  pendsv_taken (cpu (sched_of c')) = false.
Proof.
  destruct example_user_current as (t & Ht & Hb).
  destruct (svc_delete_self_hangs example_pool example_stacks 0x60004001 (λ _, 0) (λ _, []) fault
    (λ _, SVC_TASK_DELETE) 0x60002000 example_deleter example_boot_abs t example_boot_stands
    eq_refl eq_refl Ht Hb) as (c' & t' & E & _ & Hp & _).
  exists c'. split; [exact E|exact Hp].
Defined.
